(** * Sabacc con i Tarocchi: a shallow embedding of the game engine

    The development follows [sabacc_game.py] and [sabacc_trionfi.py]
    (with the deterministic helper [choose_wheel_of_fortune_cards] of
    [sabacc_ai.py]).  Python objects become records, the list of players
    becomes a list indexed by seat, exceptions become the [Raise] case of
    a result type, and every source of input or randomness (prompts,
    [random], the probabilistic AI helpers) becomes an explicit argument. *)

From Stdlib Require Import ZArith Lia Ascii String DecimalString.
From stdpp Require Import base tactics option list strings relations.

Open Scope string_scope.
Open Scope Z_scope.
Open Scope list_scope.

(** ** Python values and exceptions *)

Inductive exn : Type :=
| ValueError      (* int() on a non-number, list.remove of a missing item, bad index *)
| RuntimeError    (* ensure_cards_available with nothing left to reshuffle *)
| NoneCard        (* not an exception of the source: Deck.draw() gave None and
                     the source stored it as a card and went on; see draw_card *)
| IndexError       (* subscript out of range *)
| ZeroDivisionError (* modulo by an empty table *)
| NoAnswer.        (* a prompt that is never answered validly *)

Inductive result (A : Type) : Type :=
| Ok (a : A)
| Raise (e : exn).
Arguments Ok {A} a.
Arguments Raise {A} e.

Definition bind {A B : Type} (r : result A) (k : A -> result B) : result B :=
  match r with
  | Ok a => k a
  | Raise e => Raise e
  end.

Notation "'let*' x ':=' r 'in' k" := (bind r (fun x => k))
  (at level 10, x pattern, r at level 100, k at level 200).

Definition is_ok {A : Type} (r : result A) : bool :=
  match r with Ok _ => true | Raise _ => false end.

(** [int(s)] for a string of ASCII characters, short of the limit on the
    number of digits: surrounding white space, an optional sign, then
    decimal digits in which single underscores may separate digits.
    [None] stands for [ValueError].  The white space that [int] skips in
    such a string is the tab, the line feed, the vertical tab, the form
    feed, the carriage return and the space (the characters 28 to 31, which
    [str.strip] would remove, make [int] raise). *)

Definition is_py_space (c : ascii) : bool :=
  let n := nat_of_ascii c in
  (Nat.leb 9 n && Nat.leb n 13) || Nat.eqb n 32.

Definition digit_of (c : ascii) : option Z :=
  let n := nat_of_ascii c in
  if Nat.leb 48 n && Nat.leb n 57 then Some (Z.of_nat (n - 48)) else None.

Fixpoint parse_digits (s : list ascii) (acc : Z) (prev_digit : bool) : option Z :=
  match s with
  | [] => if prev_digit then Some acc else None
  | c :: s' =>
      match digit_of c with
      | Some d => parse_digits s' (10 * acc + d) true
      | None =>
          if Ascii.eqb c "_"%char && prev_digit
          then parse_digits s' acc false
          else None
      end
  end.

Fixpoint drop_spaces (s : list ascii) : list ascii :=
  match s with
  | c :: s' => if is_py_space c then drop_spaces s' else s
  | [] => []
  end.

Definition py_strip (s : list ascii) : list ascii :=
  rev (drop_spaces (rev (drop_spaces s))).

Definition py_int (s : string) : option Z :=
  match py_strip (list_ascii_of_string s) with
  | c :: s' =>
      if Ascii.eqb c "-"%char then Z.opp <$> parse_digits s' 0 false
      else if Ascii.eqb c "+"%char then parse_digits s' 0 false
      else parse_digits (c :: s') 0 false
  | [] => None
  end.

Definition int_of (s : string) : result Z :=
  match py_int s with
  | Some n => Ok n
  | None => Raise ValueError
  end.

(** [x in (a, b, ...)] on strings. *)
Definition str_in (s : string) (l : list string) : bool :=
  existsb (String.eqb s) l.

(** ** Cards *)

(** [Card = Tuple[str, str]], rank first, suit second. *)
Definition Card : Type := string * string.

Definition card_eqb (a b : Card) : bool :=
  String.eqb a.1 b.1 && String.eqb a.2 b.2.

(** [card in hand] *)
Definition card_in (c : Card) (l : list Card) : bool := existsb (card_eqb c) l.

(** [hand.remove(card)]: drops the first equal element, [ValueError] when
    there is none. *)
Fixpoint list_remove (c : Card) (l : list Card) : result (list Card) :=
  match l with
  | [] => Raise ValueError
  | x :: l' =>
      if card_eqb x c then Ok l'
      else let* l'' := list_remove c l' in Ok (x :: l'')
  end.

(** [Deck._generate_deck]: 22 trionfi, then 14 cards for each of W, C, S, D. *)
Definition trionfi_ranks : list string :=
  ["0";"1";"2";"3";"4";"5";"6";"7";"8";"9";"10";"11";"12";"13";"14";"15";
   "16";"17";"18";"19";"20";"21"].

Definition suit_ranks : list string :=
  ["1";"2";"3";"4";"5";"6";"7";"8";"9";"10";"P";"N";"Q";"K"].

Definition _generate_deck : list Card :=
  map (fun r => (r, "T")) trionfi_ranks
  ++ concat (map (fun s => map (fun r => (r, s)) suit_ranks) ["W";"C";"S";"D"]).

(** ** Scoring: [calculate_hand_value] *)

Definition negative_trionfi : list string :=
  ["2";"3";"8";"11";"13";"14";"15";"16";"17"].

(** One iteration of the first loop, on [(value, num_aces, has_lovers)]. *)
Definition scan_card (c : Card) (st : Z * nat * bool) : result (Z * nat * bool) :=
  let '(value, num_aces, has_lovers) := st in
  let '(rank, suit) := c in
  if String.eqb suit "T" then
    if String.eqb rank "6" then Ok (value, num_aces, true)
    else if str_in rank negative_trionfi then
      let* n := int_of rank in Ok (value - n, num_aces, has_lovers)
    else Ok (value, num_aces, has_lovers)
  else
    if String.eqb rank "1" then Ok (value + 1, S num_aces, has_lovers)
    else if String.eqb rank "K" then Ok (value + 14, num_aces, has_lovers)
    else if String.eqb rank "Q" then Ok (value + 13, num_aces, has_lovers)
    else if String.eqb rank "N" then Ok (value + 12, num_aces, has_lovers)
    else if String.eqb rank "P" then Ok (value + 11, num_aces, has_lovers)
    else let* n := int_of rank in Ok (value + n, num_aces, has_lovers).

Fixpoint scan_hand (hand : list Card) (st : Z * nat * bool) : result (Z * nat * bool) :=
  match hand with
  | [] => Ok st
  | c :: hand' => let* st' := scan_card c st in scan_hand hand' st'
  end.

Definition distance_from_23 (value : Z) : Z := Z.abs (Z.abs value - 23).

(** Body of [for _ in range(num_aces)]. *)
Definition ace_step (value : Z) : Z :=
  let current_distance := Z.abs (Z.abs value - 23) in
  let new_value := value + 10 in
  let new_distance := Z.abs (Z.abs new_value - 23) in
  if (new_distance <? current_distance) && (Z.abs new_value <=? 23)
  then value + 10
  else value.

Fixpoint optimize_aces (num_aces : nat) (value : Z) : Z :=
  match num_aces with
  | O => value
  | S n => optimize_aces n (ace_step value)
  end.

(** A distance that may be [float('inf')]. *)
Inductive dist : Type :=
| Fin (d : Z)
| Inf.

Definition dist_ltb (a b : dist) : bool :=
  match a, b with
  | Fin x, Fin y => x <? y
  | Fin _, Inf => true
  | Inf, _ => false
  end.

(** The [if has_lovers:] block. *)
Definition resolve_lovers (value : Z) : Z :=
  let distance_plus :=
    if Z.abs (value + 6) <=? 23 then Fin (Z.abs (Z.abs (value + 6) - 23)) else Inf in
  let distance_minus :=
    if Z.abs (value - 6) <=? 23 then Fin (Z.abs (Z.abs (value - 6) - 23)) else Inf in
  if dist_ltb distance_plus distance_minus then value + 6 else value - 6.

Definition calculate_hand_value (hand : list Card) : result (Z * bool) :=
  let* (value, num_aces, has_lovers) := scan_hand hand (0, O, false) in
  let value := optimize_aces num_aces value in
  let value := if has_lovers then resolve_lovers value else value in
  let is_busted := 23 <? Z.abs value in
  Ok (value, is_busted).

(** ** [get_highest_card_in_hand] *)

Definition high_negative_trionfi : list string :=
  ["2";"3";"6";"8";"11";"13";"14";"15";"16";"17"].

Definition high_card_value (c : Card) : result Z :=
  let '(rank, suit) := c in
  if String.eqb suit "T" then
    if str_in rank high_negative_trionfi
    then let* n := int_of rank in Ok (- n)
    else Ok 0
  else
    if String.eqb rank "1" then Ok 11
    else if String.eqb rank "K" then Ok 14
    else if String.eqb rank "Q" then Ok 13
    else if String.eqb rank "N" then Ok 12
    else if String.eqb rank "P" then Ok 11
    else int_of rank.

Fixpoint highest_card_from (hand : list Card) (highest_value : Z) (highest_suit : string)
  : result (Z * string) :=
  match hand with
  | [] => Ok (highest_value, highest_suit)
  | c :: hand' =>
      let* card_value := high_card_value c in
      if highest_value <? card_value
      then highest_card_from hand' card_value c.2
      else highest_card_from hand' highest_value highest_suit
  end.

Definition get_highest_card_in_hand (hand : list Card) : result (Z * string) :=
  highest_card_from hand (-999) "".

(** ** Players and the table *)

Module Player.
Record t : Type := mk {
  name : string;
  credits : Z;
  is_human : bool;
  hand : list Card;
  current_bet : Z;
  has_folded : bool;
  has_drawn : bool;
  has_acted : bool;
  is_hermit : bool   (* [getattr(p, 'is_hermit', False)] *)
}.

Definition set_credits (v : Z) (p : t) : t :=
  mk (name p) v (is_human p) (hand p) (current_bet p) (has_folded p)
     (has_drawn p) (has_acted p) (is_hermit p).
Definition set_hand (v : list Card) (p : t) : t :=
  mk (name p) (credits p) (is_human p) v (current_bet p) (has_folded p)
     (has_drawn p) (has_acted p) (is_hermit p).
Definition set_current_bet (v : Z) (p : t) : t :=
  mk (name p) (credits p) (is_human p) (hand p) v (has_folded p)
     (has_drawn p) (has_acted p) (is_hermit p).
Definition set_has_folded (v : bool) (p : t) : t :=
  mk (name p) (credits p) (is_human p) (hand p) (current_bet p) v
     (has_drawn p) (has_acted p) (is_hermit p).
Definition set_has_drawn (v : bool) (p : t) : t :=
  mk (name p) (credits p) (is_human p) (hand p) (current_bet p) (has_folded p)
     v (has_acted p) (is_hermit p).
Definition set_has_acted (v : bool) (p : t) : t :=
  mk (name p) (credits p) (is_human p) (hand p) (current_bet p) (has_folded p)
     (has_drawn p) v (is_hermit p).
Definition set_is_hermit (v : bool) (p : t) : t :=
  mk (name p) (credits p) (is_human p) (hand p) (current_bet p) (has_folded p)
     (has_drawn p) (has_acted p) v.

(** [Player.__init__] *)
Definition init (name : string) (credits : Z) (is_human : bool) : t :=
  mk name credits is_human [] 0 false false false false.

(** [Player.reset_for_new_hand] *)
Definition reset_for_new_hand (p : t) : t :=
  mk (name p) (credits p) (is_human p) [] 0 false false false false.
End Player.

(** What [determine_winner] leaves in [tiebreaker_info]: the dictionary
    with ['type': 'high_card'] or ['type': 'suit'], the tied names and
    values, and the winner's high card value or suit name. *)
Inductive TiebreakerInfo : Type :=
| TieHighCard (tied_players : list string) (tied_values : list Z) (winner_high_card : Z)
| TieSuit (tied_players : list string) (tied_values : list Z) (winner_suit : string).

Module GameState.
Record t : Type := mk {
  players : list Player.t;
  draw_pile : list Card;          (* [draw_pile.cards], top first *)
  discard_pile : list Card;       (* bottom first *)
  community_cards : list Card;
  removed_pile : list Card;
  pot : Z;
  current_bet : Z;
  min_bet : Z;
  dealer_index : nat;
  hand_number : Z;
  hands_face_up : bool;
  judgment_played : bool;
  tiebreaker_info : option TiebreakerInfo
}.

Definition set_players (v : list Player.t) (g : t) : t :=
  mk v (draw_pile g) (discard_pile g) (community_cards g) (removed_pile g)
     (pot g) (current_bet g) (min_bet g) (dealer_index g) (hand_number g)
     (hands_face_up g) (judgment_played g) (tiebreaker_info g).
Definition set_draw_pile (v : list Card) (g : t) : t :=
  mk (players g) v (discard_pile g) (community_cards g) (removed_pile g)
     (pot g) (current_bet g) (min_bet g) (dealer_index g) (hand_number g)
     (hands_face_up g) (judgment_played g) (tiebreaker_info g).
Definition set_discard_pile (v : list Card) (g : t) : t :=
  mk (players g) (draw_pile g) v (community_cards g) (removed_pile g)
     (pot g) (current_bet g) (min_bet g) (dealer_index g) (hand_number g)
     (hands_face_up g) (judgment_played g) (tiebreaker_info g).
Definition set_community_cards (v : list Card) (g : t) : t :=
  mk (players g) (draw_pile g) (discard_pile g) v (removed_pile g)
     (pot g) (current_bet g) (min_bet g) (dealer_index g) (hand_number g)
     (hands_face_up g) (judgment_played g) (tiebreaker_info g).
Definition set_removed_pile (v : list Card) (g : t) : t :=
  mk (players g) (draw_pile g) (discard_pile g) (community_cards g) v
     (pot g) (current_bet g) (min_bet g) (dealer_index g) (hand_number g)
     (hands_face_up g) (judgment_played g) (tiebreaker_info g).
Definition set_pot (v : Z) (g : t) : t :=
  mk (players g) (draw_pile g) (discard_pile g) (community_cards g) (removed_pile g)
     v (current_bet g) (min_bet g) (dealer_index g) (hand_number g)
     (hands_face_up g) (judgment_played g) (tiebreaker_info g).
Definition set_current_bet (v : Z) (g : t) : t :=
  mk (players g) (draw_pile g) (discard_pile g) (community_cards g) (removed_pile g)
     (pot g) v (min_bet g) (dealer_index g) (hand_number g)
     (hands_face_up g) (judgment_played g) (tiebreaker_info g).
Definition set_dealer_index (v : nat) (g : t) : t :=
  mk (players g) (draw_pile g) (discard_pile g) (community_cards g) (removed_pile g)
     (pot g) (current_bet g) (min_bet g) v (hand_number g)
     (hands_face_up g) (judgment_played g) (tiebreaker_info g).
Definition set_hands_face_up (v : bool) (g : t) : t :=
  mk (players g) (draw_pile g) (discard_pile g) (community_cards g) (removed_pile g)
     (pot g) (current_bet g) (min_bet g) (dealer_index g) (hand_number g)
     v (judgment_played g) (tiebreaker_info g).
Definition set_judgment_played (v : bool) (g : t) : t :=
  mk (players g) (draw_pile g) (discard_pile g) (community_cards g) (removed_pile g)
     (pot g) (current_bet g) (min_bet g) (dealer_index g) (hand_number g)
     (hands_face_up g) v (tiebreaker_info g).
Definition set_tiebreaker_info (v : option TiebreakerInfo) (g : t) : t :=
  mk (players g) (draw_pile g) (discard_pile g) (community_cards g) (removed_pile g)
     (pot g) (current_bet g) (min_bet g) (dealer_index g) (hand_number g)
     (hands_face_up g) (judgment_played g) v.

(** [GameState.__init__]: seat 0 is the human. *)
Definition init (player_names : list string) (starting_credits min_bet : Z) : t :=
  mk (imap (fun i n => Player.init n starting_credits (Nat.eqb i 0)) player_names)
     _generate_deck [] [] [] 0 0 min_bet 0%nat 0 false false None.
End GameState.

(** A seat is the position of a player object in [game.players]; a method
    that takes a [Player] takes its seat here, and [p != player] compares
    seats.  [with_player] is the access [players[seat]]. *)
Definition update_player (seat : nat) (f : Player.t -> Player.t) (g : GameState.t)
  : GameState.t :=
  GameState.set_players (alter f seat (GameState.players g)) g.

Definition with_player {A : Type} (g : GameState.t) (seat : nat)
    (k : Player.t -> result A) : result A :=
  match GameState.players g !! seat with
  | Some p => k p
  | None => Raise IndexError
  end.

(** ** Piles *)

Definition len {A : Type} (l : list A) : Z := Z.of_nat (length l).

Definition cards_remaining_in_draw_pile (g : GameState.t) : Z :=
  len (GameState.draw_pile g).
Definition cards_in_discard_pile (g : GameState.t) : Z :=
  len (GameState.discard_pile g).
Definition cards_in_removed_pile (g : GameState.t) : Z :=
  len (GameState.removed_pile g).

Definition total_cards_accounted_for (g : GameState.t) : Z :=
  let total := 0 in
  let total := total + cards_remaining_in_draw_pile g in
  let total := total + cards_in_discard_pile g in
  let total := total + len (GameState.community_cards g) in
  let total :=
    fold_left (fun total player => total + len (Player.hand player))
              (GameState.players g) total in
  let total := total + cards_in_removed_pile g in
  total.

(** [random.shuffle] is the argument [shuffle] wherever a pile is shuffled. *)
Definition Shuffle : Type := list Card -> list Card.

Definition reshuffle_discard_into_draw (shuffle : Shuffle) (g : GameState.t)
  : GameState.t :=
  let g := GameState.set_draw_pile (GameState.draw_pile g ++ GameState.discard_pile g) g in
  let g := GameState.set_discard_pile [] g in
  GameState.set_draw_pile (shuffle (GameState.draw_pile g)) g.

Definition ensure_cards_available (shuffle : Shuffle) (num_needed : Z) (g : GameState.t)
  : result GameState.t :=
  if cards_remaining_in_draw_pile g <? num_needed then
    if 0 <? cards_in_discard_pile g
    then Ok (reshuffle_discard_into_draw shuffle g)
    else Raise RuntimeError
  else Ok g.

(** [Deck.draw] pops the top card and returns [None] on an empty pile: that
    is [draw].  Its callers store the returned value as a card without
    looking at it, and on an empty pile the source raises nothing: it stores
    [None] and goes on.  Hands and piles are lists of [Card] here, in which
    that [None] has no place, so [draw_card], the draw as the callers use
    it, ends the run at that point with [NoneCard].  [Raise NoneCard] is
    therefore never a Python exception: it marks a run in which the source
    went on with a [None] among its cards, and about the rest of such a run
    nothing is said here.  A result [Ok] is a run in which every draw found a
    card; [draws_no_none] below says of a run that it is not cut short in
    this way.  A draw that follows [ensure_cards_available(1)] always finds a
    card; those that follow [ensure_cards_available] of 2 or 4 ([deal_turn],
    [deal_river], [wheel_of_fortune_effect]) need not. *)
Definition draw (g : GameState.t) : option Card * GameState.t :=
  match GameState.draw_pile g with
  | c :: cards => (Some c, GameState.set_draw_pile cards g)
  | [] => (None, g)
  end.

Definition draw_card (g : GameState.t) : result (Card * GameState.t) :=
  match draw g with
  | (Some c, g') => Ok (c, g')
  | (None, _) => Raise NoneCard
  end.

Fixpoint draw_cards (n : nat) (g : GameState.t) : result (list Card * GameState.t) :=
  match n with
  | O => Ok ([], g)
  | S n' =>
      let* (c, g) := draw_card g in
      let* (cs, g) := draw_cards n' g in
      Ok (c :: cs, g)
  end.

Definition hand_append (seat : nat) (cs : list Card) (g : GameState.t) : GameState.t :=
  update_player seat (fun p => Player.set_hand (Player.hand p ++ cs) p) g.

Definition discard_append (cs : list Card) (g : GameState.t) : GameState.t :=
  GameState.set_discard_pile (GameState.discard_pile g ++ cs) g.

Definition community_append (cs : list Card) (g : GameState.t) : GameState.t :=
  GameState.set_community_cards (GameState.community_cards g ++ cs) g.

Definition removed_append (cs : list Card) (g : GameState.t) : GameState.t :=
  GameState.set_removed_pile (GameState.removed_pile g ++ cs) g.

(** [start_new_hand] *)
Definition start_new_hand (shuffle : Shuffle) (g : GameState.t) : GameState.t :=
  GameState.mk
    (map Player.reset_for_new_hand (GameState.players g))
    (shuffle _generate_deck) [] [] []
    0 0 (GameState.min_bet g) (GameState.dealer_index g)
    (GameState.hand_number g + 1) false false (GameState.tiebreaker_info g).

(** [deal_initial_cards]: two cards to each seat in turn, three community
    cards, one burnt card. *)
Fixpoint deal_two_each (seats : list nat) (g : GameState.t) : result GameState.t :=
  match seats with
  | [] => Ok g
  | seat :: seats' =>
      let* (c1, g) := draw_card g in
      let g := hand_append seat [c1] g in
      let* (c2, g) := draw_card g in
      let g := hand_append seat [c2] g in
      deal_two_each seats' g
  end.

Definition seats_of (g : GameState.t) : list nat :=
  seq 0 (length (GameState.players g)).

Definition deal_initial_cards (shuffle : Shuffle) (g : GameState.t) : result GameState.t :=
  let cards_needed := (len (GameState.players g) * 2) + 3 + 1 in
  let* g := ensure_cards_available shuffle cards_needed g in
  let* g := deal_two_each (seats_of g) g in
  let* (c1, g) := draw_card g in
  let g := community_append [c1] g in
  let* (c2, g) := draw_card g in
  let g := community_append [c2] g in
  let* (c3, g) := draw_card g in
  let g := community_append [c3] g in
  let* (burned, g) := draw_card g in
  Ok (discard_append [burned] g).

(** [deal_turn] and [deal_river] have the same body. *)
Definition deal_turn (shuffle : Shuffle) (g : GameState.t) : result GameState.t :=
  let* g := ensure_cards_available shuffle 2 g in
  let* (burned, g) := draw_card g in
  let g := discard_append [burned] g in
  let* (card, g) := draw_card g in
  Ok (community_append [card] g).

Definition deal_river (shuffle : Shuffle) (g : GameState.t) : result GameState.t :=
  let* g := ensure_cards_available shuffle 2 g in
  let* (burned, g) := draw_card g in
  let g := discard_append [burned] g in
  let* (card, g) := draw_card g in
  Ok (community_append [card] g).

Definition reset_draw_flags (g : GameState.t) : GameState.t :=
  GameState.set_players (map (Player.set_has_drawn false) (GameState.players g)) g.

Definition reset_for_betting_round (g : GameState.t) : GameState.t :=
  let g := GameState.set_players
    (map (fun p => Player.set_current_bet 0
                     (Player.set_has_acted false (Player.set_has_drawn false p)))
         (GameState.players g)) g in
  GameState.set_current_bet 0 g.

Definition draw_from_draw_pile (shuffle : Shuffle) (seat : nat) (g : GameState.t)
  : result (Card * GameState.t) :=
  let* g := ensure_cards_available shuffle 1 g in
  let* (card, g) := draw_card g in
  let g := hand_append seat [card] g in
  let g := update_player seat (Player.set_has_drawn true) g in
  Ok (card, g).

Definition draw_from_discard_pile (seat : nat) (card_index : Z) (g : GameState.t)
  : result (list Card * GameState.t) :=
  match GameState.discard_pile g with
  | [] => Raise ValueError
  | _ =>
      if (card_index <? 0) || (len (GameState.discard_pile g) <=? card_index)
      then Raise ValueError
      else
        let cards_taken := drop (Z.to_nat card_index) (GameState.discard_pile g) in
        let g := GameState.set_discard_pile
                   (take (Z.to_nat card_index) (GameState.discard_pile g)) g in
        let g := hand_append seat cards_taken g in
        let g := update_player seat (Player.set_has_drawn true) g in
        Ok (cards_taken, g)
  end.

(** [hand.pop(i)] for an index already checked to lie in the hand. *)
Definition pop_at {A : Type} (i : nat) (l : list A) : list A := delete i l.

Definition swap_with_community (seat : nat) (hand_card_index community_card_index : Z)
    (g : GameState.t) : result (Card * Card * GameState.t) :=
  with_player g seat (fun player =>
    if (hand_card_index <? 0) || (len (Player.hand player) <=? hand_card_index)
    then Raise ValueError
    else if (community_card_index <? 0)
            || (len (GameState.community_cards g) <=? community_card_index)
    then Raise ValueError
    else
      match Player.hand player !! Z.to_nat hand_card_index,
            GameState.community_cards g !! Z.to_nat community_card_index with
      | Some card_from_hand, Some card_from_community =>
          let g := update_player seat
            (fun p => Player.set_hand (pop_at (Z.to_nat hand_card_index) (Player.hand p)) p) g in
          let g := GameState.set_community_cards
            (<[Z.to_nat community_card_index := card_from_hand]>
               (GameState.community_cards g)) g in
          let g := hand_append seat [card_from_community] g in
          let g := update_player seat (Player.set_has_drawn true) g in
          Ok (card_from_hand, card_from_community, g)
      | _, _ => Raise IndexError
      end).

Definition discard_card (seat : nat) (card_index : Z) (g : GameState.t)
  : result (Card * GameState.t) :=
  with_player g seat (fun player =>
    if (card_index <? 0) || (len (Player.hand player) <=? card_index)
    then Raise ValueError
    else
      match Player.hand player !! Z.to_nat card_index with
      | Some card =>
          let g := update_player seat
            (fun p => Player.set_hand (pop_at (Z.to_nat card_index) (Player.hand p)) p) g in
          Ok (card, discard_append [card] g)
      | None => Raise IndexError
      end).

(** ** Betting *)

(** [collect_blinds].  The big blind seat is read after the small blind was
    posted, as in the source (the two seats coincide at a one-seat table). *)
Definition collect_blinds (g : GameState.t) : result GameState.t :=
  let num_players := length (GameState.players g) in
  if Nat.eqb num_players 0 then Raise ZeroDivisionError else
  let sb_index := ((GameState.dealer_index g + 1) mod num_players)%nat in
  let sb_amount := GameState.min_bet g / 2 in
  let* g := with_player g sb_index (fun sb_player =>
    if sb_amount <=? Player.credits sb_player then
      let g := update_player sb_index
        (fun p => Player.set_current_bet sb_amount
                    (Player.set_credits (Player.credits p - sb_amount) p)) g in
      Ok (GameState.set_pot (GameState.pot g + sb_amount) g)
    else
      let g := update_player sb_index
        (fun p => Player.set_current_bet (Player.credits p) p) g in
      let g := GameState.set_pot (GameState.pot g + Player.credits sb_player) g in
      Ok (update_player sb_index (Player.set_credits 0) g)) in
  let bb_index := ((GameState.dealer_index g + 2) mod num_players)%nat in
  let bb_amount := GameState.min_bet g in
  with_player g bb_index (fun bb_player =>
    if bb_amount <=? Player.credits bb_player then
      let g := update_player bb_index
        (fun p => Player.set_current_bet bb_amount
                    (Player.set_credits (Player.credits p - bb_amount) p)) g in
      let g := GameState.set_pot (GameState.pot g + bb_amount) g in
      Ok (GameState.set_current_bet bb_amount g)
    else
      let g := update_player bb_index
        (fun p => Player.set_current_bet (Player.credits p) p) g in
      let g := GameState.set_pot (GameState.pot g + Player.credits bb_player) g in
      let g := GameState.set_current_bet (Player.credits bb_player) g in
      Ok (update_player bb_index (Player.set_credits 0) g)).

Definition player_fold (seat : nat) (g : GameState.t) : GameState.t :=
  update_player seat
    (fun p => Player.set_has_acted true (Player.set_has_folded true p)) g.

Definition player_call (seat : nat) (g : GameState.t) : result (Z * GameState.t) :=
  with_player g seat (fun player =>
    let amount_to_call := GameState.current_bet g - Player.current_bet player in
    if amount_to_call <=? 0 then
      Ok (0, update_player seat (Player.set_has_acted true) g)
    else
      let amount_to_call :=
        if Player.credits player <? amount_to_call
        then Player.credits player
        else amount_to_call in
      let g := update_player seat
        (fun p => Player.set_has_acted true
                    (Player.set_current_bet (Player.current_bet p + amount_to_call)
                       (Player.set_credits (Player.credits p - amount_to_call) p))) g in
      Ok (amount_to_call, GameState.set_pot (GameState.pot g + amount_to_call) g)).

(** The loop [for p in self.players: if p != player and not p.has_folded
    and p.credits > 0: p.has_acted = False]. *)
Definition reopen_action (seat : nat) (players : list Player.t) : list Player.t :=
  imap (fun j p =>
          if negb (Nat.eqb j seat) && negb (Player.has_folded p) && (0 <? Player.credits p)
          then Player.set_has_acted false p
          else p)
       players.

Definition player_raise (seat : nat) (raise_amount : Z) (g : GameState.t)
  : result (Z * GameState.t) :=
  with_player g seat (fun player =>
    let amount_to_call := GameState.current_bet g - Player.current_bet player in
    let total_bet := amount_to_call + raise_amount in
    let total_bet :=
      if Player.credits player <? total_bet then Player.credits player else total_bet in
    let new_bet := Player.current_bet player + total_bet in
    let g := update_player seat
      (fun p => Player.set_current_bet new_bet
                  (Player.set_credits (Player.credits p - total_bet) p)) g in
    let g := GameState.set_pot (GameState.pot g + total_bet) g in
    let g := GameState.set_current_bet new_bet g in
    let g := GameState.set_players (reopen_action seat (GameState.players g)) g in
    let g := update_player seat (Player.set_has_acted true) g in
    Ok (total_bet, g)).

Definition get_active_players (g : GameState.t) : list Player.t :=
  List.filter (fun p => negb (Player.has_folded p)) (GameState.players g).

(** The [for player in active_players] loop of [is_betting_round_complete]. *)
Fixpoint all_acted_and_matched (active_players : list Player.t) (table_bet : Z) : bool :=
  match active_players with
  | [] => true
  | player :: rest =>
      if negb (Player.has_acted player) then false
      else if Player.credits player =? 0 then all_acted_and_matched rest table_bet
      else if Player.current_bet player <? table_bet then false
      else all_acted_and_matched rest table_bet
  end.

Definition is_betting_round_complete (g : GameState.t) : bool :=
  let active_players := get_active_players g in
  if (length active_players <=? 1)%nat then true
  else all_acted_and_matched active_players (GameState.current_bet g).

Definition advance_dealer (g : GameState.t) : result GameState.t :=
  let n := length (GameState.players g) in
  if Nat.eqb n 0 then Raise ZeroDivisionError
  else Ok (GameState.set_dealer_index ((GameState.dealer_index g + 1) mod n)%nat g).

Definition award_pot (winner : nat) (g : GameState.t) : GameState.t :=
  let g := update_player winner
    (fun p => Player.set_credits (Player.credits p + GameState.pot g) p) g in
  GameState.set_pot 0 g.

(** ** The answers the engine asks for

    Every prompt ([input()]) and every call into the probabilistic part of
    [sabacc_ai] or into [random] is a field of [Env].  A field receives the
    state at the moment of the call and the seat concerned.  Where the
    source asks a human seat by prompt and an AI seat by a helper for the
    same kind of answer, one field stands for both; a prompt that repeats
    until the answer is valid is represented by the answer that ends it,
    and an answer that could not end it stops the run with [NoAnswer]. *)

(** The action dictionary read by [execute_player_turn]; an absent key is
    [None]. *)
Record Action : Type := mkAction {
  bet_action : option string;
  raise_amount : option Z;
  play_trionfi : option Card;
  draw_action : option string;
  draw_index : option Z;
  hand_card_index : option Z;
  community_card_index : option Z;
  ask_discard_after_draw : bool;
  discard_index : option Z
}.

Definition empty_action : Action :=
  mkAction None None None None None None None false None.

Definition call_action : Action :=
  mkAction (Some "call") None None None None None None false None.

(** The human answer to the Wheel of Fortune prompt. *)
Inductive WheelAnswer : Type :=
| KeepNone                     (* the word none *)
| KeepUnreadable               (* not a list of integers: everything is discarded *)
| KeepIndices (l : list Z).

Record Env : Type := mkEnv {
  shuffle : Shuffle;
  (* handle_devil_card: give it away? / to which of the eligible seats (position in the list) *)
  give_away_devil : GameState.t -> nat -> bool;
  devil_target : GameState.t -> nat -> list nat -> nat;
  (* check_for_hanged_man_interrupt: holder, acting seat, trionfi number *)
  play_hanged_man : GameState.t -> nat -> nat -> Z -> bool;
  (* execute_player_turn, step 2.5: None for no discard, Some idx otherwise *)
  discard_after_draw : GameState.t -> nat -> option Z;
  (* magician_effect: the four positions typed by a human seat, and the
     value of arrange_magician_cards for an AI seat *)
  magician_prompt : GameState.t -> nat -> list Card -> list nat;
  magician_order : GameState.t -> nat -> list Card -> list Card;
  (* emperor_effect: position of the target in the list of targets *)
  emperor_target : GameState.t -> nat -> list nat -> nat;
  (* emperor_effect, human target: the typed choice, and the two hand positions *)
  emperor_choice : GameState.t -> nat -> string;
  emperor_discards : GameState.t -> nat -> nat * nat;
  (* hierophant_effect / chariot_effect, human seat: answered y? *)
  hierophant_reveal : GameState.t -> nat -> bool;
  chariot_discard : GameState.t -> nat -> bool;
  (* chariot_effect: the position typed by a human, random.randint for an AI *)
  chariot_index : GameState.t -> nat -> Z;
  (* wheel_of_fortune_effect, human seat *)
  wheel_keep : GameState.t -> nat -> list Card -> WheelAnswer;
  (* devil_effect: position of the target in the list of targets *)
  devil_effect_target : GameState.t -> nat -> list nat -> nat
}.

(** ** Helpers of [sabacc_ai] that the effects call and that are
    deterministic *)

(** [abs(abs(value) - 23) if not busted else float('inf')] *)
Definition hand_distance (hand : list Card) : result dist :=
  let* (value, busted) := calculate_hand_value hand in
  Ok (if busted then Inf else Fin (Z.abs (Z.abs value - 23))).

(** [itertools.combinations(l, k)], in its order. *)
Fixpoint combinations {A : Type} (l : list A) (k : nat) : list (list A) :=
  match k, l with
  | O, _ => [[]]
  | S _, [] => []
  | S k', x :: l' => map (cons x) (combinations l' k') ++ combinations l' k
  end.

(** [choose_wheel_of_fortune_cards] *)
Fixpoint wheel_scan (current_hand : list Card) (candidates : list (list Card))
    (best_kept_cards : list Card) (best_distance : dist) : result (list Card * dist) :=
  match candidates with
  | [] => Ok (best_kept_cards, best_distance)
  | cards_to_keep :: rest =>
      let* test_distance := hand_distance (current_hand ++ cards_to_keep) in
      if dist_ltb test_distance best_distance
      then wheel_scan current_hand rest cards_to_keep test_distance
      else wheel_scan current_hand rest best_kept_cards best_distance
  end.

Definition choose_wheel_of_fortune_cards (current_hand drawn_cards : list Card)
  : result (list Card) :=
  let* current_distance := hand_distance current_hand in
  let* (best_kept_cards, _) :=
    wheel_scan current_hand
      (concat (map (combinations drawn_cards) (seq 0 (length drawn_cards + 1))))
      [] current_distance in
  Ok best_kept_cards.

(** [find_worst_card_to_discard] *)
Fixpoint worst_card_scan (hand : list Card) (indices : list nat)
    (best_discard_index : option nat) (best_distance_after_discard : dist)
  : result (option nat) :=
  match indices with
  | [] => Ok best_discard_index
  | i :: rest =>
      let test_hand := take i hand ++ drop (S i) hand in
      if Nat.eqb (length test_hand) 0
      then worst_card_scan hand rest best_discard_index best_distance_after_discard
      else
        let* test_distance := hand_distance test_hand in
        if dist_ltb test_distance best_distance_after_discard
        then worst_card_scan hand rest (Some i) test_distance
        else worst_card_scan hand rest best_discard_index best_distance_after_discard
  end.

Definition find_worst_card_to_discard (hand : list Card) : result (option nat) :=
  let* current_distance := hand_distance hand in
  worst_card_scan hand (seq 0 (length hand)) None current_distance.

(** ** Trionfi effects *)

Inductive Handler : Type :=
| magician_effect_h | emperor_effect_h | hierophant_effect_h | chariot_effect_h
| hermit_effect_h | wheel_of_fortune_effect_h | hanged_man_effect_h | devil_effect_h
| moon_effect_h | sun_effect_h | judgment_effect_h | universe_effect_h.

Module TrionfiEffect.
Record t : Type := mk {
  number : Z;
  name : string;
  description : string;
  effect : option Handler;
  can_play_anytime : bool;
  stays_in_hand : bool
}.
End TrionfiEffect.

(** [str(n)] *)
Definition str (n : Z) : string := NilZero.string_of_int (Z.to_int n).

Definition trionfi_card (number : Z) : Card := (str number, "T").

Definition hand_of (g : GameState.t) (seat : nat) : list Card :=
  match GameState.players g !! seat with
  | Some p => Player.hand p
  | None => []
  end.

Definition set_hand_of (seat : nat) (h : list Card) (g : GameState.t) : GameState.t :=
  update_player seat (Player.set_hand h) g.

(** [if card in player.hand: player.hand.remove(card); game.removed_pile.append(card)] *)
Definition move_to_removed (seat : nat) (card : Card) (g : GameState.t)
  : result GameState.t :=
  if card_in card (hand_of g seat) then
    let* h := list_remove card (hand_of g seat) in
    Ok (removed_append [card] (set_hand_of seat h g))
  else Ok g.

(** Seats other than [seat] that have not folded. *)
Definition other_active_seats (seat : nat) (g : GameState.t) : list nat :=
  List.filter
    (fun q => match GameState.players g !! q with
              | Some p => negb (Nat.eqb q seat) && negb (Player.has_folded p)
              | None => false
              end)
    (seats_of g).

(** The list [targets] of [emperor_effect], and the seats that the loops of
    [hierophant_effect] and [chariot_effect] do not skip. *)
Definition effect_targets (seat : nat) (g : GameState.t) : list nat :=
  List.filter
    (fun q => match GameState.players g !! q with
              | Some p => negb (Nat.eqb q seat) && negb (Player.has_folded p)
                          && negb (Player.is_hermit p)
              | None => false
              end)
    (seats_of g).

Definition nodup_nat (l : list nat) : bool :=
  Nat.eqb (length (remove_dups l)) (length l).

Definition magician_effect (env : Env) (seat : nat) (g : GameState.t)
  : result GameState.t :=
  if len (GameState.draw_pile g) <? 4 then Ok g
  else
    let top_4 := take 4 (GameState.draw_pile g) in
    let g := GameState.set_draw_pile (drop 4 (GameState.draw_pile g)) g in
    with_player g seat (fun player =>
      if Player.is_human player then
        let order := magician_prompt env g seat top_4 in
        if Nat.eqb (length order) 4 && forallb (fun x => Nat.ltb x 4) order
           && nodup_nat order
        then
          let reordered := omap (fun i => top_4 !! i) order in
          Ok (GameState.set_draw_pile (reordered ++ GameState.draw_pile g) g)
        else Raise NoAnswer
      else
        let arranged := magician_order env g seat top_4 in
        Ok (GameState.set_draw_pile (arranged ++ GameState.draw_pile g) g)).

Definition ante_up (target : nat) (g : GameState.t) : GameState.t :=
  let g := update_player target
    (fun p => Player.set_credits (Player.credits p - GameState.min_bet g) p) g in
  GameState.set_pot (GameState.pot g + GameState.min_bet g) g.

(** [for card in discarded: target.hand.remove(card); game.discard_pile.append(card)] *)
Fixpoint discard_listed (target : nat) (cards : list Card) (g : GameState.t)
  : result GameState.t :=
  match cards with
  | [] => Ok g
  | card :: rest =>
      let* h := list_remove card (hand_of g target) in
      discard_listed target rest (discard_append [card] (set_hand_of target h g))
  end.

Definition emperor_effect (env : Env) (seat : nat) (g : GameState.t) : result GameState.t :=
  let targets := effect_targets seat g in
  match targets with
  | [] => Ok g
  | _ =>
    match targets !! emperor_target env g seat targets with
    | None => Raise NoAnswer
    | Some target =>
      with_player g target (fun tp =>
        if Player.is_human tp then
          let choice := emperor_choice env g target in
          if String.eqb choice "1" then
            if GameState.min_bet g <=? Player.credits tp
            then Ok (ante_up target g)
            else Ok (player_fold target g)
          else if String.eqb choice "2" then
            if 2 <=? len (Player.hand tp) then
              let '(i1, i2) := emperor_discards env g target in
              match Player.hand tp !! i1, Player.hand tp !! i2 with
              | Some c1, Some c2 =>
                  if card_eqb c2 c1 then Raise NoAnswer
                  else discard_listed target [c1; c2] g
              | _, _ => Raise NoAnswer
              end
            else Ok (player_fold target g)
          else Ok (player_fold target g)
        else
          let* (value, busted) := calculate_hand_value (Player.hand tp) in
          if busted || (Z.abs value <? 10) then Ok (player_fold target g)
          else if (GameState.min_bet g <=? Player.credits tp) && (18 <=? Z.abs value)
          then Ok (ante_up target g)
          else if 2 <=? len (Player.hand tp) then
            (* random.sample(target.hand, 2): two different positions *)
            let '(i1, i2) := emperor_discards env g target in
            match Player.hand tp !! i1, Player.hand tp !! i2 with
            | Some c1, Some c2 =>
                if Nat.eqb i1 i2 then Raise NoAnswer
                else discard_listed target [c1; c2] g
            | _, _ => Raise NoAnswer
            end
          else Ok (player_fold target g))
    end
  end.

Definition skipped_by_effect (seat q : nat) (p : Player.t) : bool :=
  Nat.eqb q seat || Player.has_folded p || Player.is_hermit p.

Fixpoint hierophant_loop (env : Env) (seat : nat) (seats : list nat) (g : GameState.t)
  : result GameState.t :=
  match seats with
  | [] => Ok g
  | q :: rest =>
      let* g := with_player g q (fun p =>
        if skipped_by_effect seat q p then Ok g
        else if Player.is_human p then
          if hierophant_reveal env g q
          then let* _ := calculate_hand_value (Player.hand p) in Ok g
          else Ok (player_fold q g)
        else
          let* (value, busted) := calculate_hand_value (Player.hand p) in
          if busted || (Z.abs value <? 8) then Ok (player_fold q g) else Ok g) in
      hierophant_loop env seat rest g
  end.

Definition hierophant_effect (env : Env) (seat : nat) (g : GameState.t)
  : result GameState.t :=
  hierophant_loop env seat (seats_of g) g.

Definition pop_to_discard (q : nat) (i : nat) (g : GameState.t) : result GameState.t :=
  match hand_of g q !! i with
  | Some card =>
      Ok (discard_append [card] (set_hand_of q (pop_at i (hand_of g q)) g))
  | None => Raise IndexError
  end.

Definition index_in_hand (idx : Z) (hand : list Card) : bool :=
  (0 <=? idx) && (idx <? len hand).

Fixpoint chariot_loop (env : Env) (seat : nat) (seats : list nat) (g : GameState.t)
  : result GameState.t :=
  match seats with
  | [] => Ok g
  | q :: rest =>
      let* g := with_player g q (fun p =>
        if skipped_by_effect seat q p then Ok g
        else if Player.is_human p then
          if Nat.eqb (length (Player.hand p)) 0 then Ok (player_fold q g)
          else if chariot_discard env g q then
            let idx := chariot_index env g q in
            if index_in_hand idx (Player.hand p)
            then pop_to_discard q (Z.to_nat idx) g
            else Raise NoAnswer
          else Ok (player_fold q g)
        else
          if Nat.eqb (length (Player.hand p)) 0 then Ok (player_fold q g)
          else
            let* (value, busted) := calculate_hand_value (Player.hand p) in
            if busted || (Z.abs value <? 8) then Ok (player_fold q g)
            else
              let* worst_idx := find_worst_card_to_discard (Player.hand p) in
              match worst_idx with
              | Some i => pop_to_discard q i g
              | None =>
                  (* random.randint(0, len(p.hand) - 1) *)
                  let idx := chariot_index env g q in
                  if index_in_hand idx (Player.hand p)
                  then pop_to_discard q (Z.to_nat idx) g
                  else Raise NoAnswer
              end) in
      chariot_loop env seat rest g
  end.

Definition chariot_effect (env : Env) (seat : nat) (g : GameState.t) : result GameState.t :=
  chariot_loop env seat (seats_of g) g.

Definition hermit_effect (seat : nat) (g : GameState.t) : GameState.t :=
  update_player seat (Player.set_is_hermit true) g.

(** [[c for c in drawn_cards if c not in kept_cards]] *)
Definition not_kept (drawn_cards kept_cards : list Card) : list Card :=
  List.filter (fun c => negb (card_in c kept_cards)) drawn_cards.

(** [[drawn_cards[i] for i in keep_indices if 0 <= i < 4]] *)
Definition kept_by_indices (drawn_cards : list Card) (keep_indices : list Z) : list Card :=
  omap (fun i => if (0 <=? i) && (i <? 4) then drawn_cards !! Z.to_nat i else None)
       keep_indices.

Definition wheel_of_fortune_effect (env : Env) (seat : nat) (g : GameState.t)
  : result GameState.t :=
  let* g := ensure_cards_available (shuffle env) 4 g in
  let* (drawn_cards, g) := draw_cards 4 g in
  with_player g seat (fun player =>
    if Player.is_human player then
      let* h := list_remove ("10", "T") (Player.hand player) in
      let g := set_hand_of seat h g in
      let '(kept_cards, discarded_cards) :=
        match wheel_keep env g seat drawn_cards with
        | KeepIndices keep_indices =>
            let kept_cards := kept_by_indices drawn_cards keep_indices in
            (kept_cards, not_kept drawn_cards kept_cards)
        | KeepNone | KeepUnreadable => ([], drawn_cards)
        end in
      let g := hand_append seat kept_cards g in
      Ok (discard_append discarded_cards g)
    else
      let* h := list_remove ("10", "T") (Player.hand player) in
      let g := set_hand_of seat h g in
      let current_hand := h in
      let* kept_cards := choose_wheel_of_fortune_cards current_hand drawn_cards in
      let discarded_cards := not_kept drawn_cards kept_cards in
      let g := hand_append seat kept_cards g in
      Ok (discard_append discarded_cards g)).

Definition hanged_man_effect (seat : nat) (g : GameState.t) : GameState.t := g.

Definition devil_effect (env : Env) (seat : nat) (g : GameState.t) : result GameState.t :=
  let targets := other_active_seats seat g in
  match targets with
  | [] => Ok g
  | _ =>
    match targets !! devil_effect_target env g seat targets with
    | None => Raise NoAnswer
    | Some target =>
        let devil_card := ("15", "T") in
        if card_in devil_card (hand_of g seat) then
          let* h := list_remove devil_card (hand_of g seat) in
          Ok (hand_append target [devil_card] (set_hand_of seat h g))
        else Ok g
    end
  end.

Definition moon_effect (env : Env) (seat : nat) (g : GameState.t) : result GameState.t :=
  let* g := move_to_removed seat ("18", "T") g in
  let* g := ensure_cards_available (shuffle env) 1 g in
  let* (new_card, g) := draw_card g in
  Ok (community_append [new_card] g).

(** The loop of [sun_effect] only prints, but it evaluates every hand still in. *)
Fixpoint evaluate_hands (ps : list Player.t) : result unit :=
  match ps with
  | [] => Ok tt
  | p :: rest =>
      let* _ := (if Player.has_folded p then Ok (0, false)
                 else calculate_hand_value (Player.hand p)) in
      evaluate_hands rest
  end.

Definition sun_effect (seat : nat) (g : GameState.t) : result GameState.t :=
  let g := GameState.set_hands_face_up true g in
  let* _ := evaluate_hands (GameState.players g) in
  Ok g.

Definition judgment_effect (seat : nat) (g : GameState.t) : GameState.t :=
  GameState.set_judgment_played true g.

Definition universe_effect (seat : nat) (g : GameState.t) : result GameState.t :=
  move_to_removed seat ("21", "T") g.

(** ** The registry and [apply_effect] *)

Definition run_handler (env : Env) (h : Handler) (seat : nat) (g : GameState.t)
  : result GameState.t :=
  match h with
  | magician_effect_h => magician_effect env seat g
  | emperor_effect_h => emperor_effect env seat g
  | hierophant_effect_h => hierophant_effect env seat g
  | chariot_effect_h => chariot_effect env seat g
  | hermit_effect_h => Ok (hermit_effect seat g)
  | wheel_of_fortune_effect_h => wheel_of_fortune_effect env seat g
  | hanged_man_effect_h => Ok (hanged_man_effect seat g)
  | devil_effect_h => devil_effect env seat g
  | moon_effect_h => moon_effect env seat g
  | sun_effect_h => sun_effect seat g
  | judgment_effect_h => Ok (judgment_effect seat g)
  | universe_effect_h => universe_effect seat g
  end.

Definition TRIONFI_CARDS : list (Z * TrionfiEffect.t) :=
  let T := TrionfiEffect.mk in
  [ (0, T 0 "The Fool" "No special effect" None false false);
    (1, T 1 "The Magician" "Rearrange top 4 cards" (Some magician_effect_h) false false);
    (2, T 2 "The High Priestess" "-2 points" None false false);
    (3, T 3 "The Empress" "-3 points" None false false);
    (4, T 4 "The Emperor" "Target: ante, discard 2, or fold" (Some emperor_effect_h) false false);
    (5, T 5 "The Hierophant" "All reveal hand value or fold" (Some hierophant_effect_h) false false);
    (6, T 6 "The Lovers" "+6 or -6 points" None false false);
    (7, T 7 "The Chariot" "All discard 1 or fold" (Some chariot_effect_h) false false);
    (8, T 8 "Strength" "-8 points" None false false);
    (9, T 9 "The Hermit" "Advance to showdown, immune to effects" (Some hermit_effect_h) false true);
    (10, T 10 "Wheel of Fortune" "Draw 4, keep what you want" (Some wheel_of_fortune_effect_h) false false);
    (11, T 11 "Justice" "-11 points" None false false);
    (12, T 12 "The Hanged Man" "NOPE card - nullify previous effect" (Some hanged_man_effect_h) true false);
    (13, T 13 "Death" "-13 points" None false false);
    (14, T 14 "Temperance" "-14 points" None false false);
    (15, T 15 "The Devil" "-15 points, can give to another player" (Some devil_effect_h) false false);
    (16, T 16 "The Tower" "-16 points" None false false);
    (17, T 17 "The Star" "-17 points" None false false);
    (18, T 18 "The Moon" "Dealer adds community card" (Some moon_effect_h) false false);
    (19, T 19 "The Sun" "All hands face up" (Some sun_effect_h) false true);
    (20, T 20 "The Last Judgment" "Immediately advance to showdown" (Some judgment_effect_h) false false);
    (21, T 21 "The Universe" "Look at top 6 cards" (Some universe_effect_h) false false) ].

(** [TRIONFI_CARDS.get(number)] *)
Fixpoint dict_get {V : Type} (d : list (Z * V)) (k : Z) : option V :=
  match d with
  | [] => None
  | (k', v) :: d' => if k' =? k then Some v else dict_get d' k
  end.

Definition get_trionfi_effect (card : Card) : option TrionfiEffect.t :=
  let '(rank, suit) := card in
  if String.eqb suit "T" then
    match py_int rank with
    | Some number => dict_get TRIONFI_CARDS number
    | None => None
    end
  else None.

(** [TrionfiEffect.apply_effect] *)
Definition apply_effect (env : Env) (t : TrionfiEffect.t) (seat : nat) (g : GameState.t)
  : result GameState.t :=
  match TrionfiEffect.effect t with
  | Some h =>
      let* g := run_handler env h seat g in
      if negb (TrionfiEffect.stays_in_hand t)
      then move_to_removed seat (trionfi_card (TrionfiEffect.number t)) g
      else Ok g
  | None => Ok g
  end.

(** ** The Hanged Man and the Devil *)

Definition hanged_man_card : Card := ("12", "T").

(** The loop [for player in game.players] of
    [check_for_hanged_man_interrupt], over the seats still to visit. *)
Fixpoint hanged_man_scan (env : Env) (acting_player : nat) (number : Z)
    (seats : list nat) (g : GameState.t) : result (bool * GameState.t) :=
  match seats with
  | [] => Ok (false, g)
  | q :: rest =>
      with_player g q (fun player =>
        if Nat.eqb q acting_player || Player.has_folded player
        then hanged_man_scan env acting_player number rest g
        else if negb (card_in hanged_man_card (Player.hand player))
        then hanged_man_scan env acting_player number rest g
        else if play_hanged_man env g q acting_player number then
          let* h := list_remove hanged_man_card (Player.hand player) in
          let g := removed_append [hanged_man_card] (set_hand_of q h g) in
          let* g := move_to_removed acting_player (trionfi_card number) g in
          Ok (true, g)
        else hanged_man_scan env acting_player number rest g)
  end.

Definition check_for_hanged_man_interrupt (env : Env) (acting_player : nat)
    (t : TrionfiEffect.t) (g : GameState.t) : result (bool * GameState.t) :=
  hanged_man_scan env acting_player (TrionfiEffect.number t) (seats_of g) g.

Definition devil_card : Card := ("15", "T").

Definition handle_devil_card (env : Env) (seat : nat) (g : GameState.t)
  : result GameState.t :=
  if give_away_devil env g seat then
    let eligible_targets := other_active_seats seat g in
    match eligible_targets with
    | [] => Ok g
    | _ =>
      match eligible_targets !! devil_target env g seat eligible_targets with
      | None => Raise NoAnswer
      | Some target =>
          let* h := list_remove devil_card (hand_of g seat) in
          Ok (hand_append target [devil_card] (set_hand_of seat h g))
      end
    end
  else Ok g.

(** ** One turn: [execute_player_turn] *)

(** Step 1.5: the block under [if 'play_trionfi' in action]. *)
Definition play_trionfi_step (env : Env) (seat : nat) (card : Card) (g : GameState.t)
  : result GameState.t :=
  match get_trionfi_effect card with
  | Some t =>
      match TrionfiEffect.effect t with
      | Some _ =>
          let* (interrupted, g) := check_for_hanged_man_interrupt env seat t g in
          if negb interrupted then apply_effect env t seat g else Ok g
      | None => Ok g
      end
  | None => Ok g
  end.

(** Step 1 for an action that is not a fold. *)
Definition bet_step (env : Env) (seat : nat) (action : Action) (bet : string)
    (g : GameState.t) : result GameState.t :=
  if String.eqb bet "call" then
    let* (_, g) := player_call seat g in Ok g
  else if String.eqb bet "raise" then
    let raise_amount := default (GameState.min_bet g) (raise_amount action) in
    let* (_, g) := player_raise seat raise_amount g in
    match play_trionfi action with
    | Some card => play_trionfi_step env seat card g
    | None => Ok g
    end
  else Ok g.

(** Step 2; the boolean is [drew_card]. *)
Definition draw_step (env : Env) (seat : nat) (action : Action) (g : GameState.t)
  : result (bool * GameState.t) :=
  with_player g seat (fun player =>
    if negb (Player.has_drawn player) then
      match draw_action action with
      | Some d =>
          if String.eqb d "draw_pile" then
            let* (_, g) := draw_from_draw_pile (shuffle env) seat g in Ok (true, g)
          else if String.eqb d "discard_pile" then
            let draw_index :=
              default (len (GameState.discard_pile g) - 1) (draw_index action) in
            let* (_, g) := draw_from_discard_pile seat draw_index g in Ok (true, g)
          else if String.eqb d "community" then
            let hand_index := default 0 (hand_card_index action) in
            let comm_index := default 0 (community_card_index action) in
            let* (_, g) := swap_with_community seat hand_index comm_index g in
            Ok (true, g)
          else Ok (false, g)
      | None => Ok (false, g)
      end
    else Ok (false, g)).

(** Step 2.5; the result is the value of [action.get('discard_index')]
    afterwards. *)
Definition ask_discard_step (env : Env) (seat : nat) (action : Action) (drew_card : bool)
    (g : GameState.t) : result (option Z) :=
  with_player g seat (fun player =>
    if Player.is_human player && drew_card && ask_discard_after_draw action then
      let* _ := calculate_hand_value (Player.hand player) in
      match discard_after_draw env g seat with
      | Some idx =>
          if index_in_hand idx (Player.hand player) then Ok (Some idx)
          else Raise NoAnswer
      | None => Ok (discard_index action)
      end
    else Ok (discard_index action)).

(** Step 3: [if discard_index is not None and 0 <= discard_index <
    len(player.hand): self.discard_card(player, discard_index)] *)
Definition discard_step (seat : nat) (discard_index : option Z) (g : GameState.t)
  : result GameState.t :=
  with_player g seat (fun player =>
    match discard_index with
    | Some discard_index =>
        if (0 <=? discard_index) && (discard_index <? len (Player.hand player))
        then let* (_, g) := discard_card seat discard_index g in Ok g
        else Ok g
    | None => Ok g
    end).

(** The result pairs the returned boolean with the state left behind. *)
Definition execute_player_turn (env : Env) (seat : nat) (action : Action)
    (g : GameState.t) : result (bool * GameState.t) :=
  with_player g seat (fun player =>
    if Player.has_folded player then Ok (false, g)
    else
      let* g := (if card_in devil_card (Player.hand player)
                 then handle_devil_card env seat g
                 else Ok g) in
      let bet := default "fold" (bet_action action) in
      if String.eqb bet "fold" then Ok (false, player_fold seat g)
      else
        let* g := bet_step env seat action bet g in
        let* (drew_card, g) := draw_step env seat action g in
        let* discard_index := ask_discard_step env seat action drew_card g in
        let* g := discard_step seat discard_index g in
        Ok (true, g)).

(** ** [run_betting_round]

    The loop runs while the round is not complete and [safety_counter <
    max_iterations]; [fuel] is [max_iterations - safety_counter].  The list
    in the result records, oldest first, the seats that were asked for an
    action ([get_player_action_interactive], [get_ai_action_func] or the
    fallback call). *)
Definition ActionSource : Type := GameState.t -> nat -> Action.

Fixpoint betting_loop (env : Env) (human_action : ActionSource)
    (get_ai_action_func : option ActionSource) (fuel : nat) (current_index : nat)
    (asked : list nat) (g : GameState.t) : result (list nat * GameState.t) :=
  match fuel with
  | O => Ok (asked, g)
  | S fuel' =>
      if is_betting_round_complete g then Ok (asked, g)
      else
        with_player g current_index (fun player =>
          let num_players := length (GameState.players g) in
          let* (asked, g) :=
            (if negb (Player.has_folded player) && (0 <? Player.credits player) then
               let action :=
                 if Player.is_human player then human_action g current_index
                 else match get_ai_action_func with
                      | Some f => f g current_index
                      | None => call_action
                      end in
               let* (_, g) := execute_player_turn env current_index action g in
               Ok (asked ++ [current_index], g)
             else Ok (asked, g)) in
          betting_loop env human_action get_ai_action_func fuel'
            ((current_index + 1) mod num_players)%nat asked g)
  end.

Definition run_betting_round (env : Env) (human_action : ActionSource)
    (get_ai_action_func : option ActionSource) (g : GameState.t)
  : result (list nat * GameState.t) :=
  let num_players := length (GameState.players g) in
  if Nat.eqb num_players 0 then Raise ZeroDivisionError
  else
    let start_index := ((GameState.dealer_index g + 1) mod num_players)%nat in
    let max_iterations := (num_players * 10)%nat in
    betting_loop env human_action get_ai_action_func max_iterations start_index [] g.

(** ** Showdown: [determine_winner] *)

(** [list.sort(key=...)] is stable: an insertion sort that puts an element
    before the elements already placed whose key is not smaller. *)
Fixpoint insert_by {A : Type} (key : A -> Z) (x : A) (l : list A) : list A :=
  match l with
  | [] => [x]
  | y :: l' => if key x <=? key y then x :: l else y :: insert_by key x l'
  end.

Definition sort_by {A : Type} (key : A -> Z) (l : list A) : list A :=
  foldr (insert_by key) [] l.

(** [list.sort(key=..., reverse=True)]: descending, equal keys keep their
    order. *)
Definition sort_by_desc {A : Type} (key : A -> Z) (l : list A) : list A :=
  sort_by (fun x => - key x) l.

(** An entry of [player_scores]: [(player, value, distance_from_23)], the
    player being given by seat and record. *)
Record Score : Type := mkScore {
  score_seat : nat;
  score_player : Player.t;
  score_value : Z;
  score_distance : Z
}.

(** An entry of [player_high_cards]: [(player, high_card_value, high_card_suit)]. *)
Record HighCard : Type := mkHighCard {
  hc_seat : nat;
  hc_player : Player.t;
  hc_value : Z;
  hc_suit : string
}.

Definition get_active_seats (g : GameState.t) : list (nat * Player.t) :=
  List.filter (fun sp => negb (Player.has_folded sp.2))
              (imap (fun i p => (i, p)) (GameState.players g)).

Fixpoint score_players (active_players : list (nat * Player.t)) : result (list Score) :=
  match active_players with
  | [] => Ok []
  | (seat, player) :: rest =>
      let* (value, is_busted) := calculate_hand_value (Player.hand player) in
      let* player_scores := score_players rest in
      if negb is_busted
      then Ok (mkScore seat player value (Z.abs (Z.abs value - 23)) :: player_scores)
      else Ok player_scores
  end.

Fixpoint high_cards (tied_players : list Score) : result (list HighCard) :=
  match tied_players with
  | [] => Ok []
  | ps :: rest =>
      let* (high_card_value, high_card_suit) :=
        get_highest_card_in_hand (Player.hand (score_player ps)) in
      let* player_high_cards := high_cards rest in
      Ok (mkHighCard (score_seat ps) (score_player ps) high_card_value high_card_suit
          :: player_high_cards)
  end.

(** [suit_ranking.get(suit, 0)] *)
Definition suit_ranking (suit : string) : Z :=
  if String.eqb suit "W" then 4
  else if String.eqb suit "C" then 3
  else if String.eqb suit "S" then 2
  else if String.eqb suit "D" then 1
  else 0.

(** [suit_names.get(suit, suit)] *)
Definition suit_names (suit : string) : string :=
  if String.eqb suit "W" then "Wands"
  else if String.eqb suit "C" then "Cups"
  else if String.eqb suit "S" then "Swords"
  else if String.eqb suit "D" then "Disks"
  else if String.eqb suit "T" then "Trionfi"
  else suit.

(** The last tie-break of [determine_winner], by suit ranking. *)
Definition break_tie_by_suit (g : GameState.t) (tied_names : list string)
    (tied_values : list Z) (still_tied : list HighCard)
  : result (option nat * GameState.t) :=
  let still_tied :=
    sort_by_desc (fun phc => suit_ranking (hc_suit phc)) still_tied in
  match still_tied with
  | [] => Raise IndexError
  | winner :: _ =>
      Ok (Some (hc_seat winner),
          GameState.set_tiebreaker_info
            (Some (TieSuit tied_names tied_values (suit_names (hc_suit winner)))) g)
  end.

(** The part of [determine_winner] that follows [if len(tied_players) == 1],
    beginning with the tie-break by highest card. *)
Definition break_tie (g : GameState.t) (tied_players : list Score)
  : result (option nat * GameState.t) :=
  let tied_names := map (fun ps => Player.name (score_player ps)) tied_players in
  let tied_values := map score_value tied_players in
  let* player_high_cards := high_cards tied_players in
  let player_high_cards := sort_by_desc hc_value player_high_cards in
  match player_high_cards with
  | [] => Raise IndexError
  | top :: _ =>
      let highest_card_value := hc_value top in
      let still_tied :=
        List.filter (fun phc => hc_value phc =? highest_card_value)
                    player_high_cards in
      match still_tied with
      | [only] =>
          Ok (Some (hc_seat only),
              GameState.set_tiebreaker_info
                (Some (TieHighCard tied_names tied_values (hc_value only))) g)
      | _ => break_tie_by_suit g tied_names tied_values still_tied
      end
  end.

(** The result pairs the returned seat ([None] for no winner) with the
    state, whose [tiebreaker_info] the method sets. *)
Definition determine_winner (g : GameState.t) : result (option nat * GameState.t) :=
  let g := GameState.set_tiebreaker_info None g in
  let active_players := get_active_seats g in
  match active_players with
  | [] => Ok (None, g)
  | [sp] => Ok (Some sp.1, g)
  | _ =>
    let* player_scores := score_players active_players in
    let player_scores := sort_by score_distance player_scores in
    match player_scores with
    | [] => Ok (None, g)
    | best :: _ =>
      let best_distance := score_distance best in
      let tied_players :=
        List.filter (fun ps => score_distance ps =? best_distance) player_scores in
      match tied_players with
      | [only] => Ok (Some (score_seat only), g)
      | _ => break_tie g tied_players
      end
    end
  end.

(** [_do_showdown]: the seat that is awarded the pot, if any. *)
Definition _do_showdown (g : GameState.t) : result GameState.t :=
  match get_active_seats g with
  | [] => Ok g
  | [sp] => Ok (award_pot sp.1 g)
  | active_players =>
      let* _ := evaluate_hands (map snd active_players) in
      let* (winner, g) := determine_winner g in
      match winner with
      | Some w =>
          let* _ := calculate_hand_value (hand_of g w) in
          Ok (award_pot w g)
      | None => Ok g
      end
  end.

(** ** A whole hand: [play_hand]

    After the first and after the second betting round the hand ends early
    when the Last Judgment was played (showdown) or when at most one seat is
    left (which takes the pot); [ends_after_round] is that test, with the
    state in which the hand then ends.  The result of [play_hand] lists, for
    each betting round played, the seats that were asked for an action. *)
Definition ends_after_round (g : GameState.t) : option (result GameState.t) :=
  if GameState.judgment_played g then
    Some (let* g := _do_showdown g in advance_dealer g)
  else
    match get_active_seats g with
    | [] => Some (advance_dealer g)
    | [sp] => Some (advance_dealer (award_pot sp.1 g))
    | _ => None
    end.

Definition play_hand (env : Env) (human_action : ActionSource)
    (get_ai_action_func : option ActionSource) (g : GameState.t)
  : result (list (list nat) * GameState.t) :=
  (* the banner prints players[dealer_index].name *)
  with_player g (GameState.dealer_index g) (fun _ =>
    let g := start_new_hand (shuffle env) g in
    let* g := collect_blinds g in
    let* g := deal_initial_cards (shuffle env) g in
    let* (asked1, g) := run_betting_round env human_action get_ai_action_func g in
    match ends_after_round g with
    | Some r => let* g := r in Ok ([asked1], g)
    | None =>
      let g := reset_for_betting_round g in
      let* g := deal_turn (shuffle env) g in
      let* (asked2, g) := run_betting_round env human_action get_ai_action_func g in
      match ends_after_round g with
      | Some r => let* g := r in Ok ([asked1; asked2], g)
      | None =>
        let g := reset_for_betting_round g in
        let* g := deal_river (shuffle env) g in
        let* (asked3, g) := run_betting_round env human_action get_ai_action_func g in
        let* g := _do_showdown g in
        let* g := advance_dealer g in
        Ok ([asked1; asked2; asked3], g)
      end
    end).

(** * Vocabulary of the properties, and the tables of the examples *)

(** ** Scoring *)

(** The rule for one ace, as a relation between the running total before
    and after: the ace counts ten more exactly when that brings the total
    strictly nearer to 23 in magnitude without passing 23. *)
Inductive ace_resolution (v : Z) : Z -> Prop :=
| ace_counts_eleven :
    distance_from_23 (v + 10) < distance_from_23 v ->
    Z.abs (v + 10) <= 23 ->
    ace_resolution v (v + 10)
| ace_counts_one :
    ~ (distance_from_23 (v + 10) < distance_from_23 v /\ Z.abs (v + 10) <= 23) ->
    ace_resolution v v.

(** The aces one after the other, each on the total the previous one left. *)
Inductive aces_resolved : nat -> Z -> Z -> Prop :=
| aces_none v : aces_resolved O v v
| aces_next n v v' w :
    ace_resolution v v' -> aces_resolved n v' w -> aces_resolved (S n) v w.

Definition is_ace (c : Card) : bool :=
  negb (String.eqb c.2 "T") && String.eqb c.1 "1".

Definition lovers_card : Card := ("6", "T").

(** What [calculate_hand_value] returns once the aces are resolved to [w]. *)
Definition finish_hand (has_lovers : bool) (w : Z) : Z * bool :=
  let r := if has_lovers then resolve_lovers w else w in
  (r, 23 <? Z.abs r).

(** The rule that breaks ties toward plus six: plus six or minus six,
    whichever leaves the magnitude nearer to 23, plus six when both are
    equally near. *)
Definition lovers_nearest_plus_on_tie (w : Z) : Z :=
  if distance_from_23 (w - 6) <? distance_from_23 (w + 6) then w - 6 else w + 6.

(** ** Tables

    Three seats, Han (seat 0, the human seat), Lando and Chewie, with 500
    credits each and a stake of 2.  A shuffle is a cut of the fresh deck:
    [cut_eight] moves its first eight cards to the bottom, so that the deal
    gives seat 0 the trumps 8 and 9 (the Hermit), seat 1 the trumps 10 (the
    Wheel of Fortune) and 11, seat 2 the trumps 12 (the Hanged Man) and 13,
    puts the trumps 14, 15, 16 on the table and burns trump 17. *)

Definition cut_eight : Shuffle := fun l => drop 8 l ++ take 8 l.

(** Nobody gives the Devil away, nobody plays the Hanged Man, no discard
    after a draw. *)
Definition quiet_env : Env :=
  mkEnv cut_eight
        (fun _ _ => false) (fun _ _ _ => 0%nat)
        (fun _ _ _ _ => false)
        (fun _ _ => None)
        (fun _ _ _ => [0; 1; 2; 3]%nat) (fun _ _ top_4 => top_4)
        (fun _ _ _ => 0%nat) (fun _ _ => "3") (fun _ _ => (0, 1)%nat)
        (fun _ _ => true) (fun _ _ => true) (fun _ _ => 0)
        (fun _ _ _ => KeepNone)
        (fun _ _ _ => 0%nat).

(** The same, except that whoever holds the Hanged Man plays it. *)
Definition nope_env : Env :=
  mkEnv cut_eight
        (fun _ _ => false) (fun _ _ _ => 0%nat)
        (fun _ _ _ _ => true)
        (fun _ _ => None)
        (fun _ _ _ => [0; 1; 2; 3]%nat) (fun _ _ top_4 => top_4)
        (fun _ _ _ => 0%nat) (fun _ _ => "3") (fun _ _ => (0, 1)%nat)
        (fun _ _ => true) (fun _ _ => true) (fun _ _ => 0)
        (fun _ _ _ => KeepNone)
        (fun _ _ _ => 0%nat).

Definition new_table : GameState.t :=
  GameState.init ["Han"; "Lando"; "Chewie"] 500 2.

(** [start_new_hand], [collect_blinds], [deal_initial_cards], as [play_hand]
    begins. *)
Definition dealt_table : result GameState.t :=
  let g := start_new_hand cut_eight new_table in
  let* g := collect_blinds g in
  deal_initial_cards cut_eight g.

Definition the_dealt_table : GameState.t :=
  match dealt_table with
  | Ok g => g
  | Raise _ => new_table
  end.

(** ** Turns

    The steps of a turn before the discard, for a seat that has not folded
    and does not fold: the state they leave, and the discard index as step 3
    reads it. *)
Definition turn_before_discard (env : Env) (seat : nat) (action : Action)
    (g : GameState.t) : result (option Z * GameState.t) :=
  with_player g seat (fun player =>
    let* g := (if card_in devil_card (Player.hand player)
               then handle_devil_card env seat g
               else Ok g) in
    let* g := bet_step env seat action (default "fold" (bet_action action)) g in
    let* (drew_card, g) := draw_step env seat action g in
    let* discard_index := ask_discard_step env seat action drew_card g in
    Ok (discard_index, g)).

Definition call_draw_discard_5 : Action :=
  mkAction (Some "call") None None (Some "draw_pile") None None None false (Some 5).

(** A table late in a hand: one card left to draw, one card discarded, the
    rest of the pile in the hand of seat 2. *)
Definition low_table : GameState.t :=
  hand_append 2 (drop 1 (GameState.draw_pile the_dealt_table))
    (GameState.set_draw_pile (take 1 (GameState.draw_pile the_dealt_table))
       the_dealt_table).

(** A table of 36 seats.  The deal takes 76 cards; in the first betting
    round seats 1 and 2 draw the two cards left in the draw pile and every
    seat calls; the state before the turn card is dealt has an empty draw
    pile and the burnt card as only discard. *)
Definition big_table : GameState.t := GameState.init (replicate 36 "Seat") 500 2.

Definition call_and_draw : Action :=
  mkAction (Some "call") None None (Some "draw_pile") None None None false None.

Definition seats_1_and_2_draw : ActionSource :=
  fun g seat => if Nat.eqb seat 1 || Nat.eqb seat 2 then call_and_draw else call_action.

Definition big_table_before_turn : result GameState.t :=
  let g := start_new_hand cut_eight big_table in
  let* g := collect_blinds g in
  let* g := deal_initial_cards cut_eight g in
  let* (_, g) := run_betting_round quiet_env seats_1_and_2_draw
                   (Some seats_1_and_2_draw) g in
  Ok (reset_for_betting_round g).

Definition the_big_table_before_turn : GameState.t :=
  match big_table_before_turn with
  | Ok g => g
  | Raise _ => big_table
  end.

(** Seat 1 was left with a single credit by earlier hands; the stake is 4. *)
Definition short_stack_table : GameState.t :=
  GameState.set_players
    (alter (Player.set_credits 1) 1%nat (GameState.players
       (GameState.init ["Han"; "Lando"; "Chewie"] 500 4)))
    (GameState.init ["Han"; "Lando"; "Chewie"] 500 4).

(** The hand is started, the blinds are posted (seat 1 is all-in for the
    small blind), the cards are dealt. *)
Definition short_stack_dealt : result GameState.t :=
  let g := start_new_hand cut_eight short_stack_table in
  let* g := collect_blinds g in
  deal_initial_cards cut_eight g.

Definition the_short_stack_dealt : GameState.t :=
  match short_stack_dealt with
  | Ok g => g
  | Raise _ => short_stack_table
  end.

(** Seat 2, the big blind, checks and seat 0 calls. *)
Definition short_stack_called : result GameState.t :=
  let* (_, g) := execute_player_turn quiet_env 2 call_action the_short_stack_dealt in
  let* (_, g) := execute_player_turn quiet_env 0 call_action g in
  Ok g.

Definition the_short_stack_called : GameState.t :=
  match short_stack_called with
  | Ok g => g
  | Raise _ => short_stack_table
  end.

(** The seats asked in a round that only the iteration limit ends. *)
Definition ten_times_2_0 : list nat := concat (replicate 10 [2; 0]%nat).

(** The seat has acted and its bet is not below the table bet. *)
Definition acted_and_matched (g : GameState.t) (p : Player.t) : bool :=
  Player.has_acted p && (GameState.current_bet g <=? Player.current_bet p).

(** ** Card accounting *)

(** The cards held in hands. *)
Fixpoint cards_in_hands (ps : list Player.t) : Z :=
  match ps with
  | [] => 0
  | p :: ps' => len (Player.hand p) + cards_in_hands ps'
  end.

(** An environment keeps the cards when its shuffle and its arrangement of
    the Magician's four cards return as many cards as they were given. *)
Definition keeps_cards (env : Env) : Prop :=
  (forall l, length (shuffle env l) = length l)
  /\ (forall g seat top_4, length (magician_order env g seat top_4) = length top_4).

(** The card played is not the Wheel of Fortune. *)
Definition not_the_wheel (card : option Card) : Prop :=
  forall c t, card = Some c -> get_trionfi_effect c = Some t ->
    TrionfiEffect.effect t <> Some wheel_of_fortune_effect_h.

(** The card lies in some pile, on the table or in some hand. *)
Definition card_anywhere (c : Card) (g : GameState.t) : bool :=
  card_in c (GameState.draw_pile g) || card_in c (GameState.discard_pile g)
  || card_in c (GameState.community_cards g) || card_in c (GameState.removed_pile g)
  || existsb (fun p => card_in c (Player.hand p)) (GameState.players g).

Definition wheel_card : Card := ("10", "T").

Definition raise_and_play (card : Card) : Action :=
  mkAction (Some "raise") None (Some card) None None None None false None.

(** A cut that deals the Wheel of Fortune to seat 0, the human seat, who
    answers the prompt of the Wheel by keeping the first and third card. *)
Definition cut_ten : Shuffle := fun l => drop 10 l ++ take 10 l.

Definition wheel_table : result GameState.t :=
  let g := start_new_hand cut_ten new_table in
  let* g := collect_blinds g in
  deal_initial_cards cut_ten g.

Definition the_wheel_table : GameState.t :=
  match wheel_table with
  | Ok g => g
  | Raise _ => new_table
  end.

Definition keeping_env : Env :=
  mkEnv cut_ten
        (fun _ _ => false) (fun _ _ _ => 0%nat)
        (fun _ _ _ _ => false)
        (fun _ _ => None)
        (fun _ _ _ => [0; 1; 2; 3]%nat) (fun _ _ top_4 => top_4)
        (fun _ _ _ => 0%nat) (fun _ _ => "3") (fun _ _ => (0, 1)%nat)
        (fun _ _ => true) (fun _ _ => true) (fun _ _ => 0)
        (fun _ _ _ => KeepIndices [0; 2])
        (fun _ _ _ => 0%nat).

(** ** The Hermit *)

Definition cut_six : Shuffle := fun l => drop 6 l ++ take 6 l.

(** As [dealt_table], with a cut that deals the Hermit to seat 1, an AI seat. *)
Definition hermit_table : result GameState.t :=
  let g := start_new_hand cut_six new_table in
  let* g := collect_blinds g in
  deal_initial_cards cut_six g.

Definition the_hermit_table : GameState.t :=
  match hermit_table with
  | Ok g => g
  | Raise _ => new_table
  end.

Definition hermit_card : Card := ("9", "T").

(** The answers of a table on which the seat that holds [card] raises and
    plays it, once (a hermit does not play again), and every other answer
    is a call. *)
Definition play_then_call (card : Card) : ActionSource :=
  fun g seat =>
    match GameState.players g !! seat with
    | Some p =>
        if card_in card (Player.hand p) && negb (Player.is_hermit p)
        then raise_and_play card
        else call_action
    | None => call_action
    end.

Definition hermit_then_call : ActionSource := play_then_call hermit_card.

(** The first betting round as [run_betting_round] plays it, then the reset
    and the turn card, then the second betting round, as in [play_hand]. *)
Definition two_betting_rounds (shuffle : Shuffle) (g : GameState.t)
  : result ((list nat * GameState.t) * (list nat * GameState.t)) :=
  let* (asked1, g1) :=
    run_betting_round quiet_env hermit_then_call (Some hermit_then_call) g in
  let g := reset_for_betting_round g1 in
  let* g := deal_turn shuffle g in
  let* (asked2, g2) :=
    run_betting_round quiet_env hermit_then_call (Some hermit_then_call) g in
  Ok ((asked1, g1), (asked2, g2)).

Definition is_hermit_at (g : GameState.t) (seat : nat) : bool :=
  match GameState.players g !! seat with
  | Some p => Player.is_hermit p
  | None => false
  end.

(** ** The Hanged Man *)

(** Seat [q] is offered the interrupt and takes it: it is not the acting
    seat, has not folded, holds the Hanged Man and answers yes. *)
Definition interrupts (env : Env) (acting_player : nat) (number : Z) (g : GameState.t)
    (q : nat) : bool :=
  match GameState.players g !! q with
  | Some p =>
      negb (Nat.eqb q acting_player) && negb (Player.has_folded p)
      && card_in hanged_man_card (Player.hand p)
      && play_hanged_man env g q acting_player number
  | None => false
  end.

(** A scan that starts left of the acting seat: the seats after it, then
    round the table to the seats before it. *)
Definition seats_left_of (acting_player : nat) (g : GameState.t) : list nat :=
  let n := length (GameState.players g) in
  seq (S acting_player) (n - S acting_player) ++ seq 0 acting_player.

Definition interrupt_scanning_left_of_actor (env : Env) (acting_player : nat)
    (t : TrionfiEffect.t) (g : GameState.t) : result (bool * GameState.t) :=
  hanged_man_scan env acting_player (TrionfiEffect.number t)
    (seats_left_of acting_player g) g.

(** Seat [q] holds a Hanged Man. *)
Definition holds_hanged_man (g : GameState.t) (q : nat) : bool :=
  card_in hanged_man_card (hand_of g q).

(** The Hanged Man is in the hand of one seat at most, as on every table
    dealt from the deck, which has one. *)
Definition one_hanged_man (g : GameState.t) : Prop :=
  forall q1 q2, holds_hanged_man g q1 = true -> holds_hanged_man g q2 = true -> q1 = q2.

(** What a seat [q] that takes the interrupt does: its Hanged Man goes to
    the removed pile, and so does the triggering trump when the acting seat
    holds it. *)
Definition interrupt_by (acting_player : nat) (number : Z) (q : nat) (g : GameState.t)
  : result (bool * GameState.t) :=
  let* h := list_remove hanged_man_card (hand_of g q) in
  let g := removed_append [hanged_man_card] (set_hand_of q h g) in
  let* g := move_to_removed acting_player (trionfi_card number) g in
  Ok (true, g).

Definition wheel_trionfi : TrionfiEffect.t :=
  TrionfiEffect.mk 10 "Wheel of Fortune" "Draw 4, keep what you want"
    (Some wheel_of_fortune_effect_h) false false.

(** ** The showdown *)

(** The head of a list carries a least key. *)
Definition head_least {A : Type} (key : A -> Z) (l : list A) : Prop :=
  match l with
  | [] => True
  | b :: _ => forall x, In x l -> key b <= key x
  end.

(** A candidate is a seat that has not folded and whose hand is not busted;
    [candidates] lists them in table order with value and distance. *)
Definition candidate_of (sp : nat * Player.t) : option Score :=
  if Player.has_folded sp.2 then None
  else match calculate_hand_value (Player.hand sp.2) with
       | Ok (v, false) => Some (mkScore sp.1 sp.2 v (distance_from_23 v))
       | _ => None
       end.

Definition candidates (g : GameState.t) : list Score :=
  omap candidate_of (imap (fun i p => (i, p)) (GameState.players g)).

(** Every hand still in can be scored (as every hand of deck cards can). *)
Definition scoreable (g : GameState.t) : Prop :=
  forall p, In p (GameState.players g) -> Player.has_folded p = false ->
    exists v b, calculate_hand_value (Player.hand p) = Ok (v, b).

Definition high_of (p : Player.t) : Z * string :=
  match get_highest_card_in_hand (Player.hand p) with
  | Ok r => r
  | Raise _ => (-999, "")
  end.

Definition high_value (c : Score) : Z := (high_of (score_player c)).1.
Definition high_suit (c : Score) : string := (high_of (score_player c)).2.

Definition to_high_card (ps : Score) : HighCard :=
  mkHighCard (score_seat ps) (score_player ps) (high_value ps) (high_suit ps).

(** [w] is at least as good as [c]: nearer to 23, or as near with a higher
    card, or as near with as high a card of a suit that ranks no lower. *)
Definition ranks_no_lower (w c : Score) : Prop :=
  score_distance w < score_distance c
  \/ (score_distance w = score_distance c
      /\ (high_value c < high_value w
          \/ (high_value c = high_value w
              /\ suit_ranking (high_suit c) <= suit_ranking (high_suit w)))).

(** The record of the tie-break level for winner [w]: nothing when [w] alone
    is nearest, the high card when [w] alone has the highest card among the
    nearest, the suit otherwise. *)
Definition expected_info (cs : list Score) (w : Score) : option TiebreakerInfo :=
  let tied := List.filter (fun c => score_distance c =? score_distance w) cs in
  let still := List.filter (fun c => high_value c =? high_value w) tied in
  let names := map (fun c => Player.name (score_player c)) tied in
  let values := map score_value tied in
  match tied with
  | [_] => None
  | _ =>
      match still with
      | [_] => Some (TieHighCard names values (high_value w))
      | _ => Some (TieSuit names values (suit_names (high_suit w)))
      end
  end.

Definition set_info (info : TiebreakerInfo) (g : GameState.t) : GameState.t :=
  GameState.set_tiebreaker_info (Some info) g.

(** The new table with the given hands, seat by seat. *)
Definition table_with_hands (hands : list (list Card)) : GameState.t :=
  GameState.set_players
    (imap (fun i p => Player.set_hand (default [] (hands !! i)) p)
          (GameState.players new_table))
    new_table.

(** The seat returned by the showdown and the tie-break record it leaves. *)
Definition showdown_outcome (g : GameState.t)
  : option (option nat * option TiebreakerInfo) :=
  match determine_winner g with
  | Ok (w, g') => Some (w, GameState.tiebreaker_info g')
  | Raise _ => None
  end.

(** A cut that deals the trumps 16 and 17 to seat 0; seats 1 and 2 then
    fold. *)
Definition cut_sixteen : Shuffle := fun l => drop 16 l ++ take 16 l.

Definition last_seat_busted : result GameState.t :=
  let g := start_new_hand cut_sixteen new_table in
  let* g := collect_blinds g in
  let* g := deal_initial_cards cut_sixteen g in
  let* (_, g) := execute_player_turn quiet_env 1 empty_action g in
  let* (_, g) := execute_player_turn quiet_env 2 empty_action g in
  Ok g.

Definition the_last_seat_busted : GameState.t :=
  match last_seat_busted with
  | Ok g => g
  | Raise _ => new_table
  end.

(** ** Vocabulary for the properties of the engine as a whole *)

(** A rank written in at most 640 characters, all of them ASCII: the
    strings on which [py_int] is [int].  (On other characters [int] follows
    the Unicode tables of white space and digits; on longer strings of
    digits it raises [ValueError] once the limit of
    [sys.set_int_max_str_digits] is passed, a limit that is never under
    640.) *)
Definition ascii_rank (c : Card) : bool :=
  forallb (fun ch => Nat.ltb (nat_of_ascii ch) 128) (list_ascii_of_string c.1)
  && Nat.leb (String.length c.1) 640.

(** A suit card whose rank is neither the ace, a court card nor a number
    that [int] reads: the cards on which the scoring stops. *)
Definition unreadable (c : Card) : bool :=
  negb (String.eqb c.2 "T")
  && negb (str_in c.1 ["1"; "K"; "Q"; "N"; "P"])
  && match py_int c.1 with Some _ => false | None => true end.

(** What one card adds to the running total, the number of aces and the
    Lovers flag, read off [scan_card] at the initial state. *)
Definition card_adds (c : Card) : result (Z * nat * bool) := scan_card c (0, O, false).

(** No card occurs twice. *)
Fixpoint distinct_cards (l : list Card) : bool :=
  match l with
  | [] => true
  | c :: l' => negb (card_in c l') && distinct_cards l'
  end.

(** The players after a deal from the pile [d]: seat [i] has received the
    cards at positions [2 i] and [2 i + 1] of [d]. *)
Definition dealt_two_each (d : list Card) (ps : list Player.t) : list Player.t :=
  imap (fun i p => Player.set_hand (Player.hand p ++ take 2 (drop (2 * i) d)) p) ps.

(** The credits of the seats, in table order. *)
Definition credits_of (g : GameState.t) : list Z :=
  map Player.credits (GameState.players g).

Definition sum_Z (l : list Z) : Z := foldr Z.add 0 l.

(** All the chips of the table: the pot and the credits of every seat. *)
Definition chips_in_play (g : GameState.t) : Z :=
  GameState.pot g + sum_Z (credits_of g).

(** No seat owes anything. *)
Definition solvent (g : GameState.t) : Prop :=
  Forall (fun c => 0 <= c) (credits_of g).

(** What a betting round leaves alone: the seats, the button, the stake and
    the number of the hand; and the chips only move between seats and pot. *)
Definition keeps_table (g g' : GameState.t) : Prop :=
  length (GameState.players g') = length (GameState.players g)
  /\ GameState.dealer_index g' = GameState.dealer_index g
  /\ GameState.min_bet g' = GameState.min_bet g
  /\ GameState.hand_number g' = GameState.hand_number g
  /\ chips_in_play g' = chips_in_play g.

Definition settles (g g' : GameState.t) : Prop :=
  keeps_table g g' /\ (solvent g -> solvent g').

(** The part of the state that only bets, blinds, antes and awards change. *)
Definition money (g : GameState.t) : Z * list Z * nat * Z * Z :=
  (GameState.pot g, credits_of g, GameState.dealer_index g, GameState.min_bet g,
   GameState.hand_number g).

(** The seats, the stake and the chips stay; the button moves one seat to
    the left. *)
Definition button_moved (g g' : GameState.t) : Prop :=
  length (GameState.players g') = length (GameState.players g)
  /\ GameState.dealer_index g'
     = ((GameState.dealer_index g + 1) mod length (GameState.players g))%nat
  /\ GameState.min_bet g' = GameState.min_bet g
  /\ GameState.hand_number g' = GameState.hand_number g
  /\ chips_in_play g' = chips_in_play g.

(** The opening of [play_hand]: new hand, blinds, deal. *)
Definition open_hand (shuffle : Shuffle) (g : GameState.t) : result GameState.t :=
  let g := start_new_hand shuffle g in
  let* g := collect_blinds g in
  deal_initial_cards shuffle g.

(** Neither kind of seat is ever told to play the Wheel of Fortune. *)
Definition never_the_wheel (human_action : ActionSource)
    (get_ai_action_func : option ActionSource) : Prop :=
  (forall g seat, not_the_wheel (play_trionfi (human_action g seat)))
  /\ (forall f g seat, get_ai_action_func = Some f ->
        not_the_wheel (play_trionfi (f g seat))).

(** The run stores no [None] where a card belongs: every draw of it found a
    card on the draw pile, so that the run is one of [Card] values from its
    first step to its last, whether it returns or raises. *)
Definition draws_no_none {A : Type} (r : result A) : Prop := r <> Raise NoneCard.

(** Where the cards are: the four piles and the hands, seat by seat. *)
Definition cards (g : GameState.t)
  : list Card * list Card * list Card * list Card * list (list Card) :=
  (GameState.draw_pile g, GameState.discard_pile g, GameState.community_cards g,
   GameState.removed_pile g, map Player.hand (GameState.players g)).

(** What happens to the chips between the start of a hand and its showdown:
    the blinds are posted, a seat takes a turn, a betting round is played. *)
Inductive betting_step (env : Env) : GameState.t -> GameState.t -> Prop :=
| step_blinds g g' :
    collect_blinds g = Ok g' -> betting_step env g g'
| step_turn seat action g b g' :
    execute_player_turn env seat action g = Ok (b, g') -> betting_step env g g'
| step_round human_action get_ai_action_func g asked g' :
    run_betting_round env human_action get_ai_action_func g = Ok (asked, g') ->
    betting_step env g g'.

(** Every answer is a call (or a check). *)
Definition always_call : ActionSource := fun _ _ => call_action.

(** A whole hand at the new table in which every seat calls. *)
Definition called_hand : result (list (list nat) * GameState.t) :=
  play_hand quiet_env always_call None new_table.

Definition the_called_hand : GameState.t :=
  match called_hand with
  | Ok (_, g) => g
  | Raise _ => new_table
  end.

(** Seat 1, the small blind, calls after the deal. *)
Definition seat_1_calls : result (bool * GameState.t) :=
  execute_player_turn quiet_env 1 call_action the_dealt_table.

Definition after_seat_1_calls : GameState.t :=
  match seat_1_calls with
  | Ok (_, g) => g
  | Raise _ => the_dealt_table
  end.

(** A table of [n] seats with 500 credits each and a stake of 2. *)
Definition table_of (n : nat) : GameState.t := GameState.init (replicate n "Seat") 500 2.

(** The seats other than [seat] are as they were. *)
Definition others_untouched (seat : nat) (g g' : GameState.t) : Prop :=
  forall q, q <> seat -> GameState.players g' !! q = GameState.players g !! q.

(** The record of a seat after it has drawn the cards [cs]. *)
Definition has_drawn_cards (cs : list Card) (p : Player.t) : Player.t :=
  Player.set_has_drawn true (Player.set_hand (Player.hand p ++ cs) p).

(** The pile a draw takes its card from: the draw pile, or, when that is
    empty, the shuffled discard pile. *)
Definition draw_source (sh : Shuffle) (g : GameState.t) : list Card :=
  match GameState.draw_pile g with
  | [] => sh (GameState.discard_pile g)
  | _ => GameState.draw_pile g
  end.

(** The first betting round after the deal, every seat calling. *)
Definition first_round_called : result (list nat * GameState.t) :=
  run_betting_round quiet_env always_call None the_dealt_table.

Definition after_first_round_called : GameState.t :=
  match first_round_called with
  | Ok (_, g) => g
  | Raise _ => the_dealt_table
  end.

(** The first betting round after the deal, seats 1 and 2 calling and drawing
    a card from the draw pile, seat 0 calling. *)
Definition first_round_drawn : result (list nat * GameState.t) :=
  run_betting_round quiet_env seats_1_and_2_draw (Some seats_1_and_2_draw)
    the_dealt_table.

Definition after_first_round_drawn : GameState.t :=
  match first_round_drawn with
  | Ok (_, g) => g
  | Raise _ => the_dealt_table
  end.

(** Seat 0 of the dealt table has folded. *)
Definition seat_0_folded : GameState.t := player_fold 0 the_dealt_table.

Definition after_showdown : GameState.t :=
  match _do_showdown seat_0_folded with
  | Ok g => g
  | Raise _ => seat_0_folded
  end.

(** [a <= b] on distances: not [b < a]. *)
Definition dist_leb (a b : dist) : bool := negb (dist_ltb b a).

(** The check behind the agreement of the deck and the registry: a trump has
    an entry whose number gives back the card, a suit card has none. *)
Definition trionfi_round_trip (c : Card) : bool :=
  match get_trionfi_effect c with
  | Some t => String.eqb c.2 "T" && card_eqb (trionfi_card (TrionfiEffect.number t)) c
  | None => negb (String.eqb c.2 "T")
  end.

(** A table of three seats of which seat 1 holds a single credit. *)
Definition poor_blind_table : GameState.t :=
  GameState.mk
    [Player.init "Han" 500 true; Player.init "Lando" 1 false;
     Player.init "Chewie" 500 false]
    [] [] [] [] 0 0 4 0 0 false false None.

(** A human seat that answers the Magician's prompt with 3 1 0 2. *)
Definition magician_env : Env :=
  mkEnv cut_eight (fun _ _ => false) (fun _ _ _ => O) (fun _ _ _ _ => false)
        (fun _ _ => None) (fun _ _ _ => [3; 1; 0; 2]%nat) (fun _ _ cs => cs)
        (fun _ _ _ => O) (fun _ _ => "") (fun _ _ => (O, O))
        (fun _ _ => false) (fun _ _ => false) (fun _ _ => 0)
        (fun _ _ _ => KeepNone) (fun _ _ _ => O).

(** The holder of the Devil always gives it to the first eligible seat. *)
Definition devil_env : Env :=
  mkEnv cut_eight (fun _ _ => true) (fun _ _ _ => O) (fun _ _ _ _ => false)
        (fun _ _ => None) (fun _ _ _ => []) (fun _ _ cs => cs)
        (fun _ _ _ => O) (fun _ _ => "") (fun _ _ => (O, O))
        (fun _ _ => false) (fun _ _ => false) (fun _ _ => 0)
        (fun _ _ _ => KeepNone) (fun _ _ _ => O).

(** Seat 0 of the dealt table has been handed the Devil. *)
Definition devil_table : GameState.t := hand_append 0 [devil_card] the_dealt_table.

(** ** Two seats with a Hanged Man

    The deck has one Hanged Man, but the human answer to the Wheel of
    Fortune may name a position twice, and the card at that position is
    then put in the hand twice.  The play below uses this: the deck is
    stacked so that seat 0, the human seat, is dealt the Wheel of Fortune,
    seat 1 the Emperor, and the Hanged Man is the card on top of the draw
    pile after the deal. *)
Definition stacked_first : list nat := [10; 22; 4; 23; 24; 25; 26; 27; 28; 29; 12]%nat.

(** The cards at the positions [stacked_first] come first, the others
    follow in the order they had: one of the arrangements that
    [random.shuffle] can leave. *)
Definition stack_the_deck : Shuffle := fun l =>
  omap (fun i => l !! i) stacked_first
  ++ omap (fun i => l !! i)
       (List.filter (fun i => negb (existsb (Nat.eqb i) stacked_first))
          (seq 0 (length l))).

(** Whoever holds a Hanged Man plays it; the answer to the prompt of the
    Wheel of Fortune is the line 0 0. *)
Definition doubling_env : Env :=
  mkEnv stack_the_deck
        (fun _ _ => false) (fun _ _ _ => 0%nat)
        (fun _ _ _ _ => true)
        (fun _ _ => None)
        (fun _ _ _ => [0; 1; 2; 3]%nat) (fun _ _ top_4 => top_4)
        (fun _ _ _ => 0%nat) (fun _ _ => "3") (fun _ _ => (0, 1)%nat)
        (fun _ _ => true) (fun _ _ => true) (fun _ _ => 0)
        (fun _ _ _ => KeepIndices [0; 0])
        (fun _ _ _ => 0%nat).

(** Seat 0 raises, plays the Wheel of Fortune and discards the card at
    position 1 of its hand. *)
Definition play_wheel_and_discard : Action :=
  mkAction (Some "raise") None (Some wheel_card) None None None None false (Some 1).

(** A call, and the top card of the discard pile is taken. *)
Definition call_and_take_discard : Action :=
  mkAction (Some "call") None None (Some "discard_pile") None None None false None.

(** The answers of the first betting round: seat 0 as above; seat 2 takes
    the top of the discard pile once a Hanged Man lies in that pile; every
    other answer is a call. *)
Definition doubling_round : ActionSource :=
  fun g seat =>
    if Nat.eqb seat 0 then play_wheel_and_discard
    else if Nat.eqb seat 2 && card_in hanged_man_card (GameState.discard_pile g)
    then call_and_take_discard
    else call_action.

Definition emperor_card : Card := ("4", "T").

Definition emperor_trionfi : TrionfiEffect.t :=
  TrionfiEffect.mk 4 "The Emperor" "Target: ante, discard 2, or fold"
    (Some emperor_effect_h) false false.

(** The hand is opened with the stacked deck and the first betting round is
    played; the turn card is dealt as in [play_hand]; seat 1, first to act
    in the second round, raises to play the Emperor.  The states are those
    after the deal, after the first round, after the turn card, and after
    the raise of seat 1, where [check_for_hanged_man_interrupt] is called. *)
Definition two_hanged_men_play
  : result (GameState.t * (list nat * GameState.t) * GameState.t * GameState.t) :=
  let* dealt := open_hand stack_the_deck new_table in
  let* (asked, g1) :=
    run_betting_round doubling_env doubling_round (Some doubling_round) dealt in
  let* g2 := deal_turn stack_the_deck (reset_for_betting_round g1) in
  let* (_, g3) := player_raise 1 (GameState.min_bet g2) g2 in
  Ok (dealt, (asked, g1), g2, g3).

Definition two_hanged_men : GameState.t :=
  match two_hanged_men_play with
  | Ok (_, _, _, g) => g
  | Raise _ => new_table
  end.

(** * Properties *)

(** ** Cards and the deck *)

Lemma card_eqb_spec (a b : Card) : reflect (a = b) (card_eqb a b).
Proof.
  destruct a as [r s], b as [r' s']. unfold card_eqb. simpl.
  destruct (String.eqb_spec r r'), (String.eqb_spec s s'); simpl;
    constructor; congruence.
Qed.

Lemma card_eqb_refl (a : Card) : card_eqb a a = true.
Proof. destruct (card_eqb_spec a a); congruence. Qed.

Example calc_example :
  calculate_hand_value [("10","W"); ("10","C"); ("1","S")] = Ok (21, false).
Proof. reflexivity. Qed.

Example int_examples :
  py_int " 1_0 " = Some 10 /\ py_int "-7" = Some (-7) /\ py_int "K" = None
  /\ py_int "1__0" = None /\ py_int "" = None /\ py_int "_1" = None.
Proof. repeat split. Qed.

Example deck_size : length _generate_deck = 78%nat.
Proof. reflexivity. Qed.

(** ** Ace resolution (scoring) *)

Lemma ace_step_resolution (v : Z) : ace_resolution v (ace_step v).
Proof.
  unfold ace_step.
  destruct (Z.ltb_spec (Z.abs (Z.abs (v + 10) - 23)) (Z.abs (Z.abs v - 23))) as [Hd|Hd];
    destruct (Z.leb_spec (Z.abs (v + 10)) 23) as [Hb|Hb]; simpl.
  - now apply ace_counts_eleven.
  - apply ace_counts_one. intros [_ ?]. lia.
  - apply ace_counts_one. unfold distance_from_23. intros [? _]. lia.
  - apply ace_counts_one. intros [_ ?]. lia.
Qed.

Lemma ace_resolution_step (v v' : Z) : ace_resolution v v' -> v' = ace_step v.
Proof.
  intros H. unfold ace_step. destruct H as [Hd Hb | Hn].
  - unfold distance_from_23 in Hd.
    destruct (Z.ltb_spec (Z.abs (Z.abs (v + 10) - 23)) (Z.abs (Z.abs v - 23)));
      destruct (Z.leb_spec (Z.abs (v + 10)) 23); simpl; lia.
  - unfold distance_from_23 in Hn.
    destruct (Z.ltb_spec (Z.abs (Z.abs (v + 10) - 23)) (Z.abs (Z.abs v - 23)));
      destruct (Z.leb_spec (Z.abs (v + 10)) 23); simpl; try reflexivity.
    exfalso. apply Hn. split; assumption.
Qed.

Lemma optimize_aces_resolved (n : nat) (v : Z) : aces_resolved n v (optimize_aces n v).
Proof.
  revert v. induction n as [|n IH]; intros v; simpl.
  - constructor.
  - econstructor; [apply ace_step_resolution | apply IH].
Qed.

Lemma aces_resolved_optimize (n : nat) (v w : Z) :
  aces_resolved n v w -> w = optimize_aces n v.
Proof.
  induction 1 as [v | n v v' w Hstep _ IH]; simpl.
  - reflexivity.
  - apply ace_resolution_step in Hstep. now subst v'.
Qed.

Lemma optimize_aces_last (n : nat) (v : Z) :
  optimize_aces (S n) v = ace_step (optimize_aces n v).
Proof.
  revert v. induction n as [|n IH]; intros v.
  - reflexivity.
  - change (optimize_aces (S (S n)) v) with (optimize_aces (S n) (ace_step v)).
    rewrite IH. reflexivity.
Qed.

(** The first loop counts the aces and notes the Lovers. *)
Lemma scan_card_counts (c : Card) (v0 : Z) (n0 : nat) (l0 : bool) v n l :
  scan_card c (v0, n0, l0) = Ok (v, n, l) ->
  n = (n0 + if is_ace c then 1 else 0)%nat /\ l = l0 || card_eqb lovers_card c.
Proof.
  destruct c as [rank suit].
  unfold scan_card, is_ace, lovers_card, card_eqb. cbn [fst snd].
  rewrite (String.eqb_sym "6" rank), (String.eqb_sym "T" suit).
  destruct (String.eqb suit "T"); cbn [negb andb].
  - rewrite andb_true_r.
    destruct (String.eqb rank "6").
    + intros [= <- <- <-]. split; [lia | now rewrite orb_true_r].
    + rewrite orb_false_r.
      destruct (str_in rank negative_trionfi);
        [destruct (int_of rank); cbn [bind]|];
        intros [= <- <- <-]; split; (lia || reflexivity).
  - rewrite andb_false_r, orb_false_r.
    repeat match goal with
           | |- context [if ?b then _ else _] => destruct b
           end;
      try (intros [= <- <- <-]; split; (lia || reflexivity)).
    destruct (int_of rank); cbn [bind];
      intros [= <- <- <-]; split; (lia || reflexivity).
Qed.

Lemma scan_hand_counts (hand : list Card) (v0 : Z) (n0 : nat) (l0 : bool) v n l :
  scan_hand hand (v0, n0, l0) = Ok (v, n, l) ->
  n = (n0 + length (List.filter is_ace hand))%nat
  /\ l = l0 || card_in lovers_card hand.
Proof.
  revert v0 n0 l0. induction hand as [|c hand IH]; intros v0 n0 l0 H.
  - simpl in H. injection H as <- <- <-. simpl. split; [lia | now rewrite orb_false_r].
  - cbn [scan_hand] in H.
    destruct (scan_card c (v0, n0, l0)) as [[[v1 n1] l1]|e] eqn:Hc;
      cbn [bind] in H; [|discriminate].
    apply scan_card_counts in Hc as [-> ->].
    apply IH in H as [-> ->].
    unfold card_in. cbn [List.filter existsb].
    destruct (is_ace c); cbn [length]; split; try lia; now rewrite orb_assoc.
Qed.

Lemma calculate_hand_value_unfold (hand : list Card) v n l :
  scan_hand hand (0, O, false) = Ok (v, n, l) ->
  calculate_hand_value hand = Ok (finish_hand l (optimize_aces n v)).
Proof. intros H. unfold calculate_hand_value. rewrite H. reflexivity. Qed.

(** C2.  For every hand whose cards can be scored, the aces are resolved one
    after the other on the running total: each adds ten exactly when that
    strictly reduces the distance of the magnitude to 23 and keeps the
    magnitude at most 23 ([aces_resolved], which fixes the outcome); a ten
    that was added never leaves the magnitude above 23; and the hand
    10 of Wands, 10 of Cups, ace of Swords is worth 21 and is not busted. *)
Theorem ace_resolution_sequential :
  (forall hand v n l,
      scan_hand hand (0, O, false) = Ok (v, n, l) ->
      n = length (List.filter is_ace hand)
      /\ exists w, aces_resolved n v w
                   /\ (forall w', aces_resolved n v w' -> w' = w)
                   /\ calculate_hand_value hand = Ok (finish_hand l w))
  /\ (forall n v, optimize_aces (S n) v = optimize_aces n v + 10 ->
                  Z.abs (optimize_aces (S n) v) <= 23
                  /\ distance_from_23 (optimize_aces (S n) v)
                     < distance_from_23 (optimize_aces n v))
  /\ (forall n v, optimize_aces (S n) v = optimize_aces n v + 10
                  \/ optimize_aces (S n) v = optimize_aces n v)
  /\ calculate_hand_value [("10","W"); ("10","C"); ("1","S")] = Ok (21, false).
Proof.
  split; [|split; [|split]].
  - intros hand v n l H.
    destruct (scan_hand_counts _ _ _ _ _ _ _ H) as [Hn _]. simpl in Hn.
    split; [exact Hn|].
    exists (optimize_aces n v). split; [apply optimize_aces_resolved|]. split.
    + intros w' Hw'. now apply aces_resolved_optimize.
    + now apply calculate_hand_value_unfold.
  - intros n v H. rewrite optimize_aces_last in *.
    set (a := optimize_aces n v) in *.
    unfold distance_from_23. rewrite H. unfold ace_step in H.
    destruct (Z.ltb_spec (Z.abs (Z.abs (a + 10) - 23)) (Z.abs (Z.abs a - 23)));
      destruct (Z.leb_spec (Z.abs (a + 10)) 23); simpl in H; lia.
  - intros n v. rewrite optimize_aces_last. unfold ace_step.
    destruct (_ && _); [left | right]; reflexivity.
  - reflexivity.
Qed.

Lemma ace_resolution_sequential_witness :
  scan_hand [("10","W"); ("10","C"); ("1","S")] (0, O, false) = Ok (21, 1%nat, false)
  /\ exists w, aces_resolved 1 21 w /\ calculate_hand_value
       [("10","W"); ("10","C"); ("1","S")] = Ok (finish_hand false w).
Proof.
  split; [reflexivity|].
  destruct (proj1 ace_resolution_sequential
              [("10","W"); ("10","C"); ("1","S")] 21 1%nat false eq_refl)
    as [_ [w [Hw [_ Hc]]]].
  exists w. split; assumption.
Defined.

(** ** The Lovers *)

Lemma resolve_lovers_plus_iff (w : Z) :
  resolve_lovers w = w + 6 <->
  Z.abs (w + 6) <= 23
  /\ (23 < Z.abs (w - 6) \/ distance_from_23 (w + 6) < distance_from_23 (w - 6)).
Proof.
  unfold resolve_lovers, distance_from_23, dist_ltb.
  destruct (Z.leb_spec (Z.abs (w + 6)) 23);
    destruct (Z.leb_spec (Z.abs (w - 6)) 23);
    try destruct (Z.ltb_spec (Z.abs (Z.abs (w + 6) - 23)) (Z.abs (Z.abs (w - 6) - 23)));
    lia.
Qed.

Lemma resolve_lovers_cases (w : Z) :
  resolve_lovers w = w + 6 \/ resolve_lovers w = w - 6.
Proof. unfold resolve_lovers. destruct (dist_ltb _ _); [left | right]; reflexivity. Qed.

(** A hand of the Lovers alone: plus six and minus six are equally far
    from 23, the code takes minus six, the rule that breaks ties toward plus
    six takes plus six. *)
Lemma lovers_tie_goes_to_minus :
  distance_from_23 (0 + 6) = distance_from_23 (0 - 6)
  /\ scan_hand [lovers_card] (0, O, false) = Ok (0, O, true)
  /\ calculate_hand_value [lovers_card] = Ok (-6, false)
  /\ lovers_nearest_plus_on_tie 0 = 6
  /\ calculate_hand_value [lovers_card]
     <> Ok (lovers_nearest_plus_on_tie 0, 23 <? Z.abs (lovers_nearest_plus_on_tie 0)).
Proof. repeat split; try reflexivity. discriminate. Qed.

(** C3 (amended).  For every hand that holds the Lovers and can be scored,
    with [w] the total after the aces: the result is [w + 6] or [w - 6];
    it is [w + 6] exactly when [w + 6] stays within 23 in magnitude and
    either [w - 6] does not or [w + 6] is strictly nearer to 23, that is
    exactly for [w] in -29..-18 or 1..17; otherwise, in particular when
    both are equally near or both pass 23, it is [w - 6]. *)
Theorem lovers_resolution :
  forall hand v n l,
    scan_hand hand (0, O, false) = Ok (v, n, l) ->
    card_in lovers_card hand = true ->
    let w := optimize_aces n v in
    exists r,
      calculate_hand_value hand = Ok (r, 23 <? Z.abs r)
      /\ (r = w + 6 \/ r = w - 6)
      /\ (r = w + 6 <->
          Z.abs (w + 6) <= 23
          /\ (23 < Z.abs (w - 6)
              \/ distance_from_23 (w + 6) < distance_from_23 (w - 6)))
      /\ (r = w + 6 <-> -29 <= w <= -18 \/ 1 <= w <= 17)
      /\ (Z.abs (w + 6) <= 23 -> Z.abs (w - 6) <= 23 ->
          distance_from_23 (w + 6) = distance_from_23 (w - 6) -> r = w - 6)
      /\ (23 < Z.abs (w + 6) -> r = w - 6).
Proof.
  intros hand v n l H Hl w.
  destruct (scan_hand_counts _ _ _ _ _ _ _ H) as [_ ->]. rewrite Hl in H. simpl in H.
  exists (resolve_lovers w).
  split; [rewrite (calculate_hand_value_unfold _ _ _ _ H); reflexivity|].
  split; [apply resolve_lovers_cases|].
  split; [apply resolve_lovers_plus_iff|].
  pose proof (resolve_lovers_plus_iff w) as Hiff.
  pose proof (resolve_lovers_cases w) as Hc.
  unfold distance_from_23 in *.
  repeat split; intros; lia.
Qed.

Lemma lovers_resolution_witness :
  exists r, calculate_hand_value [("10","W"); lovers_card] = Ok (r, 23 <? Z.abs r)
            /\ (r = 10 + 6 \/ r = 10 - 6).
Proof.
  destruct (lovers_resolution [("10","W"); lovers_card] 10 O true eq_refl eq_refl)
    as [r [Hr [Hc _]]].
  exists r. split; assumption.
Defined.

(** ** Raising *)

Lemma lookup_update_player_eq (g : GameState.t) (seat : nat) f p :
  GameState.players g !! seat = Some p ->
  GameState.players (update_player seat f g) !! seat = Some (f p).
Proof.
  intros H. unfold update_player. simpl.
  rewrite list_lookup_alter_eq, H. reflexivity.
Qed.

Lemma lookup_update_player_ne (g : GameState.t) (seat q : nat) f :
  q <> seat ->
  GameState.players (update_player seat f g) !! q = GameState.players g !! q.
Proof.
  intros H. unfold update_player. simpl.
  apply list_lookup_alter_ne. congruence.
Qed.

Lemma lookup_reopen_action (seat q : nat) (ps : list Player.t) :
  reopen_action seat ps !! q =
  (fun p => if negb (Nat.eqb q seat) && negb (Player.has_folded p) && (0 <? Player.credits p)
            then Player.set_has_acted false p else p) <$> ps !! q.
Proof. unfold reopen_action. apply list_lookup_imap. Qed.

(** C5.  A raise by the player at [seat]: the amount paid is the call
    difference plus the raise, or all the remaining credits when those are
    fewer; it leaves the credits, joins the seat's bet and the pot; the table
    bet becomes the raiser's new bet; the raiser has acted; every other seat
    that has not folded and still has credits has its acted flag cleared, and
    the other seats are left as they were. *)
Theorem player_raise_reopens_action :
  forall (g : GameState.t) (seat : nat) (raise_amount : Z) (player : Player.t),
    GameState.players g !! seat = Some player ->
    let call_difference := GameState.current_bet g - Player.current_bet player in
    let total := Z.min (Player.credits player) (call_difference + raise_amount) in
    exists g',
      player_raise seat raise_amount g = Ok (total, g')
      /\ (Player.credits player < call_difference + raise_amount ->
          total = Player.credits player)
      /\ (call_difference + raise_amount <= Player.credits player ->
          total = call_difference + raise_amount)
      /\ GameState.players g' !! seat =
         Some (Player.set_has_acted true
                 (Player.set_current_bet (Player.current_bet player + total)
                    (Player.set_credits (Player.credits player - total) player)))
      /\ GameState.pot g' = GameState.pot g + total
      /\ GameState.current_bet g' = Player.current_bet player + total
      /\ (forall q p, q <> seat -> GameState.players g !! q = Some p ->
            GameState.players g' !! q =
            Some (if negb (Player.has_folded p) && (0 <? Player.credits p)
                  then Player.set_has_acted false p else p))
      /\ length (GameState.players g') = length (GameState.players g)
      /\ GameState.draw_pile g' = GameState.draw_pile g
      /\ GameState.discard_pile g' = GameState.discard_pile g
      /\ GameState.community_cards g' = GameState.community_cards g
      /\ GameState.removed_pile g' = GameState.removed_pile g.
Proof.
  intros g seat raise_amount player Hp call_difference total.
  unfold player_raise, with_player. rewrite Hp.
  fold call_difference.
  assert (Ht : (if Player.credits player <? call_difference + raise_amount
                then Player.credits player else call_difference + raise_amount) = total).
  { unfold total. destruct (Z.ltb_spec (Player.credits player)
                              (call_difference + raise_amount)); lia. }
  rewrite Ht. eexists. split; [reflexivity|].
  split; [unfold total; lia|]. split; [unfold total; lia|].
  split.
  { erewrite lookup_update_player_eq; [reflexivity|].
    cbn [GameState.players GameState.set_players GameState.set_current_bet
         GameState.set_pot update_player].
    rewrite lookup_reopen_action, list_lookup_alter_eq, Hp. cbn.
    rewrite Nat.eqb_refl. cbn. reflexivity. }
  split; [reflexivity|]. split; [reflexivity|].
  split.
  { intros q p Hq Hqp.
    rewrite lookup_update_player_ne by assumption.
    cbn [GameState.players GameState.set_players GameState.set_current_bet
         GameState.set_pot update_player].
    rewrite lookup_reopen_action, list_lookup_alter_ne by congruence.
    rewrite Hqp. cbn.
    destruct (Nat.eqb_spec q seat) as [->|_]; [contradiction|]. reflexivity. }
  split.
  { unfold update_player. cbn. unfold reopen_action.
    now rewrite length_alter, length_imap, length_alter. }
  repeat split.
Qed.

(** ** The deal on the example table *)

Example dealt_table_hands :
  dealt_table = Ok the_dealt_table
  /\ map Player.hand (GameState.players the_dealt_table)
     = [[("8","T"); ("9","T")]; [("10","T"); ("11","T")]; [("12","T"); ("13","T")]]
  /\ GameState.community_cards the_dealt_table = [("14","T"); ("15","T"); ("16","T")]
  /\ GameState.discard_pile the_dealt_table = [("17","T")]
  /\ map Player.credits (GameState.players the_dealt_table) = [500; 499; 498]
  /\ total_cards_accounted_for the_dealt_table = 78.
Proof. vm_compute. repeat split. Qed.

Lemma player_raise_reopens_action_witness :
  exists g',
    player_raise 0 10 the_dealt_table = Ok (12, g')
    /\ GameState.current_bet g' = 12
    /\ map Player.has_acted (GameState.players g') = [true; false; false].
Proof.
  destruct (player_raise_reopens_action the_dealt_table 0 10
              (Player.mk "Han" 500 true [("8","T"); ("9","T")] 0 false false false false)
              eq_refl)
    as [g' [Hr [_ [_ [H0 [_ [Hb [Hq [Hlen _]]]]]]]]].
  exists g'. split; [exact Hr|]. split; [exact Hb|].
  vm_compute in Hr. injection Hr as <-. reflexivity.
Defined.

(** ** Discarding at the end of a turn *)

Lemma discard_card_out_of_range (g : GameState.t) (seat : nat) (p : Player.t) (d : Z) :
  GameState.players g !! seat = Some p ->
  d < 0 \/ len (Player.hand p) <= d ->
  discard_card seat d g = Raise ValueError.
Proof.
  intros Hp Hd. unfold discard_card, with_player. rewrite Hp.
  destruct (Z.ltb_spec d 0); destruct (Z.leb_spec (len (Player.hand p)) d);
    simpl; try reflexivity; lia.
Qed.

Lemma discard_step_out_of_range (g : GameState.t) (seat : nat) (p : Player.t) (d : Z) :
  GameState.players g !! seat = Some p ->
  d < 0 \/ len (Player.hand p) <= d ->
  discard_step seat (Some d) g = Ok g.
Proof.
  intros Hp Hd. unfold discard_step, with_player. rewrite Hp.
  destruct (Z.leb_spec 0 d); destruct (Z.ltb_spec d (len (Player.hand p)));
    simpl; try reflexivity; lia.
Qed.

(** C10.  When the discard index read at step 3 is an integer outside
    [0, len(hand)), step 3 discards nothing and raises nothing: the state,
    and with it the player's hand and the discard pile, is the one the
    earlier steps left, although [discard_card] itself would raise on that
    index; so the turn of a seat that stays in ends well in that state. *)
Theorem discard_index_out_of_range_ignored :
  forall (env : Env) (seat : nat) (action : Action) (g g2 : GameState.t)
         (player p2 : Player.t) (d : Z),
    GameState.players g !! seat = Some player ->
    Player.has_folded player = false ->
    default "fold" (bet_action action) <> "fold" ->
    turn_before_discard env seat action g = Ok (Some d, g2) ->
    GameState.players g2 !! seat = Some p2 ->
    d < 0 \/ len (Player.hand p2) <= d ->
    discard_step seat (Some d) g2 = Ok g2
    /\ discard_card seat d g2 = Raise ValueError
    /\ execute_player_turn env seat action g = Ok (true, g2).
Proof.
  intros env seat action g g2 player p2 d Hp Hf Hbet Hturn Hp2 Hd.
  split; [eapply discard_step_out_of_range; eassumption|].
  split; [eapply discard_card_out_of_range; eassumption|].
  unfold execute_player_turn, with_player. rewrite Hp, Hf.
  unfold turn_before_discard, with_player in Hturn. rewrite Hp in Hturn.
  destruct (if card_in devil_card (Player.hand player)
            then handle_devil_card env seat g else Ok g) as [g0|e];
    cbn [bind] in *; [|discriminate].
  destruct (String.eqb_spec (default "fold" (bet_action action)) "fold") as [E|_];
    [contradiction|].
  destruct (bet_step env seat action (default "fold" (bet_action action)) g0)
    as [g1|e]; cbn [bind] in *; [|discriminate].
  destruct (draw_step env seat action g1) as [[drew g2']|e];
    cbn [bind] in *; [|discriminate].
  destruct (ask_discard_step env seat action drew g2') as [di|e];
    cbn [bind] in *; [|discriminate].
  injection Hturn as -> ->.
  rewrite (discard_step_out_of_range g2 seat p2 d Hp2 Hd). reflexivity.
Qed.

Lemma discard_index_out_of_range_ignored_witness :
  exists g2,
    turn_before_discard quiet_env 0 call_draw_discard_5 the_dealt_table = Ok (Some 5, g2)
    /\ hand_of g2 0 = [("8","T"); ("9","T"); ("18","T")]
    /\ execute_player_turn quiet_env 0 call_draw_discard_5 the_dealt_table = Ok (true, g2).
Proof.
  eexists. split; [vm_compute; reflexivity|]. split; [reflexivity|].
  eapply discard_index_out_of_range_ignored.
  - reflexivity.
  - reflexivity.
  - discriminate.
  - vm_compute. reflexivity.
  - reflexivity.
  - right. vm_compute. discriminate.
Defined.

(** ** Making sure cards are available *)

Lemma ensure_cards_available_cases (shuffle : Shuffle) (n : Z) (g : GameState.t) :
  (n <= cards_remaining_in_draw_pile g ->
   ensure_cards_available shuffle n g = Ok g)
  /\ (cards_remaining_in_draw_pile g < n -> 0 < cards_in_discard_pile g ->
      ensure_cards_available shuffle n g
      = Ok (GameState.set_draw_pile
              (shuffle (GameState.draw_pile g ++ GameState.discard_pile g))
              (GameState.set_discard_pile [] g)))
  /\ (cards_remaining_in_draw_pile g < n -> cards_in_discard_pile g = 0 ->
      ensure_cards_available shuffle n g = Raise RuntimeError).
Proof.
  unfold ensure_cards_available.
  destruct (Z.ltb_spec (cards_remaining_in_draw_pile g) n);
    destruct (Z.ltb_spec 0 (cards_in_discard_pile g));
    repeat split; intros; try lia; reflexivity.
Qed.

(** C9 does not hold of the code.  At a table of 36 seats the hand reaches
    the dealing of the turn card, which asks for two cards, with an empty
    draw pile and one discarded card: the call does not raise, whatever the
    shuffle; it returns with one card in the draw pile, and the second draw
    of [deal_turn] finds the pile empty (so does the whole hand).  Likewise,
    with one card in the draw pile and one in the discard pile, asking for
    the four cards of the Wheel of Fortune does not raise and leaves two. *)
Theorem ensure_cards_available_too_few :
  (big_table_before_turn = Ok the_big_table_before_turn
   /\ total_cards_accounted_for the_big_table_before_turn = 78
   /\ GameState.draw_pile the_big_table_before_turn = []
   /\ GameState.discard_pile the_big_table_before_turn = [("5","T")]
   /\ (forall shuffle : Shuffle,
         ensure_cards_available shuffle 2 the_big_table_before_turn
         = Ok (GameState.set_draw_pile (shuffle [("5","T")])
                 (GameState.set_discard_pile [] the_big_table_before_turn))
         /\ ensure_cards_available shuffle 2 the_big_table_before_turn
            <> Raise RuntimeError)
   /\ deal_turn cut_eight the_big_table_before_turn = Raise NoneCard
   /\ play_hand quiet_env seats_1_and_2_draw (Some seats_1_and_2_draw) big_table
      = Raise NoneCard)
  /\ (total_cards_accounted_for low_table = 78
      /\ cards_remaining_in_draw_pile low_table + cards_in_discard_pile low_table = 2
      /\ (forall shuffle : Shuffle,
            ensure_cards_available shuffle 4 low_table
            = Ok (GameState.set_draw_pile (shuffle [("18","T"); ("17","T")])
                    (GameState.set_discard_pile [] low_table))
            /\ ensure_cards_available shuffle 4 low_table <> Raise RuntimeError)
      /\ (exists g, ensure_cards_available cut_eight 4 low_table = Ok g
                    /\ cards_remaining_in_draw_pile g = 2
                    /\ draw_cards 4 g = Raise NoneCard)).
Proof.
  split.
  - split; [vm_compute; reflexivity|].
    split; [vm_compute; reflexivity|].
    split; [vm_compute; reflexivity|].
    split; [vm_compute; reflexivity|].
    split.
    { intros shuffle.
      assert (E : ensure_cards_available shuffle 2 the_big_table_before_turn
                  = Ok (GameState.set_draw_pile (shuffle [("5","T")])
                          (GameState.set_discard_pile [] the_big_table_before_turn))).
      { apply (proj1 (proj2 (ensure_cards_available_cases shuffle 2
                               the_big_table_before_turn))); vm_compute; reflexivity. }
      split; [exact E | rewrite E; discriminate]. }
    split; vm_compute; reflexivity.
  - split; [vm_compute; reflexivity|]. split; [vm_compute; reflexivity|]. split.
    + intros shuffle. split; [reflexivity | discriminate].
    + eexists. split; [vm_compute; reflexivity|]. split; vm_compute; reflexivity.
Qed.

(** ** Completion of a betting round *)

(** What the loop of [is_betting_round_complete] computes. *)
Lemma all_acted_and_matched_iff (ps : list Player.t) (table_bet : Z) :
  all_acted_and_matched ps table_bet = true <->
  forall p, In p ps ->
    Player.has_acted p = true
    /\ (Player.credits p <> 0 -> table_bet <= Player.current_bet p).
Proof.
  induction ps as [|p ps IH]; simpl.
  - split; [intros _ p [] | reflexivity].
  - destruct (Player.has_acted p) eqn:Ha; simpl.
    + destruct (Z.eqb_spec (Player.credits p) 0) as [Hc|Hc].
      * rewrite IH. split.
        -- intros H q [<-|Hq]; [split; [assumption | contradiction] | now apply H].
        -- intros H q Hq. apply H. now right.
      * destruct (Z.ltb_spec (Player.current_bet p) table_bet) as [Hb|Hb].
        -- split; [discriminate|]. intros H.
           destruct (H p (or_introl eq_refl)) as [_ Hm]. specialize (Hm Hc). lia.
        -- rewrite IH. split.
           ++ intros H q [<-|Hq]; [split; [assumption | intros _; lia] | now apply H].
           ++ intros H q Hq. apply H. now right.
    + split; [discriminate|]. intros H.
      destruct (H p (or_introl eq_refl)) as [Hacted _]. congruence.
Qed.

(** The round is complete exactly when at most one seat has not folded, or
    every seat that has not folded has acted, all-in or not, and those
    with credits left have matched the table bet. *)
Lemma is_betting_round_complete_iff (g : GameState.t) :
  is_betting_round_complete g = true <->
  (length (get_active_players g) <= 1)%nat
  \/ forall p, In p (get_active_players g) ->
       Player.has_acted p = true
       /\ (Player.credits p <> 0 -> GameState.current_bet g <= Player.current_bet p).
Proof.
  unfold is_betting_round_complete.
  destruct (Nat.leb_spec (length (get_active_players g)) 1) as [Hl|Hl].
  - split; [now left | reflexivity].
  - rewrite all_acted_and_matched_iff. split; [now right|].
    intros [H|H]; [lia | exact H].
Qed.

(** C4 does not hold of the code.  Seat 1 posted the small blind with its last
    credit; seats 2 and 0, the only seats that have not folded and still have
    credits, have acted and matched the table bet; the round is reported as
    not complete, because the all-in seat has not acted.  The betting loop
    never gives that seat a turn: run from the deal it asks seats 2 and 0
    ten times each, until the iteration limit stops it, and a whole hand
    played from [short_stack_table] does so in each of its three rounds. *)
Theorem round_incomplete_with_all_in_blind :
  short_stack_dealt = Ok the_short_stack_dealt
  /\ short_stack_called = Ok the_short_stack_called
  /\ map Player.credits (GameState.players the_short_stack_called) = [496; 0; 496]
  /\ map Player.has_folded (GameState.players the_short_stack_called)
     = [false; false; false]
  /\ map Player.has_acted (GameState.players the_short_stack_called)
     = [true; false; true]
  /\ forallb (fun p => (Player.credits p =? 0)
                       || acted_and_matched the_short_stack_called p)
             (get_active_players the_short_stack_called) = true
  /\ is_betting_round_complete the_short_stack_called = false
  /\ (exists g,
        run_betting_round quiet_env (fun _ _ => call_action) None the_short_stack_dealt
        = Ok (ten_times_2_0, g)
        /\ is_betting_round_complete g = false)
  /\ (exists g,
        play_hand quiet_env (fun _ _ => call_action) None short_stack_table
        = Ok ([ten_times_2_0; ten_times_2_0; ten_times_2_0], g)).
Proof.
  split; [vm_compute; reflexivity|].
  split; [vm_compute; reflexivity|].
  split; [vm_compute; reflexivity|].
  split; [vm_compute; reflexivity|].
  split; [vm_compute; reflexivity|].
  split; [vm_compute; reflexivity|].
  split; [vm_compute; reflexivity|].
  split; [eexists; split; vm_compute; reflexivity|].
  eexists. vm_compute. reflexivity.
Qed.

(** ** Card accounting and the Wheel of Fortune *)

Lemma fold_left_hands (ps : list Player.t) (a : Z) :
  fold_left (fun total player => total + len (Player.hand player)) ps a
  = a + cards_in_hands ps.
Proof.
  revert a. induction ps as [|p ps IH]; intros a; simpl; [lia|].
  rewrite IH. lia.
Qed.

Lemma total_cards_sum (g : GameState.t) :
  total_cards_accounted_for g
  = len (GameState.draw_pile g) + len (GameState.discard_pile g)
    + len (GameState.community_cards g) + cards_in_hands (GameState.players g)
    + len (GameState.removed_pile g).
Proof.
  unfold total_cards_accounted_for, cards_remaining_in_draw_pile,
    cards_in_discard_pile, cards_in_removed_pile.
  rewrite fold_left_hands. lia.
Qed.

Lemma cards_in_hands_alter (ps : list Player.t) (i : nat) (f : Player.t -> Player.t) p :
  ps !! i = Some p ->
  cards_in_hands (alter f i ps)
  = cards_in_hands ps - len (Player.hand p) + len (Player.hand (f p)).
Proof.
  revert i. induction ps as [|q ps IH]; intros [|i] H; simpl in H; try discriminate.
  - injection H as ->. cbn. lia.
  - cbn. rewrite (IH i H). lia.
Qed.

Lemma len_app {A : Type} (l k : list A) : len (l ++ k) = len l + len k.
Proof. unfold len. rewrite length_app. lia. Qed.

Lemma total_set_hand_of (g : GameState.t) (seat : nat) (h : list Card) p :
  GameState.players g !! seat = Some p ->
  total_cards_accounted_for (set_hand_of seat h g)
  = total_cards_accounted_for g - len (Player.hand p) + len h.
Proof.
  intros Hp. rewrite !total_cards_sum. unfold set_hand_of, update_player. cbn.
  rewrite (cards_in_hands_alter _ _ _ p Hp). cbn. lia.
Qed.

Lemma total_hand_append (g : GameState.t) (seat : nat) (cs : list Card) p :
  GameState.players g !! seat = Some p ->
  total_cards_accounted_for (hand_append seat cs g)
  = total_cards_accounted_for g + len cs.
Proof.
  intros Hp. rewrite !total_cards_sum. unfold hand_append, update_player. cbn.
  rewrite (cards_in_hands_alter _ _ _ p Hp). cbn. rewrite len_app. lia.
Qed.

Lemma total_discard_append (g : GameState.t) (cs : list Card) :
  total_cards_accounted_for (discard_append cs g) = total_cards_accounted_for g + len cs.
Proof. rewrite !total_cards_sum. unfold discard_append. cbn. rewrite len_app. lia. Qed.

Lemma total_removed_append (g : GameState.t) (cs : list Card) :
  total_cards_accounted_for (removed_append cs g) = total_cards_accounted_for g + len cs.
Proof. rewrite !total_cards_sum. unfold removed_append. cbn. rewrite len_app. lia. Qed.

Lemma total_set_draw_pile (g : GameState.t) (cs : list Card) :
  total_cards_accounted_for (GameState.set_draw_pile cs g)
  = total_cards_accounted_for g - len (GameState.draw_pile g) + len cs.
Proof. rewrite !total_cards_sum. cbn. lia. Qed.

Lemma list_remove_length (c : Card) (l h : list Card) :
  list_remove c l = Ok h -> len l = len h + 1.
Proof.
  revert h. induction l as [|x l IH]; intros h; simpl; [discriminate|].
  destruct (card_eqb x c).
  - intros [= <-]. unfold len. simpl. lia.
  - destruct (list_remove c l) as [h'|e]; simpl; [|discriminate].
    intros [= <-]. specialize (IH h' eq_refl). unfold len in *. simpl. lia.
Qed.

Lemma hand_of_lookup (g : GameState.t) (seat : nat) p :
  GameState.players g !! seat = Some p -> hand_of g seat = Player.hand p.
Proof. intros H. unfold hand_of. now rewrite H. Qed.

(** Moving a held card to the removed pile keeps every card accounted for. *)
Lemma total_move_to_removed (seat : nat) (c : Card) (g g' : GameState.t) :
  move_to_removed seat c g = Ok g' ->
  total_cards_accounted_for g' = total_cards_accounted_for g.
Proof.
  unfold move_to_removed.
  destruct (card_in c (hand_of g seat)) eqn:Hin; [|now intros [= <-]].
  destruct (list_remove c (hand_of g seat)) as [h|e] eqn:Hr; simpl; [|discriminate].
  intros [= <-]. rewrite total_removed_append.
  unfold hand_of in *. destruct (GameState.players g !! seat) as [p|] eqn:Hp;
    [|discriminate].
  rewrite (total_set_hand_of g seat h p Hp).
  apply list_remove_length in Hr. unfold len at 3. simpl. lia.
Qed.

Lemma draw_cards_take (n : nat) (g : GameState.t) :
  (n <= length (GameState.draw_pile g))%nat ->
  draw_cards n g
  = Ok (take n (GameState.draw_pile g),
        GameState.set_draw_pile (drop n (GameState.draw_pile g)) g).
Proof.
  revert g. induction n as [|n IH]; intros g Hn.
  - simpl. destruct g. reflexivity.
  - cbn [draw_cards]. unfold draw_card, draw.
    destruct (GameState.draw_pile g) as [|c cs] eqn:Hd; [simpl in Hn; lia|].
    cbn [bind]. rewrite IH by (cbn; simpl in Hn; lia). cbn. reflexivity.
Qed.

Lemma card_in_In (c : Card) (l : list Card) : card_in c l = true <-> In c l.
Proof.
  unfold card_in. rewrite existsb_exists. split.
  - intros [x [Hx E]]. destruct (card_eqb_spec c x); [now subst | discriminate].
  - intros H. exists c. split; [exact H | apply card_eqb_refl].
Qed.

(** Keeping distinct cards out of distinct drawn cards: the kept and the
    rest are as many as were drawn. *)
Lemma kept_and_rest (drawn kept : list Card) :
  NoDup drawn -> NoDup kept -> (forall c, In c kept -> In c drawn) ->
  len kept + len (not_kept drawn kept) = len drawn.
Proof.
  intros Hd Hk Hsub. unfold not_kept, len.
  pose proof (filter_length (fun c => card_in c kept) drawn) as Hf.
  assert (Hp : List.filter (fun c => card_in c kept) drawn ≡ₚ kept).
  { apply NoDup_Permutation; [apply NoDup_ListNoDup, List.NoDup_filter, NoDup_ListNoDup, Hd | exact Hk |].
    intros x. rewrite !list_elem_of_In, filter_In, card_in_In. split.
    - now intros [_ H].
    - intros H. split; [now apply Hsub | exact H]. }
  apply Permutation_length in Hp. lia.
Qed.

Lemma combinations_sublist {A : Type} (l k : list A) (n : nat) :
  In k (combinations l n) -> k `sublist_of` l.
Proof.
  revert k n. induction l as [|x l IH]; intros k [|n] H; simpl in H.
  - destruct H as [<-|[]]. constructor.
  - destruct H.
  - destruct H as [<-|[]]. apply sublist_nil_l.
  - apply in_app_or in H as [H|H].
    + apply in_map_iff in H as [k' [<- Hk']]. apply sublist_skip. eapply IH; eauto.
    + apply sublist_cons. eapply IH; eauto.
Qed.

Lemma wheel_scan_choice (current_hand : list Card) (candidates : list (list Card))
    (best : list Card) (d : dist) kept d' :
  wheel_scan current_hand candidates best d = Ok (kept, d') ->
  kept = best \/ In kept candidates.
Proof.
  revert best d. induction candidates as [|c cs IH]; intros best d; simpl.
  - intros [= <- <-]. now left.
  - destruct (hand_distance (current_hand ++ c)) as [td|e]; simpl; [|discriminate].
    destruct (dist_ltb td d); intros H; apply IH in H as [->|H]; auto.
Qed.

(** What the AI keeps is a selection of the drawn cards, in their order. *)
Lemma choose_wheel_sublist (current_hand drawn_cards kept : list Card) :
  choose_wheel_of_fortune_cards current_hand drawn_cards = Ok kept ->
  kept `sublist_of` drawn_cards.
Proof.
  unfold choose_wheel_of_fortune_cards.
  destruct (hand_distance current_hand) as [d|e]; simpl; [|discriminate].
  destruct (wheel_scan _ _ _ _) as [[k d']|e] eqn:Hs; simpl; [|discriminate].
  intros [= <-]. apply wheel_scan_choice in Hs as [->|Hin]; [apply sublist_nil_l|].
  apply in_concat in Hin as [cs [Hcs Hin]].
  apply in_map_iff in Hcs as [n [<- _]]. eapply combinations_sublist; eauto.
Qed.

Lemma kept_by_indices_in (drawn : list Card) (l : list Z) (c : Card) :
  In c (kept_by_indices drawn l) ->
  exists i, In i l /\ 0 <= i /\ drawn !! Z.to_nat i = Some c.
Proof.
  unfold kept_by_indices. rewrite <- list_elem_of_In, list_elem_of_omap.
  intros [i [Hi Hf]]. exists i. rewrite <- list_elem_of_In. split; [exact Hi|].
  destruct (Z.leb_spec 0 i); simpl in Hf; [|discriminate].
  destruct (i <? 4); [auto | discriminate].
Qed.

Lemma kept_by_indices_NoDup (drawn : list Card) (l : list Z) :
  NoDup drawn -> NoDup l -> NoDup (kept_by_indices drawn l).
Proof.
  intros Hd Hl. induction Hl as [|i l Hi Hl IH]; [constructor|].
  unfold kept_by_indices. cbn [omap list_omap].
  destruct (if (0 <=? i) && (i <? 4) then drawn !! Z.to_nat i else None) as [c|] eqn:Hc;
    [|exact IH].
  constructor; [|exact IH].
  rewrite list_elem_of_In. intros Hin.
  apply kept_by_indices_in in Hin as [j [Hj [Hj0 Hjc]]].
  destruct (Z.leb_spec 0 i); simpl in Hc; [|discriminate].
  destruct (i <? 4); [|discriminate].
  simpl in Hc.
  assert (E : Z.to_nat i = Z.to_nat j) by exact (NoDup_lookup drawn _ _ c Hd Hc Hjc).
  assert (i = j) by lia. subst j. apply Hi. now apply list_elem_of_In.
Qed.

Lemma not_kept_nil (drawn : list Card) : not_kept drawn [] = drawn.
Proof.
  unfold not_kept. induction drawn as [|c l IH]; [reflexivity|].
  change (List.filter (fun c => negb (card_in c [])) (c :: l))
    with (c :: List.filter (fun c => negb (card_in c [])) l).
  now rewrite IH.
Qed.

Lemma len_take_drop {A : Type} (n : nat) (l : list A) :
  len (take n l) + len (drop n l) = len l.
Proof. unfold len. rewrite <- (take_drop n l) at 3. rewrite length_app. lia. Qed.

(** Whenever the Wheel of Fortune handler runs to its end on four distinct
    cards, one card fewer is accounted for. *)
Lemma wheel_of_fortune_effect_total (env : Env) (seat : nat) (g g' : GameState.t) p :
  GameState.players g !! seat = Some p ->
  4 <= len (GameState.draw_pile g) ->
  NoDup (take 4 (GameState.draw_pile g)) ->
  (forall g1 drawn l, wheel_keep env g1 seat drawn = KeepIndices l -> NoDup l) ->
  wheel_of_fortune_effect env seat g = Ok g' ->
  total_cards_accounted_for g' = total_cards_accounted_for g - 1.
Proof.
  intros Hp H4 Hnd Hkeep. unfold wheel_of_fortune_effect, ensure_cards_available,
    cards_remaining_in_draw_pile.
  destruct (Z.ltb_spec (len (GameState.draw_pile g)) 4); [lia|]. cbn [bind].
  rewrite draw_cards_take by (unfold len in H4; lia). cbn [bind].
  set (drawn := take 4 (GameState.draw_pile g)) in *.
  set (g1 := GameState.set_draw_pile (drop 4 (GameState.draw_pile g)) g).
  assert (Hp1 : GameState.players g1 !! seat = Some p) by exact Hp.
  assert (Ht1 : total_cards_accounted_for g1 = total_cards_accounted_for g - len drawn).
  { unfold g1. rewrite total_set_draw_pile.
    pose proof (len_take_drop 4 (GameState.draw_pile g)). fold drawn in H0. lia. }
  assert (Hld : len drawn = 4).
  { unfold drawn, len. rewrite length_take_le; [reflexivity|]. unfold len in H4. lia. }
  unfold with_player. rewrite Hp1.
  assert (Hfinal : forall h kept,
            len (Player.hand p) = len h + 1 ->
            len kept + len (not_kept drawn kept) = len drawn ->
            total_cards_accounted_for
              (discard_append (not_kept drawn kept)
                 (hand_append seat kept (set_hand_of seat h g1)))
            = total_cards_accounted_for g - 1).
  { intros h kept Hh Hk. rewrite total_discard_append.
    assert (Hp2 : GameState.players (set_hand_of seat h g1) !! seat
                  = Some (Player.set_hand h p))
      by (apply lookup_update_player_eq; exact Hp1).
    rewrite (total_hand_append _ seat kept _ Hp2).
    rewrite (total_set_hand_of g1 seat h p Hp1). lia. }
  destruct (Player.is_human p).
  - destruct (list_remove ("10", "T") (Player.hand p)) as [h|e] eqn:Hh;
      cbn [bind]; [|discriminate].
    apply list_remove_length in Hh.
    destruct (wheel_keep env (set_hand_of seat h g1) seat drawn) as [| |l] eqn:Hw.
    + intros [= <-]. rewrite <- (not_kept_nil drawn) at 1.
      apply (Hfinal h [] Hh). rewrite not_kept_nil. unfold len at 1. simpl. lia.
    + intros [= <-]. rewrite <- (not_kept_nil drawn) at 1.
      apply (Hfinal h [] Hh). rewrite not_kept_nil. unfold len at 1. simpl. lia.
    + intros [= <-]. apply (Hfinal h _ Hh).
      apply kept_and_rest; [exact Hnd | |].
      * apply kept_by_indices_NoDup; [exact Hnd | eapply Hkeep; eauto].
      * intros c Hc. apply kept_by_indices_in in Hc as [i [_ [_ Hi]]].
        apply list_elem_of_In. eapply list_elem_of_lookup_2; eauto.
  - destruct (list_remove ("10", "T") (Player.hand p)) as [h|e] eqn:Hh;
      cbn [bind]; [|discriminate].
    apply list_remove_length in Hh.
    destruct (choose_wheel_of_fortune_cards h drawn) as [kept|e] eqn:Hc;
      cbn [bind]; [|discriminate].
    intros [= <-]. apply (Hfinal h kept Hh).
    apply choose_wheel_sublist in Hc.
    apply kept_and_rest; [exact Hnd | eapply sublist_NoDup; eauto |].
    intros c Hin. apply list_elem_of_In. eapply sublist_subseteq; eauto.
    now apply list_elem_of_In.
Qed.

(** The same for [apply_effect] on the registry entry of trump 10: the
    card that the handler took out of the hand is not put on the removed
    pile afterwards (a second copy, if the hand held one, would be moved
    there, which changes no count). *)
Lemma apply_wheel_of_fortune_total (env : Env) (seat : nat) (g g' : GameState.t) p t :
  get_trionfi_effect ("10", "T") = Some t ->
  GameState.players g !! seat = Some p ->
  4 <= len (GameState.draw_pile g) ->
  NoDup (take 4 (GameState.draw_pile g)) ->
  (forall g1 drawn l, wheel_keep env g1 seat drawn = KeepIndices l -> NoDup l) ->
  apply_effect env t seat g = Ok g' ->
  total_cards_accounted_for g' = total_cards_accounted_for g - 1.
Proof.
  intros Ht Hp H4 Hnd Hkeep. vm_compute in Ht. injection Ht as <-.
  unfold apply_effect. cbn [TrionfiEffect.effect TrionfiEffect.stays_in_hand
                            TrionfiEffect.number run_handler negb].
  destruct (wheel_of_fortune_effect env seat g) as [g1|e] eqn:Hw;
    cbn [bind]; [|discriminate].
  intros Hm. apply total_move_to_removed in Hm. rewrite Hm.
  eapply wheel_of_fortune_effect_total; eauto.
Qed.

(** ** Operations that keep every card accounted for *)

Lemma cards_in_hands_alter_same (ps : list Player.t) (i : nat) (f : Player.t -> Player.t) :
  (forall p, Player.hand (f p) = Player.hand p) ->
  cards_in_hands (alter f i ps) = cards_in_hands ps.
Proof.
  intros Hf. revert i. induction ps as [|q ps IH]; intros [|i]; cbn; try reflexivity.
  - now rewrite Hf.
  - now rewrite IH.
Qed.

Lemma total_update_player_same (g : GameState.t) (seat : nat) (f : Player.t -> Player.t) :
  (forall p, Player.hand (f p) = Player.hand p) ->
  total_cards_accounted_for (update_player seat f g) = total_cards_accounted_for g.
Proof.
  intros Hf. rewrite !total_cards_sum. unfold update_player. cbn.
  now rewrite cards_in_hands_alter_same.
Qed.

Lemma total_player_fold (seat : nat) (g : GameState.t) :
  total_cards_accounted_for (player_fold seat g) = total_cards_accounted_for g.
Proof. apply total_update_player_same. reflexivity. Qed.

Lemma total_ante_up (seat : nat) (g : GameState.t) :
  total_cards_accounted_for (ante_up seat g) = total_cards_accounted_for g.
Proof.
  unfold ante_up. rewrite <- (total_update_player_same g seat
    (fun p => Player.set_credits (Player.credits p - GameState.min_bet g) p))
    by reflexivity.
  rewrite !total_cards_sum. reflexivity.
Qed.

Lemma total_ensure_cards_available (sh : Shuffle) (n : Z) (g g' : GameState.t) :
  (forall l, length (sh l) = length l) ->
  ensure_cards_available sh n g = Ok g' ->
  total_cards_accounted_for g' = total_cards_accounted_for g.
Proof.
  intros Hsh. unfold ensure_cards_available.
  destruct (_ <? n); [|now intros [= <-]].
  destruct (0 <? _); [|discriminate]. intros [= <-].
  rewrite !total_cards_sum. unfold reshuffle_discard_into_draw. cbn.
  unfold len. rewrite Hsh, length_app. simpl. lia.
Qed.

Lemma total_draw_card (g g' : GameState.t) (c : Card) :
  draw_card g = Ok (c, g') ->
  total_cards_accounted_for g' = total_cards_accounted_for g - 1
  /\ GameState.players g' = GameState.players g.
Proof.
  unfold draw_card, draw. destruct (GameState.draw_pile g) as [|x cs] eqn:Hd;
    [discriminate|].
  intros [= <- <-]. rewrite total_set_draw_pile, Hd. unfold len. simpl.
  split; [lia | reflexivity].
Qed.

Lemma total_community_append (g : GameState.t) (cs : list Card) :
  total_cards_accounted_for (community_append cs g) = total_cards_accounted_for g + len cs.
Proof. rewrite !total_cards_sum. unfold community_append. cbn. rewrite len_app. lia. Qed.

Lemma len_one {A : Type} (x : A) : len [x] = 1.
Proof. reflexivity. Qed.

Lemma total_discard_listed (target : nat) (cards : list Card) (g g' : GameState.t) :
  discard_listed target cards g = Ok g' ->
  total_cards_accounted_for g' = total_cards_accounted_for g.
Proof.
  revert g. induction cards as [|c cards IH]; intros g; simpl; [now intros [= <-]|].
  destruct (list_remove c (hand_of g target)) as [h|e] eqn:Hr; simpl; [|discriminate].
  intros H. apply IH in H. rewrite H, total_discard_append.
  unfold hand_of in Hr. destruct (GameState.players g !! target) as [p|] eqn:Hp;
    [|discriminate].
  rewrite (total_set_hand_of g target h p Hp). apply list_remove_length in Hr.
  rewrite len_one. lia.
Qed.

Lemma len_delete {A : Type} (i : nat) (l : list A) (x : A) :
  l !! i = Some x -> len l = len (delete i l) + 1.
Proof.
  intros H. unfold len. rewrite length_delete by eauto.
  apply lookup_lt_Some in H. lia.
Qed.

Lemma total_pop_to_discard (q i : nat) (g g' : GameState.t) :
  pop_to_discard q i g = Ok g' ->
  total_cards_accounted_for g' = total_cards_accounted_for g.
Proof.
  unfold pop_to_discard. destruct (hand_of g q !! i) as [card|] eqn:Hc; [|discriminate].
  intros [= <-]. rewrite total_discard_append.
  unfold hand_of in *. destruct (GameState.players g !! q) as [p|] eqn:Hp;
    [|discriminate].
  rewrite (total_set_hand_of g q _ p Hp). unfold pop_at.
  rewrite (len_delete i (Player.hand p) card Hc), len_one. lia.
Qed.

Lemma total_emperor_effect (env : Env) (seat : nat) (g g' : GameState.t) :
  emperor_effect env seat g = Ok g' ->
  total_cards_accounted_for g' = total_cards_accounted_for g.
Proof.
  unfold emperor_effect.
  destruct (effect_targets seat g) as [|t0 ts]; [now intros [= <-]|].
  destruct ((t0 :: ts) !! emperor_target env g seat (t0 :: ts)) as [target|];
    [|discriminate].
  unfold with_player. destruct (GameState.players g !! target) as [tp|]; [|discriminate].
  destruct (Player.is_human tp).
  - repeat match goal with
           | |- context [if ?b then _ else _] => destruct b
           | |- context [let '(_, _) := ?x in _] => destruct x
           | |- context [match ?x with Some _ => _ | None => _ end] => destruct x
           end;
      try discriminate;
      try (intros [= <-]; (apply total_ante_up || apply total_player_fold));
      apply total_discard_listed.
  - destruct (calculate_hand_value (Player.hand tp)) as [[value busted]|e];
      cbn [bind]; [|discriminate].
    repeat match goal with
           | |- context [if ?b then _ else _] => destruct b
           | |- context [let '(_, _) := ?x in _] => destruct x
           | |- context [match ?x with Some _ => _ | None => _ end] => destruct x
           end;
      try discriminate;
      try (intros [= <-]; (apply total_ante_up || apply total_player_fold));
      apply total_discard_listed.
Qed.

Lemma total_hierophant_loop (env : Env) (seat : nat) (seats : list nat)
    (g g' : GameState.t) :
  hierophant_loop env seat seats g = Ok g' ->
  total_cards_accounted_for g' = total_cards_accounted_for g.
Proof.
  revert g. induction seats as [|q seats IH]; intros g; simpl; [now intros [= <-]|].
  unfold with_player. destruct (GameState.players g !! q) as [p|]; [|discriminate].
  assert (Hstep : forall r : result GameState.t,
            (forall g1, r = Ok g1 ->
               total_cards_accounted_for g1 = total_cards_accounted_for g) ->
            (let* g := r in hierophant_loop env seat seats g) = Ok g' ->
            total_cards_accounted_for g' = total_cards_accounted_for g).
  { intros [g1|e] Hr; simpl; [|discriminate]. intros H. apply IH in H.
    rewrite H. now apply Hr. }
  apply Hstep. intros g1.
  destruct (skipped_by_effect seat q p); [now intros [= <-]|].
  destruct (Player.is_human p).
  - destruct (hierophant_reveal env g q).
    + destruct (calculate_hand_value (Player.hand p)); simpl; [|discriminate].
      now intros [= <-].
    + intros [= <-]. apply total_player_fold.
  - destruct (calculate_hand_value (Player.hand p)) as [[value busted]|e];
      simpl; [|discriminate].
    destruct (busted || (Z.abs value <? 8)); intros [= <-];
      [apply total_player_fold | reflexivity].
Qed.

Lemma total_chariot_loop (env : Env) (seat : nat) (seats : list nat)
    (g g' : GameState.t) :
  chariot_loop env seat seats g = Ok g' ->
  total_cards_accounted_for g' = total_cards_accounted_for g.
Proof.
  revert g. induction seats as [|q seats IH]; intros g; simpl; [now intros [= <-]|].
  unfold with_player. destruct (GameState.players g !! q) as [p|]; [|discriminate].
  assert (Hstep : forall r : result GameState.t,
            (forall g1, r = Ok g1 ->
               total_cards_accounted_for g1 = total_cards_accounted_for g) ->
            (let* g := r in chariot_loop env seat seats g) = Ok g' ->
            total_cards_accounted_for g' = total_cards_accounted_for g).
  { intros [g1|e] Hr; simpl; [|discriminate]. intros H. apply IH in H.
    rewrite H. now apply Hr. }
  apply Hstep. intros g1.
  destruct (skipped_by_effect seat q p); [now intros [= <-]|].
  destruct (Player.is_human p).
  - destruct (Nat.eqb _ 0); [intros [= <-]; apply total_player_fold|].
    destruct (chariot_discard env g q); [|intros [= <-]; apply total_player_fold].
    destruct (index_in_hand _ _); [apply total_pop_to_discard | discriminate].
  - destruct (Nat.eqb _ 0); [intros [= <-]; apply total_player_fold|].
    destruct (calculate_hand_value (Player.hand p)) as [[value busted]|e];
      simpl; [|discriminate].
    destruct (busted || (Z.abs value <? 8)); [intros [= <-]; apply total_player_fold|].
    destruct (find_worst_card_to_discard (Player.hand p)) as [[i|]|e];
      simpl; [apply total_pop_to_discard | | discriminate].
    destruct (index_in_hand _ _); [apply total_pop_to_discard | discriminate].
Qed.

Lemma length_omap_lookup {A : Type} (l : list A) (order : list nat) :
  forallb (fun x => Nat.ltb x (length l)) order = true ->
  length (omap (fun i => l !! i) order) = length order.
Proof.
  induction order as [|i order IH]; [reflexivity|]. cbn [forallb omap list_omap].
  intros H. apply andb_prop in H as [Hi Ho]. apply Nat.ltb_lt in Hi.
  destruct (lookup_lt_is_Some_2 l i Hi) as [x ->]. cbn. now rewrite IH.
Qed.

Lemma total_magician_effect (env : Env) (seat : nat) (g g' : GameState.t) :
  keeps_cards env ->
  magician_effect env seat g = Ok g' ->
  total_cards_accounted_for g' = total_cards_accounted_for g.
Proof.
  intros [_ Hm]. unfold magician_effect.
  destruct (Z.ltb_spec (len (GameState.draw_pile g)) 4) as [|H4]; [now intros [= <-]|].
  unfold with_player. cbn [GameState.players GameState.set_draw_pile].
  destruct (GameState.players g !! seat) as [p|]; [|discriminate].
  assert (Hl4 : length (take 4 (GameState.draw_pile g)) = 4%nat)
    by (rewrite length_take_le; [reflexivity | unfold len in H4; lia]).
  pose proof (len_take_drop 4 (GameState.draw_pile g)) as Htd.
  destruct (Player.is_human p).
  - destruct (Nat.eqb_spec (length (magician_prompt env
       (GameState.set_draw_pile (drop 4 (GameState.draw_pile g)) g) seat
       (take 4 (GameState.draw_pile g)))) 4) as [Hlen|]; [|discriminate].
    cbn [andb]. destruct (forallb _ _) eqn:Hall; [|discriminate]. cbn [andb].
    destruct (nodup_nat _); [|discriminate]. intros [= <-].
    rewrite !total_cards_sum. cbn. rewrite len_app. unfold len at 1.
    rewrite length_omap_lookup by (rewrite Hl4; exact Hall).
    rewrite Hlen. unfold len in *. lia.
  - intros [= <-]. rewrite !total_cards_sum. cbn. rewrite len_app. unfold len at 1.
    rewrite Hm, Hl4. unfold len in *. lia.
Qed.

Lemma in_other_active_seats (seat q : nat) (g : GameState.t) :
  In q (other_active_seats seat g) -> exists p, GameState.players g !! q = Some p.
Proof.
  unfold other_active_seats. rewrite filter_In. intros [_ H].
  destruct (GameState.players g !! q) as [p|]; [eauto | discriminate].
Qed.

Lemma total_give_card (seat target : nat) (c : Card) (g : GameState.t) h :
  In target (other_active_seats seat g) ->
  list_remove c (hand_of g seat) = Ok h ->
  total_cards_accounted_for (hand_append target [c] (set_hand_of seat h g))
  = total_cards_accounted_for g.
Proof.
  intros Ht Hr. apply in_other_active_seats in Ht as [tp Htp].
  unfold hand_of in Hr. destruct (GameState.players g !! seat) as [p|] eqn:Hp;
    [|discriminate].
  assert (Htp' : exists tp', GameState.players (set_hand_of seat h g) !! target = Some tp').
  { unfold set_hand_of, update_player. cbn. rewrite list_lookup_alter.
    destruct (decide (seat = target)); [rewrite Hp | rewrite Htp];
      eexists; reflexivity. }
  destruct Htp' as [tp' Htp'].
  rewrite (total_hand_append _ target [c] tp' Htp'), (total_set_hand_of g seat h p Hp).
  apply list_remove_length in Hr. rewrite len_one. lia.
Qed.

Lemma total_devil_effect (env : Env) (seat : nat) (g g' : GameState.t) :
  devil_effect env seat g = Ok g' ->
  total_cards_accounted_for g' = total_cards_accounted_for g.
Proof.
  unfold devil_effect.
  destruct (other_active_seats seat g) as [|t0 ts] eqn:Ho; [now intros [= <-]|].
  destruct ((t0 :: ts) !! devil_effect_target env g seat (t0 :: ts)) as [target|] eqn:Ht;
    [|discriminate].
  destruct (card_in ("15", "T") (hand_of g seat)); [|now intros [= <-]].
  destruct (list_remove ("15", "T") (hand_of g seat)) as [h|e] eqn:Hr;
    simpl; [|discriminate].
  intros [= <-]. apply total_give_card; [|exact Hr].
  rewrite Ho. apply list_elem_of_In. eapply list_elem_of_lookup_2; eauto.
Qed.

Lemma total_moon_effect (env : Env) (seat : nat) (g g' : GameState.t) :
  keeps_cards env ->
  moon_effect env seat g = Ok g' ->
  total_cards_accounted_for g' = total_cards_accounted_for g.
Proof.
  intros [Hsh _]. unfold moon_effect.
  destruct (move_to_removed seat ("18", "T") g) as [g1|e] eqn:H1; simpl; [|discriminate].
  destruct (ensure_cards_available (shuffle env) 1 g1) as [g2|e] eqn:H2;
    simpl; [|discriminate].
  destruct (draw_card g2) as [[c g3]|e] eqn:H3; simpl; [|discriminate].
  intros [= <-]. rewrite total_community_append, len_one.
  apply total_move_to_removed in H1. apply total_ensure_cards_available in H2; [|exact Hsh].
  apply total_draw_card in H3 as [H3 _]. lia.
Qed.

Lemma total_sun_effect (seat : nat) (g g' : GameState.t) :
  sun_effect seat g = Ok g' ->
  total_cards_accounted_for g' = total_cards_accounted_for g.
Proof.
  unfold sun_effect. destruct (evaluate_hands _); simpl; [|discriminate].
  intros [= <-]. rewrite !total_cards_sum. reflexivity.
Qed.

(** Every handler of the registry except that of the Wheel of Fortune keeps
    every card accounted for. *)
Lemma total_run_handler (env : Env) (h : Handler) (seat : nat) (g g' : GameState.t) :
  keeps_cards env ->
  h <> wheel_of_fortune_effect_h ->
  run_handler env h seat g = Ok g' ->
  total_cards_accounted_for g' = total_cards_accounted_for g.
Proof.
  intros Henv Hh. destruct h; cbn [run_handler]; try (exfalso; apply Hh; reflexivity).
  - now apply total_magician_effect.
  - apply total_emperor_effect.
  - apply total_hierophant_loop.
  - apply total_chariot_loop.
  - intros [= <-]. apply total_update_player_same. reflexivity.
  - now intros [= <-].
  - apply total_devil_effect.
  - now apply total_moon_effect.
  - apply total_sun_effect.
  - intros [= <-]. rewrite !total_cards_sum. reflexivity.
  - apply total_move_to_removed.
Qed.

Lemma total_apply_effect (env : Env) (t : TrionfiEffect.t) (seat : nat)
    (g g' : GameState.t) :
  keeps_cards env ->
  TrionfiEffect.effect t <> Some wheel_of_fortune_effect_h ->
  apply_effect env t seat g = Ok g' ->
  total_cards_accounted_for g' = total_cards_accounted_for g.
Proof.
  intros Henv Ht. unfold apply_effect.
  destruct (TrionfiEffect.effect t) as [h|]; [|now intros [= <-]].
  destruct (run_handler env h seat g) as [g1|e] eqn:Hr; simpl; [|discriminate].
  apply total_run_handler in Hr; [|exact Henv | congruence].
  destruct (negb _); [|now intros [= <-]].
  intros Hm. apply total_move_to_removed in Hm. lia.
Qed.

(** ** A turn keeps every card accounted for, the Wheel of Fortune apart *)

Lemma total_handle_devil_card (env : Env) (seat : nat) (g g' : GameState.t) :
  handle_devil_card env seat g = Ok g' ->
  total_cards_accounted_for g' = total_cards_accounted_for g.
Proof.
  unfold handle_devil_card. destruct (give_away_devil env g seat); [|now intros [= <-]].
  destruct (other_active_seats seat g) as [|t0 ts] eqn:Ho; [now intros [= <-]|].
  destruct ((t0 :: ts) !! devil_target env g seat (t0 :: ts)) as [target|] eqn:Ht;
    [|discriminate].
  destruct (list_remove devil_card (hand_of g seat)) as [h|e] eqn:Hr;
    simpl; [|discriminate].
  intros [= <-]. apply total_give_card; [|exact Hr].
  rewrite Ho. apply list_elem_of_In. eapply list_elem_of_lookup_2; eauto.
Qed.

Lemma total_player_call (seat : nat) (g g' : GameState.t) (paid : Z) :
  player_call seat g = Ok (paid, g') ->
  total_cards_accounted_for g' = total_cards_accounted_for g.
Proof.
  unfold player_call, with_player.
  destruct (GameState.players g !! seat) as [p|]; [|discriminate].
  destruct (_ <=? 0); intros [= _ <-].
  - apply total_update_player_same. reflexivity.
  - rewrite <- (total_update_player_same g seat
      (fun q => Player.set_has_acted true
                  (Player.set_current_bet
                     (Player.current_bet q
                      + (if Player.credits p <? GameState.current_bet g - Player.current_bet p
                         then Player.credits p
                         else GameState.current_bet g - Player.current_bet p))
                     (Player.set_credits
                        (Player.credits q
                         - (if Player.credits p <? GameState.current_bet g - Player.current_bet p
                            then Player.credits p
                            else GameState.current_bet g - Player.current_bet p)) q))))
      by reflexivity.
    rewrite !total_cards_sum. reflexivity.
Qed.

Lemma cards_in_hands_reopen_action (seat : nat) (ps : list Player.t) :
  cards_in_hands (reopen_action seat ps) = cards_in_hands ps.
Proof.
  unfold reopen_action.
  assert (H : forall (f : nat -> Player.t -> Player.t),
             (forall j p, Player.hand (f j p) = Player.hand p) ->
             cards_in_hands (imap f ps) = cards_in_hands ps).
  { induction ps as [|p ps IH]; intros f Hf; [reflexivity|].
    cbn. rewrite Hf, IH; [reflexivity|]. intros j q. apply Hf. }
  apply H. intros j p. destruct (_ && _); reflexivity.
Qed.

Lemma total_player_raise (seat : nat) (amount : Z) (g g' : GameState.t) (paid : Z) :
  player_raise seat amount g = Ok (paid, g') ->
  total_cards_accounted_for g' = total_cards_accounted_for g.
Proof.
  unfold player_raise, with_player.
  destruct (GameState.players g !! seat) as [p|]; [|discriminate].
  intros [= _ <-]. rewrite total_update_player_same by reflexivity.
  rewrite !total_cards_sum. cbn. rewrite cards_in_hands_reopen_action.
  rewrite cards_in_hands_alter_same by reflexivity. reflexivity.
Qed.

Lemma total_hanged_man_scan (env : Env) (acting : nat) (number : Z) (seats : list nat)
    (g g' : GameState.t) (b : bool) :
  hanged_man_scan env acting number seats g = Ok (b, g') ->
  total_cards_accounted_for g' = total_cards_accounted_for g.
Proof.
  induction seats as [|q seats IH]; simpl; [now intros [= _ <-]|].
  unfold with_player. destruct (GameState.players g !! q) as [p|] eqn:Hp; [|discriminate].
  destruct (_ || _); [exact IH|].
  destruct (negb _); [exact IH|].
  destruct (play_hanged_man env g q acting number); [|exact IH].
  destruct (list_remove hanged_man_card (Player.hand p)) as [h|e] eqn:Hr;
    simpl; [|discriminate].
  destruct (move_to_removed _ _ _) as [g2|e] eqn:Hm; simpl; [|discriminate].
  intros [= _ <-]. apply total_move_to_removed in Hm. rewrite Hm.
  rewrite total_removed_append, (total_set_hand_of g q h p Hp), len_one.
  apply list_remove_length in Hr. lia.
Qed.

Lemma total_play_trionfi_step (env : Env) (seat : nat) (card : Card) (g g' : GameState.t) :
  keeps_cards env -> not_the_wheel (Some card) ->
  play_trionfi_step env seat card g = Ok g' ->
  total_cards_accounted_for g' = total_cards_accounted_for g.
Proof.
  intros Henv Hw. unfold play_trionfi_step.
  destruct (get_trionfi_effect card) as [t|] eqn:Ht; [|now intros [= <-]].
  specialize (Hw card t eq_refl Ht).
  destruct (TrionfiEffect.effect t) as [h|] eqn:Hh; [|now intros [= <-]].
  unfold check_for_hanged_man_interrupt.
  destruct (hanged_man_scan _ _ _ _ _) as [[b g1]|e] eqn:Hs; simpl; [|discriminate].
  apply total_hanged_man_scan in Hs.
  destruct b; simpl; [intros [= <-]; exact Hs|].
  intros Ha. apply total_apply_effect in Ha; [lia | exact Henv | congruence].
Qed.

Lemma total_bet_step (env : Env) (seat : nat) (action : Action) (bet : string)
    (g g' : GameState.t) :
  keeps_cards env -> not_the_wheel (play_trionfi action) ->
  bet_step env seat action bet g = Ok g' ->
  total_cards_accounted_for g' = total_cards_accounted_for g.
Proof.
  intros Henv Hw. unfold bet_step. destruct (String.eqb bet "call").
  - destruct (player_call seat g) as [[paid g1]|e] eqn:Hc; simpl; [|discriminate].
    intros [= <-]. eapply total_player_call; eauto.
  - destruct (String.eqb bet "raise"); [|now intros [= <-]].
    destruct (player_raise _ _ _) as [[paid g1]|e] eqn:Hr; simpl; [|discriminate].
    apply total_player_raise in Hr.
    destruct (play_trionfi action) as [card|]; [|intros [= <-]; exact Hr].
    intros Hp. apply total_play_trionfi_step in Hp; [lia | exact Henv | exact Hw].
Qed.

Lemma total_draw_step (env : Env) (seat : nat) (action : Action) (g g' : GameState.t)
    (drew : bool) :
  keeps_cards env ->
  draw_step env seat action g = Ok (drew, g') ->
  total_cards_accounted_for g' = total_cards_accounted_for g.
Proof.
  intros [Hsh _]. unfold draw_step, with_player.
  destruct (GameState.players g !! seat) as [p|] eqn:Hp; [|discriminate].
  destruct (negb _); [|now intros [= _ <-]].
  destruct (draw_action action) as [d|]; [|now intros [= _ <-]].
  destruct (String.eqb d "draw_pile").
  { unfold draw_from_draw_pile.
    destruct (ensure_cards_available _ 1 g) as [g1|e] eqn:He; simpl; [|discriminate].
    destruct (draw_card g1) as [[c g2]|e] eqn:Hd; simpl; [|discriminate].
    intros [= _ <-]. rewrite total_update_player_same by reflexivity.
    assert (Hp1 : GameState.players g1 = GameState.players g).
    { revert He. unfold ensure_cards_available.
      destruct (_ <? 1); [|now intros [= <-]].
      destruct (0 <? _); [|discriminate]. now intros [= <-]. }
    apply total_ensure_cards_available in He; [|exact Hsh].
    apply total_draw_card in Hd as [Hd Hp2].
    rewrite (total_hand_append g2 seat [c] p) by (rewrite Hp2, Hp1; exact Hp).
    rewrite len_one. lia. }
  destruct (String.eqb d "discard_pile").
  { unfold draw_from_discard_pile.
    destruct (GameState.discard_pile g) as [|d0 ds] eqn:Hdp; simpl; [discriminate|].
    destruct (_ || _); simpl; [discriminate|].
    intros [= _ <-]. rewrite total_update_player_same by reflexivity.
    rewrite (total_hand_append _ seat _ p) by exact Hp.
    rewrite !total_cards_sum. cbn. rewrite Hdp.
    pose proof (len_take_drop (Z.to_nat (default (len (d0 :: ds) - 1) (draw_index action)))
                  (d0 :: ds)). lia. }
  destruct (String.eqb d "community"); [|now intros [= _ <-]].
  unfold swap_with_community, with_player. rewrite Hp.
  destruct (_ || _); simpl; [discriminate|].
  destruct (_ || _); simpl; [discriminate|].
  destruct (Player.hand p !! _) as [c1|] eqn:H1; [|discriminate].
  destruct (GameState.community_cards g !! _) as [c2|] eqn:H2; simpl; [|discriminate].
  intros [= _ <-]. rewrite total_update_player_same by reflexivity.
  erewrite total_hand_append; cycle 1.
  { cbn. rewrite list_lookup_alter_eq, Hp. reflexivity. }
  rewrite !total_cards_sum. cbn.
  rewrite (cards_in_hands_alter _ _ _ p Hp). cbn. unfold pop_at.
  rewrite (len_delete _ _ _ H1). unfold len. rewrite length_insert.
  change (length [c2]) with 1%nat. lia.
Qed.

Lemma total_discard_step (seat : nat) (discard_index : option Z) (g g' : GameState.t) :
  discard_step seat discard_index g = Ok g' ->
  total_cards_accounted_for g' = total_cards_accounted_for g.
Proof.
  unfold discard_step, with_player.
  destruct (GameState.players g !! seat) as [p|] eqn:Hp; [|discriminate].
  destruct discard_index as [d|]; [|now intros [= <-]].
  destruct (_ && _); [|now intros [= <-]].
  unfold discard_card, with_player. rewrite Hp.
  destruct (_ || _); simpl; [discriminate|].
  destruct (Player.hand p !! Z.to_nat d) as [card|] eqn:Hc; simpl; [|discriminate].
  intros [= <-]. rewrite total_discard_append.
  rewrite !total_cards_sum. cbn. rewrite (cards_in_hands_alter _ _ _ p Hp). cbn.
  unfold pop_at. rewrite (len_delete _ _ _ Hc), len_one. lia.
Qed.

(** A turn in which the Wheel of Fortune is not played keeps every card
    accounted for, whatever the answers of the seats, provided shuffling
    and the Magician's arrangement return the cards they were given. *)
Lemma total_execute_player_turn (env : Env) (seat : nat) (action : Action)
    (g g' : GameState.t) (b : bool) :
  keeps_cards env -> not_the_wheel (play_trionfi action) ->
  execute_player_turn env seat action g = Ok (b, g') ->
  total_cards_accounted_for g' = total_cards_accounted_for g.
Proof.
  intros Henv Hw. unfold execute_player_turn, with_player.
  destruct (GameState.players g !! seat) as [p|]; [|discriminate].
  destruct (Player.has_folded p); [now intros [= _ <-]|].
  destruct (if card_in devil_card (Player.hand p)
            then handle_devil_card env seat g else Ok g) as [g0|e] eqn:H0;
    simpl; [|discriminate].
  assert (T0 : total_cards_accounted_for g0 = total_cards_accounted_for g).
  { destruct (card_in devil_card (Player.hand p));
      [now apply total_handle_devil_card in H0 | now injection H0 as <-]. }
  destruct (String.eqb _ "fold"); [intros [= _ <-]; now rewrite total_player_fold|].
  destruct (bet_step _ _ _ _ _) as [g1|e] eqn:H1; simpl; [|discriminate].
  apply total_bet_step in H1; [|exact Henv | exact Hw].
  destruct (draw_step _ _ _ _) as [[drew g2]|e] eqn:H2; simpl; [|discriminate].
  apply total_draw_step in H2; [|exact Henv].
  destruct (ask_discard_step _ _ _ _ _) as [di|e]; simpl; [|discriminate].
  destruct (discard_step _ _ _) as [g3|e] eqn:H3; simpl; [|discriminate].
  apply total_discard_step in H3. intros [= _ <-]. lia.
Qed.

(** C1 does not hold of the code.  After the deal all 78 cards are accounted for.
    The seat holding the Wheel of Fortune raises and plays it; nobody
    interrupts.  The turn ends well with 77 cards accounted for: the handler
    took the Wheel of Fortune out of the hand without putting it on any
    pile, and [apply_effect], not finding it in the hand any more, did not
    put it on the removed pile either.  This is so for the human seat (seat
    0 of [the_wheel_table], keeping two of the four cards) and for an AI seat
    (seat 1 of [the_dealt_table]); and a whole hand played from the new
    table, in which the human seat plays the Wheel of Fortune and every
    other action is a call, ends with 77 cards accounted for. *)
Theorem wheel_of_fortune_loses_its_card :
  (TrionfiEffect.effect <$> get_trionfi_effect wheel_card)
  = Some (Some wheel_of_fortune_effect_h)
  /\ (wheel_table = Ok the_wheel_table
      /\ total_cards_accounted_for the_wheel_table = 78
      /\ Player.is_human <$> GameState.players the_wheel_table !! 0%nat = Some true
      /\ card_in wheel_card (hand_of the_wheel_table 0) = true
      /\ exists g,
           execute_player_turn keeping_env 0 (raise_and_play wheel_card) the_wheel_table
           = Ok (true, g)
           /\ total_cards_accounted_for g = 77
           /\ card_anywhere wheel_card g = false
           /\ GameState.removed_pile g = [])
  /\ (dealt_table = Ok the_dealt_table
      /\ total_cards_accounted_for the_dealt_table = 78
      /\ Player.is_human <$> GameState.players the_dealt_table !! 1%nat = Some false
      /\ card_in wheel_card (hand_of the_dealt_table 1) = true
      /\ exists g,
           execute_player_turn quiet_env 1 (raise_and_play wheel_card) the_dealt_table
           = Ok (true, g)
           /\ total_cards_accounted_for g = 77
           /\ card_anywhere wheel_card g = false
           /\ GameState.removed_pile g = [])
  /\ (exists asked g,
        play_hand keeping_env (play_then_call wheel_card) None new_table = Ok (asked, g)
        /\ total_cards_accounted_for g = 77
        /\ card_anywhere wheel_card g = false).
Proof.
  split; [vm_compute; reflexivity|].
  split; [|split];
    [| | eexists _, _; split; [vm_compute; reflexivity|];
         split; vm_compute; reflexivity].
  - split; [vm_compute; reflexivity|].
    split; [vm_compute; reflexivity|].
    split; [vm_compute; reflexivity|].
    split; [vm_compute; reflexivity|].
    eexists. split; [vm_compute; reflexivity|].
    split; [vm_compute; reflexivity|].
    split; vm_compute; reflexivity.
  - split; [vm_compute; reflexivity|].
    split; [vm_compute; reflexivity|].
    split; [vm_compute; reflexivity|].
    split; [vm_compute; reflexivity|].
    eexists. split; [vm_compute; reflexivity|].
    split; [vm_compute; reflexivity|].
    split; vm_compute; reflexivity.
Qed.

(** ** The Hermit *)

(** The seats that the targeted effects may reach never include a hermit. *)
Lemma effect_targets_not_hermit (seat q : nat) (g : GameState.t) (p : Player.t) :
  GameState.players g !! q = Some p ->
  Player.is_hermit p = true ->
  ~ In q (effect_targets seat g).
Proof.
  intros Hp Hh Hin. unfold effect_targets in Hin.
  apply filter_In in Hin as [_ Hin]. rewrite Hp, Hh in Hin.
  rewrite andb_false_r in Hin. discriminate.
Qed.

Lemma skipped_by_effect_hermit (seat q : nat) (p : Player.t) :
  Player.is_hermit p = true -> skipped_by_effect seat q p = true.
Proof. intros H. unfold skipped_by_effect. rewrite H. now rewrite orb_true_r. Qed.

(** One more turn of the betting loop: when the round is not complete and
    the seat in turn has not folded and has credits, the seat is asked
    and plays its turn, hermit or not. *)
Lemma betting_loop_asks (env : Env) (human_action : ActionSource)
    (get_ai_action_func : option ActionSource) (fuel : nat) (seat : nat)
    (asked : list nat) (g : GameState.t) (p : Player.t) :
  is_betting_round_complete g = false ->
  GameState.players g !! seat = Some p ->
  Player.has_folded p = false ->
  0 < Player.credits p ->
  betting_loop env human_action get_ai_action_func (S fuel) seat asked g
  = (let action :=
       if Player.is_human p then human_action g seat
       else match get_ai_action_func with
            | Some f => f g seat
            | None => call_action
            end in
     let* (_, g') := execute_player_turn env seat action g in
     betting_loop env human_action get_ai_action_func fuel
       ((seat + 1) mod length (GameState.players g))%nat (asked ++ [seat]) g').
Proof.
  intros Hc Hp Hf Hcr. cbn [betting_loop]. rewrite Hc. unfold with_player.
  rewrite Hp, Hf. cbn [negb andb].
  destruct (Z.ltb_spec 0 (Player.credits p)); [|lia].
  destruct (execute_player_turn env seat _ g) as [[b g']|e]; reflexivity.
Qed.

(** C8 does not hold of the code.  On [the_dealt_table] seat 0, the human seat,
    holds the Hermit.  In the first betting round it raises and plays it:
    its hermit flag is set and the card stays in its hand; the others call
    and the round ends.  In the second betting round of the same hand the
    betting loop asks seat 0 for an action again.  The same happens to an
    AI seat (seat 1 of [the_hermit_table]); and in a whole hand played from
    the new table the hermit seat is asked in the second and in the third
    betting round. *)
Theorem hermit_asked_to_bet_again :
  (card_in hermit_card (hand_of the_dealt_table 0) = true
   /\ exists asked1 g1 asked2 g2,
        two_betting_rounds cut_eight the_dealt_table = Ok ((asked1, g1), (asked2, g2))
        /\ asked1 = [1; 2; 0; 1; 2]%nat
        /\ is_hermit_at g1 0 = true
        /\ is_hermit_at g2 0 = true
        /\ map Player.has_folded (GameState.players g2) = [false; false; false]
        /\ asked2 = [1; 2; 0]%nat
        /\ In 0%nat asked2)
  /\ (card_in hermit_card (hand_of the_hermit_table 1) = true
      /\ exists asked1 g1 asked2 g2,
           two_betting_rounds cut_six the_hermit_table = Ok ((asked1, g1), (asked2, g2))
           /\ asked1 = [1; 2; 0]%nat
           /\ is_hermit_at g1 1 = true
           /\ is_hermit_at g2 1 = true
           /\ map Player.has_folded (GameState.players g2) = [false; false; false]
           /\ asked2 = [1; 2; 0]%nat
           /\ In 1%nat asked2)
  /\ (exists g,
        play_hand quiet_env hermit_then_call None new_table
        = Ok ([[1; 2; 0; 1; 2]; [1; 2; 0]; [1; 2; 0]]%nat, g)
        /\ is_hermit_at g 0 = true).
Proof.
  split; [|split]; [| | eexists; split; vm_compute; reflexivity].
  - split; [vm_compute; reflexivity|].
    eexists _, _, _, _.
    split; [vm_compute; reflexivity|].
    split; [reflexivity|].
    split; [vm_compute; reflexivity|].
    split; [vm_compute; reflexivity|].
    split; [vm_compute; reflexivity|].
    split; [reflexivity|].
    right. right. left. reflexivity.
  - split; [vm_compute; reflexivity|].
    eexists _, _, _, _.
    split; [vm_compute; reflexivity|].
    split; [reflexivity|].
    split; [vm_compute; reflexivity|].
    split; [vm_compute; reflexivity|].
    split; [vm_compute; reflexivity|].
    split; [reflexivity|].
    left. reflexivity.
Qed.

(** ** The Hanged Man interrupt *)

Lemma list_remove_held (c : Card) (l : list Card) :
  card_in c l = true ->
  exists h, list_remove c l = Ok h /\ length l = S (length h).
Proof.
  unfold card_in. induction l as [|x l IH]; simpl; [discriminate|].
  intros H. destruct (card_eqb x c) eqn:E.
  - exists l. split; reflexivity.
  - assert (Hc : card_eqb c x = false).
    { destruct (card_eqb_spec c x) as [->|]; [|reflexivity].
      now rewrite card_eqb_refl in E. }
    rewrite Hc in H. simpl in H.
    destruct (IH H) as [h [-> Hl]]. exists (x :: h). simpl. split; [reflexivity|lia].
Qed.

Lemma move_to_removed_ok (seat : nat) (c : Card) (g : GameState.t) :
  (card_in c (hand_of g seat) = false /\ move_to_removed seat c g = Ok g)
  \/ (card_in c (hand_of g seat) = true
      /\ exists h, list_remove c (hand_of g seat) = Ok h
                   /\ move_to_removed seat c g
                      = Ok (removed_append [c] (set_hand_of seat h g))).
Proof.
  unfold move_to_removed. destruct (card_in c (hand_of g seat)) eqn:E.
  - right. split; [reflexivity|].
    destruct (list_remove_held _ _ E) as [h [Hh _]]. exists h. now rewrite Hh.
  - left. split; reflexivity.
Qed.

(** The scan passes over seats that do not interrupt. *)
Lemma hanged_man_scan_skips (env : Env) (acting_player : nat) (number : Z)
    (g : GameState.t) (skipped rest : list nat) :
  (forall q, In q skipped ->
     (q < length (GameState.players g))%nat
     /\ interrupts env acting_player number g q = false) ->
  hanged_man_scan env acting_player number (skipped ++ rest) g
  = hanged_man_scan env acting_player number rest g.
Proof.
  induction skipped as [|q skipped IH]; intros H; [reflexivity|].
  simpl. destruct (H q (or_introl eq_refl)) as [Hlt Hno].
  destruct (lookup_lt_is_Some_2 _ _ Hlt) as [p Hp].
  unfold with_player. rewrite Hp. unfold interrupts in Hno. rewrite Hp in Hno.
  assert (IH' := IH (fun q' Hq' => H q' (or_intror Hq'))).
  destruct (Nat.eqb q acting_player); simpl in *; [exact IH'|].
  destruct (Player.has_folded p); simpl in *; [exact IH'|].
  destruct (card_in hanged_man_card (Player.hand p)); simpl in *; [|exact IH'].
  rewrite Hno. exact IH'.
Qed.

Lemma hand_of_set_hand_of_ne (g : GameState.t) (q seat : nat) (h : list Card) :
  seat <> q -> hand_of (set_hand_of q h g) seat = hand_of g seat.
Proof.
  intros H. unfold hand_of, set_hand_of.
  now rewrite lookup_update_player_ne.
Qed.




(** ** Sorting as the showdown uses it *)

Section Sorting.
Context {A : Type} (key : A -> Z).

Lemma in_insert_by (a x : A) (l : list A) :
  In x (insert_by key a l) <-> x = a \/ In x l.
Proof.
  induction l as [|y l IH]; simpl.
  - intuition congruence.
  - destruct (key a <=? key y); simpl; [intuition congruence|].
    rewrite IH. intuition congruence.
Qed.

Lemma in_sort_by (x : A) (l : list A) : In x (sort_by key l) <-> In x l.
Proof.
  induction l as [|a l IH]; simpl; [reflexivity|].
  rewrite in_insert_by, IH. intuition congruence.
Qed.

Lemma head_least_insert_by (a : A) (l : list A) :
  head_least key l -> head_least key (insert_by key a l).
Proof.
  destruct l as [|b l]; simpl.
  - intros _ x [<-|[]]. lia.
  - intros H. destruct (Z.leb_spec (key a) (key b)) as [Hab|Hab]; simpl.
    + intros x [<-|Hx]; [lia|]. specialize (H x Hx). lia.
    + intros x [<-|Hx]; [lia|].
      apply in_insert_by in Hx as [->|Hx]; [lia|].
      apply H. now right.
Qed.

Lemma head_least_sort_by (l : list A) : head_least key (sort_by key l).
Proof.
  induction l as [|a l IH]; simpl; [exact I|]. now apply head_least_insert_by.
Qed.

Lemma sort_by_head_least (l : list A) (b : A) (r : list A) :
  sort_by key l = b :: r -> In b l /\ forall x, In x l -> key b <= key x.
Proof.
  intros H. pose proof (head_least_sort_by l) as Hl. rewrite H in Hl.
  unfold head_least in Hl. split.
  - apply (proj1 (in_sort_by b l)). rewrite H. now left.
  - intros x Hx. apply Hl. rewrite <- H. apply (proj2 (in_sort_by x l)). exact Hx.
Qed.

Lemma sort_by_nil (l : list A) : sort_by key l = [] -> l = [].
Proof.
  destruct l as [|a l]; [reflexivity|]. intros H.
  assert (Hin : In a (sort_by key (a :: l)))
    by (apply (proj2 (in_sort_by a (a :: l))); now left).
  rewrite H in Hin. destruct Hin.
Qed.

(** Stability: the elements of one key keep their order. *)
Lemma filter_insert_by (k : Z) (a : A) (l : list A) :
  List.filter (fun x => key x =? k) (insert_by key a l)
  = List.filter (fun x => key x =? k) (a :: l).
Proof.
  induction l as [|y l IH]; [reflexivity|].
  cbn [insert_by]. destruct (Z.leb_spec (key a) (key y)) as [Hay|Hay]; [reflexivity|].
  cbn [List.filter] in *. rewrite IH.
  destruct (Z.eqb_spec (key a) k), (Z.eqb_spec (key y) k); try reflexivity. lia.
Qed.

Lemma filter_sort_by (k : Z) (l : list A) :
  List.filter (fun x => key x =? k) (sort_by key l)
  = List.filter (fun x => key x =? k) l.
Proof.
  induction l as [|a l IH]; [reflexivity|].
  cbn [sort_by foldr]. rewrite filter_insert_by.
  cbn [List.filter]. fold (sort_by key l). now rewrite IH.
Qed.
End Sorting.

Lemma sort_by_desc_head_greatest {A : Type} (key : A -> Z) (l : list A) b r :
  sort_by_desc key l = b :: r -> In b l /\ forall x, In x l -> key x <= key b.
Proof.
  intros H. apply sort_by_head_least in H as [Hin Hle]. split; [exact Hin|].
  intros x Hx. specialize (Hle x Hx). simpl in Hle. lia.
Qed.

Lemma filter_sort_by_desc {A : Type} (key : A -> Z) (k : Z) (l : list A) :
  List.filter (fun x => key x =? k) (sort_by_desc key l)
  = List.filter (fun x => key x =? k) l.
Proof.
  unfold sort_by_desc.
  assert (E : forall l' : list A,
             List.filter (fun x => key x =? k) l'
             = List.filter (fun x => - key x =? - k) l').
  { intros l'. apply filter_ext. intros x.
    destruct (Z.eqb_spec (key x) k), (Z.eqb_spec (- key x) (- k)); lia. }
  rewrite (E (sort_by _ l)), (E l).
  apply (filter_sort_by (fun x => - key x)).
Qed.

Lemma sort_by_desc_nil {A : Type} (key : A -> Z) (l : list A) :
  sort_by_desc key l = [] -> l = [].
Proof. apply sort_by_nil. Qed.

(** ** The showdown *)

Lemma str_in_In (s : string) (l : list string) : str_in s l = true -> In s l.
Proof.
  unfold str_in. intros H. apply existsb_exists in H as [x [Hx E]].
  apply String.eqb_eq in E. now subst.
Qed.

Lemma high_negative_int (rank : string) :
  str_in rank high_negative_trionfi = true -> exists n, int_of rank = Ok n.
Proof.
  intros H. apply str_in_In in H. simpl in H.
  repeat (destruct H as [<-|H]; [eexists; vm_compute; reflexivity|]).
  destruct H.
Qed.

Lemma high_card_value_ok (c : Card) (st : Z * nat * bool) st' :
  scan_card c st = Ok st' -> exists cv, high_card_value c = Ok cv.
Proof.
  destruct c as [rank suit], st as [[v n] l]. unfold scan_card, high_card_value.
  destruct (String.eqb suit "T").
  - intros _. destruct (str_in rank high_negative_trionfi) eqn:E; [|eauto].
    destruct (high_negative_int _ E) as [k ->]. simpl. eauto.
  - repeat match goal with
           | |- context [if ?b then _ else _] => destruct b; [eauto|]
           end.
    destruct (int_of rank); simpl; [eauto | discriminate].
Qed.

Lemma highest_card_from_ok (hand : list Card) (st : Z * nat * bool) st' :
  scan_hand hand st = Ok st' ->
  forall v s, exists r, highest_card_from hand v s = Ok r.
Proof.
  revert st. induction hand as [|c hand IH]; intros st H v s; simpl; [eauto|].
  simpl in H. destruct (scan_card c st) as [st1|e] eqn:Hc; simpl in H; [|discriminate].
  destruct (high_card_value_ok _ _ _ Hc) as [cv ->]. simpl.
  destruct (v <? cv); eapply IH; eassumption.
Qed.

Lemma get_highest_card_ok (hand : list Card) r :
  calculate_hand_value hand = Ok r -> exists r', get_highest_card_in_hand hand = Ok r'.
Proof.
  unfold calculate_hand_value, get_highest_card_in_hand. intros H.
  destruct (scan_hand hand (0, 0%nat, false)) as [st|e] eqn:Hs; [|discriminate].
  eapply highest_card_from_ok. eassumption.
Qed.

Lemma score_players_candidates (l : list (nat * Player.t)) :
  (forall sp, In sp l -> Player.has_folded sp.2 = false ->
     exists v b, calculate_hand_value (Player.hand sp.2) = Ok (v, b)) ->
  score_players (List.filter (fun sp => negb (Player.has_folded sp.2)) l)
  = Ok (omap candidate_of l).
Proof.
  induction l as [|[seat p] l IH]; intros H; [reflexivity|].
  assert (IH' := IH (fun sp Hsp => H sp (or_intror Hsp))).
  cbn [List.filter omap list_omap]. unfold candidate_of at 1. cbn [fst snd].
  destruct (Player.has_folded p) eqn:Hf; cbn [negb]; [exact IH'|].
  destruct (H (seat, p) (or_introl eq_refl) Hf) as [v [b Hv]].
  cbn [score_players]. cbn [fst snd] in Hv. rewrite Hv, IH'. cbn [bind].
  destruct b; reflexivity.
Qed.

Lemma in_candidates (g : GameState.t) (c : Score) :
  In c (candidates g) <->
  GameState.players g !! score_seat c = Some (score_player c)
  /\ Player.has_folded (score_player c) = false
  /\ calculate_hand_value (Player.hand (score_player c)) = Ok (score_value c, false)
  /\ score_distance c = distance_from_23 (score_value c).
Proof.
  unfold candidates. rewrite <- list_elem_of_In, list_elem_of_omap. split.
  - intros [[seat p] [Hin Hc]].
    apply elem_of_lookup_imap in Hin as [i [p' [[= -> ->] Hl]]].
    unfold candidate_of in Hc. cbn [fst snd] in Hc.
    destruct (Player.has_folded p') eqn:Hf; [discriminate|].
    destruct (calculate_hand_value (Player.hand p')) as [[v [|]]|e] eqn:Hv;
      try discriminate.
    injection Hc as <-. simpl. auto.
  - intros [Hl [Hf [Hv Hd]]]. exists (score_seat c, score_player c). split.
    + apply elem_of_lookup_imap. eauto.
    + unfold candidate_of. cbn [fst snd]. rewrite Hf, Hv.
      destruct c as [s p v d]. simpl in *. now subst d.
Qed.

Lemma high_cards_map (tied : list Score) :
  (forall ps, In ps tied ->
     exists r, get_highest_card_in_hand (Player.hand (score_player ps)) = Ok r) ->
  high_cards tied = Ok (map to_high_card tied).
Proof.
  induction tied as [|ps tied IH]; intros H; [reflexivity|].
  cbn [high_cards map].
  destruct (H ps (or_introl eq_refl)) as [[hv hs] Hr].
  rewrite Hr, (IH (fun q Hq => H q (or_intror Hq))). cbn [bind].
  unfold to_high_card, high_value, high_suit, high_of. rewrite Hr. reflexivity.
Qed.

Lemma filter_map_high (P : Z -> bool) (l : list Score) :
  List.filter (fun phc => P (hc_value phc)) (map to_high_card l)
  = map to_high_card (List.filter (fun c => P (high_value c)) l).
Proof.
  induction l as [|c l IH]; [reflexivity|].
  cbn [map List.filter]. rewrite IH.
  change (hc_value (to_high_card c)) with (high_value c).
  destruct (P (high_value c)); reflexivity.
Qed.

Lemma filter_high_cards (k : Z) (l : list Score) :
  List.filter (fun phc => hc_value phc =? k) (map to_high_card l)
  = map to_high_card (List.filter (fun c => high_value c =? k) l).
Proof. apply (filter_map_high (fun z => z =? k)). Qed.

(** The suit stage picks, among the seats still tied, one whose highest card
    is of a suit that ranks highest. *)
Lemma break_tie_by_suit_spec (g : GameState.t) names values (still : list Score) :
  still <> [] ->
  exists ws,
    In ws still
    /\ break_tie_by_suit g names values (map to_high_card still)
       = Ok (Some (score_seat ws),
             set_info (TieSuit names values (suit_names (high_suit ws))) g)
    /\ forall c, In c still ->
         suit_ranking (high_suit c) <= suit_ranking (high_suit ws).
Proof.
  intros Hne. unfold break_tie_by_suit.
  destruct (sort_by_desc (fun phc => suit_ranking (hc_suit phc))
              (map to_high_card still)) as [|winner rs] eqn:Hsort.
  { apply sort_by_desc_nil in Hsort. destruct still; [contradiction | discriminate]. }
  apply sort_by_desc_head_greatest in Hsort as [Hin Hmax].
  apply in_map_iff in Hin as [ws [<- Hws]].
  exists ws. split; [exact Hws|]. split; [reflexivity|].
  intros c Hc. apply (Hmax (to_high_card c)). now apply in_map.
Qed.

(** The high card stage. *)
Lemma break_tie_spec (g : GameState.t) (tied : list Score) :
  tied <> [] ->
  (forall c, In c tied ->
     exists r, get_highest_card_in_hand (Player.hand (score_player c)) = Ok r) ->
  let names := map (fun c => Player.name (score_player c)) tied in
  let values := map score_value tied in
  exists ws,
    In ws tied
    /\ (forall c, In c tied ->
          high_value c < high_value ws
          \/ (high_value c = high_value ws
              /\ suit_ranking (high_suit c) <= suit_ranking (high_suit ws)))
    /\ break_tie g tied
       = Ok (Some (score_seat ws),
             set_info
               (match List.filter (fun c => high_value c =? high_value ws) tied with
                | [_] => TieHighCard names values (high_value ws)
                | _ => TieSuit names values (suit_names (high_suit ws))
                end) g).
Proof.
  intros Hne Hhigh names values. unfold break_tie.
  rewrite (high_cards_map tied Hhigh). cbn [bind].
  destruct (sort_by_desc hc_value (map to_high_card tied)) as [|top rh] eqn:Hsort.
  { apply sort_by_desc_nil in Hsort. destruct tied; [contradiction | discriminate]. }
  destruct (sort_by_desc_head_greatest _ _ _ _ Hsort) as [Hin Hmax].
  apply in_map_iff in Hin as [wt [Htop Hwt]].
  rewrite <- Hsort, filter_sort_by_desc, filter_high_cards.
  remember (List.filter (fun c => high_value c =? hc_value top) tied) as still eqn:Hstill.
  assert (Hinstill : forall c, In c still <-> In c tied /\ high_value c = hc_value top).
  { intros c. rewrite Hstill, filter_In, Z.eqb_eq. reflexivity. }
  assert (Hwts : In wt still) by (apply Hinstill; split; [exact Hwt | now rewrite <- Htop]).
  assert (Hle : forall c, In c tied -> high_value c <= hc_value top).
  { intros c Hc. apply (Hmax (to_high_card c)). now apply in_map. }
  destruct still as [|s1 [|s2 sr]] eqn:Hs; [destruct Hwts | |].
  - exists s1. assert (Hs1 : In s1 tied /\ high_value s1 = hc_value top)
      by (apply Hinstill; now left).
    destruct Hs1 as [Hs1 Hv1]. split; [exact Hs1|]. split.
    + intros c Hc. specialize (Hle c Hc).
      destruct (Z.eq_dec (high_value c) (hc_value top)) as [E|E]; [|left; lia].
      right. assert (Hc' : In c [s1]) by (apply Hinstill; auto).
      destruct Hc' as [<-|[]]. split; [reflexivity | lia].
    + rewrite <- Hv1 in Hstill. rewrite <- Hstill. reflexivity.
  - destruct (break_tie_by_suit_spec g names values (s1 :: s2 :: sr))
      as [ws [Hws [Hbt Hsuit]]]; [discriminate|].
    exists ws. destruct (proj1 (Hinstill ws) Hws) as [Hwst Hwsv].
    split; [exact Hwst|]. split.
    + intros c Hc. specialize (Hle c Hc).
      destruct (Z.eq_dec (high_value c) (hc_value top)) as [E|E]; [|left; lia].
      right. split; [lia|]. apply Hsuit. apply Hinstill. auto.
    + rewrite Hwsv, <- Hstill. exact Hbt.
Qed.

Lemma in_active_seats (g : GameState.t) (sp : nat * Player.t) :
  In sp (get_active_seats g) <->
  GameState.players g !! sp.1 = Some sp.2 /\ Player.has_folded sp.2 = false.
Proof.
  unfold get_active_seats. rewrite filter_In, <- list_elem_of_In, elem_of_lookup_imap.
  rewrite negb_true_iff. split.
  - intros [[i [p [-> Hl]]] Hf]. simpl in *. auto.
  - intros [Hl Hf]. split; [|exact Hf]. exists sp.1, sp.2. split; [|exact Hl].
    now destruct sp.
Qed.

(** C6 (amended).  When every hand still in can be scored, the showdown
    returns normally and changes only [tiebreaker_info].  With no seat left
    there is no winner; a single seat left wins, busted or not.  With two or
    more seats left the candidates are the seats that have not folded and
    are not busted: without candidates there is no winner; a single
    candidate wins; in general the winner is a candidate that no candidate
    beats on distance to 23, then highest card, then suit rank, and
    [tiebreaker_info] tells which level decided (none, high card, suit). *)
Theorem determine_winner_showdown :
  forall g : GameState.t,
    scoreable g ->
    exists (w : option nat) (info : option TiebreakerInfo),
      determine_winner g = Ok (w, GameState.set_tiebreaker_info info g)
      /\ (get_active_seats g = [] -> w = None /\ info = None)
      /\ (forall sp, get_active_seats g = [sp] -> w = Some sp.1 /\ info = None)
      /\ ((2 <= length (get_active_seats g))%nat ->
          (forall c, In c (candidates g) <->
             GameState.players g !! score_seat c = Some (score_player c)
             /\ Player.has_folded (score_player c) = false
             /\ calculate_hand_value (Player.hand (score_player c))
                = Ok (score_value c, false)
             /\ score_distance c = distance_from_23 (score_value c))
          /\ (candidates g = [] -> w = None /\ info = None)
          /\ (forall c, candidates g = [c] -> w = Some (score_seat c) /\ info = None)
          /\ (candidates g <> [] ->
              exists ws,
                In ws (candidates g)
                /\ w = Some (score_seat ws)
                /\ (forall c, In c (candidates g) -> ranks_no_lower ws c)
                /\ info = expected_info (candidates g) ws)).
Proof.
  intros g Hs.
  assert (Hscore : score_players (get_active_seats g) = Ok (candidates g)).
  { apply score_players_candidates. intros [seat p] Hin Hf. apply Hs; [|exact Hf].
    apply list_elem_of_In in Hin.
    apply elem_of_lookup_imap in Hin as [i [p' [[= -> ->] Hl]]].
    apply list_elem_of_In. eapply list_elem_of_lookup_2; eauto. }
  assert (Hhigh : forall c, In c (candidates g) ->
            exists r, get_highest_card_in_hand (Player.hand (score_player c)) = Ok r).
  { intros c Hc. apply in_candidates in Hc as [_ [_ [Hv _]]].
    eapply get_highest_card_ok; eauto. }
  unfold determine_winner.
  change (get_active_seats (GameState.set_tiebreaker_info None g))
    with (get_active_seats g).
  destruct (get_active_seats g) as [|sp1 [|sp2 rest]] eqn:Hact.
  - exists None, None. split; [reflexivity|]. split; [auto|].
    split; [discriminate|]. simpl. lia.
  - exists (Some sp1.1), None. split; [reflexivity|]. split; [discriminate|].
    split; [intros sp [= <-]; auto|]. simpl. lia.
  - rewrite Hscore. cbn [bind].
    pose proof (in_candidates g) as Hcand.
    set (cs := candidates g) in *.
    destruct (sort_by score_distance cs) as [|best r] eqn:Hsort.
    { apply sort_by_nil in Hsort. exists None, None.
      split; [reflexivity|]. split; [discriminate|]. split; [discriminate|].
      intros _. split; [exact Hcand|]. split; [auto|].
      split; [rewrite Hsort; discriminate|].
      intros Hne. contradiction. }
    destruct (sort_by_head_least _ _ _ _ Hsort) as [Hbin Hbmin].
    rewrite <- Hsort, filter_sort_by.
    remember (List.filter (fun ps => score_distance ps =? score_distance best) cs)
      as tied eqn:Htied.
    assert (Hintied : forall c, In c tied <->
              In c cs /\ score_distance c = score_distance best).
    { intros c. rewrite Htied, filter_In, Z.eqb_eq. reflexivity. }
    assert (Hbt : In best tied) by (apply Hintied; auto).
    assert (Hsingle : forall c, cs = [c] -> tied = [c]).
    { intros c E. rewrite E in Hbin. destruct Hbin as [<-|[]].
      rewrite Htied, E. simpl. now rewrite Z.eqb_refl. }
    destruct tied as [|t1 [|t2 tr]] eqn:Ht; [destruct Hbt | |].
    + exists (Some (score_seat t1)), None. split; [reflexivity|].
      split; [discriminate|]. split; [discriminate|]. intros _.
      split; [exact Hcand|].
      split; [intros E; rewrite E in Hbin; destruct Hbin|].
      split; [intros c E; apply Hsingle in E; injection E as ->; auto|].
      intros _. destruct Hbt as [->|[]]. exists best.
      split; [exact Hbin|]. split; [reflexivity|]. split.
      * intros c Hc. specialize (Hbmin c Hc).
        destruct (Z.eq_dec (score_distance c) (score_distance best)) as [E|E];
          [|left; lia].
        assert (Hc' : In c [best]) by (apply Hintied; auto).
        destruct Hc' as [<-|[]]. right. split; [reflexivity|]. right. split; [reflexivity|lia].
      * unfold expected_info. rewrite <- Htied. reflexivity.
    + destruct (break_tie_spec (GameState.set_tiebreaker_info None g) (t1 :: t2 :: tr))
        as [ws [Hws [Hrank Hbreak]]]; [discriminate | |].
      { intros c Hc. apply Hhigh. now apply Hintied. }
      destruct (proj1 (Hintied ws) Hws) as [Hwcs Hwd].
      eexists (Some (score_seat ws)), (Some _).
      split; [exact Hbreak|].
      split; [discriminate|]. split; [discriminate|]. intros _.
      split; [exact Hcand|].
      split; [intros E; rewrite E in Hbin; destruct Hbin|].
      split; [intros c E; apply Hsingle in E; discriminate|].
      intros _. exists ws. split; [exact Hwcs|]. split; [reflexivity|]. split.
      * intros c Hc. specialize (Hbmin c Hc). unfold ranks_no_lower.
        destruct (Z.eq_dec (score_distance c) (score_distance best)) as [E|E];
          [|left; lia].
        right. split; [lia|]. apply Hrank. apply Hintied. auto.
      * unfold expected_info. rewrite Hwd, <- Htied.
        destruct (List.filter (fun c => high_value c =? high_value ws) (t1 :: t2 :: tr))
          as [|? [|? ?]]; reflexivity.
Qed.

(** Hands made of cards of the deck can always be scored. *)
Lemma scan_card_deck (c : Card) (st : Z * nat * bool) :
  In c _generate_deck -> exists st', scan_card c st = Ok st'.
Proof.
  destruct st as [[v n] l]. intros H. unfold _generate_deck in H. simpl in H.
  repeat (destruct H as [<-|H]; [eexists; vm_compute; reflexivity|]).
  destruct H.
Qed.

Lemma calculate_hand_value_deck (hand : list Card) :
  Forall (fun c => In c _generate_deck) hand ->
  exists v b, calculate_hand_value hand = Ok (v, b).
Proof.
  intros H. unfold calculate_hand_value.
  assert (Hscan : forall st, exists st', scan_hand hand st = Ok st').
  { induction H as [|c hand Hc _ IH]; intros st; simpl; [eauto|].
    destruct (scan_card_deck c st Hc) as [st1 ->]. simpl. apply IH. }
  destruct (Hscan (0, 0%nat, false)) as [[[v n] l] ->]. simpl. eauto.
Qed.

Lemma scoreable_deck (g : GameState.t) :
  Forall (fun p => Forall (fun c => In c _generate_deck) (Player.hand p))
         (GameState.players g) ->
  scoreable g.
Proof.
  intros H p Hp _. rewrite Forall_forall in H.
  apply calculate_hand_value_deck. apply H. now apply list_elem_of_In.
Qed.

Lemma determine_winner_showdown_witness :
  exists (w : option nat) (info : option TiebreakerInfo),
    determine_winner the_dealt_table
    = Ok (w, GameState.set_tiebreaker_info info the_dealt_table).
Proof.
  assert (Hs : scoreable the_dealt_table).
  { intros p Hp _. vm_compute in Hp.
    destruct Hp as [<-|[<-|[<-|[]]]]; eexists _, _; vm_compute; reflexivity. }
  destruct (determine_winner_showdown the_dealt_table Hs) as [w [info [H _]]].
  exists w, info. exact H.
Defined.

(** The only seat that has not folded holds a busted hand: it is not a
    candidate, and the showdown returns it as the winner. *)
Lemma sole_busted_seat_wins :
  last_seat_busted = Ok the_last_seat_busted
  /\ map Player.has_folded (GameState.players the_last_seat_busted)
     = [false; true; true]
  /\ calculate_hand_value (hand_of the_last_seat_busted 0) = Ok (-33, true)
  /\ candidates the_last_seat_busted = []
  /\ determine_winner the_last_seat_busted
     = Ok (Some 0%nat, GameState.set_tiebreaker_info None the_last_seat_busted)
  /\ determine_winner the_last_seat_busted
     <> Ok (None, GameState.set_tiebreaker_info None the_last_seat_busted).
Proof.
  split; [vm_compute; reflexivity|].
  split; [vm_compute; reflexivity|].
  split; [vm_compute; reflexivity|].
  split; [vm_compute; reflexivity|].
  split; [vm_compute; reflexivity|].
  vm_compute. discriminate.
Qed.

(** The three levels of the showdown on small tables: a unique nearest hand;
    two hands worth 20 decided by the higher card; two hands worth 20 with
    a 10 as highest card decided by the suit; hands worth -23 and 23, both
    at distance 0, decided by the higher card; all hands busted. *)
Example showdown_levels :
  showdown_outcome
    (table_with_hands [[("10","W"); ("9","C")]; [("10","S"); ("10","D")]; [("2","W")]])
  = Some (Some 1%nat, None)
  /\ showdown_outcome
       (table_with_hands [[("10","W"); ("10","C")]; [("K","S"); ("6","D")]; [("2","W")]])
     = Some (Some 1%nat, Some (TieHighCard ["Han"; "Lando"] [20; 20] 14))
  /\ showdown_outcome
       (table_with_hands [[("10","S"); ("10","D")]; [("10","W"); ("10","C")]; [("2","W")]])
     = Some (Some 1%nat, Some (TieSuit ["Han"; "Lando"] [20; 20] "Wands"))
  /\ showdown_outcome
       (table_with_hands [[("15","T"); ("8","T")]; [("K","W"); ("9","C")]; [("2","W")]])
     = Some (Some 1%nat, Some (TieHighCard ["Han"; "Lando"] [-23; 23] 14))
  /\ showdown_outcome
       (table_with_hands
          [[("K","W"); ("K","C")]; [("16","T"); ("17","T")]; [("K","S"); ("Q","S")]])
     = Some (None, None).
Proof. repeat split; vm_compute; reflexivity. Qed.

(** * The engine as a whole *)

Lemma int_of_raises (s : string) (e : exn) : int_of s = Raise e -> e = ValueError.
Proof. unfold int_of. destruct (py_int s); congruence. Qed.

Lemma scan_card_shift (c : Card) (v : Z) (n : nat) (l : bool) :
  scan_card c (v, n, l)
  = match card_adds c with
    | Ok (dv, dn, dl) => Ok (v + dv, (n + dn)%nat, l || dl)
    | Raise _ => Raise ValueError
    end.
Proof.
  unfold card_adds, scan_card. destruct c as [rank suit].
  assert (E0 : forall z : Z, z + 0 = z) by (intros; lia).
  assert (E1 : forall k : nat, (k + 0)%nat = k) by (intros; lia).
  assert (E2 : forall k : nat, (k + 1)%nat = S k) by (intros; lia).
  repeat match goal with
         | |- context [if ?b then _ else _] => destruct b
         end;
    cbn [bind];
    try (destruct (int_of rank) as [k|e] eqn:Ek; cbn [bind];
         [| now rewrite (int_of_raises _ _ Ek)]);
    rewrite ?E0, ?E1, ?E2, ?orb_false_r, ?orb_true_r; try reflexivity;
    f_equal; f_equal; f_equal; lia.
Qed.

Lemma scan_card_raises (c : Card) st (e : exn) : scan_card c st = Raise e -> e = ValueError.
Proof.
  destruct st as [[v n] l]. rewrite scan_card_shift.
  destruct (card_adds c) as [[[dv dn] dl]|]; congruence.
Qed.

Lemma scan_hand_swap (a b : Card) (hand : list Card) st :
  scan_hand (a :: b :: hand) st = scan_hand (b :: a :: hand) st.
Proof.
  destruct st as [[v n] l]. cbn [scan_hand].
  rewrite (scan_card_shift a v n l), (scan_card_shift b v n l).
  destruct (card_adds a) as [[[va na] la]|ea] eqn:Ea;
    destruct (card_adds b) as [[[vb nb] lb]|eb] eqn:Eb;
    cbn [bind]; rewrite ?scan_card_shift, ?Ea, ?Eb; cbn [bind]; try reflexivity.
  f_equal. f_equal; [f_equal; lia|].
  destruct l, la, lb; reflexivity.
Qed.

Lemma scan_hand_order (hand hand' : list Card) :
  hand ≡ₚ hand' -> forall st, scan_hand hand st = scan_hand hand' st.
Proof.
  induction 1 as [|c l l' _ IH|a b l|l l' l'' _ IH1 _ IH2]; intros st.
  - reflexivity.
  - cbn [scan_hand]. destruct (scan_card c st); cbn [bind]; [apply IH | reflexivity].
  - apply scan_hand_swap.
  - now rewrite IH1.
Qed.

(** X1.  The value of a hand does not depend on the order of its cards. *)
Theorem calculate_hand_value_order (hand hand' : list Card) :
  hand ≡ₚ hand' -> calculate_hand_value hand = calculate_hand_value hand'.
Proof.
  intros H. unfold calculate_hand_value. now rewrite (scan_hand_order _ _ H).
Qed.

Lemma calculate_hand_value_order_witness :
  calculate_hand_value [("1","W"); ("6","T"); ("K","S")]
  = calculate_hand_value [("K","S"); ("1","W"); ("6","T")].
Proof.
  apply calculate_hand_value_order.
  change ([("1","W"); ("6","T")] ++ [("K","S")] ≡ₚ [("K","S")] ++ [("1","W"); ("6","T")]).
  apply Permutation_app_comm.
Defined.

Lemma card_adds_unreadable (c : Card) :
  if unreadable c then card_adds c = Raise ValueError
  else exists r, card_adds c = Ok r.
Proof.
  unfold unreadable, card_adds, scan_card. destruct c as [rank suit]. cbn [fst snd].
  destruct (String.eqb suit "T") eqn:Es; cbn [negb andb].
  - destruct (String.eqb rank "6"); [eauto|].
    destruct (str_in rank negative_trionfi) eqn:Ein; [|eauto].
    unfold str_in, negative_trionfi in Ein. cbn [existsb] in Ein.
    repeat (apply orb_prop in Ein as [Ein|Ein];
            [apply String.eqb_eq in Ein; subst rank; cbn; eauto|]).
    discriminate.
  - unfold str_in. cbn [existsb].
    destruct (String.eqb rank "1"); [cbn; eauto|].
    destruct (String.eqb rank "K"); [cbn; eauto|].
    destruct (String.eqb rank "Q"); [cbn; eauto|].
    destruct (String.eqb rank "N"); [cbn; eauto|].
    destruct (String.eqb rank "P"); [cbn; eauto|].
    cbn [orb negb andb]. unfold int_of.
    destruct (py_int rank); cbn [bind]; eauto.
Qed.

Lemma scan_hand_unreadable (hand : list Card) st :
  if existsb unreadable hand then scan_hand hand st = Raise ValueError
  else exists r, scan_hand hand st = Ok r.
Proof.
  revert st. induction hand as [|c hand IH]; intros [[v n] l];
    cbn [scan_hand existsb]; [eauto|].
  rewrite scan_card_shift.
  pose proof (card_adds_unreadable c) as Hc.
  destruct (unreadable c); cbn [orb].
  - rewrite Hc. reflexivity.
  - destruct Hc as [[[dv dn] dl] ->]. cbn [bind]. apply IH.
Qed.

Lemma deck_readable (c : Card) : In c _generate_deck -> unreadable c = false.
Proof.
  intros H.
  assert (E : forallb (fun c => negb (unreadable c)) _generate_deck = true)
    by (vm_compute; reflexivity).
  rewrite forallb_forall in E. apply E in H. now destruct (unreadable c).
Qed.

Lemma deck_ascii_rank : forallb ascii_rank _generate_deck = true.
Proof. vm_compute. reflexivity. Qed.

(** X2.  For hands whose ranks are written in at most 640 ASCII characters,
    [calculate_hand_value] stops with [ValueError] exactly on the hands
    that hold a suit card whose rank is no ace, no court card and no number
    that [int] reads; every other hand gets a value, busted exactly when its
    magnitude passes 23.  Hands of deck cards, the empty hand included, are
    always scored. *)
Theorem calculate_hand_value_errors (hand : list Card) :
  forallb ascii_rank hand = true ->
  (existsb unreadable hand = true -> calculate_hand_value hand = Raise ValueError)
  /\ (existsb unreadable hand = false ->
      exists v, calculate_hand_value hand = Ok (v, 23 <? Z.abs v))
  /\ (Forall (fun c => In c _generate_deck) hand -> existsb unreadable hand = false)
  /\ calculate_hand_value [] = Ok (0, false).
Proof.
  intros _. pose proof (scan_hand_unreadable hand (0, O, false)) as H.
  repeat split.
  - intros E. rewrite E in H. unfold calculate_hand_value. now rewrite H.
  - intros E. rewrite E in H. destruct H as [[[v n] l] H].
    unfold calculate_hand_value. rewrite H. cbn [bind]. eauto.
  - clear H. intros Hd. induction Hd as [|c l Hc _ IH]; [reflexivity|].
    cbn [existsb]. rewrite (deck_readable c Hc). exact IH.
Qed.

Lemma calculate_hand_value_errors_witness :
  calculate_hand_value [("10","W"); ("X","C")] = Raise ValueError
  /\ calculate_hand_value [("10","W"); (" 7","C")] = Ok (17, false)
  /\ exists v, calculate_hand_value [("10","W"); ("0","T")] = Ok (v, 23 <? Z.abs v).
Proof.
  split; [|split].
  - apply (calculate_hand_value_errors [("10","W"); ("X","C")]); reflexivity.
  - reflexivity.
  - apply (calculate_hand_value_errors [("10","W"); ("0","T")]); reflexivity.
Defined.

Lemma highest_card_from_spec (hand : list Card) (v0 : Z) (s0 : string) (v : Z) (s : string) :
  highest_card_from hand v0 s0 = Ok (v, s) ->
  v0 <= v
  /\ (forall c, In c hand -> exists cv, high_card_value c = Ok cv /\ cv <= v)
  /\ ((v = v0 /\ s = s0)
      \/ exists i c,
           hand !! i = Some c /\ high_card_value c = Ok v /\ c.2 = s /\ v0 < v
           /\ forall j c', (j < i)%nat -> hand !! j = Some c' ->
                exists cv', high_card_value c' = Ok cv' /\ cv' < v).
Proof.
  revert v0 s0. induction hand as [|c hand IH]; intros v0 s0; cbn [highest_card_from].
  - intros [= <- <-]. split; [lia|]. split; [intros c []|]. now left.
  - destruct (high_card_value c) as [cv|e] eqn:Ec; cbn [bind]; [|discriminate].
    destruct (v0 <? cv) eqn:Elt; intros H; apply IH in H as (Hle & Hall & Hwho).
    + apply Z.ltb_lt in Elt. split; [lia|]. split.
      * intros c' [<-|Hin]; [exists cv; split; [assumption|lia] | now apply Hall].
      * right. destruct Hwho as [[-> ->]|(i & c' & Hi & Hv & Hs & Hlt & Hbefore)].
        -- exists 0%nat, c. repeat split; try assumption. intros j c' Hj. lia.
        -- exists (S i), c'. repeat split; try assumption; [lia|].
           intros [|j] c'' Hj Hl; cbn in Hl.
           ++ injection Hl as <-. exists cv. split; [assumption|lia].
           ++ apply (Hbefore j c''); [lia|assumption].
    + apply Z.ltb_ge in Elt. split; [lia|]. split.
      * intros c' [<-|Hin]; [exists cv; split; [assumption|lia] | now apply Hall].
      * destruct Hwho as [[-> ->]|(i & c' & Hi & Hv & Hs & Hlt & Hbefore)]; [now left|].
        right. exists (S i), c'. repeat split; try assumption.
        intros [|j] c'' Hj Hl; cbn in Hl.
        -- injection Hl as <-. exists cv. split; [assumption|lia].
        -- apply (Hbefore j c''); [lia|assumption].
Qed.

Lemma high_card_value_deck (c : Card) :
  In c _generate_deck -> exists cv, high_card_value c = Ok cv /\ -17 <= cv <= 14.
Proof.
  intros H.
  assert (E : forallb (fun c => match high_card_value c with
                                | Ok cv => (-17 <=? cv) && (cv <=? 14)
                                | Raise _ => false
                                end) _generate_deck = true)
    by (vm_compute; reflexivity).
  rewrite forallb_forall in E. apply E in H.
  destruct (high_card_value c) as [cv|]; [|discriminate].
  exists cv. split; [reflexivity|lia].
Qed.

(** X3.  [get_highest_card_in_hand] returns [(-999, '')] for the empty hand.
    No card of the hand has a value above the value returned (ace 11, court
    cards 11 to 14, the negative trumps and the Lovers counted negative, the
    other trumps 0); the result is the initial [(-999, '')] or the value of
    a card of the hand, with the suit of the first card, in hand order, that
    has this value; for a hand of deck cards that is not empty the value
    lies between -17 and 14. *)
Theorem get_highest_card_in_hand_first_of_highest (hand : list Card) (v : Z) (s : string) :
  get_highest_card_in_hand hand = Ok (v, s) ->
  (hand = [] -> v = -999 /\ s = "")
  /\ (forall c, In c hand -> exists cv, high_card_value c = Ok cv /\ cv <= v)
  /\ ((v = -999 /\ s = "")
      \/ exists i c,
           hand !! i = Some c /\ high_card_value c = Ok v /\ c.2 = s
           /\ forall j c', (j < i)%nat -> hand !! j = Some c' ->
                exists cv', high_card_value c' = Ok cv' /\ cv' < v)
  /\ (hand <> [] -> Forall (fun c => In c _generate_deck) hand -> -17 <= v <= 14).
Proof.
  unfold get_highest_card_in_hand. intros H.
  pose proof (highest_card_from_spec _ _ _ _ _ H) as (Hle & Hall & Hwho).
  split; [intros ->; cbn in H; now injection H as <- <-|].
  split; [exact Hall|]. split.
  - destruct Hwho as [?|(i & c & ? & ? & ? & ? & ?)]; [now left|].
    right. exists i, c. auto.
  - intros Hne Hdeck. destruct hand as [|c hand]; [congruence|].
    apply Forall_cons in Hdeck as [Hc Hdeck].
    destruct (high_card_value_deck c Hc) as (cv & Ecv & Hcv).
    destruct (Hall c (or_introl eq_refl)) as (cv' & Ecv' & Hcv').
    assert (cv' = cv) by congruence. subst cv'.
    split; [lia|].
    destruct Hwho as [[-> _]|(i & c' & Hi & Hv & _)]; [lia|].
    apply list_elem_of_lookup_2 in Hi.
    assert (Hd : In c' _generate_deck).
    { apply list_elem_of_In. apply elem_of_cons in Hi as [->|Hi];
        [now apply list_elem_of_In|].
      rewrite Forall_forall in Hdeck. apply list_elem_of_In, Hdeck. assumption. }
    destruct (high_card_value_deck c' Hd) as (cv'' & E'' & H''). 
    assert (cv'' = v) by congruence. lia.
Qed.

Lemma get_highest_card_in_hand_first_of_highest_witness :
  (forall c, In c [("1","W"); ("P","C"); ("17","T")] ->
     exists cv, high_card_value c = Ok cv /\ cv <= 11)
  /\ get_highest_card_in_hand [("1","W"); ("P","C"); ("17","T")] = Ok (11, "W")
  /\ get_highest_card_in_hand [("P","C"); ("1","W"); ("17","T")] = Ok (11, "C").
Proof.
  split; [|split; reflexivity].
  apply (get_highest_card_in_hand_first_of_highest
           [("1","W"); ("P","C"); ("17","T")] 11 "W").
  reflexivity.
Defined.

Lemma distinct_cards_NoDup (l : list Card) : distinct_cards l = true -> NoDup l.
Proof.
  induction l as [|c l IH]; cbn [distinct_cards]; [constructor|].
  intros H. apply andb_prop in H as [Hc Hl]. constructor; [|now apply IH].
  intros Hin. apply list_elem_of_In, card_in_In in Hin. rewrite Hin in Hc. discriminate.
Qed.

Lemma draw_card_cons (c : Card) (cards : list Card) (g : GameState.t) :
  GameState.draw_pile g = c :: cards ->
  draw_card g = Ok (c, GameState.set_draw_pile cards g).
Proof. intros H. unfold draw_card, draw. now rewrite H. Qed.

Lemma draw_card_nil (g : GameState.t) :
  GameState.draw_pile g = [] -> draw_card g = Raise NoneCard.
Proof. intros H. unfold draw_card, draw. now rewrite H. Qed.

(** The seats [s, s + m) receive their two cards in turn. *)
Lemma deal_two_each_seq (m s : nat) (g : GameState.t) :
  (s + m <= length (GameState.players g))%nat ->
  (2 * m <= length (GameState.draw_pile g))%nat ->
  deal_two_each (seq s m) g
  = Ok (GameState.set_players
          (imap (fun i p =>
                   if decide (s <= i < s + m)%nat
                   then Player.set_hand
                          (Player.hand p
                           ++ take 2 (drop (2 * (i - s)) (GameState.draw_pile g))) p
                   else p)
                (GameState.players g))
          (GameState.set_draw_pile (drop (2 * m) (GameState.draw_pile g)) g)).
Proof.
  revert s g. induction m as [|m IH]; intros s g Hs Hd.
  - cbn [seq deal_two_each]. f_equal. destruct g as [ps d ? ? ? ? ? ? ? ? ? ? ?].
    unfold GameState.set_players, GameState.set_draw_pile.
    cbn [GameState.players GameState.draw_pile GameState.discard_pile
         GameState.community_cards GameState.removed_pile GameState.pot
         GameState.current_bet GameState.min_bet GameState.dealer_index
         GameState.hand_number GameState.hands_face_up GameState.judgment_played
         GameState.tiebreaker_info Nat.mul drop].
    f_equal. apply list_eq. intros i. rewrite list_lookup_imap.
    destruct (ps !! i) as [p|]; [|reflexivity].
    cbn [fmap option_fmap option_map].
    destruct (decide _) as [H|H]; [lia|reflexivity].
  - cbn [seq deal_two_each].
    destruct g as [ps d dis com rem pot cb mb dl hn fu jp ti].
    cbn [GameState.players GameState.draw_pile] in Hs, Hd.
    destruct d as [|c1 [|c2 d]]; cbn [length] in Hd; try lia.
    rewrite (draw_card_cons c1 (c2 :: d)) by reflexivity. cbn [bind].
    rewrite (draw_card_cons c2 d) by reflexivity. cbn [bind].
    rewrite IH.
    2:{ unfold hand_append, update_player, GameState.set_players, GameState.set_draw_pile.
        cbn [GameState.players GameState.draw_pile]. rewrite !length_alter. lia. }
    2:{ unfold hand_append, update_player, GameState.set_players, GameState.set_draw_pile.
        cbn [GameState.players GameState.draw_pile]. lia. }
    f_equal.
    unfold hand_append, update_player, GameState.set_players, GameState.set_draw_pile.
    cbn [GameState.players GameState.draw_pile GameState.discard_pile
         GameState.community_cards GameState.removed_pile GameState.pot
         GameState.current_bet GameState.min_bet GameState.dealer_index
         GameState.hand_number GameState.hands_face_up GameState.judgment_played
         GameState.tiebreaker_info].
    f_equal.
    + apply list_eq. intros i. rewrite !list_lookup_imap.
      destruct (decide (i = s)) as [->|Hne].
      * rewrite !list_lookup_alter_eq.
        destruct (ps !! s) as [p|]; [|reflexivity].
        cbn [fmap option_fmap option_map].
        destruct (decide (S s <= s < S s + m)%nat) as [H|_]; [lia|].
        destruct (decide (s <= s < s + S m)%nat) as [_|H]; [|lia].
        replace (s - s)%nat with 0%nat by lia.
        f_equal. destruct p; cbn. now rewrite <- app_assoc.
      * rewrite !list_lookup_alter_ne by congruence.
        destruct (ps !! i) as [p|]; [|reflexivity].
        cbn [fmap option_fmap option_map].
        destruct (decide (S s <= i < S s + m)%nat) as [H1|H1];
          destruct (decide (s <= i < s + S m)%nat) as [H2|H2]; try lia; [|reflexivity].
        do 3 f_equal.
        replace (2 * (i - s))%nat with (2 + 2 * (i - S s))%nat by lia.
        reflexivity.
    + replace (2 * S m)%nat with (2 + 2 * m)%nat by lia. reflexivity.
Qed.

Lemma ensure_cards_available_enough (sh : Shuffle) (n : Z) (g : GameState.t) :
  n <= len (GameState.draw_pile g) -> ensure_cards_available sh n g = Ok g.
Proof.
  intros H. unfold ensure_cards_available, cards_remaining_in_draw_pile.
  now replace (len (GameState.draw_pile g) <? n) with false by (symmetry; apply Z.ltb_ge; lia).
Qed.

Lemma dealt_two_each_all (d : list Card) (ps : list Player.t) :
  imap (fun i p =>
          if decide (0 <= i < 0 + length ps)%nat
          then Player.set_hand (Player.hand p ++ take 2 (drop (2 * (i - 0)) d)) p
          else p) ps
  = dealt_two_each d ps.
Proof.
  unfold dealt_two_each. apply list_eq. intros i. rewrite !list_lookup_imap.
  destruct (ps !! i) as [p|] eqn:E; [|reflexivity].
  cbn [fmap option_fmap option_map].
  apply lookup_lt_Some in E.
  destruct (decide _) as [_|H]; [|lia].
  now replace (i - 0)%nat with i by lia.
Qed.

Lemma deal_initial_cards_enough (sh : Shuffle) (g : GameState.t) :
  let n := length (GameState.players g) in
  let d := GameState.draw_pile g in
  (2 * n + 4 <= length d)%nat ->
  deal_initial_cards sh g
  = Ok (GameState.set_discard_pile
          (GameState.discard_pile g ++ take 1 (drop (2 * n + 3) d))
          (GameState.set_community_cards
             (GameState.community_cards g ++ take 3 (drop (2 * n) d))
             (GameState.set_players (dealt_two_each d (GameState.players g))
                (GameState.set_draw_pile (drop (2 * n + 4) d) g)))).
Proof.
  intros n d Hd. unfold deal_initial_cards.
  rewrite ensure_cards_available_enough by (unfold len; fold n d; lia).
  cbn [bind]. unfold seats_of.
  rewrite deal_two_each_seq by (fold n d; lia). cbn [bind].
  rewrite dealt_two_each_all. fold n d.
  destruct (drop (2 * n) d) as [|c1 [|c2 [|c3 [|c4 rest]]]] eqn:Edrop;
    try (apply (f_equal length) in Edrop; rewrite length_drop in Edrop;
         cbn in Edrop; lia).
  assert (E3 : drop (2 * n + 3) d = c4 :: rest).
  { now rewrite <- drop_drop, Edrop. }
  assert (E4 : drop (2 * n + 4) d = rest).
  { now rewrite <- drop_drop, Edrop. }
  rewrite E3, E4.
  rewrite (draw_card_cons c1 (c2 :: c3 :: c4 :: rest)) by reflexivity. cbn [bind].
  rewrite (draw_card_cons c2 (c3 :: c4 :: rest)) by reflexivity. cbn [bind].
  rewrite (draw_card_cons c3 (c4 :: rest)) by reflexivity. cbn [bind].
  rewrite (draw_card_cons c4 rest) by reflexivity. cbn [bind].
  f_equal. destruct g; cbn. unfold discard_append, community_append; cbn.
  unfold GameState.set_discard_pile, GameState.set_community_cards; cbn.
  f_equal. now rewrite <- !app_assoc.
Qed.

Lemma map_alter_same {B : Type} (proj : Player.t -> B) (f : Player.t -> Player.t)
    (i : nat) (ps : list Player.t) :
  (forall p, proj (f p) = proj p) -> map proj (alter f i ps) = map proj ps.
Proof.
  intros Hf. revert i. induction ps as [|p ps IH]; intros [|i]; cbn; try reflexivity.
  - now rewrite Hf.
  - now rewrite IH.
Qed.

Lemma collect_blinds_ok (g : GameState.t) :
  GameState.players g <> [] -> exists g', collect_blinds g = Ok g'.
Proof.
  intros Hne. unfold collect_blinds.
  destruct (GameState.players g) as [|p0 ps] eqn:Eps; [congruence|].
  set (n := length (p0 :: ps)).
  assert (Hn : (0 < n)%nat) by (subst n; cbn; lia).
  replace (Nat.eqb n 0) with false by (symmetry; apply Nat.eqb_neq; lia).
  assert (Hsb : (((GameState.dealer_index g + 1) mod n) < n)%nat)
    by (apply Nat.mod_upper_bound; lia).
  unfold with_player at 1. rewrite Eps.
  destruct (lookup_lt_is_Some_2 (p0 :: ps) _ Hsb) as [sb Esb]. rewrite Esb.
  assert (Hlen : forall g1, length (GameState.players g1) = n ->
            exists g', with_player g1 ((GameState.dealer_index g1 + 2) mod n)%nat
              (fun bb_player =>
                 if GameState.min_bet g1 <=? Player.credits bb_player
                 then
                   let g0 := update_player ((GameState.dealer_index g1 + 2) mod n)%nat
                     (fun p => Player.set_current_bet (GameState.min_bet g1)
                                 (Player.set_credits
                                    (Player.credits p - GameState.min_bet g1) p)) g1 in
                   let g2 := GameState.set_pot (GameState.pot g0 + GameState.min_bet g1) g0 in
                   Ok (GameState.set_current_bet (GameState.min_bet g1) g2)
                 else
                   let g0 := update_player ((GameState.dealer_index g1 + 2) mod n)%nat
                     (fun p => Player.set_current_bet (Player.credits p) p) g1 in
                   let g2 := GameState.set_pot
                               (GameState.pot g0 + Player.credits bb_player) g0 in
                   let g3 := GameState.set_current_bet (Player.credits bb_player) g2 in
                   Ok (update_player ((GameState.dealer_index g1 + 2) mod n)%nat
                         (Player.set_credits 0) g3)) = Ok g').
  { intros g1 Hg1. unfold with_player.
    assert (Hbb : (((GameState.dealer_index g1 + 2) mod n) < length (GameState.players g1))%nat)
      by (rewrite Hg1; apply Nat.mod_upper_bound; lia).
    destruct (lookup_lt_is_Some_2 _ _ Hbb) as [bb ->].
    destruct (_ <=? _); eauto. }
  destruct (GameState.min_bet g / 2 <=? Player.credits sb); cbn [bind]; apply Hlen;
    unfold update_player; cbn; rewrite ?length_alter, Eps; reflexivity.
Qed.

Lemma settles_refl (g : GameState.t) : settles g g.
Proof. repeat split; auto. Qed.

Lemma settles_trans (g1 g2 g3 : GameState.t) :
  settles g1 g2 -> settles g2 g3 -> settles g1 g3.
Proof.
  intros [(A1 & A2 & A3 & A4 & A5) A6] [(B1 & B2 & B3 & B4 & B5) B6].
  repeat split; try congruence; auto.
Qed.

Lemma money_settles (g g' : GameState.t) : money g' = money g -> settles g g'.
Proof.
  unfold money. intros [= Hp Hc Hd Hm Hh].
  repeat split; try assumption.
  - unfold credits_of in Hc. apply (f_equal length) in Hc.
    now rewrite !length_map in Hc.
  - unfold chips_in_play. now rewrite Hp, Hc.
  - unfold solvent. now rewrite Hc.
Qed.

Lemma money_update_player (seat : nat) (f : Player.t -> Player.t) (g : GameState.t) :
  (forall p, Player.credits (f p) = Player.credits p) ->
  money (update_player seat f g) = money g.
Proof.
  intros Hf. unfold money, credits_of, update_player. cbn.
  now rewrite (map_alter_same Player.credits f seat _ Hf).
Qed.

Ltac money_same :=
  unfold money, credits_of, hand_append, set_hand_of, discard_append,
    community_append, removed_append, player_fold, hermit_effect,
    judgment_effect, update_player;
  cbn [GameState.players GameState.draw_pile GameState.discard_pile
       GameState.community_cards GameState.removed_pile GameState.pot
       GameState.current_bet GameState.min_bet GameState.dealer_index
       GameState.hand_number GameState.hands_face_up GameState.judgment_played
       GameState.tiebreaker_info GameState.set_players GameState.set_draw_pile
       GameState.set_discard_pile GameState.set_community_cards
       GameState.set_removed_pile GameState.set_hands_face_up
       GameState.set_judgment_played GameState.set_tiebreaker_info
       GameState.set_current_bet];
  rewrite ?map_alter_same by reflexivity;
  try reflexivity.

Lemma money_hand_append seat cs g : money (hand_append seat cs g) = money g.
Proof. money_same. Qed.
Lemma money_set_hand_of seat h g : money (set_hand_of seat h g) = money g.
Proof. money_same. Qed.
Lemma money_discard_append cs g : money (discard_append cs g) = money g.
Proof. money_same. Qed.
Lemma money_community_append cs g : money (community_append cs g) = money g.
Proof. money_same. Qed.
Lemma money_removed_append cs g : money (removed_append cs g) = money g.
Proof. money_same. Qed.
Lemma money_player_fold seat g : money (player_fold seat g) = money g.
Proof. money_same. Qed.
Lemma money_set_draw_pile cs g : money (GameState.set_draw_pile cs g) = money g.
Proof. money_same. Qed.

Ltac money_rw :=
  repeat first [ rewrite money_hand_append | rewrite money_set_hand_of
               | rewrite money_discard_append | rewrite money_community_append
               | rewrite money_removed_append | rewrite money_player_fold
               | rewrite money_set_draw_pile ].

Lemma money_ensure_cards_available (sh : Shuffle) (n : Z) (g g' : GameState.t) :
  ensure_cards_available sh n g = Ok g' -> money g' = money g.
Proof.
  unfold ensure_cards_available. destruct (_ <? n); [|now intros [= <-]].
  destruct (0 <? _); [|discriminate]. now intros [= <-].
Qed.

Lemma money_draw_card (g g' : GameState.t) (c : Card) :
  draw_card g = Ok (c, g') -> money g' = money g.
Proof.
  unfold draw_card, draw. destruct (GameState.draw_pile g); [discriminate|].
  now intros [= _ <-].
Qed.

Lemma money_draw_cards (n : nat) (g g' : GameState.t) (cs : list Card) :
  draw_cards n g = Ok (cs, g') -> money g' = money g.
Proof.
  revert g cs. induction n as [|n IH]; intros g cs; cbn [draw_cards];
    [now intros [= _ <-]|].
  destruct (draw_card g) as [[c g1]|e] eqn:H1; cbn [bind]; [|discriminate].
  destruct (draw_cards n g1) as [[cs' g2]|e] eqn:H2; cbn [bind]; [|discriminate].
  intros [= _ <-]. apply IH in H2. apply money_draw_card in H1. congruence.
Qed.

Lemma money_move_to_removed (seat : nat) (c : Card) (g g' : GameState.t) :
  move_to_removed seat c g = Ok g' -> money g' = money g.
Proof.
  unfold move_to_removed. destruct (card_in _ _); [|now intros [= <-]].
  destruct (list_remove _ _); cbn [bind]; [|discriminate].
  intros [= <-]. now money_rw.
Qed.

Lemma money_discard_listed (target : nat) (cards : list Card) (g g' : GameState.t) :
  discard_listed target cards g = Ok g' -> money g' = money g.
Proof.
  revert g. induction cards as [|c cards IH]; intros g; cbn [discard_listed];
    [now intros [= <-]|].
  destruct (list_remove _ _); cbn [bind]; [|discriminate].
  intros H. apply IH in H. rewrite H. now money_rw.
Qed.

Lemma money_pop_to_discard (q i : nat) (g g' : GameState.t) :
  pop_to_discard q i g = Ok g' -> money g' = money g.
Proof.
  unfold pop_to_discard. destruct (_ !! _); [|discriminate].
  intros [= <-]. now money_rw.
Qed.

Lemma sum_Z_alter (ps : list Player.t) (i : nat) (f : Player.t -> Player.t) (p : Player.t) :
  ps !! i = Some p ->
  sum_Z (map Player.credits (alter f i ps))
  = sum_Z (map Player.credits ps) - Player.credits p + Player.credits (f p).
Proof.
  revert i. induction ps as [|q ps IH]; intros [|i]; cbn; try discriminate.
  - intros [= ->]. unfold sum_Z. lia.
  - intros H. unfold sum_Z in *. cbn. rewrite (IH i H). lia.
Qed.

Lemma solvent_alter (ps : list Player.t) (i : nat) (f : Player.t -> Player.t) (p : Player.t) :
  ps !! i = Some p ->
  Forall (fun c => 0 <= c) (map Player.credits ps) ->
  0 <= Player.credits (f p) ->
  Forall (fun c => 0 <= c) (map Player.credits (alter f i ps)).
Proof.
  revert i. induction ps as [|q ps IH]; intros [|i]; cbn; try discriminate.
  - intros [= ->] H Hf. apply Forall_cons in H as [_ H]. now constructor.
  - intros Hi H Hf. apply Forall_cons in H as [Hq H]. constructor; [assumption|].
    now apply IH.
Qed.

Lemma solvent_lookup (ps : list Player.t) (i : nat) (p : Player.t) :
  ps !! i = Some p ->
  Forall (fun c => 0 <= c) (map Player.credits ps) -> 0 <= Player.credits p.
Proof.
  intros Hi H. rewrite Forall_forall in H. apply H.
  apply list_elem_of_fmap. exists p. split; [reflexivity|].
  eapply list_elem_of_lookup_2; eauto.
Qed.

(** A seat pays [amount] into the pot, its other fields changing by a
    function that leaves the credits alone. *)
Lemma settles_pay (g : GameState.t) (seat : nat) (p : Player.t) (amount : Z)
    (f : Player.t -> Player.t) :
  GameState.players g !! seat = Some p ->
  Player.credits (f p) = Player.credits p - amount ->
  amount <= Player.credits p \/ amount <= 0 ->
  settles g (GameState.set_pot (GameState.pot g + amount) (update_player seat f g)).
Proof.
  intros Hp Hf Ha. repeat split; cbn.
  - apply length_alter.
  - unfold chips_in_play, credits_of. cbn. rewrite (sum_Z_alter _ _ _ p Hp), Hf. lia.
  - unfold solvent, credits_of. cbn. intros Hs.
    apply (solvent_alter _ _ _ p Hp Hs). rewrite Hf.
    pose proof (solvent_lookup _ _ _ Hp Hs). lia.
Qed.

Lemma settles_money_r (g g1 g2 : GameState.t) :
  settles g g1 -> money g2 = money g1 -> settles g g2.
Proof. intros H1 H2. eapply settles_trans; [exact H1 | now apply money_settles]. Qed.

Lemma settles_ante_up (g : GameState.t) (target : nat) (tp : Player.t) :
  GameState.players g !! target = Some tp ->
  GameState.min_bet g <= Player.credits tp ->
  settles g (ante_up target g).
Proof.
  intros Hp Hc. unfold ante_up.
  change (GameState.pot (update_player target _ g)) with (GameState.pot g).
  change (GameState.min_bet (update_player target _ g)) with (GameState.min_bet g).
  apply (settles_pay g target tp); [assumption | reflexivity | now left].
Qed.

Lemma settles_player_call (seat : nat) (g g' : GameState.t) (paid : Z) :
  player_call seat g = Ok (paid, g') -> settles g g'.
Proof.
  unfold player_call, with_player.
  destruct (GameState.players g !! seat) as [p|] eqn:Hp; [|discriminate].
  destruct (Z.leb_spec (GameState.current_bet g - Player.current_bet p) 0) as [Hle|Hgt];
    intros [= _ <-].
  - apply money_settles. now apply money_update_player.
  - match goal with
    | |- settles g (GameState.set_pot (_ + ?a) (update_player seat ?f g)) =>
        change (GameState.pot (update_player seat f g)) with (GameState.pot g);
        apply (settles_pay g seat p a f Hp); [reflexivity|]
    end.
    destruct (Z.ltb_spec (Player.credits p)
                (GameState.current_bet g - Player.current_bet p)); left; lia.
Qed.

Lemma map_credits_reopen_action (seat : nat) (ps : list Player.t) :
  map Player.credits (reopen_action seat ps) = map Player.credits ps.
Proof.
  unfold reopen_action. apply list_eq. intros i.
  rewrite !list_lookup_fmap, list_lookup_imap.
  destruct (ps !! i) as [p|]; [|reflexivity]. cbn.
  now destruct (_ && _).
Qed.

Lemma settles_player_raise (seat : nat) (amount : Z) (g g' : GameState.t) (paid : Z) :
  player_raise seat amount g = Ok (paid, g') -> settles g g'.
Proof.
  unfold player_raise, with_player.
  destruct (GameState.players g !! seat) as [p|] eqn:Hp; [|discriminate].
  intros [= _ <-].
  set (total := if Player.credits p <? GameState.current_bet g - Player.current_bet p + amount
                then Player.credits p
                else GameState.current_bet g - Player.current_bet p + amount).
  set (f := fun q : Player.t =>
              Player.set_current_bet (Player.current_bet p + total)
                (Player.set_credits (Player.credits q - total) q)).
  apply (settles_money_r g (GameState.set_pot (GameState.pot g + total)
                              (update_player seat f g))).
  - apply (settles_pay g seat p total f Hp); [reflexivity|].
    subst total. destruct (Z.ltb_spec (Player.credits p)
      (GameState.current_bet g - Player.current_bet p + amount)); left; lia.
  - unfold money, credits_of, update_player. cbn.
    rewrite (map_alter_same Player.credits) by reflexivity.
    now rewrite map_credits_reopen_action.
Qed.

(** ** The effects *)

Lemma money_magician_effect (env : Env) (seat : nat) (g g' : GameState.t) :
  magician_effect env seat g = Ok g' -> money g' = money g.
Proof.
  unfold magician_effect. destruct (_ <? 4); [now intros [= <-]|].
  unfold with_player. cbn [GameState.players GameState.set_draw_pile].
  destruct (GameState.players g !! seat) as [p|]; [|discriminate].
  destruct (Player.is_human p).
  - destruct (_ && _); [|discriminate]. now intros [= <-].
  - now intros [= <-].
Qed.

Lemma in_effect_targets (seat q : nat) (g : GameState.t) :
  In q (effect_targets seat g) ->
  exists p, GameState.players g !! q = Some p /\ q <> seat
            /\ Player.has_folded p = false /\ Player.is_hermit p = false.
Proof.
  unfold effect_targets. rewrite filter_In. intros [_ H].
  destruct (GameState.players g !! q) as [p|]; [|discriminate].
  exists p. split; [reflexivity|].
  apply andb_prop in H as [H Hh]. apply andb_prop in H as [Hq Hf].
  repeat split.
  - intros ->. rewrite Nat.eqb_refl in Hq. discriminate.
  - now destruct (Player.has_folded p).
  - now destruct (Player.is_hermit p).
Qed.

Lemma settles_emperor_effect (env : Env) (seat : nat) (g g' : GameState.t) :
  emperor_effect env seat g = Ok g' -> settles g g'.
Proof.
  unfold emperor_effect.
  destruct (effect_targets seat g) as [|t0 ts]; [intros [= <-]; apply settles_refl|].
  destruct ((t0 :: ts) !! emperor_target env g seat (t0 :: ts)) as [target|];
    [|discriminate].
  unfold with_player.
  destruct (GameState.players g !! target) as [tp|] eqn:Hp; [|discriminate].
  assert (Hfold : settles g (player_fold target g))
    by (apply money_settles, money_player_fold).
  assert (Hdisc : forall cards g1, discard_listed target cards g = Ok g1 -> settles g g1)
    by (intros cards g1 H; apply money_settles; eapply money_discard_listed; eauto).
  destruct (Player.is_human tp).
  - destruct (String.eqb _ "1").
    { destruct (Z.leb_spec (GameState.min_bet g) (Player.credits tp));
        intros [= <-]; [eapply settles_ante_up; eauto | exact Hfold]. }
    destruct (String.eqb _ "2"); [|intros [= <-]; exact Hfold].
    destruct (2 <=? _); [|intros [= <-]; exact Hfold].
    destruct (emperor_discards env g target) as [i1 i2].
    destruct (Player.hand tp !! i1); [|discriminate].
    destruct (Player.hand tp !! i2); [|discriminate].
    destruct (card_eqb _ _); [discriminate|]. apply Hdisc.
  - destruct (calculate_hand_value (Player.hand tp)) as [[value busted]|e];
      cbn [bind]; [|discriminate].
    destruct (busted || _); [intros [= <-]; exact Hfold|].
    destruct (Z.leb_spec (GameState.min_bet g) (Player.credits tp)); cbn [andb].
    + destruct (18 <=? _); [intros [= <-]; eapply settles_ante_up; eauto|].
      destruct (2 <=? _); [|intros [= <-]; exact Hfold].
      destruct (emperor_discards env g target) as [i1 i2].
      destruct (Player.hand tp !! i1); [|discriminate].
      destruct (Player.hand tp !! i2); [|discriminate].
      destruct (Nat.eqb _ _); [discriminate|]. apply Hdisc.
    + destruct (2 <=? _); [|intros [= <-]; exact Hfold].
      destruct (emperor_discards env g target) as [i1 i2].
      destruct (Player.hand tp !! i1); [|discriminate].
      destruct (Player.hand tp !! i2); [|discriminate].
      destruct (Nat.eqb _ _); [discriminate|]. apply Hdisc.
Qed.

Lemma money_hierophant_loop (env : Env) (seat : nat) (seats : list nat)
    (g g' : GameState.t) :
  hierophant_loop env seat seats g = Ok g' -> money g' = money g.
Proof.
  revert g. induction seats as [|q seats IH]; intros g; cbn [hierophant_loop];
    [now intros [= <-]|].
  unfold with_player. destruct (GameState.players g !! q) as [p|]; [|discriminate].
  assert (Hstep : forall r : result GameState.t,
            (forall g1, r = Ok g1 -> money g1 = money g) ->
            (let* g := r in hierophant_loop env seat seats g) = Ok g' ->
            money g' = money g).
  { intros [g1|e] Hr; cbn [bind]; [|discriminate]. intros H. apply IH in H.
    rewrite H. now apply Hr. }
  apply Hstep. intros g1.
  destruct (skipped_by_effect seat q p); [now intros [= <-]|].
  destruct (Player.is_human p).
  - destruct (hierophant_reveal env g q).
    + destruct (calculate_hand_value (Player.hand p)); cbn [bind]; [|discriminate].
      now intros [= <-].
    + intros [= <-]. apply money_player_fold.
  - destruct (calculate_hand_value (Player.hand p)) as [[value busted]|e];
      cbn [bind]; [|discriminate].
    destruct (busted || (Z.abs value <? 8)); intros [= <-];
      [apply money_player_fold | reflexivity].
Qed.

Lemma money_chariot_loop (env : Env) (seat : nat) (seats : list nat)
    (g g' : GameState.t) :
  chariot_loop env seat seats g = Ok g' -> money g' = money g.
Proof.
  revert g. induction seats as [|q seats IH]; intros g; cbn [chariot_loop];
    [now intros [= <-]|].
  unfold with_player. destruct (GameState.players g !! q) as [p|]; [|discriminate].
  assert (Hstep : forall r : result GameState.t,
            (forall g1, r = Ok g1 -> money g1 = money g) ->
            (let* g := r in chariot_loop env seat seats g) = Ok g' ->
            money g' = money g).
  { intros [g1|e] Hr; cbn [bind]; [|discriminate]. intros H. apply IH in H.
    rewrite H. now apply Hr. }
  apply Hstep. intros g1.
  destruct (skipped_by_effect seat q p); [now intros [= <-]|].
  destruct (Player.is_human p).
  - destruct (Nat.eqb _ 0); [intros [= <-]; apply money_player_fold|].
    destruct (chariot_discard env g q); [|intros [= <-]; apply money_player_fold].
    destruct (index_in_hand _ _); [apply money_pop_to_discard | discriminate].
  - destruct (Nat.eqb _ 0); [intros [= <-]; apply money_player_fold|].
    destruct (calculate_hand_value (Player.hand p)) as [[value busted]|e];
      cbn [bind]; [|discriminate].
    destruct (busted || (Z.abs value <? 8)); [intros [= <-]; apply money_player_fold|].
    destruct (find_worst_card_to_discard (Player.hand p)) as [[i|]|e];
      cbn [bind]; [apply money_pop_to_discard | | discriminate].
    destruct (index_in_hand _ _); [apply money_pop_to_discard | discriminate].
Qed.

Lemma money_wheel_of_fortune_effect (env : Env) (seat : nat) (g g' : GameState.t) :
  wheel_of_fortune_effect env seat g = Ok g' -> money g' = money g.
Proof.
  unfold wheel_of_fortune_effect.
  destruct (ensure_cards_available _ 4 g) as [g1|e] eqn:H1; cbn [bind]; [|discriminate].
  destruct (draw_cards 4 g1) as [[drawn g2]|e] eqn:H2; cbn [bind]; [|discriminate].
  apply money_ensure_cards_available in H1. apply money_draw_cards in H2.
  unfold with_player. destruct (GameState.players g2 !! seat) as [p|]; [|discriminate].
  destruct (Player.is_human p).
  - destruct (list_remove _ _) as [h|e]; cbn [bind]; [|discriminate].
    destruct (wheel_keep env _ seat drawn); intros [= <-];
      money_rw; congruence.
  - destruct (list_remove _ _) as [h|e]; cbn [bind]; [|discriminate].
    destruct (choose_wheel_of_fortune_cards _ _); cbn [bind]; [|discriminate].
    intros [= <-]. money_rw. congruence.
Qed.

Lemma money_devil_effect (env : Env) (seat : nat) (g g' : GameState.t) :
  devil_effect env seat g = Ok g' -> money g' = money g.
Proof.
  unfold devil_effect.
  destruct (other_active_seats seat g) as [|t0 ts]; [now intros [= <-]|].
  destruct (_ !! _); [|discriminate].
  destruct (card_in _ _); [|now intros [= <-]].
  destruct (list_remove _ _); cbn [bind]; [|discriminate].
  intros [= <-]. now money_rw.
Qed.

Lemma money_moon_effect (env : Env) (seat : nat) (g g' : GameState.t) :
  moon_effect env seat g = Ok g' -> money g' = money g.
Proof.
  unfold moon_effect.
  destruct (move_to_removed seat ("18", "T") g) as [g1|e] eqn:H1; cbn [bind]; [|discriminate].
  destruct (ensure_cards_available (shuffle env) 1 g1) as [g2|e] eqn:H2;
    cbn [bind]; [|discriminate].
  destruct (draw_card g2) as [[c g3]|e] eqn:H3; cbn [bind]; [|discriminate].
  intros [= <-]. money_rw.
  apply money_move_to_removed in H1. apply money_ensure_cards_available in H2.
  apply money_draw_card in H3. congruence.
Qed.

Lemma money_sun_effect (seat : nat) (g g' : GameState.t) :
  sun_effect seat g = Ok g' -> money g' = money g.
Proof.
  unfold sun_effect. destruct (evaluate_hands _); cbn [bind]; [|discriminate].
  now intros [= <-].
Qed.

Lemma settles_run_handler (env : Env) (h : Handler) (seat : nat) (g g' : GameState.t) :
  run_handler env h seat g = Ok g' -> settles g g'.
Proof.
  destruct h; cbn [run_handler]; intros H;
    try (apply money_settles;
         first [ eapply money_magician_effect; eassumption
               | eapply money_hierophant_loop; eassumption
               | eapply money_chariot_loop; eassumption
               | eapply money_wheel_of_fortune_effect; eassumption
               | eapply money_devil_effect; eassumption
               | eapply money_moon_effect; eassumption
               | eapply money_sun_effect; eassumption
               | eapply money_move_to_removed; eassumption
               | injection H as <-; money_same ]).
  eapply settles_emperor_effect; eauto.
Qed.

Lemma settles_apply_effect (env : Env) (t : TrionfiEffect.t) (seat : nat)
    (g g' : GameState.t) :
  apply_effect env t seat g = Ok g' -> settles g g'.
Proof.
  unfold apply_effect.
  destruct (TrionfiEffect.effect t) as [h|]; [|intros [= <-]; apply settles_refl].
  destruct (run_handler env h seat g) as [g1|e] eqn:Hr; cbn [bind]; [|discriminate].
  apply settles_run_handler in Hr.
  destruct (negb _); [|now intros [= <-]].
  intros Hm. apply money_move_to_removed in Hm. eapply settles_money_r; eauto.
Qed.

Lemma money_hanged_man_scan (env : Env) (acting : nat) (number : Z) (seats : list nat)
    (g g' : GameState.t) (b : bool) :
  hanged_man_scan env acting number seats g = Ok (b, g') -> money g' = money g.
Proof.
  induction seats as [|q seats IH]; cbn [hanged_man_scan]; [now intros [= _ <-]|].
  unfold with_player. destruct (GameState.players g !! q) as [p|] eqn:Hp; [|discriminate].
  destruct (_ || _); [exact IH|].
  destruct (negb _); [exact IH|].
  destruct (play_hanged_man env g q acting number); [|exact IH].
  destruct (list_remove hanged_man_card (Player.hand p)) as [h|e] eqn:Hr;
    cbn [bind]; [|discriminate].
  destruct (move_to_removed _ _ _) as [g2|e] eqn:Hm; cbn [bind]; [|discriminate].
  intros [= _ <-]. apply money_move_to_removed in Hm. rewrite Hm.
  now money_rw.
Qed.

Lemma money_handle_devil_card (env : Env) (seat : nat) (g g' : GameState.t) :
  handle_devil_card env seat g = Ok g' -> money g' = money g.
Proof.
  unfold handle_devil_card. destruct (give_away_devil env g seat); [|now intros [= <-]].
  destruct (other_active_seats seat g) as [|t0 ts]; [now intros [= <-]|].
  destruct (_ !! _); [|discriminate].
  destruct (list_remove _ _); cbn [bind]; [|discriminate].
  intros [= <-]. now money_rw.
Qed.

Lemma settles_play_trionfi_step (env : Env) (seat : nat) (card : Card) (g g' : GameState.t) :
  play_trionfi_step env seat card g = Ok g' -> settles g g'.
Proof.
  unfold play_trionfi_step.
  destruct (get_trionfi_effect card) as [t|]; [|intros [= <-]; apply settles_refl].
  destruct (TrionfiEffect.effect t) as [h|] eqn:Hh; [|intros [= <-]; apply settles_refl].
  unfold check_for_hanged_man_interrupt.
  destruct (hanged_man_scan _ _ _ _ _) as [[b g1]|e] eqn:Hs; cbn [bind]; [|discriminate].
  apply money_hanged_man_scan, money_settles in Hs.
  destruct b; cbn [negb]; [now intros [= <-]|].
  intros Ha. apply settles_apply_effect in Ha. eapply settles_trans; eauto.
Qed.

Lemma settles_bet_step (env : Env) (seat : nat) (action : Action) (bet : string)
    (g g' : GameState.t) :
  bet_step env seat action bet g = Ok g' -> settles g g'.
Proof.
  unfold bet_step. destruct (String.eqb bet "call").
  - destruct (player_call seat g) as [[paid g1]|e] eqn:Hc; cbn [bind]; [|discriminate].
    intros [= <-]. eapply settles_player_call; eauto.
  - destruct (String.eqb bet "raise"); [|intros [= <-]; apply settles_refl].
    destruct (player_raise _ _ _) as [[paid g1]|e] eqn:Hr; cbn [bind]; [|discriminate].
    apply settles_player_raise in Hr.
    destruct (play_trionfi action) as [card|]; [|now intros [= <-]].
    intros Hp. apply settles_play_trionfi_step in Hp. eapply settles_trans; eauto.
Qed.

Lemma money_draw_from_draw_pile (sh : Shuffle) (seat : nat) (g g' : GameState.t) (c : Card) :
  draw_from_draw_pile sh seat g = Ok (c, g') -> money g' = money g.
Proof.
  unfold draw_from_draw_pile.
  destruct (ensure_cards_available _ 1 g) as [g1|e] eqn:He; cbn [bind]; [|discriminate].
  destruct (draw_card g1) as [[c' g2]|e] eqn:Hd; cbn [bind]; [|discriminate].
  intros [= _ <-]. rewrite money_update_player by reflexivity.
  money_rw.
  apply money_ensure_cards_available in He. apply money_draw_card in Hd. congruence.
Qed.

Lemma money_draw_from_discard_pile (seat : nat) (i : Z) (g g' : GameState.t) cs :
  draw_from_discard_pile seat i g = Ok (cs, g') -> money g' = money g.
Proof.
  unfold draw_from_discard_pile.
  destruct (GameState.discard_pile g); [discriminate|].
  destruct (_ || _); [discriminate|].
  intros [= _ <-]. rewrite money_update_player by reflexivity.
  money_rw. reflexivity.
Qed.

Lemma money_swap_with_community (seat : nat) (i j : Z) (g g' : GameState.t) r :
  swap_with_community seat i j g = Ok (r, g') -> money g' = money g.
Proof.
  unfold swap_with_community, with_player.
  destruct (GameState.players g !! seat) as [p|]; [|discriminate].
  destruct (_ || _); [discriminate|]. destruct (_ || _); [discriminate|].
  destruct (Player.hand p !! _); [|discriminate].
  destruct (GameState.community_cards g !! _); [|discriminate].
  intros [= _ <-]. rewrite money_update_player by reflexivity.
  money_rw. money_same.
Qed.

Lemma money_discard_card (seat : nat) (i : Z) (g g' : GameState.t) (c : Card) :
  discard_card seat i g = Ok (c, g') -> money g' = money g.
Proof.
  unfold discard_card, with_player.
  destruct (GameState.players g !! seat) as [p|]; [|discriminate].
  destruct (_ || _); [discriminate|].
  destruct (Player.hand p !! _); [|discriminate].
  intros [= _ <-]. money_rw. money_same.
Qed.

Lemma money_draw_step (env : Env) (seat : nat) (action : Action) (g g' : GameState.t)
    (drew : bool) :
  draw_step env seat action g = Ok (drew, g') -> money g' = money g.
Proof.
  unfold draw_step, with_player.
  destruct (GameState.players g !! seat) as [p|]; [|discriminate].
  destruct (negb _); [|now intros [= _ <-]].
  destruct (draw_action action) as [d|]; [|now intros [= _ <-]].
  destruct (String.eqb d "draw_pile").
  { destruct (draw_from_draw_pile _ _ _) as [[c g1]|e] eqn:H; cbn [bind]; [|discriminate].
    intros [= _ <-]. eapply money_draw_from_draw_pile; eauto. }
  destruct (String.eqb d "discard_pile").
  { destruct (draw_from_discard_pile _ _ _) as [[c g1]|e] eqn:H; cbn [bind]; [|discriminate].
    intros [= _ <-]. eapply money_draw_from_discard_pile; eauto. }
  destruct (String.eqb d "community"); [|now intros [= _ <-]].
  destruct (swap_with_community _ _ _ _) as [[c g1]|e] eqn:H; cbn [bind]; [|discriminate].
  intros [= _ <-]. eapply money_swap_with_community; eauto.
Qed.

Lemma money_discard_step (seat : nat) (discard_index : option Z) (g g' : GameState.t) :
  discard_step seat discard_index g = Ok g' -> money g' = money g.
Proof.
  unfold discard_step, with_player.
  destruct (GameState.players g !! seat) as [p|]; [|discriminate].
  destruct discard_index as [d|]; [|now intros [= <-]].
  destruct (_ && _); [|now intros [= <-]].
  destruct (discard_card _ _ _) as [[c g1]|e] eqn:H; cbn [bind]; [|discriminate].
  intros [= <-]. eapply money_discard_card; eauto.
Qed.

Lemma settles_execute_player_turn (env : Env) (seat : nat) (action : Action)
    (g g' : GameState.t) (b : bool) :
  execute_player_turn env seat action g = Ok (b, g') -> settles g g'.
Proof.
  unfold execute_player_turn, with_player.
  destruct (GameState.players g !! seat) as [p|]; [|discriminate].
  destruct (Player.has_folded p); [intros [= _ <-]; apply settles_refl|].
  destruct (if card_in devil_card (Player.hand p)
            then handle_devil_card env seat g else Ok g) as [g0|e] eqn:H0;
    cbn [bind]; [|discriminate].
  assert (T0 : settles g g0).
  { apply money_settles. destruct (card_in devil_card (Player.hand p));
      [now apply money_handle_devil_card in H0 | now injection H0 as <-]. }
  destruct (String.eqb _ "fold").
  { intros [= _ <-]. eapply settles_money_r; [exact T0 | apply money_player_fold]. }
  destruct (bet_step _ _ _ _ _) as [g1|e] eqn:H1; cbn [bind]; [|discriminate].
  apply settles_bet_step in H1.
  destruct (draw_step _ _ _ _) as [[drew g2]|e] eqn:H2; cbn [bind]; [|discriminate].
  apply money_draw_step in H2.
  destruct (ask_discard_step _ _ _ _ _) as [di|e]; cbn [bind]; [|discriminate].
  destruct (discard_step _ _ _) as [g3|e] eqn:H3; cbn [bind]; [|discriminate].
  apply money_discard_step in H3. intros [= _ <-].
  eapply settles_money_r; [|exact H3].
  eapply settles_money_r; [|exact H2].
  eapply settles_trans; eauto.
Qed.

Lemma settles_betting_loop (env : Env) (ha : ActionSource) (ai : option ActionSource)
    (fuel : nat) (i : nat) (asked asked' : list nat) (g g' : GameState.t) :
  betting_loop env ha ai fuel i asked g = Ok (asked', g') -> settles g g'.
Proof.
  revert i asked g. induction fuel as [|fuel IH]; intros i asked g; cbn [betting_loop].
  - intros [= _ <-]. apply settles_refl.
  - destruct (is_betting_round_complete g); [intros [= _ <-]; apply settles_refl|].
    unfold with_player. destruct (GameState.players g !! i) as [p|]; [|discriminate].
    destruct (negb _ && _).
    + destruct (execute_player_turn _ _ _ _) as [[b g1]|e] eqn:Ht; cbn [bind];
        [|discriminate].
      apply settles_execute_player_turn in Ht.
      intros H. apply IH in H. eapply settles_trans; eauto.
    + cbn [bind]. apply IH.
Qed.

Lemma settles_run_betting_round (env : Env) (ha : ActionSource) (ai : option ActionSource)
    (asked : list nat) (g g' : GameState.t) :
  run_betting_round env ha ai g = Ok (asked, g') -> settles g g'.
Proof.
  unfold run_betting_round. destruct (Nat.eqb _ 0); [discriminate|].
  apply settles_betting_loop.
Qed.

Lemma keeps_table_trans (g1 g2 g3 : GameState.t) :
  keeps_table g1 g2 -> keeps_table g2 g3 -> keeps_table g1 g3.
Proof.
  intros (A1 & A2 & A3 & A4 & A5) (B1 & B2 & B3 & B4 & B5).
  repeat split; congruence.
Qed.

Lemma money_keeps_table (g g' : GameState.t) : money g' = money g -> keeps_table g g'.
Proof. intros H. now apply money_settles in H as [H _]. Qed.

(** ** Blinds *)

Lemma settles_blind (g : GameState.t) (seat : nat) (p : Player.t) (amount : Z) (cb : option Z) :
  GameState.players g !! seat = Some p ->
  settles g
    (if amount <=? Player.credits p then
       let g1 := update_player seat
         (fun q => Player.set_current_bet amount
                     (Player.set_credits (Player.credits q - amount) q)) g in
       let g2 := GameState.set_pot (GameState.pot g1 + amount) g1 in
       match cb with Some _ => GameState.set_current_bet amount g2 | None => g2 end
     else
       let g1 := update_player seat
         (fun q => Player.set_current_bet (Player.credits q) q) g in
       let g2 := GameState.set_pot (GameState.pot g1 + Player.credits p) g1 in
       let g3 := match cb with
                 | Some _ => GameState.set_current_bet (Player.credits p) g2
                 | None => g2
                 end in
       update_player seat (Player.set_credits 0) g3).
Proof.
  intros Hp. destruct (Z.leb_spec amount (Player.credits p)) as [Hle|Hgt].
  - cbn zeta.
    apply (settles_money_r g
             (GameState.set_pot (GameState.pot g + amount)
                (update_player seat
                   (fun q => Player.set_current_bet amount
                               (Player.set_credits (Player.credits q - amount) q)) g))).
    + apply (settles_pay g seat p amount); [assumption | reflexivity | now left].
    + destruct cb; reflexivity.
  - cbn zeta.
    apply (settles_money_r g
             (GameState.set_pot (GameState.pot g + Player.credits p)
                (update_player seat
                   (fun q => Player.set_credits 0
                               (Player.set_current_bet (Player.credits q) q)) g))).
    + apply (settles_pay g seat p (Player.credits p)); [assumption | cbn; lia | left; lia].
    + unfold money, credits_of, update_player.
      destruct cb; cbn; rewrite list_alter_alter_eq; reflexivity.
Qed.

Lemma settles_second_blind (g g1 g' : GameState.t) (n : nat) :
  settles g g1 ->
  with_player g1 ((GameState.dealer_index g1 + 2) mod n)%nat
    (fun bb_player =>
       if GameState.min_bet g1 <=? Player.credits bb_player then
         let g0 := update_player ((GameState.dealer_index g1 + 2) mod n)%nat
           (fun p => Player.set_current_bet (GameState.min_bet g1)
                       (Player.set_credits (Player.credits p - GameState.min_bet g1) p))
           g1 in
         let g2 := GameState.set_pot (GameState.pot g0 + GameState.min_bet g1) g0 in
         Ok (GameState.set_current_bet (GameState.min_bet g1) g2)
       else
         let g0 := update_player ((GameState.dealer_index g1 + 2) mod n)%nat
           (fun p => Player.set_current_bet (Player.credits p) p) g1 in
         let g2 := GameState.set_pot (GameState.pot g0 + Player.credits bb_player) g0 in
         let g3 := GameState.set_current_bet (Player.credits bb_player) g2 in
         Ok (update_player ((GameState.dealer_index g1 + 2) mod n)%nat
               (Player.set_credits 0) g3)) = Ok g' ->
  settles g g'.
Proof.
  intros H1. unfold with_player.
  destruct (GameState.players g1 !! _) as [bb|] eqn:Hbb; [|discriminate].
  pose proof (settles_blind g1 _ bb (GameState.min_bet g1) (Some 0) Hbb) as H2.
  cbn zeta in H2. revert H2.
  destruct (GameState.min_bet g1 <=? Player.credits bb); intros H2 [= <-];
    eapply settles_trans; eauto.
Qed.

Lemma settles_collect_blinds (g g' : GameState.t) :
  collect_blinds g = Ok g' -> settles g g'.
Proof.
  unfold collect_blinds. destruct (Nat.eqb _ 0); [discriminate|].
  unfold with_player at 1.
  destruct (GameState.players g !! _) as [sb|] eqn:Hsb; [|discriminate].
  pose proof (settles_blind g _ sb (GameState.min_bet g / 2) None Hsb) as H1.
  cbn zeta in H1.
  destruct (GameState.min_bet g / 2 <=? Player.credits sb); cbn [bind];
    apply settles_second_blind; exact H1.
Qed.

(** ** Dealing *)

Lemma money_deal_two_each (seats : list nat) (g g' : GameState.t) :
  deal_two_each seats g = Ok g' -> money g' = money g.
Proof.
  revert g. induction seats as [|s seats IH]; intros g; cbn [deal_two_each];
    [now intros [= <-]|].
  destruct (draw_card g) as [[c1 g1]|e] eqn:H1; cbn [bind]; [|discriminate].
  destruct (draw_card (hand_append s [c1] g1)) as [[c2 g2]|e] eqn:H2; cbn [bind];
    [|discriminate].
  intros H. apply IH in H. apply money_draw_card in H1, H2.
  rewrite H. money_rw. rewrite H2. money_rw. exact H1.
Qed.

Lemma money_deal_initial_cards (sh : Shuffle) (g g' : GameState.t) :
  deal_initial_cards sh g = Ok g' -> money g' = money g.
Proof.
  unfold deal_initial_cards.
  destruct (ensure_cards_available _ _ g) as [g0|e] eqn:H0; cbn [bind]; [|discriminate].
  destruct (deal_two_each _ g0) as [g1|e] eqn:H1; cbn [bind]; [|discriminate].
  destruct (draw_card g1) as [[c1 g2]|e] eqn:H2; cbn [bind]; [|discriminate].
  destruct (draw_card (community_append [c1] g2)) as [[c2 g3]|e] eqn:H3; cbn [bind];
    [|discriminate].
  destruct (draw_card (community_append [c2] g3)) as [[c3 g4]|e] eqn:H4; cbn [bind];
    [|discriminate].
  destruct (draw_card (community_append [c3] g4)) as [[c4 g5]|e] eqn:H5; cbn [bind];
    [|discriminate].
  intros [= <-].
  apply money_ensure_cards_available in H0. apply money_deal_two_each in H1.
  apply money_draw_card in H2, H3, H4, H5.
  money_rw. rewrite H5. money_rw. rewrite H4. money_rw. rewrite H3. money_rw.
  congruence.
Qed.

Lemma money_deal_turn (sh : Shuffle) (g g' : GameState.t) :
  deal_turn sh g = Ok g' -> money g' = money g.
Proof.
  unfold deal_turn.
  destruct (ensure_cards_available _ _ g) as [g0|e] eqn:H0; cbn [bind]; [|discriminate].
  destruct (draw_card g0) as [[c1 g1]|e] eqn:H1; cbn [bind]; [|discriminate].
  destruct (draw_card (discard_append [c1] g1)) as [[c2 g2]|e] eqn:H2; cbn [bind];
    [|discriminate].
  intros [= <-].
  apply money_ensure_cards_available in H0. apply money_draw_card in H1, H2.
  money_rw. rewrite H2. money_rw. congruence.
Qed.

Lemma money_deal_river (sh : Shuffle) (g g' : GameState.t) :
  deal_river sh g = Ok g' -> money g' = money g.
Proof. apply money_deal_turn. Qed.

Lemma money_reset_for_betting_round (g : GameState.t) :
  money (reset_for_betting_round g) = money g.
Proof.
  unfold money, credits_of, reset_for_betting_round. cbn.
  rewrite map_map. reflexivity.
Qed.

(** ** The showdown *)

Lemma score_players_seats (l : list (nat * Player.t)) (scores : list Score) (s : Score) :
  score_players l = Ok scores -> In s scores ->
  In (score_seat s, score_player s) l.
Proof.
  revert scores. induction l as [|[seat p] l IH]; intros scores; cbn [score_players].
  - intros [= <-] [].
  - destruct (calculate_hand_value _) as [[v b]|e]; cbn [bind]; [|discriminate].
    destruct (score_players l) as [rest|e]; cbn [bind]; [|discriminate].
    destruct (negb b); intros [= <-].
    + intros [<-|Hin]; [now left | right; eauto].
    + intros Hin. right. eauto.
Qed.

Lemma high_cards_seats (tied : list Score) (hcs : list HighCard) (h : HighCard) :
  high_cards tied = Ok hcs -> In h hcs ->
  exists s, In s tied /\ hc_seat h = score_seat s.
Proof.
  revert hcs. induction tied as [|s tied IH]; intros hcs; cbn [high_cards].
  - intros [= <-] [].
  - destruct (get_highest_card_in_hand _) as [[v su]|e]; cbn [bind]; [|discriminate].
    destruct (high_cards tied) as [rest|e]; cbn [bind]; [|discriminate].
    intros [= <-] [<-|Hin].
    + exists s. split; [now left | reflexivity].
    + destruct (IH rest eq_refl Hin) as (s' & Hs' & E). exists s'. split; [now right | exact E].
Qed.

Lemma head_In {A : Type} (x : A) (l r : list A) : l = x :: r -> In x l.
Proof. intros ->. now left. Qed.

Lemma break_tie_seats (g : GameState.t) (tied : list Score) (w : option nat)
    (g' : GameState.t) :
  break_tie g tied = Ok (w, g') ->
  (exists info, g' = GameState.set_tiebreaker_info info g)
  /\ exists s, In s tied /\ w = Some (score_seat s).
Proof.
  unfold break_tie.
  destruct (high_cards tied) as [hcs|e] eqn:Hh; cbn [bind]; [|discriminate].
  destruct (sort_by_desc hc_value hcs) as [|top rest] eqn:Hs; [discriminate|].
  set (still := List.filter _ _).
  assert (Hstill : forall h, In h still -> exists s, In s tied /\ hc_seat h = score_seat s).
  { intros h Hin. subst still. apply filter_In in Hin as [Hin _].
    rewrite <- Hs in Hin. unfold sort_by_desc in Hin. apply in_sort_by in Hin.
    eapply high_cards_seats; eauto. }
  assert (Hsuit : break_tie_by_suit g
                    (map (fun ps => Player.name (score_player ps)) tied)
                    (map score_value tied) still = Ok (w, g') ->
                  (exists info, g' = GameState.set_tiebreaker_info info g)
                  /\ exists s, In s tied /\ w = Some (score_seat s)).
  { unfold break_tie_by_suit.
    destruct (sort_by_desc _ still) as [|win ?] eqn:Hw; [discriminate|].
    intros H. injection H as <- <-. split; [eexists; reflexivity|].
    assert (Hin : In win still).
    { apply head_In in Hw. unfold sort_by_desc in Hw. now apply in_sort_by in Hw. }
    destruct (Hstill _ Hin) as (s & Hs1 & Hs2). exists s. now rewrite Hs2. }
  destruct still as [|only [|? ?]] eqn:Est; try exact Hsuit.
  intros H. injection H as <- <-. split; [eexists; reflexivity|].
  destruct (Hstill only (or_introl eq_refl)) as (s & Hs1 & Hs2).
  exists s. now rewrite Hs2.
Qed.

Lemma determine_winner_seat (g g' : GameState.t) (w : option nat) :
  determine_winner g = Ok (w, g') ->
  (exists info, g' = GameState.set_tiebreaker_info info g)
  /\ forall seat, w = Some seat ->
       exists p, GameState.players g !! seat = Some p /\ Player.has_folded p = false.
Proof.
  unfold determine_winner.
  change (get_active_seats (GameState.set_tiebreaker_info None g))
    with (get_active_seats g).
  assert (Hact : forall s l, score_players (get_active_seats g) = Ok l -> In s l ->
            exists p, GameState.players g !! score_seat s = Some p
                      /\ Player.has_folded p = false).
  { intros s l Hl Hin. pose proof (score_players_seats _ _ _ Hl Hin) as H.
    apply in_active_seats in H. cbn in H. eauto. }
  destruct (get_active_seats g) as [|sp [|sp2 rest]] eqn:Ea.
  - intros H. injection H as <- <-. split; [eexists; reflexivity|]. discriminate.
  - intros H. injection H as <- <-. split; [eexists; reflexivity|]. intros seat [= <-].
    assert (H : In sp (get_active_seats g)) by (rewrite Ea; now left).
    apply in_active_seats in H. eauto.
  - destruct (score_players _) as [scores|e] eqn:Hsc; cbn [bind]; [|discriminate].
    destruct (sort_by score_distance scores) as [|best more] eqn:Hsort.
    { intros H. injection H as <- <-. split; [eexists; reflexivity|]. discriminate. }
    set (tied := List.filter _ _).
    assert (Htied : forall s, In s tied -> In s scores).
    { intros s Hin. subst tied. apply filter_In in Hin as [Hin _].
      rewrite <- Hsort in Hin. now apply in_sort_by in Hin. }
    assert (Hbt : break_tie (GameState.set_tiebreaker_info None g) tied = Ok (w, g') ->
              (exists info, g' = GameState.set_tiebreaker_info info g)
              /\ forall seat, w = Some seat ->
                   exists p, GameState.players g !! seat = Some p
                             /\ Player.has_folded p = false).
    { intros Hb. apply break_tie_seats in Hb as ([info ->] & s & Hs & ->).
      split; [exists info; reflexivity|].
      intros seat [= <-]. eapply Hact; eauto. }
    destruct tied as [|only [|? ?]] eqn:Et; try exact Hbt.
    intros H. injection H as <- <-. split; [eexists; reflexivity|]. intros seat [= <-].
    eapply Hact; eauto. apply Htied. now left.
Qed.

Lemma keeps_table_award_pot (g : GameState.t) (w : nat) (p : Player.t) :
  GameState.players g !! w = Some p -> keeps_table g (award_pot w g).
Proof.
  intros Hp. unfold award_pot. repeat split; cbn.
  - apply length_alter.
  - unfold chips_in_play, credits_of. cbn. rewrite (sum_Z_alter _ _ _ p Hp). cbn. lia.
Qed.

Lemma active_seat_lookup (g : GameState.t) (sp : nat * Player.t) (l : list (nat * Player.t)) :
  get_active_seats g = sp :: l -> GameState.players g !! sp.1 = Some sp.2.
Proof.
  intros E. assert (H : In sp (get_active_seats g)) by (rewrite E; now left).
  now apply in_active_seats in H as [H _].
Qed.

Lemma keeps_table_refl (g : GameState.t) : keeps_table g g.
Proof. repeat split. Qed.

Lemma keeps_table_do_showdown (g g' : GameState.t) :
  _do_showdown g = Ok g' -> keeps_table g g'.
Proof.
  unfold _do_showdown.
  destruct (get_active_seats g) as [|sp [|sp2 rest]] eqn:Ea.
  - intros [= <-]. apply keeps_table_refl.
  - intros [= <-]. eapply keeps_table_award_pot. eapply active_seat_lookup; eauto.
  - destruct (evaluate_hands _); cbn [bind]; [|discriminate].
    destruct (determine_winner g) as [[w g1]|e] eqn:Hw; cbn [bind]; [|discriminate].
    apply determine_winner_seat in Hw as ([info ->] & Hseat).
    destruct w as [w|]; [|intros [= <-]; now apply money_keeps_table].
    destruct (calculate_hand_value _); cbn [bind]; [|discriminate].
    intros [= <-]. destruct (Hseat w eq_refl) as (p & Hp & _).
    apply (keeps_table_trans g (GameState.set_tiebreaker_info info g));
      [apply money_keeps_table; reflexivity|].
    eapply keeps_table_award_pot. exact Hp.
Qed.

(** ** The whole hand *)

Lemma button_moved_advance_dealer (g0 g g' : GameState.t) :
  keeps_table g0 g -> advance_dealer g = Ok g' -> button_moved g0 g'.
Proof.
  intros (A1 & A2 & A3 & A4 & A5). unfold advance_dealer.
  destruct (Nat.eqb _ 0); [discriminate|]. intros [= <-].
  unfold button_moved, chips_in_play, credits_of in *.
  cbn [GameState.players GameState.pot GameState.min_bet GameState.dealer_index
       GameState.hand_number GameState.set_dealer_index].
  rewrite A1, A2. auto.
Qed.

Lemma button_moved_ends_after_round (g0 g g' : GameState.t) (r : result GameState.t) :
  keeps_table g0 g -> ends_after_round g = Some r -> r = Ok g' -> button_moved g0 g'.
Proof.
  intros H0. unfold ends_after_round. destruct (GameState.judgment_played g).
  - intros [= <-]. destruct (_do_showdown g) as [g1|e] eqn:Hs; cbn [bind]; [|discriminate].
    apply keeps_table_do_showdown in Hs. apply button_moved_advance_dealer.
    eapply keeps_table_trans; eauto.
  - destruct (get_active_seats g) as [|sp [|sp2 rest]] eqn:Ea; [| |discriminate].
    + intros [= <-]. now apply button_moved_advance_dealer.
    + intros [= <-]. apply button_moved_advance_dealer.
      eapply keeps_table_trans; [exact H0|].
      eapply keeps_table_award_pot. eapply active_seat_lookup; eauto.
Qed.

Lemma play_hand_button_moved (env : Env) (ha : ActionSource) (ai : option ActionSource)
    (g g' : GameState.t) (asked : list (list nat)) :
  play_hand env ha ai g = Ok (asked, g') ->
  button_moved (start_new_hand (shuffle env) g) g'.
Proof.
  unfold play_hand, with_player.
  destruct (GameState.players g !! _); [|discriminate].
  set (g0 := start_new_hand (shuffle env) g).
  destruct (collect_blinds g0) as [g1|e] eqn:H1; cbn [bind]; [|discriminate].
  apply settles_collect_blinds in H1 as [H1 _].
  destruct (deal_initial_cards _ g1) as [g2|e] eqn:H2; cbn [bind]; [|discriminate].
  apply money_deal_initial_cards, money_keeps_table in H2.
  destruct (run_betting_round _ _ _ g2) as [[a1 g3]|e] eqn:H3; cbn [bind]; [|discriminate].
  apply settles_run_betting_round in H3 as [H3 _].
  assert (K3 : keeps_table g0 g3) by (repeat (eapply keeps_table_trans; eauto)).
  destruct (ends_after_round g3) as [r|] eqn:E3.
  { destruct r as [g4|e] eqn:Er; cbn [bind]; [|discriminate].
    intros [= _ <-]. eapply button_moved_ends_after_round; eauto. }
  destruct (deal_turn _ _) as [g4|e] eqn:H4; cbn [bind]; [|discriminate].
  apply money_deal_turn in H4. rewrite money_reset_for_betting_round in H4.
  apply money_keeps_table in H4.
  destruct (run_betting_round _ _ _ g4) as [[a2 g5]|e] eqn:H5; cbn [bind]; [|discriminate].
  apply settles_run_betting_round in H5 as [H5 _].
  assert (K5 : keeps_table g0 g5) by (repeat (eapply keeps_table_trans; eauto)).
  destruct (ends_after_round g5) as [r|] eqn:E5.
  { destruct r as [g6|e] eqn:Er; cbn [bind]; [|discriminate].
    intros [= _ <-]. eapply button_moved_ends_after_round; eauto. }
  destruct (deal_river _ _) as [g6|e] eqn:H6; cbn [bind]; [|discriminate].
  apply money_deal_river in H6. rewrite money_reset_for_betting_round in H6.
  apply money_keeps_table in H6.
  destruct (run_betting_round _ _ _ g6) as [[a3 g7]|e] eqn:H7; cbn [bind]; [|discriminate].
  apply settles_run_betting_round in H7 as [H7 _].
  destruct (_do_showdown g7) as [g8|e] eqn:H8; cbn [bind]; [|discriminate].
  apply keeps_table_do_showdown in H8.
  destruct (advance_dealer g8) as [g9|e] eqn:H9; cbn [bind]; [|discriminate].
  intros [= _ <-]. eapply button_moved_advance_dealer; [|exact H9].
  repeat (eapply keeps_table_trans; eauto).
Qed.

Lemma cards_in_hands_map (ps : list Player.t) :
  cards_in_hands ps = sum_Z (map (fun p => len (Player.hand p)) ps).
Proof. induction ps as [|p ps IH]; cbn; [reflexivity|]. rewrite IH. reflexivity. Qed.

Lemma total_of_cards (g g' : GameState.t) :
  cards g' = cards g -> total_cards_accounted_for g' = total_cards_accounted_for g.
Proof.
  unfold cards. intros [= H1 H2 H3 H4 H5]. rewrite !total_cards_sum, H1, H2, H3, H4.
  rewrite !cards_in_hands_map.
  assert (E : forall ps : list Player.t,
             map (fun p => len (Player.hand p)) ps = map len (map Player.hand ps))
    by (intros ps; now rewrite map_map).
  now rewrite !E, H5.
Qed.

Lemma cards_blind (g : GameState.t) (seat : nat) (p : Player.t) (amount : Z) (cb : option Z) :
  cards
    (if amount <=? Player.credits p then
       let g1 := update_player seat
         (fun q => Player.set_current_bet amount
                     (Player.set_credits (Player.credits q - amount) q)) g in
       let g2 := GameState.set_pot (GameState.pot g1 + amount) g1 in
       match cb with Some _ => GameState.set_current_bet amount g2 | None => g2 end
     else
       let g1 := update_player seat
         (fun q => Player.set_current_bet (Player.credits q) q) g in
       let g2 := GameState.set_pot (GameState.pot g1 + Player.credits p) g1 in
       let g3 := match cb with
                 | Some _ => GameState.set_current_bet (Player.credits p) g2
                 | None => g2
                 end in
       update_player seat (Player.set_credits 0) g3)
  = cards g.
Proof.
  unfold cards, update_player.
  destruct (amount <=? Player.credits p), cb; cbn;
    rewrite ?(map_alter_same Player.hand) by reflexivity; reflexivity.
Qed.

Lemma cards_collect_blinds (g g' : GameState.t) :
  collect_blinds g = Ok g' -> cards g' = cards g.
Proof.
  unfold collect_blinds. destruct (Nat.eqb _ 0); [discriminate|].
  unfold with_player at 1.
  destruct (GameState.players g !! _) as [sb|] eqn:Hsb; [|discriminate].
  pose proof (cards_blind g ((GameState.dealer_index g + 1)
                             mod length (GameState.players g))%nat
                sb (GameState.min_bet g / 2) None) as H1.
  cbn zeta in H1.
  assert (Hbb : forall g1, cards g1 = cards g ->
            with_player g1 ((GameState.dealer_index g1 + 2)
                            mod length (GameState.players g))%nat
              (fun bb_player =>
                 if GameState.min_bet g1 <=? Player.credits bb_player then
                   let g0 := update_player ((GameState.dealer_index g1 + 2)
                                            mod length (GameState.players g))%nat
                     (fun p => Player.set_current_bet (GameState.min_bet g1)
                                 (Player.set_credits
                                    (Player.credits p - GameState.min_bet g1) p)) g1 in
                   let g2 := GameState.set_pot (GameState.pot g0 + GameState.min_bet g1) g0 in
                   Ok (GameState.set_current_bet (GameState.min_bet g1) g2)
                 else
                   let g0 := update_player ((GameState.dealer_index g1 + 2)
                                            mod length (GameState.players g))%nat
                     (fun p => Player.set_current_bet (Player.credits p) p) g1 in
                   let g2 := GameState.set_pot
                               (GameState.pot g0 + Player.credits bb_player) g0 in
                   let g3 := GameState.set_current_bet (Player.credits bb_player) g2 in
                   Ok (update_player ((GameState.dealer_index g1 + 2)
                                      mod length (GameState.players g))%nat
                         (Player.set_credits 0) g3)) = Ok g' ->
            cards g' = cards g).
  { intros g1 Hg1. unfold with_player.
    destruct (GameState.players g1 !! _) as [bb|]; [|discriminate].
    pose proof (cards_blind g1 ((GameState.dealer_index g1 + 2)
                                mod length (GameState.players g))%nat
                  bb (GameState.min_bet g1) (Some 0)) as H2.
    cbn zeta in H2. revert H2.
    destruct (GameState.min_bet g1 <=? Player.credits bb); intros H2 [= <-];
      rewrite <- Hg1; exact H2. }
  destruct (GameState.min_bet g / 2 <=? Player.credits sb); cbn [bind];
    apply Hbb; exact H1.
Qed.

Lemma total_deal_two_each (seats : list nat) (g g' : GameState.t) :
  Forall (fun s => (s < length (GameState.players g))%nat) seats ->
  deal_two_each seats g = Ok g' ->
  total_cards_accounted_for g' = total_cards_accounted_for g
  /\ length (GameState.players g') = length (GameState.players g).
Proof.
  revert g. induction seats as [|s seats IH]; intros g Hs; cbn [deal_two_each];
    [now intros [= <-]|].
  apply Forall_cons in Hs as [Hs Hseats].
  destruct (draw_card g) as [[c1 g1]|e] eqn:H1; cbn [bind]; [|discriminate].
  destruct (draw_card (hand_append s [c1] g1)) as [[c2 g2]|e] eqn:H2; cbn [bind];
    [|discriminate].
  apply total_draw_card in H1 as [T1 P1]. apply total_draw_card in H2 as [T2 P2].
  destruct (lookup_lt_is_Some_2 _ _ Hs) as [p Hp]. rewrite <- P1 in Hp.
  assert (Hp2 : exists p2, GameState.players g2 !! s = Some p2).
  { rewrite P2. unfold hand_append, update_player. cbn.
    rewrite list_lookup_alter_eq, Hp. eauto. }
  destruct Hp2 as [p2 Hp2].
  intros H. apply IH in H.
  - destruct H as [H L]. split.
    + rewrite H, (total_hand_append g2 s [c2] p2 Hp2), T2,
        (total_hand_append g1 s [c1] p Hp), T1, !len_one. lia.
    + rewrite L. unfold hand_append, update_player. cbn. rewrite length_alter, P2.
      cbn. now rewrite length_alter, P1.
  - unfold hand_append, update_player. cbn. rewrite length_alter, P2. cbn.
    rewrite length_alter, P1. exact Hseats.
Qed.

Lemma players_ensure_cards_available (sh : Shuffle) (n : Z) (g g' : GameState.t) :
  ensure_cards_available sh n g = Ok g' -> GameState.players g' = GameState.players g.
Proof.
  unfold ensure_cards_available. destruct (_ <? n); [|now intros [= <-]].
  destruct (0 <? _); [|discriminate]. now intros [= <-].
Qed.

Lemma total_deal_initial_cards (sh : Shuffle) (g g' : GameState.t) :
  (forall l, length (sh l) = length l) ->
  deal_initial_cards sh g = Ok g' ->
  total_cards_accounted_for g' = total_cards_accounted_for g.
Proof.
  intros Hsh. unfold deal_initial_cards.
  destruct (ensure_cards_available _ _ g) as [g0|e] eqn:H0; cbn [bind]; [|discriminate].
  destruct (deal_two_each _ g0) as [g1|e] eqn:H1; cbn [bind]; [|discriminate].
  destruct (draw_card g1) as [[c1 g2]|e] eqn:H2; cbn [bind]; [|discriminate].
  destruct (draw_card (community_append [c1] g2)) as [[c2 g3]|e] eqn:H3; cbn [bind];
    [|discriminate].
  destruct (draw_card (community_append [c2] g3)) as [[c3 g4]|e] eqn:H4; cbn [bind];
    [|discriminate].
  destruct (draw_card (community_append [c3] g4)) as [[c4 g5]|e] eqn:H5; cbn [bind];
    [|discriminate].
  intros [= <-].
  apply total_ensure_cards_available in H0; [|exact Hsh].
  apply total_deal_two_each in H1 as [H1 _].
  2:{ unfold seats_of. apply Forall_forall. intros s Hs.
      apply list_elem_of_In, in_seq in Hs. lia. }
  apply total_draw_card in H2 as [H2 _]. apply total_draw_card in H3 as [H3 _].
  apply total_draw_card in H4 as [H4 _]. apply total_draw_card in H5 as [H5 _].
  rewrite total_discard_append, H5, total_community_append, H4,
    total_community_append, H3, total_community_append, H2, !len_one. lia.
Qed.

Lemma total_deal_turn (sh : Shuffle) (g g' : GameState.t) :
  (forall l, length (sh l) = length l) ->
  deal_turn sh g = Ok g' ->
  total_cards_accounted_for g' = total_cards_accounted_for g.
Proof.
  intros Hsh. unfold deal_turn.
  destruct (ensure_cards_available _ _ g) as [g0|e] eqn:H0; cbn [bind]; [|discriminate].
  destruct (draw_card g0) as [[c1 g1]|e] eqn:H1; cbn [bind]; [|discriminate].
  destruct (draw_card (discard_append [c1] g1)) as [[c2 g2]|e] eqn:H2; cbn [bind];
    [|discriminate].
  intros [= <-].
  apply total_ensure_cards_available in H0; [|exact Hsh].
  apply total_draw_card in H1 as [H1 _]. apply total_draw_card in H2 as [H2 _].
  rewrite total_community_append, H2, total_discard_append, H1, !len_one. lia.
Qed.

Lemma total_reset_for_betting_round (g : GameState.t) :
  total_cards_accounted_for (reset_for_betting_round g) = total_cards_accounted_for g.
Proof.
  apply total_of_cards. unfold cards, reset_for_betting_round. cbn.
  now rewrite map_map.
Qed.

Lemma total_betting_loop (env : Env) (ha : ActionSource) (ai : option ActionSource)
    (fuel : nat) (i : nat) (asked asked' : list nat) (g g' : GameState.t) :
  keeps_cards env -> never_the_wheel ha ai ->
  betting_loop env ha ai fuel i asked g = Ok (asked', g') ->
  total_cards_accounted_for g' = total_cards_accounted_for g.
Proof.
  intros Henv [Hh Ha].
  revert i asked g. induction fuel as [|fuel IH]; intros i asked g; cbn [betting_loop].
  - now intros [= _ <-].
  - destruct (is_betting_round_complete g); [now intros [= _ <-]|].
    unfold with_player. destruct (GameState.players g !! i) as [p|]; [|discriminate].
    destruct (negb _ && _).
    + destruct (execute_player_turn _ _ _ _) as [[b g1]|e] eqn:Ht; cbn [bind];
        [|discriminate].
      apply total_execute_player_turn in Ht; [|exact Henv|].
      * intros H. apply IH in H. lia.
      * destruct (Player.is_human p); [apply Hh|].
        destruct ai as [f|]; [now apply Ha|]. intros c t [=].
    + cbn [bind]. apply IH.
Qed.

Lemma total_run_betting_round (env : Env) (ha : ActionSource) (ai : option ActionSource)
    (asked : list nat) (g g' : GameState.t) :
  keeps_cards env -> never_the_wheel ha ai ->
  run_betting_round env ha ai g = Ok (asked, g') ->
  total_cards_accounted_for g' = total_cards_accounted_for g.
Proof.
  intros Henv Hw. unfold run_betting_round. destruct (Nat.eqb _ 0); [discriminate|].
  now apply total_betting_loop.
Qed.

Lemma total_award_pot (w : nat) (g : GameState.t) :
  total_cards_accounted_for (award_pot w g) = total_cards_accounted_for g.
Proof.
  apply total_of_cards. unfold cards, award_pot, update_player. cbn.
  now rewrite (map_alter_same Player.hand) by reflexivity.
Qed.

Lemma total_do_showdown (g g' : GameState.t) :
  _do_showdown g = Ok g' -> total_cards_accounted_for g' = total_cards_accounted_for g.
Proof.
  unfold _do_showdown.
  destruct (get_active_seats g) as [|sp [|sp2 rest]].
  - now intros [= <-].
  - intros [= <-]. apply total_award_pot.
  - destruct (evaluate_hands _); cbn [bind]; [|discriminate].
    destruct (determine_winner g) as [[w g1]|e] eqn:Hw; cbn [bind]; [|discriminate].
    apply determine_winner_seat in Hw as ([info ->] & _).
    destruct w as [w|]; [|intros [= <-]; now apply total_of_cards].
    destruct (calculate_hand_value _); cbn [bind]; [|discriminate].
    intros [= <-]. rewrite total_award_pot. now apply total_of_cards.
Qed.

Lemma total_advance_dealer (g g' : GameState.t) :
  advance_dealer g = Ok g' -> total_cards_accounted_for g' = total_cards_accounted_for g.
Proof.
  unfold advance_dealer. destruct (Nat.eqb _ 0); [discriminate|].
  intros [= <-]. now apply total_of_cards.
Qed.

Lemma total_ends_after_round (g g' : GameState.t) (r : result GameState.t) :
  ends_after_round g = Some r -> r = Ok g' ->
  total_cards_accounted_for g' = total_cards_accounted_for g.
Proof.
  unfold ends_after_round. destruct (GameState.judgment_played g).
  - intros [= <-]. destruct (_do_showdown g) as [g1|e] eqn:Hs; cbn [bind]; [|discriminate].
    intros H. apply total_advance_dealer in H. apply total_do_showdown in Hs. lia.
  - destruct (get_active_seats g) as [|sp [|sp2 rest]]; [| |discriminate].
    + intros [= <-]. apply total_advance_dealer.
    + intros [= <-] H. apply total_advance_dealer in H. now rewrite total_award_pot in H.
Qed.

Lemma total_start_new_hand (sh : Shuffle) (g : GameState.t) :
  (forall l, length (sh l) = length l) ->
  total_cards_accounted_for (start_new_hand sh g) = 78.
Proof.
  intros Hsh. rewrite total_cards_sum. unfold start_new_hand. cbn.
  assert (E : cards_in_hands (map Player.reset_for_new_hand (GameState.players g)) = 0).
  { induction (GameState.players g) as [|p ps IH]; cbn; [reflexivity|].
    rewrite IH. reflexivity. }
  rewrite E. unfold len. rewrite Hsh. reflexivity.
Qed.

Lemma betting_step_settles (env : Env) (g g' : GameState.t) :
  betting_step env g g' -> settles g g'.
Proof.
  intros [g0 g1 H|seat action g0 b g1 H|ha ai g0 asked g1 H].
  - now apply settles_collect_blinds.
  - eapply settles_execute_player_turn; eauto.
  - eapply settles_run_betting_round; eauto.
Qed.

Lemma rtc_betting_step_settles (env : Env) (g g' : GameState.t) :
  rtc (betting_step env) g g' -> settles g g'.
Proof.
  induction 1 as [g|g1 g2 g3 H _ IH]; [apply settles_refl|].
  eapply settles_trans; [|exact IH]. eapply betting_step_settles; eauto.
Qed.

Example called_hand_ok :
  play_hand quiet_env always_call None new_table
  = Ok ([[1; 2; 0]; [1; 2; 0]; [1; 2; 0]]%nat, the_called_hand).
Proof. vm_compute. reflexivity. Qed.

(** X4.  Chips are neither created nor lost while a hand is bet: through any
    sequence of blinds, turns (with whatever trump effect they trigger) and
    betting rounds, the pot plus the credits of all seats stays the same,
    and so do the number of seats, the button, the stake and the hand
    number. *)
Theorem betting_conserves_chips (env : Env) (g g' : GameState.t) :
  rtc (betting_step env) g g' ->
  chips_in_play g' = chips_in_play g
  /\ length (GameState.players g') = length (GameState.players g)
  /\ GameState.dealer_index g' = GameState.dealer_index g
  /\ GameState.min_bet g' = GameState.min_bet g
  /\ GameState.hand_number g' = GameState.hand_number g.
Proof.
  intros H. apply rtc_betting_step_settles in H as [(H1 & H2 & H3 & H4 & H5) _].
  auto.
Qed.

Example seat_1_calls_ok :
  execute_player_turn quiet_env 1 call_action the_dealt_table
  = Ok (true, after_seat_1_calls).
Proof. vm_compute. reflexivity. Qed.

Lemma betting_conserves_chips_witness :
  chips_in_play after_seat_1_calls = chips_in_play the_dealt_table.
Proof.
  apply (betting_conserves_chips quiet_env the_dealt_table after_seat_1_calls).
  apply rtc_once. eapply step_turn. exact seat_1_calls_ok.
Defined.

(** X5.  No seat is ever driven into debt by the betting: if every seat has
    non-negative credits, it still has after the blinds, after any turn and
    after any betting round, whatever is asked of it (a call or a raise it
    cannot afford is cut down to all its credits, an ante it cannot afford
    becomes a fold). *)
Theorem betting_keeps_solvent (env : Env) (g g' : GameState.t) :
  rtc (betting_step env) g g' -> solvent g -> solvent g'.
Proof. intros H. now apply rtc_betting_step_settles in H as [_ H]. Qed.

Lemma betting_keeps_solvent_witness : solvent after_seat_1_calls.
Proof.
  apply (betting_keeps_solvent quiet_env the_dealt_table after_seat_1_calls).
  - apply rtc_once. eapply step_turn. exact seat_1_calls_ok.
  - unfold solvent.
    replace (credits_of the_dealt_table) with [500; 499; 498]
      by (vm_compute; reflexivity).
    repeat constructor; lia.
Defined.

(** X6.  After a whole hand the pot and the credits together equal the
    credits the seats had before the hand: the hand neither creates nor
    destroys chips, and whatever the pot held when the hand began (a pot
    nobody won in the hand before) is not carried over. *)
Theorem play_hand_chips (env : Env) (human_action : ActionSource)
    (get_ai_action_func : option ActionSource) (g g' : GameState.t)
    (asked : list (list nat)) :
  play_hand env human_action get_ai_action_func g = Ok (asked, g') ->
  chips_in_play g' = sum_Z (credits_of g).
Proof.
  intros H. apply play_hand_button_moved in H as (_ & _ & _ & _ & H).
  rewrite H. unfold chips_in_play, credits_of, start_new_hand. cbn.
  rewrite map_map. reflexivity.
Qed.

Lemma play_hand_chips_witness :
  chips_in_play the_called_hand = sum_Z (credits_of new_table).
Proof.
  exact (play_hand_chips quiet_env always_call None new_table the_called_hand
           [[1; 2; 0]; [1; 2; 0]; [1; 2; 0]]%nat called_hand_ok).
Defined.

(** X7.  A whole hand moves the button one seat to the left (modulo the number
    of seats), counts one more hand, and leaves the number of seats and the
    stake as they were. *)
Theorem play_hand_moves_button (env : Env) (human_action : ActionSource)
    (get_ai_action_func : option ActionSource) (g g' : GameState.t)
    (asked : list (list nat)) :
  play_hand env human_action get_ai_action_func g = Ok (asked, g') ->
  GameState.dealer_index g'
  = ((GameState.dealer_index g + 1) mod length (GameState.players g))%nat
  /\ GameState.hand_number g' = GameState.hand_number g + 1
  /\ length (GameState.players g') = length (GameState.players g)
  /\ GameState.min_bet g' = GameState.min_bet g.
Proof.
  intros H. apply play_hand_button_moved in H as (H1 & H2 & H3 & H4 & _).
  unfold start_new_hand in *. cbn in *. rewrite length_map in *. auto.
Qed.

Lemma play_hand_moves_button_witness :
  GameState.dealer_index the_called_hand
  = ((GameState.dealer_index new_table + 1) mod length (GameState.players new_table))%nat
  /\ GameState.hand_number the_called_hand = GameState.hand_number new_table + 1
  /\ length (GameState.players the_called_hand) = length (GameState.players new_table)
  /\ GameState.min_bet the_called_hand = GameState.min_bet new_table.
Proof.
  exact (play_hand_moves_button quiet_env always_call None new_table
           the_called_hand [[1; 2; 0]; [1; 2; 0]; [1; 2; 0]]%nat called_hand_ok).
Defined.

Lemma quiet_env_keeps_cards : keeps_cards quiet_env.
Proof.
  split.
  - intros l. cbn. unfold cut_eight. rewrite length_app, length_drop, length_take. lia.
  - reflexivity.
Qed.

(** ** A betting round never draws from an empty pile *)

Lemma bind_draws_no_none {A B : Type} (r : result A) (k : A -> result B) :
  draws_no_none r -> (forall a, r = Ok a -> draws_no_none (k a)) ->
  draws_no_none (bind r k).
Proof.
  destruct r as [a|e]; cbn; [intros _ H; now apply H|].
  unfold draws_no_none. intros H _ [= ->]. now apply H.
Qed.

Lemma with_player_draws_no_none {A : Type} (g : GameState.t) (seat : nat)
    (k : Player.t -> result A) :
  (forall p, GameState.players g !! seat = Some p -> draws_no_none (k p)) ->
  draws_no_none (with_player g seat k).
Proof.
  intros H. unfold with_player. destruct (GameState.players g !! seat) as [p|];
    [now apply H | discriminate].
Qed.

Create HintDb no_none.

Ltac no_none_step :=
  match goal with
  | |- draws_no_none (Ok _) => discriminate
  | |- draws_no_none (Raise _) => discriminate
  | |- draws_no_none (bind _ _) => apply bind_draws_no_none; [|intros ? ?]
  | |- draws_no_none (with_player _ _ _) => apply with_player_draws_no_none; intros ? ?
  | |- draws_no_none (if ?b then _ else _) => destruct b eqn:?
  | |- draws_no_none (match ?x with _ => _ end) => destruct x eqn:?
  | |- draws_no_none _ => solve [auto with no_none]
  end.

Ltac no_none := repeat no_none_step.

Lemma list_remove_draws_no_none (c : Card) (l : list Card) :
  draws_no_none (list_remove c l).
Proof. induction l as [|x l IH]; cbn [list_remove]; no_none. Qed.
#[local] Hint Resolve list_remove_draws_no_none : no_none.

Lemma int_of_draws_no_none (s : string) : draws_no_none (int_of s).
Proof. unfold int_of. no_none. Qed.
#[local] Hint Resolve int_of_draws_no_none : no_none.

Lemma scan_hand_draws_no_none (hand : list Card) st : draws_no_none (scan_hand hand st).
Proof.
  revert st. induction hand as [|c hand IH]; intros [[v n] l]; cbn [scan_hand];
    [discriminate|].
  apply bind_draws_no_none; [|intros ? _; apply IH].
  unfold scan_card. destruct c as [rank suit]. no_none.
Qed.
#[local] Hint Resolve scan_hand_draws_no_none : no_none.

Lemma calculate_hand_value_draws_no_none (hand : list Card) :
  draws_no_none (calculate_hand_value hand).
Proof. unfold calculate_hand_value. no_none. Qed.
#[local] Hint Resolve calculate_hand_value_draws_no_none : no_none.

Lemma hand_distance_draws_no_none (hand : list Card) : draws_no_none (hand_distance hand).
Proof. unfold hand_distance. no_none. Qed.
#[local] Hint Resolve hand_distance_draws_no_none : no_none.

Lemma worst_card_scan_draws_no_none (hand : list Card) (indices : list nat) b d :
  draws_no_none (worst_card_scan hand indices b d).
Proof.
  revert b d. induction indices as [|i rest IH]; intros b d; cbn [worst_card_scan];
    no_none.
Qed.
#[local] Hint Resolve worst_card_scan_draws_no_none : no_none.

Lemma find_worst_card_to_discard_draws_no_none (hand : list Card) :
  draws_no_none (find_worst_card_to_discard hand).
Proof. unfold find_worst_card_to_discard. no_none. Qed.
#[local] Hint Resolve find_worst_card_to_discard_draws_no_none : no_none.

Lemma move_to_removed_draws_no_none (seat : nat) (c : Card) (g : GameState.t) :
  draws_no_none (move_to_removed seat c g).
Proof. unfold move_to_removed. no_none. Qed.
#[local] Hint Resolve move_to_removed_draws_no_none : no_none.

Lemma discard_listed_draws_no_none (target : nat) (cards : list Card) (g : GameState.t) :
  draws_no_none (discard_listed target cards g).
Proof.
  revert g. induction cards as [|c rest IH]; intros g; cbn [discard_listed]; no_none.
Qed.
#[local] Hint Resolve discard_listed_draws_no_none : no_none.

Lemma pop_to_discard_draws_no_none (q i : nat) (g : GameState.t) :
  draws_no_none (pop_to_discard q i g).
Proof. unfold pop_to_discard. no_none. Qed.
#[local] Hint Resolve pop_to_discard_draws_no_none : no_none.

Lemma magician_effect_draws_no_none (env : Env) (seat : nat) (g : GameState.t) :
  draws_no_none (magician_effect env seat g).
Proof. unfold magician_effect. no_none. Qed.

Lemma emperor_effect_draws_no_none (env : Env) (seat : nat) (g : GameState.t) :
  draws_no_none (emperor_effect env seat g).
Proof. unfold emperor_effect. no_none. Qed.

Lemma hierophant_loop_draws_no_none (env : Env) (seat : nat) (seats : list nat)
    (g : GameState.t) :
  draws_no_none (hierophant_loop env seat seats g).
Proof.
  revert g. induction seats as [|q rest IH]; intros g; cbn [hierophant_loop]; no_none.
Qed.

Lemma chariot_loop_draws_no_none (env : Env) (seat : nat) (seats : list nat)
    (g : GameState.t) :
  draws_no_none (chariot_loop env seat seats g).
Proof.
  revert g. induction seats as [|q rest IH]; intros g; cbn [chariot_loop]; no_none.
Qed.

Lemma devil_effect_draws_no_none (env : Env) (seat : nat) (g : GameState.t) :
  draws_no_none (devil_effect env seat g).
Proof. unfold devil_effect. no_none. Qed.

Lemma evaluate_hands_draws_no_none (ps : list Player.t) :
  draws_no_none (evaluate_hands ps).
Proof. induction ps as [|p rest IH]; cbn [evaluate_hands]; no_none. Qed.
#[local] Hint Resolve evaluate_hands_draws_no_none : no_none.

Lemma sun_effect_draws_no_none (seat : nat) (g : GameState.t) :
  draws_no_none (sun_effect seat g).
Proof. unfold sun_effect. no_none. Qed.

(** After [ensure_cards_available(1)] has returned, the draw pile holds a
    card: the pile was not empty, or the discard pile was not and has been
    shuffled into it. *)
Lemma ensure_one_then_draw (sh : Shuffle) (g g1 : GameState.t) :
  (forall l, length (sh l) = length l) ->
  ensure_cards_available sh 1 g = Ok g1 ->
  exists c g2, draw_card g1 = Ok (c, g2).
Proof.
  intros Hsh. unfold ensure_cards_available, cards_remaining_in_draw_pile,
    cards_in_discard_pile, len.
  destruct (_ <? 1) eqn:E1.
  - destruct (0 <? _) eqn:E2; [|discriminate]. intros [= <-].
    unfold draw_card, draw, reshuffle_discard_into_draw. cbn.
    destruct (sh _) as [|c cs] eqn:Es; [|eauto].
    apply (f_equal length) in Es. rewrite Hsh, length_app in Es. cbn in Es. lia.
  - intros [= <-]. unfold draw_card, draw.
    destruct (GameState.draw_pile g) as [|c cs]; [cbn in E1; discriminate | eauto].
Qed.

Lemma moon_effect_draws_no_none (env : Env) (seat : nat) (g : GameState.t) :
  keeps_cards env -> draws_no_none (moon_effect env seat g).
Proof.
  intros [Hsh _]. unfold moon_effect.
  apply bind_draws_no_none; [no_none|]. intros g1 _.
  apply bind_draws_no_none; [unfold ensure_cards_available; no_none|]. intros g2 H2.
  destruct (ensure_one_then_draw _ _ _ Hsh H2) as (c & g3 & ->). cbn. discriminate.
Qed.

Lemma draw_from_draw_pile_draws_no_none (sh : Shuffle) (seat : nat) (g : GameState.t) :
  (forall l, length (sh l) = length l) ->
  draws_no_none (draw_from_draw_pile sh seat g).
Proof.
  intros Hsh. unfold draw_from_draw_pile.
  apply bind_draws_no_none; [unfold ensure_cards_available; no_none|]. intros g1 H1.
  destruct (ensure_one_then_draw _ _ _ Hsh H1) as (c & g2 & ->). cbn. discriminate.
Qed.

(** Every handler of the registry except that of the Wheel of Fortune. *)
Lemma run_handler_draws_no_none (env : Env) (h : Handler) (seat : nat) (g : GameState.t) :
  keeps_cards env -> h <> wheel_of_fortune_effect_h ->
  draws_no_none (run_handler env h seat g).
Proof.
  intros Henv Hh. destruct h; cbn [run_handler]; try (exfalso; apply Hh; reflexivity);
    try discriminate.
  - apply magician_effect_draws_no_none.
  - apply emperor_effect_draws_no_none.
  - apply hierophant_loop_draws_no_none.
  - apply chariot_loop_draws_no_none.
  - apply devil_effect_draws_no_none.
  - now apply moon_effect_draws_no_none.
  - apply sun_effect_draws_no_none.
  - apply move_to_removed_draws_no_none.
Qed.

Lemma apply_effect_draws_no_none (env : Env) (t : TrionfiEffect.t) (seat : nat)
    (g : GameState.t) :
  keeps_cards env -> TrionfiEffect.effect t <> Some wheel_of_fortune_effect_h ->
  draws_no_none (apply_effect env t seat g).
Proof.
  intros Henv Ht. unfold apply_effect.
  destruct (TrionfiEffect.effect t) as [h|]; [|discriminate].
  apply bind_draws_no_none; [apply run_handler_draws_no_none; congruence|].
  intros g1 _. no_none.
Qed.

Lemma hanged_man_scan_draws_no_none (env : Env) (acting : nat) (number : Z)
    (seats : list nat) (g : GameState.t) :
  draws_no_none (hanged_man_scan env acting number seats g).
Proof. induction seats as [|q rest IH]; cbn [hanged_man_scan]; no_none. Qed.

Lemma handle_devil_card_draws_no_none (env : Env) (seat : nat) (g : GameState.t) :
  draws_no_none (handle_devil_card env seat g).
Proof. unfold handle_devil_card. no_none. Qed.

Lemma play_trionfi_step_draws_no_none (env : Env) (seat : nat) (card : Card)
    (g : GameState.t) :
  keeps_cards env -> not_the_wheel (Some card) ->
  draws_no_none (play_trionfi_step env seat card g).
Proof.
  intros Henv Hw. unfold play_trionfi_step.
  destruct (get_trionfi_effect card) as [t|] eqn:Ht; [|discriminate].
  specialize (Hw card t eq_refl Ht).
  destruct (TrionfiEffect.effect t) as [h|] eqn:Hh; [|discriminate].
  apply bind_draws_no_none; [apply hanged_man_scan_draws_no_none|].
  intros [b g1] _. destruct b; cbn [negb]; [discriminate|].
  apply apply_effect_draws_no_none; [exact Henv | congruence].
Qed.

Lemma bet_step_draws_no_none (env : Env) (seat : nat) (action : Action) (bet : string)
    (g : GameState.t) :
  keeps_cards env -> not_the_wheel (play_trionfi action) ->
  draws_no_none (bet_step env seat action bet g).
Proof.
  intros Henv Hw. unfold bet_step, player_call, player_raise.
  destruct (String.eqb bet "call"); [no_none|].
  destruct (String.eqb bet "raise"); [|discriminate].
  apply bind_draws_no_none; [no_none|]. intros [paid g1] _.
  destruct (play_trionfi action) as [card|]; [|discriminate].
  now apply play_trionfi_step_draws_no_none.
Qed.

Lemma draw_step_draws_no_none (env : Env) (seat : nat) (action : Action)
    (g : GameState.t) :
  keeps_cards env -> draws_no_none (draw_step env seat action g).
Proof.
  intros [Hsh _]. unfold draw_step.
  apply with_player_draws_no_none. intros p _.
  destruct (negb _); [|discriminate].
  destruct (draw_action action) as [d|]; [|discriminate].
  destruct (String.eqb d "draw_pile").
  { apply bind_draws_no_none; [now apply draw_from_draw_pile_draws_no_none|].
    intros [c g1] _. discriminate. }
  unfold draw_from_discard_pile, swap_with_community. no_none.
Qed.

Lemma ask_discard_step_draws_no_none (env : Env) (seat : nat) (action : Action)
    (drew : bool) (g : GameState.t) :
  draws_no_none (ask_discard_step env seat action drew g).
Proof. unfold ask_discard_step. no_none. Qed.

Lemma discard_step_draws_no_none (seat : nat) (discard_index : option Z)
    (g : GameState.t) :
  draws_no_none (discard_step seat discard_index g).
Proof. unfold discard_step, discard_card. no_none. Qed.

Lemma execute_player_turn_draws_no_none (env : Env) (seat : nat) (action : Action)
    (g : GameState.t) :
  keeps_cards env -> not_the_wheel (play_trionfi action) ->
  draws_no_none (execute_player_turn env seat action g).
Proof.
  intros Henv Hw. unfold execute_player_turn.
  apply with_player_draws_no_none. intros p _.
  destruct (Player.has_folded p); [discriminate|].
  apply bind_draws_no_none.
  { destruct (card_in _ _); [apply handle_devil_card_draws_no_none | discriminate]. }
  intros g0 _. destruct (String.eqb _ "fold"); [discriminate|].
  apply bind_draws_no_none; [now apply bet_step_draws_no_none|]. intros g1 _.
  apply bind_draws_no_none; [now apply draw_step_draws_no_none|]. intros [drew g2] _.
  apply bind_draws_no_none; [apply ask_discard_step_draws_no_none|]. intros di _.
  apply bind_draws_no_none; [apply discard_step_draws_no_none|]. intros g3 _.
  discriminate.
Qed.

Lemma betting_loop_draws_no_none (env : Env) (ha : ActionSource)
    (ai : option ActionSource) (fuel : nat) (i : nat) (asked : list nat)
    (g : GameState.t) :
  keeps_cards env -> never_the_wheel ha ai ->
  draws_no_none (betting_loop env ha ai fuel i asked g).
Proof.
  intros Henv [Hh Ha].
  revert i asked g. induction fuel as [|fuel IH]; intros i asked g; cbn [betting_loop];
    [discriminate|].
  destruct (is_betting_round_complete g); [discriminate|].
  apply with_player_draws_no_none. intros p _.
  apply bind_draws_no_none; [|intros [asked' g1] _; apply IH].
  destruct (negb _ && _); [|discriminate].
  apply bind_draws_no_none; [|intros [b g1] _; discriminate].
  apply execute_player_turn_draws_no_none; [exact Henv|].
  destruct (Player.is_human p); [apply Hh|].
  destruct ai as [f|]; [now apply Ha|]. intros c t [=].
Qed.



Lemma deck_distinct : NoDup _generate_deck.
Proof. apply distinct_cards_NoDup. vm_compute. reflexivity. Qed.

(** The stacked deck is the deck in another order. *)
Lemma stack_the_deck_permutes : stack_the_deck _generate_deck ≡ₚ _generate_deck.
Proof.
  apply submseteq_length_Permutation; [|vm_compute; lia].
  apply NoDup_submseteq; [apply distinct_cards_NoDup; vm_compute; reflexivity|].
  intros c Hc. apply list_elem_of_In in Hc. apply list_elem_of_In.
  assert (E : forallb (fun c => card_in c _generate_deck)
                (stack_the_deck _generate_deck) = true) by (vm_compute; reflexivity).
  rewrite forallb_forall in E. now apply card_in_In, E.
Qed.

Lemma reset_hands_empty (ps : list Player.t) :
  Forall (fun p => Player.hand p = []) (map Player.reset_for_new_hand ps).
Proof. induction ps as [|p ps IH]; cbn; constructor; [reflexivity | exact IH]. Qed.

(** X9.  [start_new_hand] begins every hand with a full deck, whatever the
    state before (cards missing, cards doubled, a pot left over): the draw
    pile is a shuffle of the 78 distinct cards of the deck (22 trumps and 14
    cards in each of four suits), the other piles and all hands are empty,
    78 cards are accounted for; the pot is zero, the credits are those the
    seats had, the hand number is one more. *)
Theorem start_new_hand_fresh_deck (shuffle : Shuffle) (g : GameState.t) :
  (forall l, shuffle l ≡ₚ l) ->
  let g' := start_new_hand shuffle g in
  GameState.draw_pile g' ≡ₚ _generate_deck
  /\ NoDup (GameState.draw_pile g')
  /\ length (GameState.draw_pile g') = 78%nat
  /\ length (List.filter (fun c => String.eqb c.2 "T") (GameState.draw_pile g')) = 22%nat
  /\ GameState.discard_pile g' = []
  /\ GameState.community_cards g' = []
  /\ GameState.removed_pile g' = []
  /\ Forall (fun p => Player.hand p = []) (GameState.players g')
  /\ total_cards_accounted_for g' = 78
  /\ GameState.pot g' = 0
  /\ credits_of g' = credits_of g
  /\ GameState.hand_number g' = GameState.hand_number g + 1.
Proof.
  intros Hsh g'. subst g'. unfold start_new_hand. cbn.
  assert (Hlen : forall l, length (shuffle l) = length l)
    by (intros l; now rewrite (Hsh l)).
  repeat split.
  - apply Hsh.
  - rewrite (Hsh _). apply deck_distinct.
  - now rewrite Hlen.
  - assert (E : forall l l' : list Card, l ≡ₚ l' ->
               length (List.filter (fun c => String.eqb c.2 "T") l)
               = length (List.filter (fun c => String.eqb c.2 "T") l')).
    { induction 1 as [|x l l' _ IH|x y l|l l' l'' _ IH1 _ IH2]; cbn.
      - reflexivity.
      - destruct (String.eqb x.2 "T"); cbn; now rewrite IH.
      - destruct (String.eqb x.2 "T"), (String.eqb y.2 "T"); reflexivity.
      - now rewrite IH1. }
    rewrite (E _ _ (Hsh _)). vm_compute. reflexivity.
  - apply reset_hands_empty.
  - apply (total_start_new_hand shuffle g Hlen).
  - unfold credits_of. cbn. now rewrite map_map.
Qed.

Lemma cut_eight_permutes (l : list Card) : cut_eight l ≡ₚ l.
Proof.
  unfold cut_eight. rewrite Permutation_app_comm. now rewrite take_drop.
Qed.

Lemma start_new_hand_fresh_deck_witness :
  GameState.draw_pile (start_new_hand cut_eight the_dealt_table) ≡ₚ _generate_deck.
Proof.
  apply (start_new_hand_fresh_deck cut_eight the_dealt_table cut_eight_permutes).
Defined.

(** X10.  The deal.  When the draw pile holds at least two cards for each seat
    and four more, [deal_initial_cards] does not shuffle and deals from the
    top of the pile: seat [i] receives the cards at positions [2 i] and
    [2 i + 1] (each seat its two cards before the next seat), the next three
    cards go to the table, the one after is burnt onto the discard pile, and
    the rest stays in the draw pile; nothing else changes. *)
Theorem deal_initial_cards_two_each (shuffle : Shuffle) (g : GameState.t) :
  let n := length (GameState.players g) in
  let d := GameState.draw_pile g in
  (2 * n + 4 <= length d)%nat ->
  exists g',
    deal_initial_cards shuffle g = Ok g'
    /\ (forall i p, GameState.players g !! i = Some p ->
          GameState.players g' !! i
          = Some (Player.set_hand (Player.hand p ++ take 2 (drop (2 * i) d)) p))
    /\ length (GameState.players g') = n
    /\ GameState.community_cards g' = GameState.community_cards g ++ take 3 (drop (2 * n) d)
    /\ GameState.discard_pile g' = GameState.discard_pile g ++ take 1 (drop (2 * n + 3) d)
    /\ GameState.draw_pile g' = drop (2 * n + 4) d
    /\ GameState.removed_pile g' = GameState.removed_pile g
    /\ money g' = money g
    /\ total_cards_accounted_for g' = total_cards_accounted_for g.
Proof.
  intros n d Hd. pose proof (deal_initial_cards_enough shuffle g Hd) as H.
  fold n d in H. eexists. split; [exact H|].
  repeat split.
  - intros i p Hp. cbn. unfold dealt_two_each. rewrite list_lookup_imap, Hp. reflexivity.
  - cbn. unfold dealt_two_each. now rewrite length_imap.
  - eapply money_deal_initial_cards; eauto.
  - pose proof (deal_initial_cards_enough (fun l => l) g Hd) as H'. fold n d in H'.
    apply total_deal_initial_cards in H'; [exact H' | reflexivity].
Qed.

Lemma deal_initial_cards_two_each_witness :
  exists g',
    deal_initial_cards cut_eight (start_new_hand cut_eight new_table) = Ok g'
    /\ GameState.players g' !! 1%nat
       = Some (Player.set_hand ([] ++ [("10","T"); ("11","T")])
                 (Player.init "Lando" 500 false)).
Proof.
  destruct (deal_initial_cards_two_each cut_eight (start_new_hand cut_eight new_table))
    as (g' & H & Hp & _).
  - vm_compute. lia.
  - exists g'. split; [exact H|]. apply (Hp 1%nat (Player.init "Lando" 500 false)).
    reflexivity.
Defined.

Lemma open_hand_state (shuffle : Shuffle) (g g1 : GameState.t) :
  (forall l, length (shuffle l) = length l) ->
  collect_blinds (start_new_hand shuffle g) = Ok g1 ->
  length (GameState.players g1) = length (GameState.players g)
  /\ length (GameState.draw_pile g1) = 78%nat
  /\ GameState.discard_pile g1 = []
  /\ GameState.community_cards g1 = []
  /\ Forall (fun p => Player.hand p = []) (GameState.players g1)
  /\ total_cards_accounted_for g1 = 78.
Proof.
  intros Hsh H. pose proof (cards_collect_blinds _ _ H) as Hc.
  pose proof (settles_collect_blinds _ _ H) as [(Hl & _) _].
  pose proof (total_of_cards _ _ Hc) as Ht.
  rewrite (total_start_new_hand shuffle g Hsh) in Ht.
  unfold cards in Hc. injection Hc as H1 H2 H3 H4 H5.
  unfold start_new_hand in *. cbn in *. rewrite length_map in Hl.
  repeat split; try assumption.
  - now rewrite H1, Hsh.
  - pose proof (reset_hands_empty (GameState.players g)) as He.
    rewrite Forall_forall in He |- *. intros p Hp.
    assert (Hin : Player.hand p ∈ map Player.hand (GameState.players g1))
      by (apply list_elem_of_fmap; eauto).
    rewrite H5 in Hin. apply list_elem_of_fmap in Hin as (q & -> & Hq).
    now apply He.
Qed.

(** On every table dealt from the deck the Hanged Man is in one hand at
    most: the hands are stretches, two by two, of a pile of distinct
    cards. *)
Lemma dealt_one_hanged_man (sh : Shuffle) (g g' : GameState.t) :
  (forall l, sh l ≡ₚ l) ->
  open_hand sh g = Ok g' -> one_hanged_man g'.
Proof.
  intros Hsh.
  assert (Hlen : forall l, length (sh l) = length l) by (intros l; now rewrite (Hsh l)).
  unfold open_hand.
  destruct (collect_blinds (start_new_hand sh g)) as [g1|e] eqn:H1; cbn [bind];
    [|discriminate].
  destruct (open_hand_state sh g g1 Hlen H1) as (Hl & Hd & Hdis & Hcom & Hh & Ht).
  pose proof (cards_collect_blinds _ _ H1) as Hc. unfold cards in Hc.
  injection Hc as Hdraw _ _ _ _.
  assert (Hnd : NoDup (GameState.draw_pile g1)).
  { rewrite Hdraw. cbn. rewrite (Hsh _). apply deck_distinct. }
  destruct (le_lt_dec (2 * length (GameState.players g1) + 4)
              (length (GameState.draw_pile g1))) as [Hen|Hshort].
  - rewrite (deal_initial_cards_enough sh g1 Hen). intros [= <-].
    assert (Hpos : forall q, holds_hanged_man
              (GameState.set_discard_pile
                 (GameState.discard_pile g1
                  ++ take 1 (drop (2 * length (GameState.players g1) + 3)
                               (GameState.draw_pile g1)))
                 (GameState.set_community_cards
                    (GameState.community_cards g1
                     ++ take 3 (drop (2 * length (GameState.players g1))
                                  (GameState.draw_pile g1)))
                    (GameState.set_players
                       (dealt_two_each (GameState.draw_pile g1) (GameState.players g1))
                       (GameState.set_draw_pile
                          (drop (2 * length (GameState.players g1) + 4)
                             (GameState.draw_pile g1)) g1)))) q = true ->
              exists i, (i < 2)%nat
                        /\ GameState.draw_pile g1 !! (2 * q + i)%nat = Some hanged_man_card).
    { intros q. unfold holds_hanged_man, hand_of, dealt_two_each. cbn.
      rewrite list_lookup_imap.
      destruct (GameState.players g1 !! q) as [p|] eqn:E; cbn; [|discriminate].
      rewrite Forall_forall in Hh.
      rewrite (Hh p) by (eapply list_elem_of_lookup_2; eauto). cbn [app].
      intros C. apply card_in_In, list_elem_of_In, list_elem_of_lookup_1 in C as [i Hi].
      apply lookup_take_Some in Hi as [Hi Hlt]. rewrite lookup_drop in Hi.
      exists i. split; assumption. }
    intros q1 q2 C1 C2.
    apply Hpos in C1 as (i1 & Hi1 & L1). apply Hpos in C2 as (i2 & Hi2 & L2).
    pose proof (NoDup_lookup _ _ _ _ Hnd L1 L2). lia.
  - unfold deal_initial_cards.
    pose proof (ensure_cards_available_cases sh
                  (len (GameState.players g1) * 2 + 3 + 1) g1) as (_ & _ & Hr).
    rewrite Hr; [discriminate| |].
    + unfold cards_remaining_in_draw_pile, len. lia.
    + unfold cards_in_discard_pile. now rewrite Hdis.
Qed.

(** X11.  A table seats at most 37.  With one to 37 seats the opening of a hand
    (new hand, blinds, deal) succeeds and leaves two cards in every hand,
    three on the table, one burnt and the rest of the 78 in the draw pile;
    with 38 seats or more the two cards a seat and the four cards of the
    table exceed the deck, and the opening, hence [play_hand], stops with
    [RuntimeError]. *)
Theorem table_seats_at_most_37 (sh : Shuffle) (g : GameState.t) :
  (forall l, length (sh l) = length l) ->
  let n := length (GameState.players g) in
  ((1 <= n <= 37)%nat ->
   exists g',
     open_hand sh g = Ok g'
     /\ Forall (fun p => length (Player.hand p) = 2%nat) (GameState.players g')
     /\ length (GameState.players g') = n
     /\ length (GameState.community_cards g') = 3%nat
     /\ length (GameState.discard_pile g') = 1%nat
     /\ length (GameState.draw_pile g') = (78 - (2 * n + 4))%nat
     /\ total_cards_accounted_for g' = 78)
  /\ ((38 <= n)%nat ->
      open_hand sh g = Raise RuntimeError
      /\ forall env human_action get_ai_action_func,
           shuffle env = sh ->
           (GameState.dealer_index g < n)%nat ->
           play_hand env human_action get_ai_action_func g = Raise RuntimeError).
Proof.
  intros Hsh n.
  assert (Hne : (1 <= n)%nat -> GameState.players (start_new_hand sh g) <> []).
  { intros Hn E. apply (f_equal length) in E. unfold start_new_hand in E. cbn in E.
    rewrite length_map in E. fold n in E. lia. }
  split.
  - intros [Hn1 Hn37]. unfold open_hand.
    destruct (collect_blinds_ok _ (Hne Hn1)) as [g1 H1]. rewrite H1. cbn [bind].
    destruct (open_hand_state sh g g1 Hsh H1) as (Hl & Hd & Hdis & Hcom & Hh & Ht).
    fold n in Hl.
    assert (Hd2 : (2 * length (GameState.players g1) + 4
                   <= length (GameState.draw_pile g1))%nat) by (rewrite Hl, Hd; lia).
    pose proof (deal_initial_cards_enough sh g1 Hd2) as H. cbv zeta in H.
    pose proof (total_deal_initial_cards sh g1 _ Hsh H) as Ht'.
    eexists. split; [exact H|].
    cbn [GameState.players GameState.community_cards GameState.discard_pile
         GameState.draw_pile GameState.set_discard_pile GameState.set_community_cards
         GameState.set_players GameState.set_draw_pile] in *.
    unfold dealt_two_each. rewrite Hl in *.
    repeat split.
    + apply Forall_forall. intros p' Hp'.
      apply list_elem_of_lookup_1 in Hp' as [i Hi].
      rewrite list_lookup_imap in Hi.
      destruct (GameState.players g1 !! i) as [p|] eqn:Hi1; [|discriminate].
      injection Hi as <-.
      rewrite Forall_forall in Hh.
      rewrite (Hh p) by (eapply list_elem_of_lookup_2; eauto). cbn.
      apply lookup_lt_Some in Hi1. rewrite Hl in Hi1.
      rewrite length_take, length_drop. lia.
    + now rewrite length_imap.
    + rewrite Hcom. cbn. rewrite length_take, length_drop. lia.
    + rewrite Hdis. cbn. rewrite length_take, length_drop. lia.
    + rewrite length_drop. lia.
    + unfold dealt_two_each in Ht'. lia.
  - intros Hn38.
    assert (Ho : open_hand sh g = Raise RuntimeError).
    { unfold open_hand.
      destruct (collect_blinds_ok _ (Hne ltac:(lia))) as [g1 H1]. rewrite H1. cbn [bind].
      destruct (open_hand_state sh g g1 Hsh H1) as (Hl & Hd & Hdis & _).
      fold n in Hl. unfold deal_initial_cards.
      pose proof (ensure_cards_available_cases sh
                    (len (GameState.players g1) * 2 + 3 + 1) g1) as (_ & _ & Hr).
      rewrite Hr; [reflexivity| |].
      - unfold cards_remaining_in_draw_pile, len. rewrite Hd, Hl. lia.
      - unfold cards_in_discard_pile. now rewrite Hdis. }
    split; [exact Ho|].
    intros env ha ai <- Hdl. unfold play_hand, with_player.
    destruct (lookup_lt_is_Some_2 _ _ Hdl) as [pd ->].
    unfold open_hand in Ho.
    destruct (collect_blinds _) as [g1|e]; cbn [bind] in *;
      [now rewrite Ho | now injection Ho as ->].
Qed.

Lemma table_seats_at_most_37_witness :
  (exists g', open_hand cut_eight (table_of 37) = Ok g'
              /\ length (GameState.draw_pile g') = (78 - (2 * 37 + 4))%nat)
  /\ open_hand cut_eight (table_of 38) = Raise RuntimeError.
Proof.
  assert (Hsh : forall l : list Card, length (cut_eight l) = length l)
    by (intros l; now rewrite (cut_eight_permutes l)).
  split.
  - destruct (table_seats_at_most_37 cut_eight (table_of 37) Hsh) as [H _].
    destruct H as (g' & H & _ & _ & _ & _ & Hd & _); [cbn; lia|].
    exists g'. split; [exact H | exact Hd].
  - destruct (table_seats_at_most_37 cut_eight (table_of 38) Hsh) as [_ H].
    apply H. cbn. lia.
Defined.

Lemma insert_delete_Permutation {A : Type} (l : list A) (i : nat) (x : A) :
  (i < length l)%nat -> <[i:=x]> l ≡ₚ x :: delete i l.
Proof.
  revert i. induction l as [|y l IH]; intros [|i] H; cbn in *; try lia.
  - reflexivity.
  - rewrite IH by lia. apply Permutation_swap.
Qed.

(** X12.  Drawing from the discard pile.  The index counts from the bottom of
    the pile; an empty pile or an index outside the pile is a [ValueError];
    otherwise the seat takes the card at the index and every card above it,
    in pile order, onto the end of its hand, the pile keeps the cards below,
    and the seat is marked as having drawn. *)
Theorem draw_from_discard_pile_takes_from_index (seat : nat) (card_index : Z)
    (g : GameState.t) (p : Player.t) :
  GameState.players g !! seat = Some p ->
  let pile := GameState.discard_pile g in
  (card_index < 0 \/ len pile <= card_index ->
   draw_from_discard_pile seat card_index g = Raise ValueError)
  /\ (0 <= card_index < len pile ->
      let taken := drop (Z.to_nat card_index) pile in
      exists g',
        draw_from_discard_pile seat card_index g = Ok (taken, g')
        /\ taken <> []
        /\ GameState.discard_pile g' = take (Z.to_nat card_index) pile
        /\ GameState.discard_pile g' ++ taken = pile
        /\ GameState.players g' !! seat
           = Some (Player.set_has_drawn true (Player.set_hand (Player.hand p ++ taken) p))
        /\ others_untouched seat g g'
        /\ GameState.draw_pile g' = GameState.draw_pile g
        /\ GameState.community_cards g' = GameState.community_cards g
        /\ GameState.removed_pile g' = GameState.removed_pile g).
Proof.
  intros Hp. cbv zeta. unfold draw_from_discard_pile. split.
  - intros Hout. destruct (GameState.discard_pile g) as [|c0 cs]; [reflexivity|].
    destruct (Z.ltb_spec card_index 0); [reflexivity|].
    destruct (Z.leb_spec (len (c0 :: cs)) card_index); [reflexivity|]. lia.
  - intros [H0 Hlt].
    destruct (GameState.discard_pile g) as [|c0 cs] eqn:E;
      [unfold len in Hlt; cbn in Hlt; lia|].
    cbv iota. rewrite <- E in *.
    replace (card_index <? 0) with false by (symmetry; apply Z.ltb_ge; lia).
    replace (len (GameState.discard_pile g) <=? card_index) with false
      by (symmetry; apply Z.leb_gt; lia).
    cbn [orb]. eexists. split; [reflexivity|].
    repeat split.
    + intros Hnil. apply (f_equal length) in Hnil.
      rewrite length_drop in Hnil. unfold len in Hlt. cbn [length] in Hnil. lia.
    + apply take_drop.
    + unfold hand_append, update_player. cbn.
      rewrite !list_lookup_alter_eq, Hp. reflexivity.
    + intros q Hq. unfold hand_append, update_player. cbn.
      now rewrite !list_lookup_alter_ne by congruence.
Qed.

Lemma draw_from_discard_pile_takes_from_index_witness :
  draw_from_discard_pile 0 1 the_dealt_table = Raise ValueError
  /\ exists g', draw_from_discard_pile 0 0 the_dealt_table = Ok ([("17","T")], g')
                /\ GameState.discard_pile g' = [].
Proof.
  destruct (draw_from_discard_pile_takes_from_index 0 1 the_dealt_table
              (Player.mk "Han" 500 true [("8","T"); ("9","T")] 0 false false false false)
              eq_refl) as [H1 _].
  destruct (draw_from_discard_pile_takes_from_index 0 0 the_dealt_table
              (Player.mk "Han" 500 true [("8","T"); ("9","T")] 0 false false false false)
              eq_refl) as [_ H2].
  split.
  - apply H1. right. vm_compute. discriminate.
  - destruct H2 as (g' & H & _ & Hd & _); [vm_compute; split; discriminate || reflexivity|].
    exists g'. split; [exact H | exact Hd].
Defined.

(** X13.  Swapping with the table.  An index outside the hand or outside the
    community cards is a [ValueError].  Otherwise the card of the hand takes
    the place of the community card, which goes to the end of the hand; the
    hand and the table keep their sizes and together hold the same cards as
    before; the seat is marked as having drawn. *)
Theorem swap_with_community_exchanges (seat : nat) (hi ci : Z) (g : GameState.t)
    (p : Player.t) :
  GameState.players g !! seat = Some p ->
  let hand := Player.hand p in
  let table := GameState.community_cards g in
  (hi < 0 \/ len hand <= hi \/ ci < 0 \/ len table <= ci ->
   swap_with_community seat hi ci g = Raise ValueError)
  /\ (0 <= hi < len hand -> 0 <= ci < len table ->
      exists given taken g',
        swap_with_community seat hi ci g = Ok (given, taken, g')
        /\ hand !! Z.to_nat hi = Some given
        /\ table !! Z.to_nat ci = Some taken
        /\ GameState.community_cards g' = <[Z.to_nat ci := given]> table
        /\ GameState.players g' !! seat
           = Some (Player.set_has_drawn true
                     (Player.set_hand (delete (Z.to_nat hi) hand ++ [taken]) p))
        /\ length (hand_of g' seat) = length hand
        /\ length (GameState.community_cards g') = length table
        /\ hand_of g' seat ++ GameState.community_cards g' ≡ₚ hand ++ table
        /\ others_untouched seat g g'
        /\ GameState.draw_pile g' = GameState.draw_pile g
        /\ GameState.discard_pile g' = GameState.discard_pile g
        /\ GameState.removed_pile g' = GameState.removed_pile g).
Proof.
  intros Hp hand table. unfold swap_with_community, with_player. rewrite Hp.
  fold hand table. split.
  - intros Hout.
    destruct (Z.ltb_spec hi 0); [reflexivity|].
    destruct (Z.leb_spec (len hand) hi); [reflexivity|]. cbn [orb].
    destruct (Z.ltb_spec ci 0); [reflexivity|].
    destruct (Z.leb_spec (len table) ci); [reflexivity|]. lia.
  - intros [Hh0 Hh1] [Hc0 Hc1].
    replace (hi <? 0) with false by (symmetry; apply Z.ltb_ge; lia).
    replace (len hand <=? hi) with false by (symmetry; apply Z.leb_gt; lia).
    replace (ci <? 0) with false by (symmetry; apply Z.ltb_ge; lia).
    replace (len table <=? ci) with false by (symmetry; apply Z.leb_gt; lia).
    cbn [orb].
    assert (Hhl : (Z.to_nat hi < length hand)%nat) by (unfold len in Hh1; lia).
    assert (Hcl : (Z.to_nat ci < length table)%nat) by (unfold len in Hc1; lia).
    destruct (lookup_lt_is_Some_2 _ _ Hhl) as [given Hg].
    destruct (lookup_lt_is_Some_2 _ _ Hcl) as [taken Ht].
    rewrite Hg, Ht. exists given, taken. eexists. split; [reflexivity|].
    match goal with
    | |- context [hand_of ?G seat] =>
        assert (Hseat : GameState.players G !! seat
                        = Some (Player.set_has_drawn true
                                  (Player.set_hand (delete (Z.to_nat hi) hand ++ [taken]) p)))
          by (unfold hand_append, update_player; cbn;
              rewrite !list_lookup_alter_eq, Hp; reflexivity);
        assert (Hhand : hand_of G seat = delete (Z.to_nat hi) hand ++ [taken])
          by (unfold hand_of; rewrite Hseat; reflexivity)
    end.
    split; [reflexivity|]. split; [reflexivity|]. split; [reflexivity|].
    split; [exact Hseat|]. rewrite Hhand.
    split; [|split; [|split; [|split]]].
    + rewrite length_app, length_delete by eauto. cbn. lia.
    + cbn. apply length_insert.
    + cbn [GameState.community_cards GameState.set_community_cards update_player
           hand_append GameState.set_players].
      fold table.
      assert (Hins : <[Z.to_nat ci:=given]> table ≡ₚ given :: delete (Z.to_nat ci) table).
      { now apply insert_delete_Permutation. }
      rewrite Hins.
      etrans; [|symmetry; apply Permutation_app;
                 [apply (delete_Permutation hand _ _ Hg)
                 |apply (delete_Permutation table _ _ Ht)]].
      rewrite <- app_assoc. cbn [app].
      rewrite (Permutation_swap given taken).
      symmetry. apply Permutation_middle.
    + intros q Hq. unfold hand_append, update_player. cbn.
      now rewrite !list_lookup_alter_ne by congruence.
    + repeat split.
Qed.

Lemma swap_with_community_exchanges_witness :
  swap_with_community 0 2 0 the_dealt_table = Raise ValueError
  /\ exists g', swap_with_community 0 1 2 the_dealt_table
                = Ok (("9","T"), ("16","T"), g').
Proof.
  destruct (swap_with_community_exchanges 0 2 0 the_dealt_table
              (Player.mk "Han" 500 true [("8","T"); ("9","T")] 0 false false false false)
              eq_refl) as [H1 _].
  destruct (swap_with_community_exchanges 0 1 2 the_dealt_table
              (Player.mk "Han" 500 true [("8","T"); ("9","T")] 0 false false false false)
              eq_refl) as [_ H2].
  split.
  - apply H1. right. left. vm_compute. discriminate.
  - destruct H2 as (given & taken & g' & H & Hg & Ht & _).
    + vm_compute. split; discriminate || reflexivity.
    + vm_compute. split; discriminate || reflexivity.
    + injection Hg as <-. injection Ht as <-. exists g'. exact H.
Defined.

Lemma length_0_nil {A : Type} (l : list A) : length l = 0%nat -> l = [].
Proof. now destruct l. Qed.

(** X14.  Drawing from the draw pile, with a shuffle that keeps the number of
    cards.  The card comes from the top of the draw pile or, when the draw
    pile is empty, from the top of the shuffled discard pile, which then
    becomes the draw pile.  The draw stops with [RuntimeError] exactly when
    both piles are empty; otherwise the seat gets the card at the end of its
    hand and is marked as having drawn, and nothing else changes. *)
Theorem draw_from_draw_pile_top_or_reshuffled (sh : Shuffle) (seat : nat)
    (g : GameState.t) (p : Player.t) :
  (forall l, length (sh l) = length l) ->
  GameState.players g !! seat = Some p ->
  (draw_source sh g = []
   <-> GameState.draw_pile g = [] /\ GameState.discard_pile g = [])
  /\ (draw_source sh g = [] -> draw_from_draw_pile sh seat g = Raise RuntimeError)
  /\ (forall c rest, draw_source sh g = c :: rest ->
        exists g',
          draw_from_draw_pile sh seat g = Ok (c, g')
          /\ GameState.draw_pile g' = rest
          /\ GameState.discard_pile g'
             = match GameState.draw_pile g with
               | [] => []
               | _ => GameState.discard_pile g
               end
          /\ GameState.players g' !! seat = Some (has_drawn_cards [c] p)
          /\ others_untouched seat g g'
          /\ GameState.community_cards g' = GameState.community_cards g
          /\ GameState.removed_pile g' = GameState.removed_pile g).
Proof.
  intros Hsh Hp. unfold draw_source, draw_from_draw_pile.
  pose proof (ensure_cards_available_cases sh 1 g) as (Hok & Hre & Hno).
  unfold cards_remaining_in_draw_pile, cards_in_discard_pile, len in *.
  assert (Hseat : forall c g0, GameState.players g0 = GameState.players g ->
            GameState.players
              (update_player seat (Player.set_has_drawn true) (hand_append seat [c] g0))
              !! seat = Some (has_drawn_cards [c] p)).
  { intros c g0 E. unfold hand_append, update_player. cbn.
    rewrite !list_lookup_alter_eq, E, Hp. reflexivity. }
  assert (Hoth : forall c g0, GameState.players g0 = GameState.players g ->
            others_untouched seat g
              (update_player seat (Player.set_has_drawn true) (hand_append seat [c] g0))).
  { intros c g0 E q Hq. unfold hand_append, update_player. cbn.
    rewrite !list_lookup_alter_ne by congruence. now rewrite E. }
  destruct (GameState.draw_pile g) as [|c0 r0] eqn:Ed.
  - assert (Hnil : sh (GameState.discard_pile g) = [] <-> GameState.discard_pile g = []).
    { split; intros E.
      - apply length_0_nil. rewrite <- Hsh, E. reflexivity.
      - apply length_0_nil. rewrite Hsh, E. reflexivity. }
    split; [|split].
    + rewrite Hnil. tauto.
    + intros E. apply Hnil in E. rewrite Hno; [reflexivity| cbn; lia | rewrite E; reflexivity].
    + intros c rest E.
      assert (Hne : GameState.discard_pile g <> [])
        by (intros E'; apply Hnil in E'; congruence).
      rewrite Hre;
        [|cbn; lia|destruct (GameState.discard_pile g); [congruence | cbn; lia]].
      cbn [bind app].
      rewrite (draw_card_cons c rest) by exact E. cbn [bind].
      eexists. split; [reflexivity|].
      split; [reflexivity|]. split; [reflexivity|].
      split; [now apply Hseat|]. split; [now apply Hoth|]. split; reflexivity.
  - split; [|split].
    + split; [discriminate | intros [E _]; discriminate].
    + discriminate.
    + intros c rest [= <- <-].
      rewrite Hok by (cbn; lia). cbn [bind].
      rewrite (draw_card_cons c0 r0) by exact Ed. cbn [bind].
      eexists. split; [reflexivity|].
      split; [reflexivity|]. split; [reflexivity|].
      split; [now apply Hseat|]. split; [now apply Hoth|]. split; reflexivity.
Qed.

Lemma draw_from_draw_pile_top_or_reshuffled_witness :
  exists g', draw_from_draw_pile cut_eight 1 the_dealt_table = Ok (("18","T"), g').
Proof.
  assert (Hsh : forall l : list Card, length (cut_eight l) = length l)
    by (intros l; now rewrite (cut_eight_permutes l)).
  destruct (draw_from_draw_pile_top_or_reshuffled cut_eight 1 the_dealt_table
              (Player.mk "Lando" 499 false [("10","T"); ("11","T")] 1 false false false false)
              Hsh eq_refl) as (_ & _ & H).
  destruct (H ("18","T")
              (drop 1 (GameState.draw_pile the_dealt_table)) eq_refl) as (g' & Hg & _).
  exists g'. exact Hg.
Defined.

(** X15.  Discarding, and taking the discard back.  An index outside the hand
    is a [ValueError].  Otherwise the card at the index leaves the hand for
    the top of the discard pile, every other card keeps its order, and the
    number of cards accounted for is unchanged; drawing from the discard
    pile at the index of that card then gives back exactly this card, the
    pile is as before the discard and the hand holds the same cards as
    before, the returned card now last. *)
Theorem discard_card_then_draw_back (seat : nat) (i : Z) (g : GameState.t)
    (p : Player.t) :
  GameState.players g !! seat = Some p ->
  let hand := Player.hand p in
  (i < 0 \/ len hand <= i -> discard_card seat i g = Raise ValueError)
  /\ (0 <= i < len hand ->
      exists c g1 g2,
        hand !! Z.to_nat i = Some c
        /\ discard_card seat i g = Ok (c, g1)
        /\ GameState.discard_pile g1 = GameState.discard_pile g ++ [c]
        /\ hand_of g1 seat = delete (Z.to_nat i) hand
        /\ others_untouched seat g g1
        /\ total_cards_accounted_for g1 = total_cards_accounted_for g
        /\ draw_from_discard_pile seat (len (GameState.discard_pile g)) g1 = Ok ([c], g2)
        /\ GameState.discard_pile g2 = GameState.discard_pile g
        /\ hand_of g2 seat = delete (Z.to_nat i) hand ++ [c]
        /\ hand_of g2 seat ≡ₚ hand
        /\ total_cards_accounted_for g2 = total_cards_accounted_for g).
Proof.
  intros Hp hand. split; [apply discard_card_out_of_range; exact Hp|].
  intros [H0 H1].
  assert (Hl : (Z.to_nat i < length hand)%nat) by (unfold len in H1; lia).
  destruct (lookup_lt_is_Some_2 _ _ Hl) as [c Hc].
  set (g0 := update_player seat
               (fun p0 => Player.set_hand (pop_at (Z.to_nat i) (Player.hand p0)) p0) g).
  set (g1 := discard_append [c] g0).
  assert (Hd : discard_card seat i g = Ok (c, g1)).
  { unfold discard_card, with_player. rewrite Hp. fold hand.
    replace (i <? 0) with false by (symmetry; apply Z.ltb_ge; lia).
    replace (len hand <=? i) with false by (symmetry; apply Z.leb_gt; lia).
    cbn [orb]. rewrite Hc. reflexivity. }
  assert (Hp1 : GameState.players g1 !! seat
                = Some (Player.set_hand (delete (Z.to_nat i) hand) p)).
  { unfold g1, g0, discard_append, update_player. cbn.
    rewrite list_lookup_alter_eq, Hp. reflexivity. }
  assert (Hpile : GameState.discard_pile g1 = GameState.discard_pile g ++ [c])
    by reflexivity.
  assert (Ht1 : total_cards_accounted_for g1 = total_cards_accounted_for g).
  { unfold g1. rewrite total_discard_append, len_one. unfold g0.
    rewrite !total_cards_sum. unfold update_player. cbn.
    rewrite (cards_in_hands_alter _ _ _ p Hp). cbn. unfold pop_at. fold hand.
    rewrite (len_delete (Z.to_nat i) hand c Hc). lia. }
  set (g2 := update_player seat (Player.set_has_drawn true)
               (hand_append seat [c]
                  (GameState.set_discard_pile (GameState.discard_pile g) g1))).
  assert (Hdrop : drop (Z.to_nat (len (GameState.discard_pile g)))
                    (GameState.discard_pile g ++ [c]) = [c]).
  { unfold len. rewrite Nat2Z.id. now rewrite drop_app_length. }
  assert (Htake : take (Z.to_nat (len (GameState.discard_pile g)))
                    (GameState.discard_pile g ++ [c]) = GameState.discard_pile g).
  { unfold len. rewrite Nat2Z.id. now rewrite take_app_length. }
  assert (Hg2 : draw_from_discard_pile seat (len (GameState.discard_pile g)) g1
                = Ok ([c], g2)).
  { unfold draw_from_discard_pile. rewrite Hpile.
    destruct (GameState.discard_pile g ++ [c]) as [|c0 cs] eqn:E;
      [now destruct (GameState.discard_pile g)|].
    cbv iota. rewrite <- E in *.
    replace (len (GameState.discard_pile g) <? 0) with false
      by (symmetry; apply Z.ltb_ge; unfold len; lia).
    replace (len (GameState.discard_pile g ++ [c]) <=? len (GameState.discard_pile g))
      with false by (symmetry; apply Z.leb_gt; rewrite len_app, len_one; lia).
    cbn [orb]. rewrite Hdrop, Htake. reflexivity. }
  assert (Hp2 : GameState.players g2 !! seat
                = Some (Player.set_has_drawn true
                          (Player.set_hand (delete (Z.to_nat i) hand ++ [c]) p))).
  { unfold g2, hand_append, update_player. cbn.
    rewrite !list_lookup_alter_eq, Hp. reflexivity. }
  assert (Hh2 : hand_of g2 seat = delete (Z.to_nat i) hand ++ [c]).
  { unfold hand_of. rewrite Hp2. reflexivity. }
  assert (Ht2 : total_cards_accounted_for g2 = total_cards_accounted_for g).
  { unfold g2. rewrite total_update_player_same by reflexivity.
    rewrite (total_hand_append
               (GameState.set_discard_pile (GameState.discard_pile g) g1) seat [c] _ Hp1),
      len_one.
    rewrite <- Ht1, !total_cards_sum. unfold g1, discard_append. cbn.
    rewrite len_app, len_one. lia. }
  exists c, g1, g2.
  split; [exact Hc|]. split; [exact Hd|]. split; [exact Hpile|].
  split; [unfold hand_of; now rewrite Hp1|].
  split.
  { intros q Hq. unfold g1, g0, discard_append, update_player. cbn.
    now rewrite list_lookup_alter_ne by congruence. }
  split; [exact Ht1|]. split; [exact Hg2|]. split; [reflexivity|].
  split; [exact Hh2|]. split; [|exact Ht2].
  rewrite Hh2. rewrite (delete_Permutation hand _ _ Hc) at 2.
  rewrite Permutation_app_comm. reflexivity.
Qed.

Lemma discard_card_then_draw_back_witness :
  discard_card 0 2 the_dealt_table = Raise ValueError
  /\ exists g1 g2,
       discard_card 0 0 the_dealt_table = Ok (("8","T"), g1)
       /\ draw_from_discard_pile 0 (len (GameState.discard_pile the_dealt_table)) g1
          = Ok ([("8","T")], g2).
Proof.
  destruct (discard_card_then_draw_back 0 2 the_dealt_table
              (Player.mk "Han" 500 true [("8","T"); ("9","T")] 0 false false false false)
              eq_refl) as [H1 _].
  destruct (discard_card_then_draw_back 0 0 the_dealt_table
              (Player.mk "Han" 500 true [("8","T"); ("9","T")] 0 false false false false)
              eq_refl) as [_ H2].
  split.
  - apply H1. right. vm_compute. discriminate.
  - destruct H2 as (c & g1 & g2 & Hc & Hd & _ & _ & _ & _ & Hb & _).
    + vm_compute. split; discriminate || reflexivity.
    + injection Hc as <-. exists g1, g2. split; [exact Hd | exact Hb].
Defined.

(** X16.  A call.  With [owed] the difference between the table bet and the
    seat's bet, a call pays nothing when nothing is owed (a check), and
    otherwise the smaller of [owed] and the seat's credits; what is paid
    leaves the credits and joins the seat's bet and the pot.  The seat has
    acted, the table bet and the other seats (their acted flags included)
    are as before.  A seat with non-negative credits never pays more than it
    has, and after the call it has matched the table bet or is all-in. *)
Theorem player_call_matches_or_all_in (seat : nat) (g : GameState.t) (p : Player.t) :
  GameState.players g !! seat = Some p ->
  let owed := GameState.current_bet g - Player.current_bet p in
  let paid := if owed <=? 0 then 0 else Z.min (Player.credits p) owed in
  exists g',
    player_call seat g = Ok (paid, g')
    /\ GameState.players g' !! seat
       = Some (Player.set_has_acted true
                 (Player.set_current_bet (Player.current_bet p + paid)
                    (Player.set_credits (Player.credits p - paid) p)))
    /\ others_untouched seat g g'
    /\ GameState.pot g' = GameState.pot g + paid
    /\ GameState.current_bet g' = GameState.current_bet g
    /\ (0 <= Player.credits p -> 0 <= paid <= Player.credits p)
    /\ (0 <= Player.credits p -> 0 <= owed ->
        Player.current_bet p + paid = GameState.current_bet g
        \/ Player.credits p - paid = 0).
Proof.
  intros Hp owed paid. unfold player_call, with_player. rewrite Hp. fold owed.
  subst paid. destruct (Z.leb_spec owed 0) as [Ho|Ho].
  - eexists. split; [reflexivity|]. split.
    { unfold update_player. cbn. rewrite list_lookup_alter_eq, Hp. cbn.
      destruct p. cbn. now rewrite Z.add_0_r, Z.sub_0_r. }
    split.
    { intros q Hq. unfold update_player. cbn.
      now rewrite list_lookup_alter_ne by congruence. }
    split; [cbn; lia|]. split; [reflexivity|]. split; [lia|].
    intros _ Ho'. left. unfold owed in *. lia.
  - assert (E : (if Player.credits p <? owed then Player.credits p else owed)
                = Z.min (Player.credits p) owed).
    { destruct (Z.ltb_spec (Player.credits p) owed); lia. }
    rewrite E. eexists. split; [reflexivity|]. split.
    { unfold update_player. cbn. rewrite list_lookup_alter_eq, Hp. reflexivity. }
    split.
    { intros q Hq. unfold update_player. cbn.
      now rewrite list_lookup_alter_ne by congruence. }
    split; [reflexivity|]. split; [reflexivity|]. split; [lia|].
    intros Hc _. unfold owed in *. lia.
Qed.

Lemma player_call_matches_or_all_in_witness :
  exists g', player_call 1 the_dealt_table = Ok (1, g')
             /\ GameState.pot g' = GameState.pot the_dealt_table + 1.
Proof.
  destruct (player_call_matches_or_all_in 1 the_dealt_table
              (Player.mk "Lando" 499 false [("10","T"); ("11","T")] 1 false false false false)
              eq_refl) as (g' & H & _ & _ & Hpot & _).
  exists g'. split; [exact H | exact Hpot].
Defined.

(** X17.  The showdown pays one seat or nobody.  When [_do_showdown] returns,
    either no seat's record and not the pot has changed, or one seat that
    has not folded has received the whole pot on top of its credits, the
    pot is empty and every other seat is as it was.  In both cases the
    piles and the community cards are untouched. *)
Theorem do_showdown_pays_one_seat (g g' : GameState.t) :
  _do_showdown g = Ok g' ->
  ((GameState.players g' = GameState.players g /\ GameState.pot g' = GameState.pot g)
   \/ exists w p,
        GameState.players g !! w = Some p
        /\ Player.has_folded p = false
        /\ GameState.players g' !! w
           = Some (Player.set_credits (Player.credits p + GameState.pot g) p)
        /\ others_untouched w g g'
        /\ GameState.pot g' = 0)
  /\ cards g' = cards g.
Proof.
  assert (Haward : forall w p, GameState.players g !! w = Some p ->
            Player.has_folded p = false ->
            exists w0 p0,
              GameState.players g !! w0 = Some p0
              /\ Player.has_folded p0 = false
              /\ GameState.players (award_pot w g) !! w0
                 = Some (Player.set_credits (Player.credits p0 + GameState.pot g) p0)
              /\ others_untouched w0 g (award_pot w g)
              /\ GameState.pot (award_pot w g) = 0).
  { intros w p Hp Hf. exists w, p. split; [exact Hp|]. split; [exact Hf|].
    unfold award_pot, update_player. cbn. split; [|split; [|reflexivity]].
    - rewrite list_lookup_alter_eq, Hp. reflexivity.
    - intros q Hq. cbn. now rewrite list_lookup_alter_ne by congruence. }
  assert (Hcards : forall w g0, cards (award_pot w g0) = cards g0).
  { intros w g0. unfold cards, award_pot, update_player. cbn.
    now rewrite (map_alter_same Player.hand) by reflexivity. }
  unfold _do_showdown.
  destruct (get_active_seats g) as [|sp [|sp2 rest]] eqn:Ea.
  - intros [= <-]. split; [left; split; reflexivity | reflexivity].
  - intros [= <-]. split; [right|apply Hcards].
    assert (Hin : In sp (get_active_seats g)) by (rewrite Ea; now left).
    apply in_active_seats in Hin as [Hl Hf]. eapply Haward; eauto.
  - destruct (evaluate_hands _); cbn [bind]; [|discriminate].
    destruct (determine_winner g) as [[w g1]|e] eqn:Hw; cbn [bind]; [|discriminate].
    apply determine_winner_seat in Hw as ([info ->] & Hseat).
    destruct w as [w|].
    + destruct (calculate_hand_value _); cbn [bind]; [|discriminate].
      intros [= <-]. split; [right|now rewrite Hcards].
      destruct (Hseat w eq_refl) as (p & Hp & Hf).
      destruct (Haward w p Hp Hf) as (w0 & p0 & H1 & H2 & H3 & H4 & H5).
      exists w0, p0. repeat split; assumption.
    + intros [= <-]. split; [left; split; reflexivity | reflexivity].
Qed.

Lemma do_showdown_pays_one_seat_witness :
  GameState.pot after_showdown = GameState.pot seat_0_folded
  \/ exists w p,
       GameState.players seat_0_folded !! w = Some p
       /\ GameState.players after_showdown !! w
          = Some (Player.set_credits (Player.credits p + GameState.pot seat_0_folded) p).
Proof.
  destruct (do_showdown_pays_one_seat seat_0_folded after_showdown) as [[[_ H]|H] _].
  - vm_compute. reflexivity.
  - left. exact H.
  - right. destruct H as (w & p & H1 & _ & H2 & _). exists w, p. split; assumption.
Defined.

(** The seats the loop visits from [i] on, in [fuel] iterations. *)
Lemma betting_loop_in_turn (env : Env) (ha : ActionSource) (ai : option ActionSource)
    (fuel : nat) (i : nat) (asked asked' : list nat) (g g' : GameState.t) :
  betting_loop env ha ai fuel i asked g = Ok (asked', g') ->
  exists more,
    asked' = asked ++ more
    /\ sublist more (map (fun k => ((i + k) mod length (GameState.players g))%nat)
                         (seq 0 fuel)).
Proof.
  revert i asked g. induction fuel as [|fuel IH]; intros i asked g; cbn [betting_loop].
  - intros [= <- <-]. exists []. rewrite app_nil_r. split; [reflexivity|constructor].
  - destruct (is_betting_round_complete g).
    { intros [= <- <-]. exists []. rewrite app_nil_r.
      split; [reflexivity|apply sublist_nil_l]. }
    unfold with_player. destruct (GameState.players g !! i) as [p|] eqn:Hp; [|discriminate].
    pose proof (lookup_lt_Some _ _ _ Hp) as Hi.
    set (n := length (GameState.players g)) in *.
    assert (Hshift : forall g1, length (GameState.players g1) = n ->
              map (fun k => (((i + 1) mod n + k) mod length (GameState.players g1))%nat)
                  (seq 0 fuel)
              = map (fun k => ((i + k) mod n)%nat) (seq 1 fuel)).
    { intros g1 ->. rewrite <- (fmap_add_seq 1 0). cbn [Nat.add].
      rewrite <- list_fmap_compose. apply list_fmap_ext. intros _ k _. cbn.
      rewrite Nat.Div0.add_mod_idemp_l. f_equal. lia. }
    assert (Hhead : ((i + 0) mod n)%nat = i)
      by (rewrite Nat.add_0_r; now apply Nat.mod_small).
    cbn [seq map]. rewrite Hhead.
    destruct (negb _ && _).
    + destruct (execute_player_turn _ _ _ _) as [[b g1]|e] eqn:Ht; cbn [bind];
        [|discriminate].
      apply settles_execute_player_turn in Ht as [(Hl & _) _].
      intros H. apply IH in H as (more & -> & Hsub).
      exists (i :: more). rewrite <- app_assoc. split; [reflexivity|].
      apply sublist_skip. rewrite (Hshift g1 Hl) in Hsub. exact Hsub.
    + cbn [bind]. intros H. apply IH in H as (more & -> & Hsub).
      exists more. split; [reflexivity|].
      apply sublist_cons. rewrite (Hshift g eq_refl) in Hsub. exact Hsub.
Qed.

(** X18.  A betting round asks the seats in turn and always ends.  The seats
    asked for an action form, in order, a selection from the seats visited
    clockwise from the seat left of the button, ten times round the table
    at most: no seat outside the table is asked, nobody is asked out of
    turn, and after [10 * n] visits the round is over whether or not the
    bets are settled.  With no seat at the table the round stops with
    [ZeroDivisionError]. *)
Theorem run_betting_round_asks_in_turn (env : Env) (human_action : ActionSource)
    (get_ai_action_func : option ActionSource) (g : GameState.t) :
  let n := length (GameState.players g) in
  (n = 0%nat ->
   run_betting_round env human_action get_ai_action_func g = Raise ZeroDivisionError)
  /\ forall asked g',
       run_betting_round env human_action get_ai_action_func g = Ok (asked, g') ->
       sublist asked
         (map (fun k => ((GameState.dealer_index g + 1 + k) mod n)%nat) (seq 0 (10 * n)))
       /\ (length asked <= 10 * n)%nat
       /\ Forall (fun s => (s < n)%nat) asked
       /\ length (GameState.players g') = n.
Proof.
  intros n. unfold run_betting_round. fold n. split.
  - intros ->. reflexivity.
  - intros asked g'. destruct (Nat.eqb_spec n 0) as [|Hn]; [discriminate|].
    intros H. pose proof (settles_betting_loop _ _ _ _ _ _ _ _ _ H) as [(Hl & _) _].
    apply betting_loop_in_turn in H as (more & -> & Hsub). cbn [app] in *.
    fold n in Hsub. rewrite Nat.mul_comm in Hsub.
    assert (E : map (fun k => (((GameState.dealer_index g + 1) mod n + k) mod n)%nat)
                    (seq 0 (10 * n))
                = map (fun k => ((GameState.dealer_index g + 1 + k) mod n)%nat)
                    (seq 0 (10 * n))).
    { apply list_fmap_ext. intros _ k _. now rewrite Nat.Div0.add_mod_idemp_l. }
    rewrite E in Hsub. split; [exact Hsub|]. split; [|split; [|exact Hl]].
    + apply sublist_length in Hsub. now rewrite length_map, length_seq in Hsub.
    + apply Forall_forall. intros s Hs.
      assert (Hin : s ∈ map (fun k => ((GameState.dealer_index g + 1 + k) mod n)%nat)
                          (seq 0 (10 * n))).
      { eapply sublist_submseteq in Hsub. eapply elem_of_submseteq; eauto. }
      apply list_elem_of_fmap in Hin as (k & -> & _).
      apply Nat.mod_upper_bound. exact Hn.
Qed.

Example first_round_called_ok :
  run_betting_round quiet_env always_call None the_dealt_table
  = Ok ([1; 2; 0]%nat, after_first_round_called).
Proof. vm_compute. reflexivity. Qed.

Lemma run_betting_round_asks_in_turn_witness :
  sublist [1; 2; 0]%nat
    (map (fun k => ((GameState.dealer_index the_dealt_table + 1 + k)
                    mod length (GameState.players the_dealt_table))%nat)
         (seq 0 (10 * length (GameState.players the_dealt_table)))).
Proof.
  destruct (run_betting_round_asks_in_turn quiet_env always_call None the_dealt_table)
    as [_ H].
  destruct (H [1; 2; 0]%nat after_first_round_called first_round_called_ok) as [Hs _].
  exact Hs.
Defined.

(** ** The blinds *)

Lemma blind_seats_differ (d n : nat) :
  (2 <= n)%nat -> ((d + 1) mod n)%nat <> ((d + 2) mod n)%nat.
Proof.
  intros Hn E.
  assert (H : (((d + 1) mod n + 1) mod n)%nat = ((d + 2) mod n)%nat).
  { rewrite Nat.Div0.add_mod_idemp_l. f_equal. lia. }
  rewrite <- E in H.
  pose proof (Nat.mod_upper_bound (d + 1) n ltac:(lia)) as Hx.
  set (x := ((d + 1) mod n)%nat) in *.
  destruct (Nat.eq_dec (x + 1)%nat n) as [En|En].
  - rewrite En, Nat.Div0.mod_same in H. lia.
  - rewrite Nat.mod_small in H by lia. lia.
Qed.

Lemma posted_all (p : Player.t) :
  Player.set_credits 0 (Player.set_current_bet (Player.credits p) p)
  = Player.set_current_bet (Player.credits p)
      (Player.set_credits (Player.credits p - Player.credits p) p).
Proof. destruct p. cbn. now rewrite Z.sub_diag. Qed.

(** X19.  The blinds, at a table of two seats or more.  The seat left of the
    button posts half the stake (rounded down), the next seat the whole
    stake; a seat that cannot afford its blind posts all its credits
    instead.  What a seat posts leaves its credits and becomes its bet; the
    pot grows by both blinds; the table bet becomes what the big blind
    actually posted, also when that is less than the stake or than the small
    blind; nothing else changes. *)
Theorem collect_blinds_posts (g : GameState.t) (ps pb : Player.t) :
  let n := length (GameState.players g) in
  let sb := ((GameState.dealer_index g + 1) mod n)%nat in
  let bb := ((GameState.dealer_index g + 2) mod n)%nat in
  (2 <= n)%nat ->
  GameState.players g !! sb = Some ps ->
  GameState.players g !! bb = Some pb ->
  let small := Z.min (GameState.min_bet g / 2) (Player.credits ps) in
  let big := Z.min (GameState.min_bet g) (Player.credits pb) in
  exists g',
    collect_blinds g = Ok g'
    /\ sb <> bb
    /\ GameState.players g' !! sb
       = Some (Player.set_current_bet small
                 (Player.set_credits (Player.credits ps - small) ps))
    /\ GameState.players g' !! bb
       = Some (Player.set_current_bet big
                 (Player.set_credits (Player.credits pb - big) pb))
    /\ (forall q, q <> sb -> q <> bb ->
          GameState.players g' !! q = GameState.players g !! q)
    /\ GameState.pot g' = GameState.pot g + small + big
    /\ GameState.current_bet g' = big
    /\ cards g' = cards g.
Proof.
  intros n sb bb Hn Hs Hb small big.
  pose proof (blind_seats_differ (GameState.dealer_index g) n Hn) as Hne.
  fold sb bb in Hne.
  unfold collect_blinds. fold n.
  destruct (Nat.eqb_spec n 0) as [|_]; [lia|].
  fold sb. unfold with_player at 1. rewrite Hs. cbn [bind].
  assert (Hcards : forall f s g0, (forall p0, Player.hand (f p0) = Player.hand p0) ->
            map Player.hand (GameState.players (update_player s f g0))
            = map Player.hand (GameState.players g0)).
  { intros f s g0 Hf. unfold update_player. cbn. now rewrite (map_alter_same Player.hand). }
  destruct (Z.leb_spec (GameState.min_bet g / 2) (Player.credits ps)) as [Hsl|Hsl];
    cbn [bind];
    cbn [GameState.dealer_index GameState.min_bet GameState.set_pot update_player
         GameState.set_players];
    fold bb; unfold with_player;
    cbn [GameState.players GameState.set_pot update_player GameState.set_players];
    rewrite ?list_lookup_alter_ne by congruence; rewrite Hb;
    (destruct (Z.leb_spec (GameState.min_bet g) (Player.credits pb)) as [Hbl|Hbl]);
    (eexists; split; [reflexivity|]); (split; [exact Hne|]);
    cbn [GameState.players GameState.set_pot update_player GameState.set_players
         GameState.set_current_bet GameState.pot GameState.current_bet];
    (split; [rewrite ?list_lookup_alter_ne by congruence;
             rewrite ?list_lookup_alter_eq, Hs; cbn [fmap option_fmap option_map];
             subst small;
             first [rewrite Z.min_l by lia; reflexivity
                   |rewrite Z.min_r by lia; now rewrite <- posted_all]|]);
    (split; [rewrite ?list_lookup_alter_eq;
             rewrite ?list_lookup_alter_ne by congruence;
             rewrite ?list_lookup_alter_eq, Hb; cbn [fmap option_fmap option_map];
             subst big;
             first [rewrite Z.min_l by lia; reflexivity
                   |rewrite Z.min_r by lia; now rewrite <- posted_all]|]);
    (split; [intros q Hq1 Hq2; now rewrite ?list_lookup_alter_ne by congruence|]);
    (split; [subst small big; lia|]);
    (split; [subst big; lia|]);
    unfold cards; cbn; now rewrite ?(map_alter_same Player.hand) by reflexivity.
Qed.

Lemma collect_blinds_posts_witness :
  exists g',
    collect_blinds poor_blind_table = Ok g'
    /\ GameState.pot g' = 0 + Z.min (4 / 2) 1 + Z.min 4 500
    /\ GameState.current_bet g' = Z.min 4 500.
Proof.
  destruct (collect_blinds_posts poor_blind_table
              (Player.init "Lando" 1 false) (Player.init "Chewie" 500 false))
    as (g' & H & _ & _ & _ & _ & Hpot & Hbet & _).
  - cbn. lia.
  - reflexivity.
  - reflexivity.
  - exists g'. split; [exact H|]. split; [exact Hpot | exact Hbet].
Defined.

(** ** Distances *)

Lemma dist_ltb_leb_trans (a b c : dist) :
  dist_ltb a b = true -> dist_leb b c = true -> dist_ltb a c = true.
Proof.
  unfold dist_leb. destruct a, b, c; cbn;
    rewrite ?negb_true_iff, ?Z.ltb_lt, ?Z.ltb_ge; try congruence; lia.
Qed.

Lemma dist_leb_ltb_trans (a b c : dist) :
  dist_leb a b = true -> dist_ltb b c = true -> dist_ltb a c = true.
Proof.
  unfold dist_leb. destruct a, b, c; cbn;
    rewrite ?negb_true_iff, ?Z.ltb_lt, ?Z.ltb_ge; try congruence; lia.
Qed.

Lemma dist_leb_trans (a b c : dist) :
  dist_leb a b = true -> dist_leb b c = true -> dist_leb a c = true.
Proof.
  unfold dist_leb. destruct a, b, c; cbn;
    rewrite ?negb_true_iff, ?Z.ltb_lt, ?Z.ltb_ge; try congruence; lia.
Qed.

Lemma dist_leb_refl (a : dist) : dist_leb a a = true.
Proof.
  unfold dist_leb. destruct a; cbn; rewrite ?negb_true_iff, ?Z.ltb_ge; [lia|reflexivity].
Qed.

Lemma dist_ltb_leb (a b : dist) : dist_ltb a b = true -> dist_leb a b = true.
Proof.
  unfold dist_leb. destruct a, b; cbn;
    rewrite ?negb_true_iff, ?Z.ltb_lt, ?Z.ltb_ge; try congruence; lia.
Qed.

Lemma dist_not_ltb (a b : dist) : dist_ltb a b = false -> dist_leb b a = true.
Proof. unfold dist_leb. now intros ->. Qed.

Lemma dist_leb_not_ltb (a b : dist) : dist_leb a b = true -> dist_ltb b a = false.
Proof. unfold dist_leb. now rewrite negb_true_iff. Qed.

(** ** [find_worst_card_to_discard] *)

Lemma test_hand_delete (hand : list Card) (i : nat) :
  take i hand ++ drop (S i) hand = delete i hand.
Proof. symmetry. apply delete_take_drop. Qed.

Lemma test_hand_not_empty (hand : list Card) (i : nat) :
  (2 <= length hand)%nat -> Nat.eqb (length (take i hand ++ drop (S i) hand)) 0 = false.
Proof.
  intros H. apply Nat.eqb_neq. rewrite length_app, length_take, length_drop. lia.
Qed.

Lemma worst_card_scan_best (hand : list Card) (indices : list nat) :
  (2 <= length hand)%nat ->
  forall (b : option nat) (bd : dist) (r : option nat),
  worst_card_scan hand indices b bd = Ok r ->
  exists fd,
    dist_leb fd bd = true
    /\ (forall j, In j indices ->
          exists dj, hand_distance (delete j hand) = Ok dj /\ dist_leb fd dj = true)
    /\ ((r = b /\ fd = bd)
        \/ exists i pre post,
             r = Some i /\ indices = pre ++ i :: post
             /\ hand_distance (delete i hand) = Ok fd
             /\ dist_ltb fd bd = true
             /\ forall j, In j pre ->
                  exists dj, hand_distance (delete j hand) = Ok dj
                             /\ dist_ltb fd dj = true).
Proof.
  intros Hlen. induction indices as [|i0 rest IH]; intros b bd r; cbn [worst_card_scan].
  - intros [= <-]. exists bd. split; [apply dist_leb_refl|].
    split; [intros j []|]. now left.
  - rewrite test_hand_not_empty by exact Hlen. rewrite test_hand_delete.
    destruct (hand_distance (delete i0 hand)) as [d0|e] eqn:Hd; cbn [bind]; [|discriminate].
    destruct (dist_ltb d0 bd) eqn:Hlt; intros H; apply IH in H as (fd & Hle & Hall & Hwho).
    + exists fd. split; [|split].
      * apply dist_ltb_leb. eapply dist_leb_ltb_trans; eauto.
      * intros j [<-|Hj]; [exists d0; split; [exact Hd | exact Hle] | now apply Hall].
      * right. destruct Hwho as [[-> ->]|(i & pre & post & -> & -> & Hi & Hlt' & Hpre)].
        -- exists i0, [], rest. repeat split; try assumption. intros j [].
        -- exists i, (i0 :: pre), post. repeat split; try assumption.
           ++ eapply dist_ltb_leb_trans; [exact Hlt'|]. now apply dist_ltb_leb.
           ++ intros j [<-|Hj]; [exists d0; split; [exact Hd | exact Hlt'] | now apply Hpre].
    + apply dist_not_ltb in Hlt. exists fd. split; [exact Hle|]. split.
      * intros j [<-|Hj]; [|now apply Hall].
        exists d0. split; [exact Hd|]. eapply dist_leb_trans; eauto.
      * destruct Hwho as [[-> ->]|(i & pre & post & -> & -> & Hi & Hlt' & Hpre)];
          [now left|right].
        exists i, (i0 :: pre), post. repeat split; try assumption.
        intros j [<-|Hj]; [|now apply Hpre].
        exists d0. split; [exact Hd|]. eapply dist_ltb_leb_trans; eauto.
Qed.

Lemma seq_split_at (n i : nat) (pre post : list nat) :
  seq 0 n = pre ++ i :: post -> pre = seq 0 i /\ (i < n)%nat.
Proof.
  intros E.
  assert (Hl : length pre = i).
  { assert (H : seq 0 n !! length pre = Some i)
      by (rewrite E; apply list_lookup_middle; reflexivity).
    apply lookup_seq in H. lia. }
  assert (Hn : (i < n)%nat).
  { apply (f_equal length) in E. rewrite length_seq, length_app in E. cbn in E. lia. }
  split; [|exact Hn].
  apply (f_equal (take i)) in E. rewrite <- Hl in E at 2. rewrite take_app_length in E.
  rewrite take_seq in E. rewrite <- E. f_equal. lia.
Qed.

(** X20.  [find_worst_card_to_discard] finds the best single discard.  For a
    hand that can be scored it returns [None] when the hand has fewer than
    two cards or when no discard brings the hand strictly nearer to 23 (a
    busted hand counting as infinitely far); otherwise it returns the first
    index whose removal leaves the hand nearest to 23: removing it is
    strictly better than keeping the hand, at least as good as removing any
    other card, and strictly better than removing any card before it. *)
Theorem find_worst_card_to_discard_best (hand : list Card) (r : option nat) :
  find_worst_card_to_discard hand = Ok r ->
  exists d0,
    hand_distance hand = Ok d0
    /\ match r with
       | None =>
           (length hand < 2)%nat
           \/ forall j, (j < length hand)%nat ->
                exists dj, hand_distance (delete j hand) = Ok dj
                           /\ dist_ltb dj d0 = false
       | Some i =>
           (i < length hand)%nat /\ (2 <= length hand)%nat
           /\ exists di,
                hand_distance (delete i hand) = Ok di
                /\ dist_ltb di d0 = true
                /\ forall j, (j < length hand)%nat ->
                     exists dj, hand_distance (delete j hand) = Ok dj
                                /\ dist_ltb dj di = false
                                /\ ((j < i)%nat -> dist_ltb di dj = true)
       end.
Proof.
  unfold find_worst_card_to_discard.
  destruct (hand_distance hand) as [d0|e] eqn:Hd; cbn [bind]; [|discriminate].
  intros H. exists d0. split; [reflexivity|].
  destruct (le_lt_dec 2 (length hand)) as [Hlen|Hlen].
  - apply (worst_card_scan_best hand _ Hlen) in H as (fd & Hle & Hall & Hwho).
    destruct Hwho as [[-> ->]|(i & pre & post & -> & Hseq & Hi & Hlt & Hpre)].
    + right. intros j Hj. destruct (Hall j) as (dj & Hdj & Hle').
      { apply in_seq. lia. }
      exists dj. split; [exact Hdj|]. now apply dist_leb_not_ltb.
    + apply seq_split_at in Hseq as [-> Hin].
      split; [exact Hin|]. split; [exact Hlen|].
      exists fd. split; [exact Hi|]. split; [exact Hlt|].
      intros j Hj. destruct (Hall j) as (dj & Hdj & Hle'); [apply in_seq; lia|].
      exists dj. split; [exact Hdj|]. split; [now apply dist_leb_not_ltb|].
      intros Hji. destruct (Hpre j) as (dj' & Hdj' & Hlt'); [apply in_seq; lia|].
      congruence.
  - destruct hand as [|c [|c2 rest]]; cbn [length] in Hlen; try lia.
    + cbn in H. injection H as <-. left. cbn. lia.
    + cbn in H. injection H as <-. left. cbn. lia.
Qed.

Lemma find_worst_card_to_discard_best_witness :
  exists di,
    hand_distance (delete 1%nat [("K","S"); ("10","W"); ("5","C")]) = Ok di
    /\ dist_ltb di Inf = true.
Proof.
  destruct (find_worst_card_to_discard_best
              [("K","S"); ("10","W"); ("5","C")] (Some 1%nat) eq_refl)
    as (d0 & Hd0 & _ & _ & di & Hdi & Hlt & _).
  assert (E : d0 = Inf) by (vm_compute in Hd0; congruence).
  subst d0. exists di. split; [exact Hdi | exact Hlt].
Defined.

(** ** [choose_wheel_of_fortune_cards] *)

Lemma wheel_scan_best (cur : list Card) (cands : list (list Card)) :
  forall (best : list Card) (bd : dist) (kept : list Card) (fd : dist),
  wheel_scan cur cands best bd = Ok (kept, fd) ->
  dist_leb fd bd = true
  /\ (forall s, In s cands ->
        exists ds, hand_distance (cur ++ s) = Ok ds /\ dist_leb fd ds = true)
  /\ ((kept = best /\ fd = bd)
      \/ (In kept cands /\ hand_distance (cur ++ kept) = Ok fd
          /\ dist_ltb fd bd = true)).
Proof.
  induction cands as [|c cs IH]; intros best bd kept fd; cbn [wheel_scan].
  - intros [= <- <-]. split; [apply dist_leb_refl|]. split; [intros s []|now left].
  - destruct (hand_distance (cur ++ c)) as [td|e] eqn:Hd; cbn [bind]; [|discriminate].
    destruct (dist_ltb td bd) eqn:Hlt; intros H; apply IH in H as (Hle & Hall & Hwho).
    + split; [|split].
      * apply dist_ltb_leb. eapply dist_leb_ltb_trans; eauto.
      * intros s [<-|Hs]; [exists td; split; [exact Hd | exact Hle] | now apply Hall].
      * right. destruct Hwho as [[-> ->]|(Hin & Hk & Hlt')].
        -- split; [now left|]. split; assumption.
        -- split; [now right|]. split; [exact Hk|].
           eapply dist_ltb_leb_trans; [exact Hlt'|]. now apply dist_ltb_leb.
    + apply dist_not_ltb in Hlt. split; [exact Hle|]. split.
      * intros s [<-|Hs]; [|now apply Hall].
        exists td. split; [exact Hd|]. eapply dist_leb_trans; eauto.
      * destruct Hwho as [[-> ->]|(Hin & Hk & Hlt')]; [now left|right].
        split; [now right|]. split; assumption.
Qed.

Lemma sublist_combinations {A : Type} (s l : list A) :
  s `sublist_of` l -> In s (combinations l (length s)).
Proof.
  induction 1 as [|x s l _ IH|x s l _ IH]; cbn [length].
  - now left.
  - cbn [combinations]. apply in_or_app. left. now apply in_map.
  - destruct s as [|y s]; cbn [length combinations] in *; [now left|].
    apply in_or_app. right. exact IH.
Qed.

(** X21.  [choose_wheel_of_fortune_cards] keeps the best selection.  For hands
    that can be scored, the cards kept are a selection of the drawn cards,
    in their order; with them the hand is at least as near to 23 as without
    any of them (strictly nearer when something is kept), and at least as
    near as with any other selection of the drawn cards, a busted hand
    counting as infinitely far. *)
Theorem choose_wheel_of_fortune_cards_best (current_hand drawn_cards kept : list Card) :
  choose_wheel_of_fortune_cards current_hand drawn_cards = Ok kept ->
  kept `sublist_of` drawn_cards
  /\ exists d0 dk,
       hand_distance current_hand = Ok d0
       /\ hand_distance (current_hand ++ kept) = Ok dk
       /\ dist_ltb d0 dk = false
       /\ (kept <> [] -> dist_ltb dk d0 = true)
       /\ forall s, s `sublist_of` drawn_cards ->
            exists ds, hand_distance (current_hand ++ s) = Ok ds
                       /\ dist_ltb ds dk = false.
Proof.
  intros H. split; [eapply choose_wheel_sublist; eauto|].
  unfold choose_wheel_of_fortune_cards in H.
  destruct (hand_distance current_hand) as [d0|e] eqn:Hd; cbn [bind] in H; [|discriminate].
  destruct (wheel_scan _ _ _ _) as [[k fd]|e] eqn:Hs; cbn [bind] in H; [|discriminate].
  injection H as <-.
  apply wheel_scan_best in Hs as (Hle & Hall & Hwho).
  exists d0, fd. split; [reflexivity|].
  assert (Hk : hand_distance (current_hand ++ k) = Ok fd).
  { destruct Hwho as [[-> ->]|(_ & Hk & _)]; [now rewrite app_nil_r | exact Hk]. }
  split; [exact Hk|]. split; [now apply dist_leb_not_ltb|]. split.
  - intros Hne. destruct Hwho as [[-> _]|(_ & _ & Hlt)]; [congruence | exact Hlt].
  - intros s Hsub. destruct (Hall s) as (ds & Hds & Hle').
    + apply in_concat. exists (combinations drawn_cards (length s)). split.
      * apply in_map, in_seq. apply sublist_length in Hsub. lia.
      * now apply sublist_combinations.
    + exists ds. split; [exact Hds|]. now apply dist_leb_not_ltb.
Qed.

Lemma choose_wheel_of_fortune_cards_best_witness :
  [("9","W")] `sublist_of` [("5","C"); ("9","W"); ("2","T"); ("K","W")].
Proof.
  apply (choose_wheel_of_fortune_cards_best
           [("K","S")] [("5","C"); ("9","W"); ("2","T"); ("K","W")] [("9","W")]).
  vm_compute. reflexivity.
Defined.

(** ** The registry of trump effects *)

Lemma dict_get_In {V : Type} (d : list (Z * V)) (k : Z) (v : V) :
  dict_get d k = Some v -> In (k, v) d.
Proof.
  induction d as [|[k' v'] d IH]; cbn; [discriminate|].
  destruct (Z.eqb_spec k' k) as [->|_]; [intros [= ->]; now left | auto].
Qed.

Lemma TRIONFI_CARDS_numbers (k : Z) (t : TrionfiEffect.t) :
  In (k, t) TRIONFI_CARDS -> TrionfiEffect.number t = k /\ 0 <= k <= 21.
Proof.
  unfold TRIONFI_CARDS. cbn [In].
  intros H. repeat (destruct H as [H|H]; [injection H as <- <-; cbn; lia|]).
  destruct H.
Qed.

Lemma deck_trionfi_round_trip :
  forallb trionfi_round_trip _generate_deck = true.
Proof. vm_compute. reflexivity. Qed.

(** X22.  The registry of trump effects agrees with the deck.  A card has an
    entry only if its suit is the trump suit and its rank reads as a number
    from 0 to 21, which is the number of the entry.  Every trump of the deck
    has an entry, and the card rebuilt from the number of the entry (the
    card that [apply_effect] moves to the removed pile) is the card itself;
    no suit card of the deck has one. *)
Theorem get_trionfi_effect_round_trip (c : Card) :
  (forall t, get_trionfi_effect c = Some t ->
     c.2 = "T" /\ py_int c.1 = Some (TrionfiEffect.number t)
     /\ 0 <= TrionfiEffect.number t <= 21)
  /\ (c.2 <> "T" -> get_trionfi_effect c = None)
  /\ (In c _generate_deck -> c.2 = "T" ->
      exists t, get_trionfi_effect c = Some t
                /\ trionfi_card (TrionfiEffect.number t) = c).
Proof.
  destruct c as [rank suit]. unfold get_trionfi_effect. cbn [fst snd].
  split; [|split].
  - intros t. destruct (String.eqb_spec suit "T") as [->|_]; [|discriminate].
    destruct (py_int rank) as [n|]; [|discriminate].
    intros H. apply dict_get_In, TRIONFI_CARDS_numbers in H as [-> H].
    split; [reflexivity|]. split; [reflexivity | exact H].
  - intros Hs. destruct (String.eqb_spec suit "T"); [contradiction | reflexivity].
  - intros Hin ->.
    pose proof deck_trionfi_round_trip as E. rewrite forallb_forall in E.
    apply E in Hin. unfold trionfi_round_trip, get_trionfi_effect in Hin.
    cbn [fst snd] in *. rewrite String.eqb_refl in *.
    destruct (py_int rank) as [n|]; [|discriminate].
    destruct (dict_get TRIONFI_CARDS n) as [t|]; [|discriminate].
    exists t. split; [reflexivity|]. cbn [andb] in Hin.
    now destruct (card_eqb_spec (trionfi_card (TrionfiEffect.number t)) (rank, "T")).
Qed.

Lemma get_trionfi_effect_round_trip_witness :
  exists t, get_trionfi_effect ("18","T") = Some t
            /\ trionfi_card (TrionfiEffect.number t) = ("18","T").
Proof.
  apply (get_trionfi_effect_round_trip ("18","T")).
  - vm_compute. tauto.
  - reflexivity.
Defined.

(** ** The Magician *)

Lemma nodup_nat_NoDup (l : list nat) : nodup_nat l = true -> NoDup l.
Proof.
  unfold nodup_nat. intros H. apply Nat.eqb_eq in H.
  assert (Hp : remove_dups l ≡ₚ l).
  { apply submseteq_length_Permutation; [|lia].
    apply NoDup_submseteq; [apply NoDup_remove_dups|].
    intros x. now rewrite elem_of_remove_dups. }
  rewrite <- Hp. apply NoDup_remove_dups.
Qed.

Lemma omap_lookup_seq {A : Type} (l pre : list A) :
  omap (fun i => (pre ++ l) !! i) (seq (length pre) (length l)) = l.
Proof.
  revert pre. induction l as [|x l IH]; intros pre; [reflexivity|].
  cbn [length seq omap list_omap].
  rewrite list_lookup_middle by reflexivity.
  f_equal. specialize (IH (pre ++ [x])).
  rewrite <- app_assoc, length_app in IH. cbn [app length] in IH.
  rewrite Nat.add_1_r in IH. exact IH.
Qed.

Lemma omap_lookup_Permutation {A : Type} (l : list A) (order : list nat) :
  length order = length l ->
  forallb (fun x => Nat.ltb x (length l)) order = true ->
  NoDup order ->
  omap (fun i => l !! i) order ≡ₚ l.
Proof.
  intros Hlen Hlt Hnd.
  assert (Hp : order ≡ₚ seq 0 (length l)).
  { apply submseteq_length_Permutation; [|rewrite length_seq; lia].
    apply NoDup_submseteq; [exact Hnd|].
    intros x Hx. rewrite forallb_forall in Hlt.
    apply list_elem_of_In, Hlt, Nat.ltb_lt in Hx.
    apply elem_of_seq. lia. }
  rewrite Hp. pose proof (omap_lookup_seq l []) as E. cbn [app length] in E.
  now rewrite E.
Qed.

(** X23.  The Magician, played by a human seat.  With fewer than four cards in
    the draw pile nothing happens.  Otherwise the top four cards are put
    back in the order asked for: the draw pile holds the same cards as
    before, the cards below the top four are in their old order, and
    nothing else (hands, other piles, chips) changes; no answer to the
    prompt can remove, add or double a card. *)
Theorem magician_effect_rearranges_top_four (env : Env) (seat : nat)
    (g g' : GameState.t) (p : Player.t) :
  GameState.players g !! seat = Some p ->
  Player.is_human p = true ->
  magician_effect env seat g = Ok g' ->
  ((length (GameState.draw_pile g) < 4)%nat -> g' = g)
  /\ take 4 (GameState.draw_pile g') ≡ₚ take 4 (GameState.draw_pile g)
  /\ drop 4 (GameState.draw_pile g') = drop 4 (GameState.draw_pile g)
  /\ GameState.draw_pile g' ≡ₚ GameState.draw_pile g
  /\ GameState.players g' = GameState.players g
  /\ GameState.discard_pile g' = GameState.discard_pile g
  /\ GameState.community_cards g' = GameState.community_cards g
  /\ GameState.removed_pile g' = GameState.removed_pile g
  /\ money g' = money g.
Proof.
  intros Hp Hh. unfold magician_effect.
  destruct (Z.ltb_spec (len (GameState.draw_pile g)) 4) as [Hlt|Hge].
  - intros [= <-]. repeat split; reflexivity.
  - unfold with_player. cbn [GameState.players GameState.set_draw_pile].
    rewrite Hp, Hh.
    set (d := GameState.draw_pile g) in *.
    set (order := magician_prompt env _ seat (take 4 d)).
    destruct (Nat.eqb_spec (length order) 4) as [Hl|]; cbn [andb]; [|discriminate].
    destruct (forallb (fun x => Nat.ltb x 4) order) eqn:Hb; cbn [andb]; [|discriminate].
    destruct (nodup_nat order) eqn:Hn; [|discriminate].
    intros [= <-]. cbn [GameState.draw_pile GameState.set_draw_pile GameState.players
                        GameState.discard_pile GameState.community_cards
                        GameState.removed_pile].
    assert (Hl4 : length (take 4 d) = 4%nat)
      by (rewrite length_take; unfold len in Hge; lia).
    assert (Hperm : omap (fun i => take 4 d !! i) order ≡ₚ take 4 d).
    { apply omap_lookup_Permutation; [lia | now rewrite Hl4 | now apply nodup_nat_NoDup]. }
    assert (Hlen : length (omap (fun i => take 4 d !! i) order) = 4%nat)
      by (rewrite Hperm; exact Hl4).
    split; [unfold len in Hge; lia|].
    split; [rewrite <- Hlen at 1; now rewrite take_app_length|].
    split; [rewrite <- Hlen at 1; now rewrite drop_app_length|].
    split; [rewrite Hperm; now rewrite take_drop|].
    repeat split.
Qed.

Lemma magician_effect_rearranges_top_four_witness :
  exists g',
    magician_effect magician_env 0 the_dealt_table = Ok g'
    /\ GameState.draw_pile g' ≡ₚ GameState.draw_pile the_dealt_table.
Proof.
  destruct (magician_effect magician_env 0 the_dealt_table) as [g'|e] eqn:E;
    [|vm_compute in E; discriminate].
  exists g'. split; [reflexivity|].
  apply (magician_effect_rearranges_top_four magician_env 0 the_dealt_table g'
           (Player.mk "Han" 500 true [("8","T"); ("9","T")] 0 false false false false)
           eq_refl eq_refl E).
Defined.

(** ** The Devil at the start of a turn *)

Lemma list_remove_Permutation (c : Card) (l h : list Card) :
  list_remove c l = Ok h -> l ≡ₚ c :: h.
Proof.
  revert h. induction l as [|x l IH]; intros h; cbn [list_remove]; [discriminate|].
  destruct (card_eqb_spec x c) as [->|_].
  - now intros [= <-].
  - destruct (list_remove c l) as [h'|e]; cbn [bind]; [|discriminate].
    intros [= <-]. rewrite (IH h' eq_refl). apply Permutation_swap.
Qed.

Lemma in_other_active_seats_iff (seat q : nat) (g : GameState.t) :
  In q (other_active_seats seat g) <->
  q <> seat /\ exists p, GameState.players g !! q = Some p /\ Player.has_folded p = false.
Proof.
  unfold other_active_seats, seats_of. rewrite filter_In, in_seq. split.
  - intros [_ H]. destruct (GameState.players g !! q) as [p|]; [|discriminate].
    apply andb_prop in H as [H1 H2]. split.
    + now apply negb_true_iff, Nat.eqb_neq in H1.
    + exists p. split; [reflexivity|]. now apply negb_true_iff in H2.
  - intros [Hne (p & Hp & Hf)]. split.
    + apply lookup_lt_Some in Hp. lia.
    + rewrite Hp, Hf. cbn. rewrite andb_true_r. now apply negb_true_iff, Nat.eqb_neq.
Qed.

(** X24.  Giving the Devil away at the start of a turn.  When
    [handle_devil_card] returns, either nothing has changed (the holder
    keeps the card, or nobody else is left in the hand), or one copy of the
    Devil has left the holder's hand for the end of the hand of another
    seat that has not folded: never the holder itself, never a folded seat;
    every other seat, the piles and the chips are untouched. *)
Theorem handle_devil_card_gives_to_active_seat (env : Env) (seat : nat)
    (g g' : GameState.t) :
  handle_devil_card env seat g = Ok g' ->
  g' = g
  \/ exists target pt,
       target <> seat
       /\ GameState.players g !! target = Some pt
       /\ Player.has_folded pt = false
       /\ hand_of g seat ≡ₚ devil_card :: hand_of g' seat
       /\ GameState.players g' !! target
          = Some (Player.set_hand (Player.hand pt ++ [devil_card]) pt)
       /\ (forall q, q <> seat -> q <> target ->
             GameState.players g' !! q = GameState.players g !! q)
       /\ GameState.draw_pile g' = GameState.draw_pile g
       /\ GameState.discard_pile g' = GameState.discard_pile g
       /\ GameState.community_cards g' = GameState.community_cards g
       /\ GameState.removed_pile g' = GameState.removed_pile g
       /\ money g' = money g.
Proof.
  unfold handle_devil_card.
  destruct (give_away_devil env g seat); [|intros [= <-]; now left].
  destruct (other_active_seats seat g) as [|t0 ts] eqn:Ho; [intros [= <-]; now left|].
  destruct ((t0 :: ts) !! devil_target env g seat (t0 :: ts)) as [target|] eqn:Ht;
    [|discriminate].
  destruct (list_remove devil_card (hand_of g seat)) as [h|e] eqn:Hr;
    cbn [bind]; [|discriminate].
  intros [= <-]. right.
  assert (Hin : In target (other_active_seats seat g)).
  { rewrite Ho. apply list_elem_of_In. eapply list_elem_of_lookup_2; eauto. }
  apply in_other_active_seats_iff in Hin as (Hne & pt & Hpt & Hf).
  exists target, pt. split; [exact Hne|]. split; [exact Hpt|]. split; [exact Hf|].
  assert (Hseat : is_Some (GameState.players g !! seat)).
  { unfold hand_of in Hr. destruct (GameState.players g !! seat); [eauto|discriminate]. }
  destruct Hseat as [ps Hps].
  split.
  { rewrite (list_remove_Permutation _ _ _ Hr). apply Permutation_skip.
    unfold hand_of, hand_append, set_hand_of, update_player. cbn.
    rewrite list_lookup_alter_ne by congruence.
    rewrite list_lookup_alter_eq, Hps. reflexivity. }
  split.
  { unfold hand_append, set_hand_of, update_player. cbn.
    rewrite list_lookup_alter_eq, list_lookup_alter_ne by congruence.
    rewrite Hpt. reflexivity. }
  split.
  { intros q Hq1 Hq2. unfold hand_append, set_hand_of, update_player. cbn.
    now rewrite !list_lookup_alter_ne by congruence. }
  repeat split.
  unfold money, credits_of, hand_append, set_hand_of, update_player. cbn.
  now rewrite !(map_alter_same Player.credits) by reflexivity.
Qed.

Lemma handle_devil_card_gives_to_active_seat_witness :
  exists g',
    handle_devil_card devil_env 0 devil_table = Ok g'
    /\ (g' = devil_table
        \/ exists target pt,
             target <> 0%nat
             /\ GameState.players devil_table !! target = Some pt
             /\ Player.has_folded pt = false).
Proof.
  destruct (handle_devil_card devil_env 0 devil_table) as [g'|e] eqn:E;
    [|vm_compute in E; discriminate].
  exists g'. split; [reflexivity|].
  destruct (handle_devil_card_gives_to_active_seat devil_env 0 devil_table g' E)
    as [H|(target & pt & H1 & H2 & H3 & _)].
  - now left.
  - right. exists target, pt. repeat split; assumption.
Defined.

(** ** The Hanged Man while one seat holds it *)

(** A seat that takes the interrupt ends the scan, whatever seats follow. *)
Lemma hanged_man_scan_fires (env : Env) (acting_player : nat) (number : Z)
    (g : GameState.t) (q : nat) (rest : list nat) :
  interrupts env acting_player number g q = true ->
  hanged_man_scan env acting_player number (q :: rest) g
  = interrupt_by acting_player number q g.
Proof.
  unfold interrupts. cbn [hanged_man_scan]. unfold with_player, interrupt_by, hand_of.
  destruct (GameState.players g !! q) as [p|]; [|discriminate].
  intros H. apply andb_prop in H as [H Hplay]. apply andb_prop in H as [H Hheld].
  apply andb_prop in H as [Hne Hnf]. apply negb_true_iff in Hne, Hnf.
  rewrite Hne, Hnf, Hheld, Hplay. reflexivity.
Qed.

(** When one seat only would take the interrupt, every scan that visits it
    gives the same result, in whatever order it goes round the table. *)
Lemma hanged_man_scan_any_order (env : Env) (acting_player : nat) (number : Z)
    (g : GameState.t) (q : nat) (seats : list nat) :
  (forall q', In q' seats -> (q' < length (GameState.players g))%nat) ->
  (forall q', interrupts env acting_player number g q' = true -> q' = q) ->
  interrupts env acting_player number g q = true ->
  In q seats ->
  hanged_man_scan env acting_player number seats g
  = interrupt_by acting_player number q g.
Proof.
  intros Hlt Huniq Hq. induction seats as [|x seats IH]; intros Hin; [destruct Hin|].
  destruct (Nat.eq_dec x q) as [->|Hx]; [now apply hanged_man_scan_fires|].
  change (x :: seats) with ([x] ++ seats). rewrite hanged_man_scan_skips.
  - apply IH; [intros q' Hq'; apply Hlt; now right|].
    destruct Hin as [Hin|Hin]; [congruence | exact Hin].
  - intros q' [<-|[]]. split; [apply Hlt; now left|].
    destruct (interrupts env acting_player number g x) eqn:E; [|reflexivity].
    apply Huniq in E. congruence.
Qed.

Lemma hanged_man_scan_none (env : Env) (acting_player : nat) (number : Z)
    (g : GameState.t) (seats : list nat) :
  (forall q', In q' seats -> (q' < length (GameState.players g))%nat) ->
  (forall q, interrupts env acting_player number g q = false) ->
  hanged_man_scan env acting_player number seats g = Ok (false, g).
Proof.
  intros Hlt Hnone. rewrite <- (app_nil_r seats).
  rewrite hanged_man_scan_skips; [reflexivity|]. intros q Hq. split; auto.
Qed.

Lemma interrupts_holds (env : Env) (acting_player : nat) (number : Z)
    (g : GameState.t) (q : nat) :
  interrupts env acting_player number g q = true ->
  holds_hanged_man g q = true
  /\ q <> acting_player /\ (q < length (GameState.players g))%nat.
Proof.
  unfold interrupts, holds_hanged_man, hand_of.
  destruct (GameState.players g !! q) as [p|] eqn:Hp; [|discriminate].
  intros H. apply andb_prop in H as [H _]. apply andb_prop in H as [H Hheld].
  apply andb_prop in H as [Hne _]. split; [exact Hheld|]. split.
  - now apply negb_true_iff, Nat.eqb_neq in Hne.
  - apply lookup_lt_is_Some. eauto.
Qed.

Lemma interrupts_or_not (env : Env) (acting_player : nat) (number : Z) (g : GameState.t) :
  (forall q, interrupts env acting_player number g q = false)
  \/ exists q, interrupts env acting_player number g q = true.
Proof.
  destruct (existsb (interrupts env acting_player number g) (seats_of g)) eqn:E.
  - right. apply existsb_exists in E as (q & _ & Hq). eauto.
  - left. intros q. destruct (interrupts env acting_player number g q) eqn:Hq;
      [|reflexivity].
    assert (H : existsb (interrupts env acting_player number g) (seats_of g) = true).
    { apply existsb_exists. exists q. split; [|exact Hq].
      apply interrupts_holds in Hq as (_ & _ & Hlt). unfold seats_of. apply in_seq. lia. }
    congruence.
Qed.

Lemma in_seats_left_of (acting_player q : nat) (g : GameState.t) :
  (acting_player < length (GameState.players g))%nat ->
  In q (seats_left_of acting_player g)
  <-> (q < length (GameState.players g))%nat /\ q <> acting_player.
Proof.
  intros Ha. unfold seats_left_of. rewrite in_app_iff, !in_seq. lia.
Qed.

(** X25.  On a table on which one seat at most holds the Hanged Man, the
    seats are offered the interrupt as by a scan that starts left of the
    acting seat and goes round the table: the loop of the code, which goes
    through the seats from seat 0 and passes over the acting seat and the
    folded seats, returns what that scan returns.  If no seat takes the
    interrupt the state is left as it was and the effect is applied.  If a
    seat [q] takes it, it is the only one to do so; the Hanged Man leaves
    the hand of [q] for the removed pile, the triggering trump follows it
    from the hand of the acting seat (when that seat holds it), and the
    turn goes on from that state without the handler having run. *)
Theorem hanged_man_interrupt_left_of_actor :
  forall (env : Env) (acting_player : nat) (t : TrionfiEffect.t) (g : GameState.t),
    let number := TrionfiEffect.number t in
    one_hanged_man g ->
    (acting_player < length (GameState.players g))%nat ->
    check_for_hanged_man_interrupt env acting_player t g
    = interrupt_scanning_left_of_actor env acting_player t g
    /\ ((forall q, interrupts env acting_player number g q = false) ->
        interrupt_scanning_left_of_actor env acting_player t g = Ok (false, g)
        /\ forall card h, get_trionfi_effect card = Some t ->
             TrionfiEffect.effect t = Some h ->
             play_trionfi_step env acting_player card g = apply_effect env t acting_player g)
    /\ (forall q,
          interrupts env acting_player number g q = true ->
          (forall q', interrupts env acting_player number g q' = true -> q' = q)
          /\ exists hq g',
               list_remove hanged_man_card (hand_of g q) = Ok hq
               /\ interrupt_scanning_left_of_actor env acting_player t g = Ok (true, g')
               /\ (card_in (trionfi_card number) (hand_of g acting_player) = true ->
                   exists ha,
                     list_remove (trionfi_card number) (hand_of g acting_player) = Ok ha
                     /\ g' = removed_append [trionfi_card number]
                               (set_hand_of acting_player ha
                                  (removed_append [hanged_man_card] (set_hand_of q hq g))))
               /\ (card_in (trionfi_card number) (hand_of g acting_player) = false ->
                   g' = removed_append [hanged_man_card] (set_hand_of q hq g))
               /\ (forall card h, get_trionfi_effect card = Some t ->
                     TrionfiEffect.effect t = Some h ->
                     play_trionfi_step env acting_player card g = Ok g')).
Proof.
  intros env acting_player t g number Hone Ha.
  assert (Hseats : forall q', In q' (seats_of g) ->
            (q' < length (GameState.players g))%nat)
    by (intros q' Hq'; unfold seats_of in Hq'; apply in_seq in Hq'; lia).
  assert (Hleft : forall q', In q' (seats_left_of acting_player g) ->
            (q' < length (GameState.players g))%nat)
    by (intros q' Hq'; now apply in_seats_left_of in Hq').
  assert (Huniq : forall q q', interrupts env acting_player number g q = true ->
            interrupts env acting_player number g q' = true -> q' = q).
  { intros q q' Hq Hq'. apply interrupts_holds in Hq as (Hq & _).
    apply interrupts_holds in Hq' as (Hq' & _). now apply Hone. }
  assert (Hcode : forall q, interrupts env acting_player number g q = true ->
            check_for_hanged_man_interrupt env acting_player t g
            = interrupt_by acting_player number q g).
  { intros q Hq. unfold check_for_hanged_man_interrupt. fold number.
    apply hanged_man_scan_any_order; auto.
    apply interrupts_holds in Hq as (_ & _ & Hlt). unfold seats_of. apply in_seq. lia. }
  assert (Hspec : forall q, interrupts env acting_player number g q = true ->
            interrupt_scanning_left_of_actor env acting_player t g
            = interrupt_by acting_player number q g).
  { intros q Hq. unfold interrupt_scanning_left_of_actor. fold number.
    apply hanged_man_scan_any_order; auto.
    apply interrupts_holds in Hq as (_ & Hne & Hlt). now apply in_seats_left_of. }
  assert (Hnocode : (forall q, interrupts env acting_player number g q = false) ->
            check_for_hanged_man_interrupt env acting_player t g = Ok (false, g))
    by (intros Hnone; now apply hanged_man_scan_none).
  assert (Hnospec : (forall q, interrupts env acting_player number g q = false) ->
            interrupt_scanning_left_of_actor env acting_player t g = Ok (false, g))
    by (intros Hnone; now apply hanged_man_scan_none).
  split; [|split].
  - destruct (interrupts_or_not env acting_player number g) as [Hnone|[q Hq]].
    + now rewrite Hnocode, Hnospec.
    + now rewrite (Hcode q Hq), (Hspec q Hq).
  - intros Hnone. split; [now apply Hnospec|].
    intros card h Hcard Hh. unfold play_trionfi_step.
    rewrite Hcard, Hh, (Hnocode Hnone). reflexivity.
  - intros q Hq. split; [intros q' Hq'; now apply (Huniq q q')|].
    pose proof (Hcode q Hq) as Hc. pose proof (Hspec q Hq) as Hs.
    pose proof Hq as Hq0. apply interrupts_holds in Hq0 as (Hheld & Hne & _).
    unfold holds_hanged_man in Hheld.
    destruct (list_remove_held _ _ Hheld) as [hq [Hhq _]].
    unfold interrupt_by in Hc, Hs. rewrite Hhq in Hc, Hs. cbn [bind] in Hc, Hs.
    set (g1 := removed_append [hanged_man_card] (set_hand_of q hq g)) in *.
    assert (Hha : hand_of g1 acting_player = hand_of g acting_player).
    { change (hand_of g1 acting_player)
        with (hand_of (set_hand_of q hq g) acting_player).
      apply hand_of_set_hand_of_ne. congruence. }
    destruct (move_to_removed_ok acting_player (trionfi_card number) g1)
      as [[Hno Hm] | [Hyes [ha [Hra Hm]]]]; rewrite Hha in *;
      rewrite Hm in Hc, Hs; cbn [bind] in Hc, Hs.
    + exists hq, g1. split; [exact Hhq|]. split; [exact Hs|].
      split; [congruence|]. split; [reflexivity|].
      intros card h Hcard Hh. unfold play_trionfi_step.
      rewrite Hcard, Hh, Hc. reflexivity.
    + exists hq, (removed_append [trionfi_card number] (set_hand_of acting_player ha g1)).
      split; [exact Hhq|]. split; [exact Hs|].
      split; [intros _; exists ha; split; [exact Hra | reflexivity]|].
      split; [congruence|].
      intros card h Hcard Hh. unfold play_trionfi_step.
      rewrite Hcard, Hh, Hc. reflexivity.
Qed.

Lemma the_dealt_table_one_hanged_man : one_hanged_man the_dealt_table.
Proof.
  intros [|[|[|q1]]] [|[|[|q2]]] H1 H2;
    solve [reflexivity | vm_compute in H1; discriminate | vm_compute in H2; discriminate].
Qed.

Lemma hanged_man_interrupt_left_of_actor_witness :
  exists hq g',
    list_remove hanged_man_card (hand_of the_dealt_table 2) = Ok hq
    /\ interrupt_scanning_left_of_actor nope_env 1 wheel_trionfi the_dealt_table
       = Ok (true, g')
    /\ check_for_hanged_man_interrupt nope_env 1 wheel_trionfi the_dealt_table
       = Ok (true, g')
    /\ play_trionfi_step nope_env 1 wheel_card the_dealt_table = Ok g'.
Proof.
  assert (H2 : interrupts nope_env 1 (TrionfiEffect.number wheel_trionfi)
                 the_dealt_table 2 = true) by (vm_compute; reflexivity).
  assert (Ha : (1 < length (GameState.players the_dealt_table))%nat)
    by (vm_compute; lia).
  destruct (hanged_man_interrupt_left_of_actor nope_env 1 wheel_trionfi
              the_dealt_table the_dealt_table_one_hanged_man Ha) as (Heq & _ & H).
  destruct (H 2%nat H2) as (_ & hq & g' & Hq & Hs & _ & _ & Hstep).
  exists hq, g'. split; [exact Hq|]. split; [exact Hs|].
  split; [rewrite Heq; exact Hs|].
  apply (Hstep wheel_card wheel_of_fortune_effect_h); reflexivity.
Defined.
